(* ===== verification/_CoqProject ===== *)
-Q . S2P
Prelude.v
Memory.v
Riscv.v
Hart.v
PageAlloc.v
FreeList.v
KallocSingle.v
KallocPerCpu.v
KallocConcurrent.v
Bcache.v
BcacheLinks.v
BcacheSpec.v
BcacheInv.v
BcacheThms.v
Vm.v
VmTree.v
VmWalk.v
VmMap.v
VmUser.v
VmUvm.v
VmFree.v
VmCopy.v
VmBytes.v
VmThms.v
VmWit.v
NewfsDisk.v
NewfsDiskThms.v
Newfs.v
NewfsLookup.v
NewfsAlloc.v
NewfsThms.v
NewfsTree.v
NewfsRemount.v
NewfsFuse.v
NewfsSpec.v
NewfsRefine.v
NewfsRefineOps.v
NewfsSession.v
NewfsMain.v
NewfsWit.v
Pipe.v
PipeThms.v
ProcState.v
Kernel2.v
Proc2.v
Syscall.v
Sysproc.v
Sysfile.v
SyscallTable.v
SyscallThms.v
FsLedger.v
SysfileView.v
SysfileThms.v
Refs2.v
Refs2Steps.v
SysfileMain.v
SysExecThms.v
Proc.v
ProcThms.v
ProcExit.v
ProcPost.v
ProcInv.v
ProcSys.v
ProcMain.v
Scheduler.v
ProcWit.v
VmProc.v
Exec.v
ExecThms.v
ExecFail.v
ExecWit.v
Syscall4.v
Syscall4Thms.v
Pingpong.v
Primes.v
Find.v
FindThms.v
Xargs.v
SysWit.v
