(* ===== verification/Prelude.v ===== *)
(** * Verification of the operating system course code

    The repository holds the author's solutions of five experiments: user programs
    for xv6 (experiment 1), system calls added to xv6 (2), per-CPU page
    allocation and a hashed buffer cache (3), a kernel page table per process (4), and
    a small ext2-like file system on FUSE (5). Below, E1 to E5 stand for the
    directories of the experiments under [src/]. Every experiment contains only
    the files the author changed; what those call and the repository does not hold
    is an interface here: a class of operations, and where theorems need it a
    class of laws that say what comments or documentation of that code promise.

    ** The model

    A C function is a Rocq function in the state-and-failure monad [M] defined
    below. A failure is a [panic], an access C leaves undefined ([Undefined]), a wait
    for a lock, a transaction or a pipe that nobody can end ([Blocked]), or a loop
    that used up the iterations it was given ([OutOfFuel]). [wp m s Q]: [m] returns
    from [s] and [Q] holds (total correctness); [safe m s Q] also admits a panic;
    [post m s Q] says only what holds if [m] returns. Integers are [Z], with [u8],
    [u32], [u64], [s16] and [s32] where C wraps around. Pointers are addresses in
    one array of bytes ([Memory]) for the kernel, and keys of finite maps for
    heap objects.

    ** Parts, files and sources

    - Prelude, Memory, Riscv: the monad, integers, memory, and the paging macros of
      E4 [kernel/riscv.h]. [Hart]: the accessors of the same header over an interface of
      instructions, the switches of interrupts and page tables, the current CPU; the
      laws of that interface, what follows, and a hart.
    - Page allocation. [PageAlloc] is the contract between allocators and clients, a
      class with a set of free pages as abstract state; [FreeList] the list
      threaded through free pages; [KallocSingle] E2 [kernel/kalloc.c];
      [KallocPerCpu] E3 [kernel/kalloc.c]; both are instances of the contract.
      [KallocConcurrent] interleaves critical sections of many threads.
    - Buffer cache, E3 [kernel/bio.c]. [Bcache] is the pointer code; [BcacheSpec] a
      specification on lists and the refinement; [BcacheInv] the invariants;
      [BcacheThms] the theorems and a small machine.
    - Virtual memory, E4 [kernel/vm.c]. [Vm] is the model over the allocator contract;
      [VmTree], [VmWalk], [VmMap] relate page-table memory to a map from virtual
      pages to entries; [VmUser], [VmUvm], [VmFree], [VmCopy], [VmBytes] treat address
      spaces, freeing, duplication and copies; [VmThms] the theorems, [VmWit] a machine.
    - Processes, E4 [kernel/proc.c] and [proc.h]. [Proc] is the model: the table,
      all locks, one CPU; a function runs from one context switch to the next.
      [ProcThms], [ProcExit], [ProcPost], [ProcInv], [ProcSys], [ProcMain] lead to the
      invariant of every reachable table; [VmProc] joins processes and page tables:
      the life of a process gives back every page. [Scheduler] is the loop of
      [scheduler] as a machine that takes turns with the processes. [ProcWit] a machine.
    - Program loading, E4 [kernel/exec.c]: [Exec], [ExecThms], [ExecFail], [ExecWit].
    - System calls, E4 [kernel/syscall.c]: [Syscall4], [Syscall4Thms].
    - Pipes, E4 [kernel/pipe.c]: [Pipe], [PipeThms].
    - The kernel of E2. [ProcState] and [Kernel2] hold the state and the interfaces;
      [Proc2] models [kernel/proc.c]; [Syscall] and [SyscallTable]
      [kernel/syscall.c]; [Sysproc] [kernel/sysproc.c]; [Sysfile] [kernel/sysfile.c].
      [FsLedger] states the rules of the file layer as laws on a ledger of
      transactions, locks and references. [SysfileView] and [SysfileThms] prove
      each file system call against them; [Refs2] and [Refs2Steps] lift this to the
      process table; [SysfileMain] to every run of the kernel. [SyscallThms]: dispatch,
      sleep and sysinfo; [SysExecThms]: the pages of sys_exec; [SysWit]: a machine.
    - File system, E5 [newfs/src/newfs.c] with [include/types.h]. [NewfsDisk] and
      [NewfsDiskThms]: structures and block transfers; [Newfs]: all operations on a
      heap of inodes and entries; [NewfsLookup], [NewfsAlloc]: directories as
      lists, paths, bitmaps; [NewfsThms]: each operation; [NewfsTree]: saving a whole
      tree; [NewfsRemount]: unmounting and mounting again. [NewfsFuse]: the table
      [operations], the requests FUSE answers with it, and [main]. [NewfsSpec] is an
      abstract file system with its own lookup and replies, and its invariant;
      [NewfsRefine] says when a heap represents it, and [NewfsRefineOps] proves it of
      every operation. [NewfsSession]: mounting a blank device, and from a represented
      state to a tree that can be saved; [NewfsMain]: the theorems on whole sessions;
      [NewfsWit]: a disk.
    - User programs of E1: [Primes] ([primes.c]); [Find] and [FindThms] ([find.c]);
      [Xargs] ([xargs.c]); [Pingpong] ([pingpong.c]): two processes on the pipes of
      [Pipe], with every schedule.

    ** What the theorems show

    A theorem whose comment starts with C and a number is a property of the program;
    most have a witness that applies them to a concrete state.
    - No page is lost, duplicated or used after it was freed: under any interleaving
      of allocator calls, by address space operations that fail half way, by
      sys_exec, and over the whole life of a process.
    - Address spaces: grow, copy, translate and copy in and out exactly as asked, byte
      for byte, or fail and leave what was there.
    - The buffer cache refines its list specification, and never caches a block
      twice; bread returns the block.
    - The process table: the invariant of every reachable state, progress, the effect
      of exit; in E2 in addition the references to files and inodes are balanced in
      every reachable state, and every file system call is safe and has its
      documented effect.
    - The scheduler is fair: a process that can run is switched to within one round.
    - Pipes are first-in first-out queues and lose no wakeup.
    - The file system, from formatting on, answers every sequence of allowed requests as
      its specification does, error codes included, and its heap stays a well-formed
      tree; after an unmount and a mount the root lists its entries, and its files hold
      what was written (those whose name no other one extends: the lookup of the code
      takes the first name that starts with the one asked for). Allowed are requests with paths shorter than the buffer of the
      code and names that fit, not through a regular file, at most 58 entries in a
      directory, and reads and writes inside the 8 blocks of a file: elsewhere the
      behaviour of the code is undefined. After a mount only the files of the root are
      covered, since the code follows a null pointer below directories that are not
      loaded. The device starts blank: without the magic number, bitmaps zero.
    - [kvminithart] makes [satp] name the table and leaves nothing stale; interrupts go on
      and off without touching anything else; [mycpu] stays inside its array.
    - User programs print what they should, and [find] always ends; the two processes
      of [pingpong] cannot deadlock.
    Some theorems describe defects of the code (kill(0), a failed exec, a killed
    pipe writer, an exhausted buffer cache).

    ** Bounds and fuel

    Loops that count through a range get the number of iterations from the range.
    [KallocSingle.infofreemem] gets the number of pages of RAM, which bounds the
    length of a free list. [walk], [freewalk] and their relatives recurse three
    levels. [bget]'s search of the other buckets gets a parameter, since with no
    free buffer the loop does not end for bucket 0, which is a theorem. [isdirempty]
    gets the size of the directory. [find] gets nested calls and reads; as many
    nested calls as the buffer has bytes are enough. Walks over lists of
    entries in [Newfs] get the number of objects in the heap. Each theorem about such a function says that it returns,
    unless its comment says otherwise.

    ** Not modelled

    - The FUSE library and the block device, which the repository only calls: arguments.
    - [defs.h], [user.h], [ddriver.h]: prototypes. The generated CMakeCCompilerId.c.
    - More than one CPU in the process models: other CPUs appear as steps of other
      processes between context switches. Lock order across CPUs is not covered.
    - Preemption inside a system call, apart from [KallocConcurrent], [Pipe]
      and [Pingpong], where it is explicit. *)

From stdpp Require Export base list gmap strings.
From Stdlib Require Export ZArith Lia Bool.

#[global] Open Scope Z_scope.

(** ** Machine integers

    A C integer of [w] bits is a [Z]; the wrap-around that C performs is
    written where the source performs it. *)

Definition u8 (x : Z) : Z := x mod 2 ^ 8.
Definition u32 (x : Z) : Z := x mod 2 ^ 32.
Definition u64 (x : Z) : Z := x mod 2 ^ 64.

(** Two's complement reading of the low 32 bits: the value of a C [int]. *)
Definition s32 (x : Z) : Z :=
  let y := u32 x in if y <? 2 ^ 31 then y else y - 2 ^ 32.

(** Two's complement reading of the low 16 bits: the value of a C [short]. *)
Definition s16 (x : Z) : Z :=
  let y := x mod 2 ^ 16 in if y <? 2 ^ 15 then y else y - 2 ^ 16.

Lemma u8_range x : 0 <= u8 x < 256.
Proof. apply Z.mod_pos_bound. lia. Qed.

Lemma u32_range x : 0 <= u32 x < 2 ^ 32.
Proof. apply Z.mod_pos_bound. lia. Qed.

Lemma u64_range x : 0 <= u64 x < 2 ^ 64.
Proof. apply Z.mod_pos_bound. lia. Qed.

Lemma u8_small x : 0 <= x < 256 -> u8 x = x.
Proof. apply Z.mod_small. Qed.

Lemma u32_small x : 0 <= x < 2 ^ 32 -> u32 x = x.
Proof. apply Z.mod_small. Qed.

Lemma u64_small x : 0 <= x < 2 ^ 64 -> u64 x = x.
Proof. apply Z.mod_small. Qed.

Lemma s32_small x : - 2 ^ 31 <= x < 2 ^ 31 -> s32 x = x.
Proof.
  intros H. unfold s32, u32.
  destruct (Z.lt_ge_cases x 0) as [Hn | Hp].
  - replace (x mod 2 ^ 32) with (x + 2 ^ 32).
    + destruct (Z.ltb_spec (x + 2 ^ 32) (2 ^ 31)); lia.
    + symmetry. rewrite <- (Z_mod_plus_full x 1 (2 ^ 32)).
      apply Z.mod_small. lia.
  - rewrite Z.mod_small by lia. destruct (Z.ltb_spec x (2 ^ 31)); lia.
Qed.

Lemma u32_add_l x y : u32 (u32 x + y) = u32 (x + y).
Proof. unfold u32. apply Zplus_mod_idemp_l. Qed.

Create HintDb word.
Create Rewrite HintDb word.
#[export] Hint Resolve u8_range u32_range u64_range : word.
#[export] Hint Rewrite u8_small u32_small u64_small s32_small using lia : word.

(** ** Computations that can fail

    [Panic] is the kernel's [panic(msg)]; [Undefined] is behaviour the C
    standard leaves undefined (a null dereference, a read of an object that was
    never written); [Blocked] means that the caller waits for a lock another
    thread holds; [OutOfFuel] is the model's own marker for a loop whose
    iteration bound was too small. *)

Inductive failure : Type :=
| Panic (msg : string)
| Undefined (msg : string)
| Blocked (msg : string)
| OutOfFuel.

Inductive outcome (A : Type) : Type :=
| Ok (a : A)
| Fail (f : failure).
Arguments Ok {A} a.
Arguments Fail {A} f.

#[export] Instance failure_eq_dec : EqDecision failure.
Proof. solve_decision. Defined.

#[export] Instance outcome_eq_dec A `{EqDecision A} : EqDecision (outcome A).
Proof. solve_decision. Defined.

(** The state-and-failure monad in which stateful C functions are written. *)
Definition M (S A : Type) : Type := S -> outcome (A * S).

#[export] Instance M_ret S : MRet (M S) := fun A a s => Ok (a, s).
#[export] Instance M_bind S : MBind (M S) := fun A B f m s =>
  match m s with
  | Ok (a, s') => f a s'
  | Fail e => Fail e
  end.

Definition get {S} : M S S := fun s => Ok (s, s).
Definition put {S} (s' : S) : M S unit := fun _ => Ok (tt, s').
Definition gets {S A} (f : S -> A) : M S A := fun s => Ok (f s, s).
Definition modify {S} (f : S -> S) : M S unit := fun s => Ok (tt, f s).
Definition fail {S A} (e : failure) : M S A := fun _ => Fail e.
Definition panic {S A} (msg : string) : M S A := fail (Panic msg).
Definition when {S} (b : bool) (m : M S unit) : M S unit :=
  if b then m else mret tt.

(** Total correctness: the computation returns, and its result and final state
    satisfy the postcondition. *)
Definition wp {S A} (m : M S A) (s : S) (Q : A -> S -> Prop) : Prop :=
  match m s with
  | Ok (a, s') => Q a s'
  | Fail _ => False
  end.

Section wp_rules.
Context {S : Type}.

Lemma wp_ret {A} (a : A) (s : S) (Q : A -> S -> Prop) :
  Q a s -> wp (mret a) s Q.
Proof. done. Qed.

Lemma wp_bind {A B} (m : M S A) (f : A -> M S B) s (Q : B -> S -> Prop) :
  wp m s (fun a s' => wp (f a) s' Q) -> wp (m ≫= f) s Q.
Proof. unfold wp, mbind, M_bind. destruct (m s) as [[a s']|]; done. Qed.

Lemma wp_bind_inv {A B} (m : M S A) (f : A -> M S B) s (Q : B -> S -> Prop) :
  wp (m ≫= f) s Q -> wp m s (fun a s' => wp (f a) s' Q).
Proof. unfold wp, mbind, M_bind. destruct (m s) as [[a s']|]; done. Qed.

Lemma wp_mono {A} (m : M S A) s (P Q : A -> S -> Prop) :
  wp m s P -> (forall a s', P a s' -> Q a s') -> wp m s Q.
Proof. unfold wp. destruct (m s) as [[a s']|]; eauto. Qed.

Lemma wp_Ok {A} (m : M S A) s (Q : A -> S -> Prop) a s' :
  m s = Ok (a, s') -> Q a s' -> wp m s Q.
Proof. unfold wp. intros -> HQ. exact HQ. Qed.

Lemma wp_bind_Ok {A B} (m : M S A) (f : A -> M S B) s a s' (Q : B -> S -> Prop) :
  m s = Ok (a, s') -> wp (f a) s' Q -> wp (m ≫= f) s Q.
Proof. intros Hm HQ. apply wp_bind. by eapply wp_Ok. Qed.

Lemma wp_elim {A} (m : M S A) s (Q : A -> S -> Prop) :
  wp m s Q -> exists a s', m s = Ok (a, s') /\ Q a s'.
Proof. unfold wp. destruct (m s) as [[a s']|]; [eauto | done]. Qed.

Lemma bind_Ok {A B} (m : M S A) (f : A -> M S B) s r :
  (m ≫= f) s = Ok r <-> exists a s', m s = Ok (a, s') /\ f a s' = Ok r.
Proof.
  unfold mbind, M_bind. destruct (m s) as [[a s']|e]; split.
  - eauto.
  - intros (? & ? & ? & ?). by simplify_eq.
  - done.
  - by intros (? & ? & ? & ?).
Qed.

Lemma bind_step {A B} (m : M S A) (f : A -> M S B) s a s' :
  m s = Ok (a, s') -> (m ≫= f) s = f a s'.
Proof. unfold mbind, M_bind. by intros ->. Qed.

Lemma bind_Fail {A B} (m : M S A) (f : A -> M S B) s e :
  m s = Fail e -> (m ≫= f) s = Fail e.
Proof. unfold mbind, M_bind. by intros ->. Qed.

(** Running the primitive actions. *)
Lemma bind_gets {A B} (g : S -> A) (f : A -> M S B) s : (gets g ≫= f) s = f (g s) s.
Proof. done. Qed.
Lemma bind_modify {B} (g : S -> S) (f : unit -> M S B) s : (modify g ≫= f) s = f tt (g s).
Proof. done. Qed.
Lemma bind_ret {A B} (a : A) (f : A -> M S B) s : (mret a ≫= f) s = f a s.
Proof. done. Qed.
Lemma bind_fail {A B} e (f : A -> M S B) s : (fail e ≫= f) s = Fail e.
Proof. done. Qed.
Lemma bind_assoc {A B C} (m : M S A) (f : A -> M S B) (g : B -> M S C) s :
  ((m ≫= f) ≫= g) s = (m ≫= fun x => f x ≫= g) s.
Proof. unfold mbind, M_bind. destruct (m s) as [[]|]; done. Qed.

Lemma bind_ext {A B} (m m' : M S A) (f g : A -> M S B) s :
  m s = m' s -> (forall a s', f a s' = g a s') -> (m ≫= f) s = (m' ≫= g) s.
Proof. unfold mbind, M_bind. intros -> Hf. destruct (m' s) as [[]|]; auto. Qed.

Lemma wp_bind_assoc {A B C} (m : M S A) (f : M S B) (g : B -> M S C) s Q :
  wp ((m;; f) ≫= g) s Q -> wp (m;; (f ≫= g)) s Q.
Proof. unfold wp, mbind, M_bind. by destruct (m s) as [[? ?]|]. Qed.

Lemma wp_get s (Q : S -> S -> Prop) : Q s s -> wp get s Q.
Proof. done. Qed.
Lemma wp_put s s' (Q : unit -> S -> Prop) : Q tt s' -> wp (put s') s Q.
Proof. done. Qed.
Lemma wp_gets {A} (f : S -> A) s (Q : A -> S -> Prop) :
  Q (f s) s -> wp (gets f) s Q.
Proof. done. Qed.
Lemma wp_modify (f : S -> S) s (Q : unit -> S -> Prop) :
  Q tt (f s) -> wp (modify f) s Q.
Proof. done. Qed.
End wp_rules.

(** Opens a [wp] goal down to the first call of another function. *)
Ltac wp_pure :=
  repeat (cbn beta; lazymatch goal with
  | |- wp (mbind _ _) _ _ => apply wp_bind
  | |- wp (mret _) _ _ => apply wp_ret
  | |- wp get _ _ => apply wp_get
  | |- wp (put _) _ _ => apply wp_put
  | |- wp (gets _) _ _ => apply wp_gets
  | |- wp (modify _) _ _ => apply wp_modify
  end); cbn beta.

(** Runs the primitive actions at the head of a computation in a hypothesis. *)
Ltac run_in H :=
  repeat (cbn beta iota in H; first
    [ rewrite bind_assoc in H | rewrite bind_gets in H | rewrite bind_modify in H
    | rewrite bind_ret in H | rewrite bind_fail in H ]); cbn beta iota in H.

(** Partial correctness: if the computation returns, the postcondition holds. *)
Definition post {S B} (m : M S B) (s : S) (Q : B -> S -> Prop) : Prop :=
  forall b s', m s = Ok (b, s') -> Q b s'.

Section rules.
Context {S : Type}.

Lemma post_bind {B C} (m : M S B) (f : B -> M S C) s Q :
  post m s (fun b s1 => post (f b) s1 Q) -> post (m ≫= f) s Q.
Proof. intros Hp c s' Hr. apply bind_Ok in Hr as (b & s1 & Hm & Hf). by apply (Hp b s1). Qed.

Lemma post_Ok {B} (m : M S B) s b s' Q : m s = Ok (b, s') -> Q b s' -> post m s Q.
Proof. intros Hm HQ b' s'' Hr. congruence. Qed.

Lemma post_bind_Ok {B C} (m : M S B) (f : B -> M S C) s b s' Q :
  m s = Ok (b, s') -> post (f b) s' Q -> post (m ≫= f) s Q.
Proof. intros Hm HQ. apply post_bind. by eapply post_Ok. Qed.

Lemma post_ret {B} (b : B) (s : S) (Q : B -> S -> Prop) : Q b s -> post (mret b) s Q.
Proof. intros HQ. by eapply post_Ok. Qed.

Lemma post_fail {B} e (s : S) (Q : B -> S -> Prop) : post (fail e) s Q.
Proof. intros b s' Hr. done. Qed.

Lemma post_any {B C} (m : M S B) (f : B -> M S C) s Q :
  (forall b s1, post (f b) s1 Q) -> post (m ≫= f) s Q.
Proof. intros Hf. apply post_bind. intros b s1 _. apply Hf. Qed.

Lemma post_and {B} (m : M S B) s (Q R : B -> S -> Prop) :
  post m s Q -> post m s R -> post m s (fun b s' => Q b s' /\ R b s').
Proof. intros HQ HR b s' Hm. split; auto. Qed.

Lemma post_mono {B} (m : M S B) s (Q R : B -> S -> Prop) :
  post m s Q -> (forall b s', Q b s' -> R b s') -> post m s R.
Proof. intros HQ HR b s' Hr. by apply HR, HQ. Qed.
End rules.

(** Partial correctness that allows only panics: the computation waits for nothing
    its caller holds and does nothing undefined. *)
Definition safe {S B} (m : M S B) (s : S) (Q : B -> S -> Prop) : Prop :=
  match m s with
  | Ok (b, s') => Q b s'
  | Fail (Panic _) => True
  | Fail _ => False
  end.

Section safe_rules.
Context {S : Type}.

Lemma safe_bind {B C} (m : M S B) (f : B -> M S C) s Q :
  safe m s (fun b s1 => safe (f b) s1 Q) -> safe (m ≫= f) s Q.
Proof. unfold safe, mbind, M_bind. by destruct (m s) as [[b s1]|[]]. Qed.

Lemma safe_ret {B} (b : B) (s : S) (Q : B -> S -> Prop) : Q b s -> safe (mret b) s Q.
Proof. done. Qed.

Lemma safe_panic {B} msg (s : S) (Q : B -> S -> Prop) : safe (panic msg) s Q.
Proof. done. Qed.

Lemma safe_mono {B} (m : M S B) s (Q R : B -> S -> Prop) :
  safe m s Q -> (forall b s', Q b s' -> R b s') -> safe m s R.
Proof. unfold safe. destruct (m s) as [[b s1]|[]]; auto. Qed.

Lemma safe_Ok {B} (m : M S B) s b s' (Q : B -> S -> Prop) : m s = Ok (b, s') -> Q b s' -> safe m s Q.
Proof. unfold safe. by intros ->. Qed.

Lemma safe_bind_Ok {B C} (m : M S B) (f : B -> M S C) s b s' Q :
  m s = Ok (b, s') -> safe (f b) s' Q -> safe (m ≫= f) s Q.
Proof. intros Hm HQ. apply safe_bind. by eapply safe_Ok. Qed.

Lemma safe_assoc {B C D} (m : M S B) (f : B -> M S C) (g : C -> M S D) s Q :
  safe (m ≫= fun x => f x ≫= g) s Q -> safe ((m ≫= f) ≫= g) s Q.
Proof. unfold safe. by rewrite bind_assoc. Qed.

Lemma wp_safe {B} (m : M S B) s (Q : B -> S -> Prop) : wp m s Q -> safe m s Q.
Proof. unfold wp, safe. by destruct (m s) as [[b s1]|]. Qed.

Lemma safe_post {B} (m : M S B) s (Q : B -> S -> Prop) : safe m s Q -> post m s Q.
Proof. unfold safe. intros HQ b s' Hm. by rewrite Hm in HQ. Qed.
End safe_rules.

(** ** Lists and integers shared by the components *)

Lemma Forall2_same_length {A B} (P : A -> B -> Prop) l k :
  Forall2 P l k -> length l = length k.
Proof. apply Forall2_length. Qed.

Lemma list_insert_self {A} (l : list A) i x :
  l !! i = Some x -> <[i := x]> l = l.
Proof. apply list_insert_id. Qed.

Lemma elem_of_concat {A} (ls : list (list A)) x :
  x ∈ concat ls <-> exists l, l ∈ ls /\ x ∈ l.
Proof.
  rewrite list_elem_of_In, in_concat. setoid_rewrite list_elem_of_In. done.
Qed.

Lemma elem_of_rev {A} (l : list A) x : x ∈ rev l <-> x ∈ l.
Proof. rewrite !list_elem_of_In. symmetry. apply in_rev. Qed.

Lemma list_alter_lookup {A} (f : A -> A) (l : list A) i x :
  l !! i = Some x -> alter f i l = <[i := f x]> l.
Proof.
  revert i. induction l as [|y l IH]; intros [|i] Hi; simplify_eq/=; [done|].
  f_equal. by apply IH.
Qed.

(** Taking the head off one of the lists takes one element off the whole. *)
Lemma concat_pop {A} (ls : list (list A)) i x l :
  ls !! i = Some (x :: l) -> concat ls ≡ₚ x :: concat (<[i := l]> ls).
Proof.
  revert i. induction ls as [|k ls IH]; intros [|i] Hi; simplify_eq/=; [done|].
  rewrite (IH i Hi). rewrite Permutation_middle. done.
Qed.

(** Pushing in front of one of the lists adds one element to the whole. *)
Lemma concat_push {A} (ls : list (list A)) i x l :
  ls !! i = Some l -> concat (<[i := x :: l]> ls) ≡ₚ x :: concat ls.
Proof.
  revert i. induction ls as [|k ls IH]; intros [|i] Hi; simplify_eq/=; [done|].
  rewrite (IH i Hi). rewrite <- Permutation_middle. done.
Qed.

Lemma concat_all_nil {A} (ls : list (list A)) :
  (forall i l, ls !! i = Some l -> l = []) -> concat ls = [].
Proof.
  induction ls as [|k ls IH]; intros Hall; [done|]. cbn.
  rewrite (Hall 0%nat k eq_refl). cbn. apply IH. intros i l. apply (Hall (S i)).
Qed.

(** Boolean tests of the source, turned into the propositions they decide. *)
Ltac bool_to_prop :=
  repeat match goal with
  | H : (_ && _)%bool = true |- _ => apply andb_true_iff in H as [? ?]
  | H : (_ || _)%bool = false |- _ => apply orb_false_iff in H as [? ?]
  | H : negb _ = true |- _ => apply negb_true_iff in H
  | H : negb _ = false |- _ => apply negb_false_iff in H
  | H : (_ =? _) = true |- _ => apply Z.eqb_eq in H
  | H : (_ =? _) = false |- _ => apply Z.eqb_neq in H
  | H : (_ <? _) = true |- _ => apply Z.ltb_lt in H
  | H : (_ <? _) = false |- _ => apply Z.ltb_ge in H
  | H : (_ <=? _) = true |- _ => apply Z.leb_le in H
  | H : (_ <=? _) = false |- _ => apply Z.leb_gt in H
  end.

(** Case analysis on the first boolean comparison in the goal. *)
Ltac case_bool :=
  match goal with
  | |- context [if ?b then _ else _] =>
      let E := fresh "E" in destruct b eqn:E; bool_to_prop
  end.

(** ** Prefixes of lists, for arrays that are filled from the front *)
Section prefixes.
Context {A : Type}.
Implicit Types pre l : list A.

Lemma prefix_lookup_at pre l x i : (pre ++ [x]) `prefix_of` l -> i = length pre -> l !! i = Some x.
Proof.
  intros [g ->] ->. rewrite <- app_assoc. by apply list_lookup_middle.
Qed.

Lemma prefix_set_beyond pre l i x : pre `prefix_of` l -> (length pre <= i)%nat -> pre `prefix_of` <[i := x]> l.
Proof. intros [g ->] Hi. rewrite insert_app_r_alt by done. by eexists. Qed.

Lemma prefix_set_at pre l x :
  pre `prefix_of` l -> (length pre < length l)%nat -> (pre ++ [x]) `prefix_of` <[length pre := x]> l.
Proof.
  intros [g ->] Hl. rewrite length_app in Hl. destruct g as [|y g]; [cbn in Hl; lia|].
  rewrite insert_app_r_alt, Nat.sub_diag by done. cbn. exists g. by rewrite <- app_assoc.
Qed.

Lemma Forall_filter (P Q : A -> Prop) `{forall x, Decision (Q x)} l : Forall P l -> Forall P (filter Q l).
Proof. rewrite !Forall_forall. intros HP x [_ Hx]%list_elem_of_filter. by apply HP. Qed.
End prefixes.
