(* ===== verification/Memory.v ===== *)
(** * Physical memory

    The kernel addresses physical memory directly, so page-table entries, the
    links of the free list and user data all live in one array of bytes.
    Memory is a function from addresses to cells of which a read sees the low
    eight bits; multi-byte objects are little-endian, as on RISC-V. *)

From S2P Require Import Prelude.

Definition mem : Type := Z -> Z.

Definition ld8 (m : mem) (a : Z) : Z := u8 (m a).

Definition st8 (m : mem) (a v : Z) : mem :=
  fun x => if x =? a then u8 v else m x.

(** Little-endian load of [n] bytes. *)
Fixpoint ld_le (n : nat) (m : mem) (a : Z) : Z :=
  match n with
  | O => 0
  | S n' => ld8 m a + 256 * ld_le n' m (a + 1)
  end.

(** Little-endian store of [n] bytes: one update of the whole range. *)
Definition st_le (n : nat) (m : mem) (a v : Z) : mem :=
  fun x => if (a <=? x) && (x <? a + Z.of_nat n)
           then u8 (v / 256 ^ (x - a)) else m x.

Definition ld64 (m : mem) (a : Z) : Z := ld_le 8 m a.
Definition st64 (m : mem) (a v : Z) : mem := st_le 8 m a v.
Definition ld32 (m : mem) (a : Z) : Z := ld_le 4 m a.
Definition st32 (m : mem) (a v : Z) : mem := st_le 4 m a v.
Arguments ld64 : simpl never.
Arguments st64 : simpl never.
Arguments ld32 : simpl never.
Arguments st32 : simpl never.

(** [memset(a, c, n)] and [memmove(dst, src, n)]. [memmove] reads the source
    before it writes, which is what the overlapping-safe C function promises. *)
Definition memset (m : mem) (a c n : Z) : mem :=
  fun x => if (a <=? x) && (x <? a + n) then u8 c else m x.

Arguments memset : simpl never.

Definition memmove (m : mem) (dst src n : Z) : mem :=
  fun x => if (dst <=? x) && (x <? dst + n) then m (src + (x - dst)) else m x.

Arguments memmove : simpl never.

(** The bytes of a range, and the write of a byte list. *)
Definition ld_bytes (m : mem) (a : Z) (n : nat) : list Z :=
  map (fun i => ld8 m (a + Z.of_nat i)) (seq 0 n).

Definition st_bytes (m : mem) (a : Z) (bs : list Z) : mem :=
  fun x => if (a <=? x) && (x <? a + Z.of_nat (length bs))
           then u8 (nth (Z.to_nat (x - a)) bs 0) else m x.

(** Two memories agree on a set of addresses. *)
Definition agree (P : Z -> Prop) (m m' : mem) : Prop :=
  forall a, P a -> ld8 m' a = ld8 m a.

Lemma ld8_range m a : 0 <= ld8 m a < 256.
Proof. apply u8_range. Qed.

Lemma u8_idemp x : u8 (u8 x) = u8 x.
Proof. unfold u8. apply Z.mod_mod. lia. Qed.

Lemma ld8_st8_eq m a v : ld8 (st8 m a v) a = u8 v.
Proof. unfold ld8, st8. rewrite Z.eqb_refl. apply u8_idemp. Qed.

Lemma ld8_st8_ne m a b v : a <> b -> ld8 (st8 m a v) b = ld8 m b.
Proof. unfold ld8, st8. intros H. destruct (Z.eqb_spec b a); [lia | done]. Qed.

Lemma ld8_memset_in m a c n x : a <= x < a + n -> ld8 (memset m a c n) x = u8 c.
Proof.
  intros H. unfold ld8, memset.
  destruct (Z.leb_spec a x), (Z.ltb_spec x (a + n)); try lia. apply u8_idemp.
Qed.

Lemma ld8_memset_out m a c n x :
  ~ (a <= x < a + n) -> ld8 (memset m a c n) x = ld8 m x.
Proof.
  intros H. unfold ld8, memset.
  destruct (Z.leb_spec a x), (Z.ltb_spec x (a + n)); try done. lia.
Qed.

Lemma ld8_memmove_in m d s n x :
  d <= x < d + n -> ld8 (memmove m d s n) x = ld8 m (s + (x - d)).
Proof.
  intros H. unfold ld8, memmove.
  destruct (Z.leb_spec d x), (Z.ltb_spec x (d + n)); try lia. done.
Qed.

Lemma ld8_memmove_out m d s n x :
  ~ (d <= x < d + n) -> ld8 (memmove m d s n) x = ld8 m x.
Proof.
  intros H. unfold ld8, memmove.
  destruct (Z.leb_spec d x), (Z.ltb_spec x (d + n)); try done. lia.
Qed.

Lemma ld8_st_le_out n m a v x :
  ~ (a <= x < a + Z.of_nat n) -> ld8 (st_le n m a v) x = ld8 m x.
Proof.
  intros H. unfold ld8, st_le.
  destruct (Z.leb_spec a x), (Z.ltb_spec x (a + Z.of_nat n)); try done. lia.
Qed.

Lemma ld8_st_le_in n m a v i :
  0 <= i < Z.of_nat n -> ld8 (st_le n m a v) (a + i) = u8 (v / 256 ^ i).
Proof.
  intros H. unfold ld8, st_le.
  destruct (Z.leb_spec a (a + i)), (Z.ltb_spec (a + i) (a + Z.of_nat n)); try lia.
  cbn. rewrite u8_idemp. do 3 f_equal. lia.
Qed.

Lemma ld8_st_bytes_in m a bs i b :
  bs !! i = Some b -> ld8 (st_bytes m a bs) (a + Z.of_nat i) = u8 b.
Proof.
  intros H. pose proof (lookup_lt_Some _ _ _ H) as Hlt.
  unfold ld8, st_bytes.
  destruct (Z.leb_spec a (a + Z.of_nat i)),
    (Z.ltb_spec (a + Z.of_nat i) (a + Z.of_nat (length bs))); try lia.
  cbn. rewrite u8_idemp. f_equal.
  replace (Z.to_nat (a + Z.of_nat i - a)) with i by lia.
  by rewrite nth_lookup, H.
Qed.

Lemma ld8_st_bytes_out m a bs x :
  ~ (a <= x < a + Z.of_nat (length bs)) -> ld8 (st_bytes m a bs) x = ld8 m x.
Proof.
  intros H. unfold ld8, st_bytes.
  destruct (Z.leb_spec a x), (Z.ltb_spec x (a + Z.of_nat (length bs))); try done.
  lia.
Qed.

Lemma ld_le_range n m a : 0 <= ld_le n m a < 256 ^ Z.of_nat n.
Proof.
  revert a. induction n as [|n IH]; intros a; [simpl; lia|].
  cbn [ld_le]. rewrite Nat2Z.inj_succ, Z.pow_succ_r by lia.
  pose proof (IH (a + 1)). pose proof (ld8_range m a). nia.
Qed.

Lemma ld64_range m a : 0 <= ld64 m a < 2 ^ 64.
Proof. apply (ld_le_range 8 m a). Qed.

(** A load depends only on the bytes it reads. *)
Lemma ld_le_agree n m m' a :
  (forall x, a <= x < a + Z.of_nat n -> ld8 m' x = ld8 m x) ->
  ld_le n m' a = ld_le n m a.
Proof.
  revert a. induction n as [|n IH]; intros a H; [done|].
  cbn [ld_le]. rewrite H by lia. rewrite IH; [done|].
  intros x Hx. apply H. lia.
Qed.

Lemma ld64_agree m m' a :
  (forall x, a <= x < a + 8 -> ld8 m' x = ld8 m x) -> ld64 m' a = ld64 m a.
Proof. intros H. apply ld_le_agree. exact H. Qed.

(** Reading back what was stored gives the value modulo the width. *)
Lemma ld_le_digits n m a v :
  (forall i, 0 <= i < Z.of_nat n -> ld8 m (a + i) = u8 (v / 256 ^ i)) ->
  ld_le n m a = v mod 256 ^ Z.of_nat n.
Proof.
  revert a v. induction n as [|n IH]; intros a v H.
  - cbn [ld_le]. by rewrite Z.mod_1_r.
  - cbn [ld_le]. rewrite (IH (a + 1) (v / 256)).
    + rewrite <- (Z.add_0_r a) at 1. rewrite H by lia.
      rewrite Z.pow_0_r, Z.div_1_r. unfold u8. change (2 ^ 8) with 256.
      rewrite Nat2Z.inj_succ, Z.pow_succ_r by lia.
      rewrite Z.rem_mul_r by (try lia; apply Z.pow_nonzero; lia). done.
    + intros i Hi. replace (a + 1 + i) with (a + (i + 1)) by lia.
      rewrite H by lia. f_equal.
      rewrite Z.add_comm, Z.pow_add_r, Z.div_div by (try lia; apply Z.pow_pos_nonneg; lia).
      done.
Qed.

Lemma ld_st_le n m a v : ld_le n (st_le n m a v) a = v mod 256 ^ Z.of_nat n.
Proof. apply ld_le_digits. intros i Hi. by apply ld8_st_le_in. Qed.

Lemma ld_st64 m a v : 0 <= v < 2 ^ 64 -> ld64 (st64 m a v) a = v.
Proof.
  intros H. unfold ld64, st64. rewrite ld_st_le. apply Z.mod_small. exact H.
Qed.

Lemma ld64_st64_ne m a b v :
  a + 8 <= b \/ b + 8 <= a -> ld64 (st64 m a v) b = ld64 m b.
Proof.
  intros H. apply ld64_agree. intros x Hx. apply ld8_st_le_out. lia.
Qed.

Lemma ld64_memset0 m a n x : a <= x -> x + 8 <= a + n -> ld64 (memset m a 0 n) x = 0.
Proof.
  intros H1 H2. unfold ld64. rewrite (ld_le_digits 8 _ x 0); [done|].
  intros i Hi. rewrite ld8_memset_in by lia. by rewrite Zdiv_0_l.
Qed.

Lemma ld_bytes_length m a n : length (ld_bytes m a n) = n.
Proof. unfold ld_bytes. by rewrite length_map, length_seq. Qed.

Lemma ld_bytes_lookup m a n i :
  (i < n)%nat -> ld_bytes m a n !! i = Some (ld8 m (a + Z.of_nat i)).
Proof.
  intros H. unfold ld_bytes. rewrite list_lookup_fmap, lookup_seq_lt by lia.
  done.
Qed.

(** Bytes written by [st_bytes] are read back. *)
Lemma ld_st_bytes m a bs :
  Forall (fun b => 0 <= b < 256) bs ->
  ld_bytes (st_bytes m a bs) a (length bs) = bs.
Proof.
  intros H. apply list_eq. intros i.
  destruct (decide (i < length bs)%nat) as [Hi|Hi].
  - destruct (lookup_lt_is_Some_2 bs i Hi) as [b Hb].
    rewrite ld_bytes_lookup by done. rewrite (ld8_st_bytes_in _ _ _ _ _ Hb), Hb.
    f_equal. apply u8_small. by eapply Forall_lookup_1 in H.
  - rewrite !lookup_ge_None_2; [done | lia |]. rewrite ld_bytes_length. lia.
Qed.

Create HintDb mem.
#[export] Hint Resolve ld8_range ld64_range : mem.
