(* ===== verification/Riscv.v ===== *)
(** * RISC-V paging constants and macros

    The macros of [riscv.h] (page rounding, Sv39 page-table entries, the three
    9-bit indices of a virtual address) and the address-space constants the
    kernel takes from [memlayout.h], [param.h] and the linker script, which are
    not part of the repository and therefore parameters. *)

From S2P Require Import Prelude.

Definition PGSIZE : Z := 4096.
Definition PGSHIFT : Z := 12.

(** [((sz)+PGSIZE-1) & ~(PGSIZE-1)] on a [uint64]. *)
Definition PGROUNDUP (sz : Z) : Z :=
  Z.land (u64 (sz + PGSIZE - 1)) (Z.lnot (PGSIZE - 1)).
Definition PGROUNDDOWN (a : Z) : Z := Z.land a (Z.lnot (PGSIZE - 1)).

Definition PTE_V : Z := Z.shiftl 1 0.
Definition PTE_R : Z := Z.shiftl 1 1.
Definition PTE_W : Z := Z.shiftl 1 2.
Definition PTE_X : Z := Z.shiftl 1 3.
Definition PTE_U : Z := Z.shiftl 1 4.

Definition PA2PTE (pa : Z) : Z := Z.shiftl (Z.shiftr pa 12) 10.
Definition PTE2PA (pte : Z) : Z := u64 (Z.shiftl (Z.shiftr pte 10) 12).
Definition PTE_FLAGS (pte : Z) : Z := Z.land pte 0x3FF.

Definition PXMASK : Z := 0x1FF.
Definition PXSHIFT (level : Z) : Z := PGSHIFT + 9 * level.
Definition PX (level va : Z) : Z := Z.land (Z.shiftr va (PXSHIFT level)) PXMASK.

Definition MAXVA : Z := Z.shiftl 1 (9 + 9 + 9 + 12 - 1).

Definition SATP_SV39 : Z := Z.shiftl 8 60.
Definition MAKE_SATP (pagetable : Z) : Z := Z.lor SATP_SV39 (Z.shiftr pagetable 12).

(** The address-space constants of the headers that are not in the repository,
    and the symbols the linker script defines. *)
Class MemLayout : Type := {
  KERNBASE : Z;
  PHYSTOP : Z;
  UART0 : Z;
  VIRTIO0 : Z;
  CLINT : Z;
  PLIC : Z;
  end_ : Z;
  etext : Z;
  trampoline : Z;
}.

(** [TRAMPOLINE], [TRAPFRAME] and [KSTACK] as [memlayout.h] documents them: the
    two highest pages below [MAXVA], and the kernel stacks below those, each
    followed by an invalid guard page. *)
Definition TRAMPOLINE : Z := MAXVA - PGSIZE.
Definition TRAPFRAME : Z := TRAMPOLINE - PGSIZE.
Definition KSTACK (p : Z) : Z := TRAMPOLINE - (p + 1) * 2 * PGSIZE.

(** What the kernel relies on: RAM starts above address zero, ends below the
    [2^56] bytes a page-table entry can address, and device and kernel
    addresses are ordered as on the qemu [virt] machine. *)
Class MemLayoutOk `{MemLayout} : Prop := {
  end_pos : 0 < end_;
  phystop_range : end_ <= PHYSTOP < 2 ^ 56;
}.

(** The memory map of the qemu [virt] machine used by the project, with a kernel
    image of 128 KiB and [n] pages of RAM after it: the instance on which the
    witnesses evaluate. *)
Definition virt_layout (n : Z) : MemLayout := {|
  KERNBASE := 0x80000000;
  PHYSTOP := 0x80020000 + n * PGSIZE;
  UART0 := 0x10000000;
  VIRTIO0 := 0x10001000;
  CLINT := 0x2000000;
  PLIC := 0xC000000;
  end_ := 0x80020000;
  etext := 0x80008000;
  trampoline := 0x80007000;
|}.

Lemma virt_layout_ok n : 0 <= n <= 2 ^ 20 -> @MemLayoutOk (virt_layout n).
Proof. intros H. constructor; unfold end_, PHYSTOP, virt_layout, PGSIZE; lia. Qed.

(** ** Rounding to pages *)

Lemma land_lnot_pow2 a k : 0 <= k -> Z.land a (Z.lnot (2 ^ k - 1)) = a - a mod 2 ^ k.
Proof.
  intros Hk. replace (2 ^ k - 1) with (Z.ones k) by (rewrite Z.ones_equiv; lia).
  rewrite <- Z.ldiff_land, Z.ldiff_ones_r by lia.
  rewrite Z.shiftl_mul_pow2, Z.shiftr_div_pow2 by lia.
  pose proof (Z.div_mod a (2 ^ k)). lia.
Qed.

Lemma PGROUNDDOWN_spec a : PGROUNDDOWN a = a - a mod PGSIZE.
Proof. apply (land_lnot_pow2 a 12). lia. Qed.

Lemma PGROUNDUP_mod sz :
  PGROUNDUP sz = u64 (sz + PGSIZE - 1) - u64 (sz + PGSIZE - 1) mod PGSIZE.
Proof. apply (land_lnot_pow2 _ 12). lia. Qed.

(** For a size whose rounding does not overflow, the rounding is the least
    multiple of the page size that is not below it. *)
Lemma PGROUNDUP_spec sz :
  0 <= sz -> sz + PGSIZE - 1 < 2 ^ 64 ->
  PGROUNDUP sz = (sz + PGSIZE - 1) / PGSIZE * PGSIZE.
Proof.
  intros H0 H1. rewrite PGROUNDUP_mod, u64_small by (unfold PGSIZE in *; lia).
  pose proof (Z.div_mod (sz + PGSIZE - 1) PGSIZE). unfold PGSIZE in *. lia.
Qed.

Lemma PGROUNDUP_bounds sz :
  0 <= sz -> sz + PGSIZE - 1 < 2 ^ 64 ->
  sz <= PGROUNDUP sz < sz + PGSIZE /\ PGROUNDUP sz mod PGSIZE = 0.
Proof.
  intros H0 H1. rewrite PGROUNDUP_spec by done. unfold PGSIZE in *.
  rewrite Z.mod_mul by lia. pose proof (Z.div_mod (sz + 4096 - 1) 4096).
  pose proof (Z.mod_pos_bound (sz + 4096 - 1) 4096). lia.
Qed.

Lemma PGROUNDUP_aligned sz :
  0 <= sz -> sz < 2 ^ 64 -> sz mod PGSIZE = 0 -> PGROUNDUP sz = sz.
Proof.
  unfold PGSIZE. intros H0 H1 Hm.
  assert (sz <= 2 ^ 64 - 4096) by (pose proof (Z.div_mod sz 4096); lia).
  rewrite PGROUNDUP_spec by (unfold PGSIZE; lia). unfold PGSIZE.
  rewrite (Z.div_mod sz 4096) at 1 by lia. rewrite Hm.
  replace (4096 * (sz / 4096) + 0 + 4096 - 1) with (4095 + (sz / 4096) * 4096) by lia.
  rewrite Z.div_add by lia. change (4095 / 4096) with 0.
  pose proof (Z.div_mod sz 4096). lia.
Qed.

(** ** Page-table entries *)

Lemma PA2PTE_aligned pa : 0 <= pa -> pa mod PGSIZE = 0 -> PA2PTE pa = pa / 4.
Proof.
  intros H0 Hm. unfold PA2PTE, PGSIZE in *.
  rewrite Z.shiftl_mul_pow2, Z.shiftr_div_pow2 by lia.
  change (2 ^ 12) with 4096. change (2 ^ 10) with 1024.
  pose proof (Z.div_mod pa 4096). rewrite Hm in *.
  replace pa with (pa / 4096 * 1024 * 4) at 2 by lia. rewrite Z.div_mul; lia.
Qed.

Lemma PA2PTE_range pa : 0 <= pa < 2 ^ 56 -> 0 <= PA2PTE pa < 2 ^ 54.
Proof.
  intros H. unfold PA2PTE. rewrite Z.shiftl_mul_pow2, Z.shiftr_div_pow2 by lia.
  assert (0 <= pa / 2 ^ 12 < 2 ^ 44) by (split; [apply Z.div_pos; lia | apply Z.div_lt_upper_bound; lia]).
  lia.
Qed.

(** The low ten bits of [PA2PTE pa] are zero, so or-ing in flags is addition. *)
Lemma PA2PTE_lor_flags pa f :
  0 <= f < 1024 -> Z.lor (PA2PTE pa) f = PA2PTE pa + f.
Proof.
  intros Hf. symmetry. rewrite Z.add_nocarry_lxor, Z.lxor_lor; [done| |].
  all: unfold PA2PTE; apply Z.bits_inj'; intros i Hi;
    rewrite Z.land_spec, Z.bits_0, Z.shiftl_spec by lia;
    destruct (Z.lt_ge_cases i 10);
    [ rewrite (Z.testbit_neg_r _ (i - 10)) by lia; done
    | rewrite (Z.bits_above_log2 f i), andb_false_r; [done | lia |] ].
  all: destruct (Z.eq_dec f 0) as [->|]; [cbn; lia|];
    apply Z.log2_lt_pow2; [lia|]; apply Z.lt_le_trans with (2 ^ 10); [lia|];
    apply Z.pow_le_mono_r; lia.
Qed.

(** A page-table entry built from an aligned physical address and flags gives
    both back: the round trip every page-table walk relies on. *)
Lemma PTE2PA_mk pa f :
  0 <= pa < 2 ^ 56 -> pa mod PGSIZE = 0 -> 0 <= f < 1024 ->
  PTE2PA (Z.lor (PA2PTE pa) f) = pa.
Proof.
  intros Hp Hm Hf. rewrite PA2PTE_lor_flags, PA2PTE_aligned by lia.
  unfold PTE2PA, PGSIZE in *.
  rewrite Z.shiftl_mul_pow2, Z.shiftr_div_pow2 by lia.
  pose proof (Z.div_mod pa 4096). rewrite Hm in *.
  replace (pa / 4) with (pa / 4096 * 1024).
  2:{ replace pa with (pa / 4096 * 1024 * 4) at 2 by lia. rewrite Z.div_mul; lia. }
  change (2 ^ 10) with 1024. rewrite Z.div_add_l by lia.
  rewrite (Z.div_small f) by lia. rewrite u64_small; lia.
Qed.

Lemma PTE_FLAGS_mk pa f :
  0 <= f < 1024 -> PTE_FLAGS (Z.lor (PA2PTE pa) f) = f.
Proof.
  intros Hf. rewrite PA2PTE_lor_flags by lia. unfold PTE_FLAGS, PA2PTE.
  change 0x3FF with (Z.ones 10). rewrite Z.land_ones, Z.shiftl_mul_pow2 by lia.
  rewrite Z.add_comm, Z.mod_add by lia. apply Z.mod_small. lia.
Qed.

(** Every test of a flag looks only at the low ten bits. *)
Lemma land_flags pte f : 0 <= f < 1024 -> Z.land pte f = Z.land (PTE_FLAGS pte) f.
Proof.
  intros Hf. unfold PTE_FLAGS. rewrite <- Z.land_assoc. f_equal.
  change 0x3FF with (Z.ones 10). rewrite Z.land_comm, Z.land_ones by lia.
  symmetry. apply Z.mod_small. lia.
Qed.

Lemma PTE_FLAGS_range pte : 0 <= PTE_FLAGS pte < 1024.
Proof.
  unfold PTE_FLAGS. change 0x3FF with (Z.ones 10). rewrite Z.land_ones by lia.
  apply Z.mod_pos_bound. lia.
Qed.

Lemma PTE2PA_aligned pte : PTE2PA pte mod PGSIZE = 0.
Proof.
  unfold PTE2PA, u64, PGSIZE. rewrite Z.shiftl_mul_pow2 by lia.
  change (2 ^ 64) with (2 ^ 52 * 2 ^ 12). rewrite Z.mul_mod_distr_r by lia.
  apply Z.mod_mul. lia.
Qed.

(** ** Virtual addresses *)

Lemma PX_range l va : 0 <= PX l va < 512.
Proof.
  unfold PX, PXMASK. change 0x1FF with (Z.ones 9). rewrite Z.land_ones by lia.
  apply Z.mod_pos_bound. lia.
Qed.

Lemma PX_div l va : 0 <= l -> PX l va = va / 2 ^ (12 + 9 * l) mod 512.
Proof.
  intros Hl. unfold PX, PXMASK, PXSHIFT, PGSHIFT. change 0x1FF with (Z.ones 9).
  rewrite Z.land_ones, Z.shiftr_div_pow2 by lia. done.
Qed.

(** A virtual page below [MAXVA] is determined by its three indices. *)
Lemma PX_split va :
  0 <= va < MAXVA ->
  va / PGSIZE = (PX 2 va * 512 + PX 1 va) * 512 + PX 0 va.
Proof.
  intros H. rewrite !PX_div by lia. unfold MAXVA, PGSIZE in *.
  change (Z.shiftl 1 (9 + 9 + 9 + 12 - 1)) with (2 ^ 38) in H.
  change (12 + 9 * 2) with 30. change (12 + 9 * 1) with 21. change (12 + 9 * 0) with 12.
  change (2 ^ 12) with 4096.
  replace (2 ^ 21) with (4096 * 512) by lia.
  replace (2 ^ 30) with (4096 * 512 * 512) by lia.
  rewrite <- !Z.div_div by lia. set (v := va / 4096).
  assert (0 <= v < 2 ^ 26) by (subst v; split; [apply Z.div_pos; lia | apply Z.div_lt_upper_bound; lia]).
  assert (0 <= v / 512 / 512 < 512) by
    (split; [repeat apply Z.div_pos; lia | repeat apply Z.div_lt_upper_bound; lia]).
  rewrite (Z.mod_small (v / 512 / 512)) by lia.
  pose proof (Z.div_mod v 512). pose proof (Z.div_mod (v / 512) 512). lia.
Qed.

Lemma PX_inj va vb :
  0 <= va < MAXVA -> 0 <= vb < MAXVA ->
  PX 2 va = PX 2 vb -> PX 1 va = PX 1 vb -> PX 0 va = PX 0 vb ->
  va / PGSIZE = vb / PGSIZE.
Proof. intros Ha Hb E2 E1 E0. rewrite (PX_split va), (PX_split vb); congruence. Qed.

Lemma PX_page l va vb :
  0 <= l -> va / PGSIZE = vb / PGSIZE -> PX l va = PX l vb.
Proof.
  intros Hl E. rewrite !PX_div by done. unfold PGSIZE in E.
  rewrite Z.pow_add_r by lia. change (2 ^ 12) with 4096.
  rewrite <- !Z.div_div by (try lia; apply Z.pow_pos_nonneg; lia). by rewrite E.
Qed.

#[export] Hint Resolve PX_range PTE_FLAGS_range PTE2PA_aligned : word.
