(* ===== verification/Hart.v ===== *)
(** * The hart: control registers, interrupts and the switch of page tables

    The accessors of [riscv.h]. Each is one instruction of inline assembly; what the
    instruction does is the business of the hart, an interface here. The laws are
    those of the RISC-V privileged specification that the kernel relies on: the writable
    bits of [sstatus] take the value written, a write of [satp] that selects Sv39 takes
    effect, [sfence.vma] leaves no stale translation, and none of them touches [tp]. *)

From S2P Require Import Prelude.
From S2P Require Import Riscv.

(** The registers [riscv.h] names. *)
Inductive csr : Type :=
| Mhartid | Mstatus | Mepc | Sstatus | Sip | Sie | Mie | Sepc | Medeleg
| Mideleg | Stvec | Mtvec | Satp | Sscratch | Mscratch | Scause | Stval | Mcounteren | Time.
#[export] Instance csr_eq_dec : EqDecision csr.
Proof. solve_decision. Defined.
Inductive gpr : Type := Sp | Tp | Ra.
#[export] Instance gpr_eq_dec : EqDecision gpr.
Proof. solve_decision. Defined.

(** The instructions of the inline assembly: [csrr], [csrw], [mv] from and to a
    register, and [sfence.vma zero, zero]. *)
Class Hart (S : Type) : Type := {
  csrr : csr -> M S Z;
  csrw : csr -> Z -> M S unit;
  mv_from : gpr -> M S Z;
  mv_to : gpr -> Z -> M S unit;
  sfence_all : M S unit;
}.

(** [Machine Status Register, mstatus] *)
Definition MSTATUS_MPP_MASK : Z := Z.shiftl 3 11.
Definition MSTATUS_MPP_M : Z := Z.shiftl 3 11.
Definition MSTATUS_MPP_S : Z := Z.shiftl 1 11.
Definition MSTATUS_MPP_U : Z := Z.shiftl 0 11.
Definition MSTATUS_MIE : Z := Z.shiftl 1 3.
(** [Supervisor Status Register, sstatus] *)
Definition SSTATUS_SUM : Z := Z.shiftl 1 18.
Definition SSTATUS_SPP : Z := Z.shiftl 1 8.
Definition SSTATUS_SPIE : Z := Z.shiftl 1 5.
Definition SSTATUS_UPIE : Z := Z.shiftl 1 4.
Definition SSTATUS_SIE : Z := Z.shiftl 1 1.
Definition SSTATUS_UIE : Z := Z.shiftl 1 0.
(** [Supervisor Interrupt Enable], [Machine-mode Interrupt Enable] *)
Definition SIE_SEIE : Z := Z.shiftl 1 9.
Definition SIE_STIE : Z := Z.shiftl 1 5.
Definition SIE_SSIE : Z := Z.shiftl 1 1.
Definition MIE_MEIE : Z := Z.shiftl 1 11.
Definition MIE_MTIE : Z := Z.shiftl 1 7.
Definition MIE_MSIE : Z := Z.shiftl 1 3.

Module Hart.
Section ops.
Context {S : Type} `{!Hart S}.
Abbreviation H := (M S).

Definition r_mhartid : H Z := csrr Mhartid.
Definition r_mstatus : H Z := csrr Mstatus.
Definition w_mstatus (x : Z) : H unit := csrw Mstatus x.
Definition w_mepc (x : Z) : H unit := csrw Mepc x.
Definition r_sstatus : H Z := csrr Sstatus.
Definition w_sstatus (x : Z) : H unit := csrw Sstatus x.
Definition r_sip : H Z := csrr Sip.
Definition w_sip (x : Z) : H unit := csrw Sip x.
Definition r_sie : H Z := csrr Sie.
Definition w_sie (x : Z) : H unit := csrw Sie x.
Definition r_mie : H Z := csrr Mie.
Definition w_mie (x : Z) : H unit := csrw Mie x.
Definition w_sepc (x : Z) : H unit := csrw Sepc x.
Definition r_sepc : H Z := csrr Sepc.
Definition r_medeleg : H Z := csrr Medeleg.
Definition w_medeleg (x : Z) : H unit := csrw Medeleg x.
Definition r_mideleg : H Z := csrr Mideleg.
Definition w_mideleg (x : Z) : H unit := csrw Mideleg x.
Definition w_stvec (x : Z) : H unit := csrw Stvec x.
Definition r_stvec : H Z := csrr Stvec.
Definition w_mtvec (x : Z) : H unit := csrw Mtvec x.
Definition w_satp (x : Z) : H unit := csrw Satp x.
Definition r_satp : H Z := csrr Satp.
Definition w_sscratch (x : Z) : H unit := csrw Sscratch x.
Definition w_mscratch (x : Z) : H unit := csrw Mscratch x.
Definition r_scause : H Z := csrr Scause.
Definition r_stval : H Z := csrr Stval.
Definition w_mcounteren (x : Z) : H unit := csrw Mcounteren x.
Definition r_mcounteren : H Z := csrr Mcounteren.
Definition r_time : H Z := csrr Time.

Definition r_sp : H Z := mv_from Sp.
Definition r_tp : H Z := mv_from Tp.
Definition w_tp (x : Z) : H unit := mv_to Tp x.
Definition r_ra : H Z := mv_from Ra.

(** ** Interrupts *)
Definition intr_on : H unit := x ← r_sstatus; w_sstatus (Z.lor x SSTATUS_SIE).
Definition intr_off : H unit := x ← r_sstatus; w_sstatus (Z.land x (Z.lnot SSTATUS_SIE)).
Definition intr_get : H Z := x ← r_sstatus; mret (if Z.land x SSTATUS_SIE =? 0 then 0 else 1).

(** ** Page tables *)
Definition sfence_vma : H unit := sfence_all.
Definition kvminithart (kernel_pagetable : Z) : H unit := w_satp (MAKE_SATP kernel_pagetable);; sfence_vma.
Definition kvminithart_proc (k_pagetable : Z) : H unit := w_satp (MAKE_SATP k_pagetable);; sfence_vma.
Definition test_pagetable (kernel_pagetable : Z) : H Z :=
  satp ← r_satp;
  let gsatp := MAKE_SATP kernel_pagetable in
  mret (if satp =? gsatp then 0 else 1).

(** ** The current CPU *)

(** [sizeof(struct context)] and [sizeof(struct cpu)]: 14 registers; a pointer, a
    context and two ints. *)
Definition sizeof_context : Z := 14 * 8.
Definition sizeof_cpu : Z := 8 + sizeof_context + 4 + 4.

(** [int id = r_tp()] *)
Definition cpuid : H Z := id ← r_tp; mret (s32 id).
(** [&cpus[id]], for the array at [cpus]. *)
Definition mycpu (cpus : Z) : H Z := id ← cpuid; mret (u64 (cpus + id * sizeof_cpu)).
End ops.
End Hart.

(** The bits of [sstatus] the kernel changes. *)
Definition sstatus_bits : Z := Z.lor SSTATUS_SUM (Z.lor SSTATUS_SPP (Z.lor SSTATUS_SPIE SSTATUS_SIE)).

(** What is relied on, for the registers the kernel owns: [sstatus], [satp], [tp].
    [flushed]: the TLB holds no translation of an earlier table. *)
Class HartOk (S : Type) `{!Hart S} : Type := {
  sstatus : S -> Z;
  satp : S -> Z;
  tp : S -> Z;
  flushed : S -> Prop;
  sstatus_range s : 0 <= sstatus s < 2 ^ 64;
  read_sstatus s : csrr Sstatus s = Ok (sstatus s, s);
  read_satp s : csrr Satp s = Ok (satp s, s);
  read_tp s : mv_from Tp s = Ok (tp s, s);
  (** A value that differs from the old one in bits of [sstatus_bits] only. *)
  write_sstatus x s : 0 <= x < 2 ^ 64 -> Z.ldiff x sstatus_bits = Z.ldiff (sstatus s) sstatus_bits ->
    wp (csrw Sstatus x) s (fun _ s' => sstatus s' = x /\ satp s' = satp s /\ tp s' = tp s);
  (** Sv39 without an address-space identifier. *)
  write_satp ppn s : 0 <= ppn < 2 ^ 44 ->
    wp (csrw Satp (Z.lor SATP_SV39 ppn)) s (fun _ s' =>
      satp s' = Z.lor SATP_SV39 ppn /\ sstatus s' = sstatus s /\ tp s' = tp s);
  write_tp x s : wp (mv_to Tp x) s (fun _ s' => tp s' = x /\ sstatus s' = sstatus s /\ satp s' = satp s);
  fence s : wp sfence_all s (fun _ s' => flushed s' /\ sstatus s' = sstatus s /\ satp s' = satp s /\ tp s' = tp s);
}.

Module HartThms.
Import Hart.

(** ** Bits *)
Lemma testbit_one k n : 0 <= k -> Z.testbit (Z.shiftl 1 k) n = bool_decide (n = k).
Proof.
  intros Hk. rewrite Z.shiftl_1_l. case_bool_decide as E; [subst; by apply Z.pow2_bits_true|]. by apply Z.pow2_bits_false.
Qed.

Lemma bit_cases x k : 0 <= k -> Z.land x (Z.shiftl 1 k) = if Z.testbit x k then Z.shiftl 1 k else 0.
Proof.
  intros Hk. apply Z.bits_inj'. intros n Hn. rewrite Z.land_spec, testbit_one by done. case_bool_decide as E.
  - subst n. destruct (Z.testbit x k); [by rewrite testbit_one, bool_decide_true by done|by rewrite Z.bits_0].
  - rewrite andb_false_r. destruct (Z.testbit x k); [by rewrite testbit_one, bool_decide_false by done|by rewrite Z.bits_0].
Qed.

Lemma below_64 x : 0 <= x -> (forall n, 64 <= n -> Z.testbit x n = false) -> x < 2 ^ 64.
Proof.
  intros Hx Hb. destruct (Z.eq_dec x 0) as [->|Hne]; [done|]. apply Z.log2_lt_pow2; [lia|].
  destruct (Z.lt_ge_cases (Z.log2 x) 64) as [|Hge]; [done|]. specialize (Hb _ Hge). rewrite Z.bit_log2 in Hb by lia. done.
Qed.

Lemma high_bits x n : 0 <= x < 2 ^ 64 -> 64 <= n -> Z.testbit x n = false.
Proof.
  intros Hx Hn. destruct (Z.eq_dec x 0) as [->|Hne]; [apply Z.bits_0|]. apply Z.bits_above_log2; [lia|].
  assert (Z.log2 x < 64) by (apply Z.log2_lt_pow2; lia). lia.
Qed.

Lemma lor_range x y : 0 <= x < 2 ^ 64 -> 0 <= y < 2 ^ 64 -> 0 <= Z.lor x y < 2 ^ 64.
Proof.
  intros Hx Hy. assert (0 <= Z.lor x y) by (apply Z.lor_nonneg; lia). split; [done|]. apply below_64; [done|].
  intros n Hn. by rewrite Z.lor_spec, !high_bits.
Qed.

Lemma land_range x y : 0 <= x < 2 ^ 64 -> 0 <= Z.land x y < 2 ^ 64.
Proof.
  intros Hx. assert (0 <= Z.land x y) by (apply Z.land_nonneg; lia). split; [done|]. apply below_64; [done|].
  intros n Hn. by rewrite Z.land_spec, high_bits.
Qed.

(** Setting and clearing bits of [sstatus_bits] stays inside what [write_sstatus]
    covers. *)
Lemma set_outside x m : Z.ldiff m sstatus_bits = 0 -> Z.ldiff (Z.lor x m) sstatus_bits = Z.ldiff x sstatus_bits.
Proof.
  intros Hm. apply Z.bits_inj'. intros n Hn. rewrite !Z.ldiff_spec, Z.lor_spec.
  assert (Hb : Z.testbit (Z.ldiff m sstatus_bits) n = false) by (rewrite Hm; apply Z.bits_0).
  rewrite Z.ldiff_spec in Hb. by destruct (Z.testbit x n), (Z.testbit m n), (Z.testbit sstatus_bits n).
Qed.

Lemma clear_outside x m : Z.ldiff m sstatus_bits = 0 -> Z.ldiff (Z.land x (Z.lnot m)) sstatus_bits = Z.ldiff x sstatus_bits.
Proof.
  intros Hm. apply Z.bits_inj'. intros n Hn. rewrite !Z.ldiff_spec, Z.land_spec, Z.lnot_spec by done.
  assert (Hb : Z.testbit (Z.ldiff m sstatus_bits) n = false) by (rewrite Hm; apply Z.bits_0).
  rewrite Z.ldiff_spec in Hb. by destruct (Z.testbit x n), (Z.testbit m n), (Z.testbit sstatus_bits n).
Qed.

Section proofs.
Context {S : Type} `{!Hart S} `{!HartOk S}.
Implicit Types s : S.

(** Interrupts are enabled. *)
Definition enabled s : bool := Z.testbit (sstatus s) 1.

(** Only [sstatus] may have changed. *)
Definition same_rest s s' : Prop := satp s' = satp s /\ tp s' = tp s.

Lemma intr_get_ok s : intr_get s = Ok (if enabled s then 1 else 0, s).
Proof.
  unfold intr_get, r_sstatus. rewrite (bind_step _ _ _ _ _ (read_sstatus s)). unfold SSTATUS_SIE, enabled.
  rewrite bit_cases by done. by destruct (Z.testbit _ 1).
Qed.

(** [intr_on] enables interrupts and keeps all other bits. *)
Lemma intr_on_ok s : wp intr_on s (fun _ s' =>
  enabled s' = true /\ (forall n, n <> 1 -> Z.testbit (sstatus s') n = Z.testbit (sstatus s) n) /\ same_rest s s').
Proof.
  pose proof (sstatus_range s). eapply wp_bind_Ok; [apply read_sstatus|]. eapply wp_mono.
  - apply write_sstatus; [by apply lor_range|by apply set_outside].
  - cbn beta. intros _ s' (E & Hrest). unfold enabled, SSTATUS_SIE in *. rewrite E. split_and!; [|intros n Hn|done];
      rewrite Z.lor_spec, testbit_one by done; [by rewrite orb_true_r|]. by rewrite bool_decide_false, orb_false_r.
Qed.

(** [intr_off] disables interrupts and keeps all other bits. *)
Lemma intr_off_ok s : wp intr_off s (fun _ s' =>
  enabled s' = false /\ (forall n, 0 <= n -> n <> 1 -> Z.testbit (sstatus s') n = Z.testbit (sstatus s) n) /\ same_rest s s').
Proof.
  pose proof (sstatus_range s). eapply wp_bind_Ok; [apply read_sstatus|]. eapply wp_mono.
  - apply write_sstatus; [by apply land_range|by apply clear_outside].
  - cbn beta. intros _ s' (E & Hrest). unfold enabled, SSTATUS_SIE in *. rewrite E. split_and!; [|intros n Hp Hn|done];
      rewrite Z.land_spec, Z.lnot_spec, testbit_one by lia; [by rewrite andb_false_r|]. by rewrite bool_decide_false, andb_true_r.
Qed.

(** What the switch to a page table leaves: [satp] selects Sv39 with the table as
    root, no old translation is left, and the rest is as before. *)
Definition switched (pt : Z) s s' : Prop :=
  Z.shiftr (satp s') 60 = 8 /\ u64 (Z.shiftl (Z.land (satp s') (Z.ones 44)) 12) = pt /\
  flushed s' /\ sstatus s' = sstatus s /\ tp s' = tp s.

Lemma satp_fields ppn : 0 <= ppn < 2 ^ 44 ->
  Z.shiftr (Z.lor SATP_SV39 ppn) 60 = 8 /\ Z.land (Z.lor SATP_SV39 ppn) (Z.ones 44) = ppn.
Proof.
  intros Hp. assert (Hn : forall n, 44 <= n -> Z.testbit ppn n = false).
  { intros n Hn. destruct (Z.eq_dec ppn 0) as [->|]; [apply Z.bits_0|]. apply Z.bits_above_log2; [lia|].
    assert (Z.log2 ppn < 44) by (apply Z.log2_lt_pow2; lia). lia. }
  split; apply Z.bits_inj'; intros n Hn0.
  - rewrite Z.shiftr_spec, Z.lor_spec, (Hn (n + 60)), orb_false_r by lia. unfold SATP_SV39. rewrite Z.shiftl_spec by lia. f_equal. lia.
  - rewrite Z.land_spec, Z.lor_spec. destruct (Z.lt_ge_cases n 44).
    + rewrite Z.ones_spec_low by lia. unfold SATP_SV39. rewrite Z.shiftl_spec_low by lia. by rewrite andb_true_r.
    + rewrite Z.ones_spec_high, andb_false_r by lia. by rewrite Hn.
Qed.

Lemma switch_ok pt s : 0 <= pt < 2 ^ 56 -> pt mod PGSIZE = 0 ->
  wp (w_satp (MAKE_SATP pt);; sfence_vma) s (fun _ s' => switched pt s s' /\ satp s' = MAKE_SATP pt).
Proof.
  intros Hpt Hal. change (2 ^ 56) with (2 ^ 44 * 4096) in Hpt. change PGSIZE with 4096 in Hal. assert (Hs : Z.shiftr pt 12 = pt / 4096) by (by rewrite Z.shiftr_div_pow2).
  assert (Hppn : 0 <= Z.shiftr pt 12 < 2 ^ 44).
  { rewrite Hs. split; [apply Z.div_pos; lia|]. apply Z.div_lt_upper_bound; lia. }
  apply wp_bind. eapply wp_mono; [by apply write_satp|]. cbn beta. intros _ s1 (E1 & Hs1 & Ht1).
  eapply wp_mono; [apply fence|]. cbn beta. intros _ s' (Hf & Hs2 & Hsa & Ht2). destruct (satp_fields _ Hppn) as [Hm Hr].
  unfold switched, MAKE_SATP. rewrite Hsa, E1, Hm, Hr, Hs2, Hs1, Ht2, Ht1. split_and!; try done.
  rewrite Z.shiftl_mul_pow2, Hs by done. change (2 ^ 12) with 4096. rewrite u64_small; [|]; pose proof (Z.div_mod pt 4096); lia.
Qed.

(** After [kvminithart] translation goes through [kernel_pagetable], nothing stale is
    left, and [test_pagetable] says that the global table is in use; after
    [kvminithart_proc] of another table it says that it is not. *)
Theorem kvminithart_switches pt s : 0 <= pt < 2 ^ 56 -> pt mod PGSIZE = 0 ->
  wp (kvminithart pt) s (fun _ s' => switched pt s s' /\ test_pagetable pt s' = Ok (0, s')).
Proof.
  intros Hpt Hal. eapply wp_mono; [by apply switch_ok|]. cbn beta. intros _ s' [Hsw E]. split; [done|].
  unfold test_pagetable, r_satp. rewrite (bind_step _ _ _ _ _ (read_satp s')), E. by rewrite Z.eqb_refl.
Qed.

Theorem kvminithart_proc_switches pt kpt s :
  0 <= pt < 2 ^ 56 -> pt mod PGSIZE = 0 -> 0 <= kpt < 2 ^ 56 -> kpt mod PGSIZE = 0 ->
  wp (kvminithart_proc kpt) s (fun _ s' =>
    switched kpt s s' /\ test_pagetable pt s' = Ok (if kpt =? pt then 0 else 1, s')).
Proof.
  intros Hpt Hal Hk Hkal. eapply wp_mono; [by apply switch_ok|]. cbn beta. intros _ s' [Hsw E]. split; [done|].
  unfold test_pagetable, r_satp. rewrite (bind_step _ _ _ _ _ (read_satp s')), E.
  destruct (Z.eqb_spec kpt pt) as [->|Hne]; [by rewrite Z.eqb_refl|].
  destruct (Z.eqb_spec (MAKE_SATP kpt) (MAKE_SATP pt)) as [Eq|]; [|done]. exfalso. apply Hne.
  assert (Hf : forall a, 0 <= a < 2 ^ 56 -> a mod PGSIZE = 0 -> 4096 * Z.land (MAKE_SATP a) (Z.ones 44) = a).
  { intros a Ha Hm. change (2 ^ 56) with (2 ^ 44 * 4096) in Ha. change PGSIZE with 4096 in Hm. unfold MAKE_SATP.
    rewrite (proj2 (satp_fields (Z.shiftr a 12) ltac:(rewrite Z.shiftr_div_pow2 by done; change (2 ^ 12) with 4096;
      split; [apply Z.div_pos; lia|apply Z.div_lt_upper_bound; lia]))).
    rewrite Z.shiftr_div_pow2 by done. change (2 ^ 12) with 4096. pose proof (Z.div_mod a 4096). lia. }
  rewrite <- (Hf kpt), <- (Hf pt) by done. by rewrite Eq.
Qed.

(** [mycpu] stays inside an array of [n] CPUs when [tp] holds a core number below
    [n], and two cores get different elements. *)
Lemma mycpu_inside cpus n s : 0 <= tp s < n -> n < 2 ^ 31 -> 0 <= cpus -> cpus + n * sizeof_cpu <= 2 ^ 64 ->
  mycpu cpus s = Ok (cpus + tp s * sizeof_cpu, s) /\
  cpus <= cpus + tp s * sizeof_cpu <= cpus + n * sizeof_cpu - sizeof_cpu.
Proof.
  change sizeof_cpu with 128. intros Ht Hn Hc Hfit. split; [|lia]. unfold mycpu, cpuid, r_tp. rewrite bind_assoc.
  rewrite (bind_step _ _ _ _ _ (read_tp s)), bind_ret, s32_small by lia. change sizeof_cpu with 128. by rewrite u64_small by lia.
Qed.

(** The core number survives interrupts going off and on and a switch of tables. *)
Lemma core_kept cpus n pt s : 0 <= tp s < n -> n < 2 ^ 31 -> 0 <= cpus -> cpus + n * sizeof_cpu <= 2 ^ 64 ->
  0 <= pt < 2 ^ 56 -> pt mod PGSIZE = 0 ->
  wp (intr_off;; kvminithart pt;; intr_on) s (fun _ s' => mycpu cpus s' = Ok (cpus + tp s * sizeof_cpu, s')).
Proof.
  intros Ht Hn Hc Hfit Hpt Hal. apply wp_bind. eapply wp_mono; [apply intr_off_ok|]. cbn beta. intros _ s1 (_ & _ & _ & E1).
  apply wp_bind. eapply wp_mono; [by apply kvminithart_switches|]. cbn beta. intros _ s2 [(_ & _ & _ & _ & E2) _].
  eapply wp_mono; [apply intr_on_ok|]. cbn beta. intros _ s3 (_ & _ & _ & E3). rewrite <- E1, <- E2, <- E3.
  apply (mycpu_inside _ n); try done. by rewrite E3, E2, E1.
Qed.
End proofs.

(** The previous mode of [mstatus] is one of the three two-bit values. *)
Lemma mpp_field x m : m = MSTATUS_MPP_U \/ m = MSTATUS_MPP_S \/ m = MSTATUS_MPP_M ->
  Z.land (Z.lor (Z.land x (Z.lnot MSTATUS_MPP_MASK)) m) MSTATUS_MPP_MASK = m.
Proof.
  intros Hm. apply Z.bits_inj'. intros n Hn. rewrite Z.land_spec, Z.lor_spec, Z.land_spec, Z.lnot_spec by done.
  assert (Hsub : Z.ldiff m MSTATUS_MPP_MASK = 0) by (by destruct Hm as [->|[->| ->]]).
  assert (Hb : Z.testbit (Z.ldiff m MSTATUS_MPP_MASK) n = false) by (rewrite Hsub; apply Z.bits_0).
  rewrite Z.ldiff_spec in Hb. by destruct (Z.testbit x n), (Z.testbit m n), (Z.testbit MSTATUS_MPP_MASK n).
Qed.

(** ** A hart *)

(** The registers, with [sstatus] as the view of [mstatus] through [sstatus_bits] and
    [sie] as the view of [mie] through [mideleg], and the
    tables the TLB has translations of. *)
Record machine : Type := Machine { regs : csr -> Z; gprs : gpr -> Z; tlb : list Z }.

Definition set_reg (c : csr) (x : Z) (m : machine) : machine :=
  Machine (fun d => if bool_decide (d = c) then x else regs m d) (gprs m) (tlb m).
(** The bits of [x] in [mask] over those of [old]. *)
Definition merge (mask x old : Z) : Z := Z.lor (Z.land x mask) (Z.ldiff old mask).

#[export] Instance machine_hart : Hart machine := {|
  csrr c := fun m => Ok (match c with
    | Sstatus => u64 (Z.land (regs m Mstatus) sstatus_bits)
    | Sie => Z.land (regs m Mie) (regs m Mideleg)
    | _ => regs m c
    end, m);
  csrw c x := fun m => Ok (tt, match c with
    | Sstatus => set_reg Mstatus (merge sstatus_bits x (regs m Mstatus)) m
    | Sie => set_reg Mie (merge (regs m Mideleg) x (regs m Mie)) m
    | Satp => let m := set_reg Satp x m in Machine (regs m) (gprs m) (x :: tlb m)
    | _ => set_reg c x m
    end);
  mv_from r := fun m => Ok (gprs m r, m);
  mv_to r x := fun m => Ok (tt, Machine (regs m) (fun q => if bool_decide (q = r) then x else gprs m q) (tlb m));
  sfence_all := fun m => Ok (tt, Machine (regs m) (gprs m) []);
|}.

Lemma merge_land mask x old : Z.land (merge mask x old) mask = Z.land x mask.
Proof.
  apply Z.bits_inj'. intros n Hn. unfold merge. rewrite !Z.land_spec, Z.lor_spec, Z.land_spec, Z.ldiff_spec.
  by destruct (Z.testbit x n), (Z.testbit mask n), (Z.testbit old n).
Qed.

Lemma ldiff_view x y mask : Z.ldiff x mask = Z.ldiff (Z.land y mask) mask -> Z.land x mask = x.
Proof.
  intros E. apply Z.bits_inj'. intros n Hn. assert (Hb : Z.testbit (Z.ldiff x mask) n = Z.testbit (Z.ldiff (Z.land y mask) mask) n) by (by rewrite E).
  rewrite !Z.ldiff_spec, Z.land_spec in Hb. rewrite Z.land_spec.
  by destruct (Z.testbit x n), (Z.testbit y n), (Z.testbit mask n).
Qed.

Lemma view_range y : 0 <= Z.land y sstatus_bits < 2 ^ 64.
Proof. rewrite Z.land_comm. by apply land_range. Qed.

#[export] Program Instance machine_ok : HartOk machine := {|
  sstatus m := u64 (Z.land (regs m Mstatus) sstatus_bits);
  satp m := regs m Satp;
  tp m := gprs m Tp;
  flushed m := tlb m = [];
|}.
Next Obligation. intros m. apply u64_range. Qed.
Next Obligation. done. Qed.
Next Obligation. done. Qed.
Next Obligation. done. Qed.
Next Obligation.
  intros x m Hx E. cbn in E |- *. rewrite u64_small in E by apply view_range. unfold wp. split; [|done].
  change (u64 (Z.land (merge sstatus_bits x (regs m Mstatus)) sstatus_bits) = x).
  rewrite merge_land, u64_small by apply view_range. by eapply ldiff_view.
Qed.
Next Obligation. done. Qed.
Next Obligation. done. Qed.
Next Obligation. done. Qed.

(** A boot hart: switching tables on it. *)
Definition boot_hart : machine := Machine (fun _ => 0) (fun _ => 0) [].

Example switch_on_boot_hart :
  wp (kvminithart 0x80021000) boot_hart (fun _ s' => switched 0x80021000 boot_hart s' /\ test_pagetable 0x80021000 s' = Ok (0, s')).
Proof. by apply kvminithart_switches. Qed.
End HartThms.
