(* ===== verification/PageAlloc.v ===== *)
(** * The page allocator as its clients see it

    Page-table code, the process table and pipes call [kalloc] and [kfree]
    without looking at the free list. This file states that contract as a type
    class: the operations, a representation predicate relating a kernel state to
    the set of free pages, and the laws. The allocators of the second and of
    the third experiment are two instances of it. *)

From S2P Require Import Prelude.
From S2P Require Import Memory.
From S2P Require Import Riscv.

(** Kernel state seen by code that allocates pages: physical memory and the
    allocator's own variables. *)
Record kstate (A : Type) : Type := KS { kmem : mem; kal : A }.
Arguments KS {A} kmem kal.
Arguments kmem {A} k.
Arguments kal {A} k.

Definition ksetmem {A} (m : mem) (s : kstate A) : kstate A := KS m (kal s).

Definition in_page (p a : Z) : Prop := p <= a < p + PGSIZE.

Section pages.
Context `{MemLayout}.

(** The addresses [kfree] accepts. *)
Definition kfree_bad (pa : Z) : bool :=
  negb (pa mod PGSIZE =? 0) || (pa <? end_) || (PHYSTOP <=? pa).

Definition valid_page (p : Z) : Prop := kfree_bad p = false.

Lemma valid_page_iff p :
  valid_page p <-> p mod PGSIZE = 0 /\ end_ <= p < PHYSTOP.
Proof.
  unfold valid_page, kfree_bad. rewrite !orb_false_iff, negb_false_iff.
  rewrite Z.eqb_eq, Z.ltb_ge, Z.leb_gt. lia.
Qed.

#[global] Instance valid_page_dec p : Decision (valid_page p).
Proof. unfold valid_page. apply _. Defined.

Lemma valid_page_aligned p : valid_page p -> p mod PGSIZE = 0.
Proof. rewrite valid_page_iff. tauto. Qed.

Lemma valid_page_range `{!MemLayoutOk} p : valid_page p -> 0 < p < 2 ^ 56.
Proof.
  rewrite valid_page_iff. pose proof end_pos. pose proof phystop_range. lia.
Qed.
End pages.

(** Distinct aligned pages do not overlap. *)
Lemma pages_disjoint p q a :
  p mod PGSIZE = 0 -> q mod PGSIZE = 0 -> p <> q -> in_page p a -> ~ in_page q a.
Proof.
  unfold in_page, PGSIZE. intros Hp Hq Hne Ha Hb.
  pose proof (Z.div_mod p 4096). pose proof (Z.div_mod q 4096). lia.
Qed.

Lemma page_separate p q :
  p mod PGSIZE = 0 -> q mod PGSIZE = 0 -> p <> q ->
  p + PGSIZE <= q \/ q + PGSIZE <= p.
Proof.
  unfold PGSIZE. intros Hp Hq Hne.
  pose proof (Z.div_mod p 4096). pose proof (Z.div_mod q 4096). lia.
Qed.

(** Memory is untouched outside one page. *)
Definition same_outside (p : Z) (m m' : mem) : Prop :=
  forall a, ~ in_page p a -> ld8 m' a = ld8 m a.

(** The operations. [kalloc] returns the null pointer as [0]. *)
Class PageAllocator (A : Type) : Type := {
  kalloc : M (kstate A) Z;
  kfree : Z -> M (kstate A) unit;
}.

(** The laws. [al_ok s F]: in state [s] the allocator is consistent and [F] is
    the set of free pages. *)
Class PageAllocatorSpec `{MemLayout} (A : Type) `{!PageAllocator A} : Type := {
  al_ok : kstate A -> gset Z -> Prop;
  al_ok_valid s F p : al_ok s F -> p ∈ F -> valid_page p;
  al_ok_frame s F m' :
    al_ok s F ->
    (forall p a, p ∈ F -> in_page p a -> ld8 m' a = ld8 (kmem s) a) ->
    al_ok (ksetmem m' s) F;
  kalloc_ok s F :
    al_ok s F ->
    wp kalloc s (fun r s' =>
      (r = 0 /\ F = ∅ /\ s' = s) \/
      (r ∈ F /\ al_ok s' (F ∖ {[r]}) /\ same_outside r (kmem s) (kmem s')));
  kfree_ok s F p :
    al_ok s F -> valid_page p -> p ∉ F ->
    wp (kfree p) s (fun _ s' =>
      al_ok s' ({[p]} ∪ F) /\ same_outside p (kmem s) (kmem s'));
  kfree_panics s p : ~ valid_page p -> kfree p s = Fail (Panic "kfree");
}.

(** ** Filling the allocator at boot

    [freerange] only calls [kfree], so it is written and verified once, against
    the interface. *)
Section freerange.
Context `{MemLayout} {A : Type} `{!PageAllocator A}.

(** [for(; p + PGSIZE <= pa_end; p += PGSIZE) kfree(p)]; the iterations are
    at most the whole pages between [p] and [pa_end]. *)
Fixpoint freerange_loop (fuel : nat) (p pa_end : Z) : M (kstate A) unit :=
  if p + PGSIZE <=? pa_end then
    match fuel with
    | O => fail OutOfFuel
    | S fuel' => kfree p;; freerange_loop fuel' (p + PGSIZE) pa_end
    end
  else mret tt.

Definition freerange (pa_start pa_end : Z) : M (kstate A) unit :=
  let p := PGROUNDUP pa_start in
  freerange_loop (Z.to_nat ((pa_end - p) / PGSIZE)) p pa_end.

Context `{!MemLayoutOk} `{!PageAllocatorSpec A}.

(** The whole pages of [lo, hi). *)
Definition whole_page (lo hi p : Z) : Prop :=
  p mod PGSIZE = 0 /\ lo <= p /\ p + PGSIZE <= hi.

Lemma freerange_loop_ok fuel p hi s F :
  (hi - p) / PGSIZE <= Z.of_nat fuel ->
  p mod PGSIZE = 0 -> end_ <= p -> hi <= PHYSTOP ->
  al_ok s F -> (forall x, x ∈ F -> x < p) ->
  wp (freerange_loop fuel p hi) s (fun _ s' =>
    exists F', al_ok s' F' /\ forall x, x ∈ F' <-> x ∈ F \/ whole_page p hi x).
Proof.
  revert p s F. induction fuel as [|fuel IH]; intros p s F Hfuel Hm Hlo Hhi Hok Hlt;
    cbn [freerange_loop]; destruct (Z.leb_spec (p + PGSIZE) hi) as [Hle|Hgt].
  - exfalso. assert (1 <= (hi - p) / PGSIZE).
    { apply Z.div_le_lower_bound; unfold PGSIZE in *; lia. } lia.
  - apply wp_ret. exists F. split; [done|]. intros x. unfold whole_page. intuition lia.
  - apply wp_bind. eapply wp_mono.
    { apply kfree_ok; [exact Hok| |].
      - apply valid_page_iff. unfold PGSIZE in *. lia.
      - intros Hp. apply Hlt in Hp. lia. }
    cbn beta. intros _ s' (Hok' & _). eapply wp_mono.
    { apply (IH (p + PGSIZE) s' ({[p]} ∪ F)); [| | | |exact Hok'|].
      - replace (hi - (p + PGSIZE)) with (hi - p + (-1) * PGSIZE) by lia.
        rewrite Z.div_add; unfold PGSIZE in *; lia.
      - unfold PGSIZE in *. rewrite Z.add_mod, Hm by lia. done.
      - unfold PGSIZE. lia.
      - done.
      - unfold PGSIZE. intros x [->%elem_of_singleton|Hx%Hlt]%elem_of_union; lia. }
    cbn beta. intros _ s'' (F' & Hok'' & HF'). exists F'. split; [done|]. intros x.
    rewrite HF', elem_of_union, elem_of_singleton. unfold whole_page.
    split; [intuition (subst; unfold PGSIZE in *; lia)|].
    intros [Hx|(Hxm & Hx1 & Hx2)]; [tauto|].
    destruct (Z.eq_dec x p); [tauto|]. right. split; [done|].
    destruct (page_separate x p); unfold PGSIZE in *; lia.
  - apply wp_ret. exists F. split; [done|]. intros x. unfold whole_page. intuition lia.
Qed.

(** Freeing a range of memory into an allocator with no page makes exactly the
    whole pages of the range available. *)
Lemma freerange_ok lo hi s :
  end_ <= lo -> lo + PGSIZE - 1 < 2 ^ 64 -> hi <= PHYSTOP -> al_ok s ∅ ->
  wp (freerange lo hi) s (fun _ s' =>
    exists F, al_ok s' F /\ forall x, x ∈ F <-> whole_page lo hi x).
Proof.
  intros Hlo Hov Hhi Hok. unfold freerange. pose proof end_pos.
  destruct (PGROUNDUP_bounds lo) as (Hb & Hm); [lia|done|].
  eapply wp_mono.
  { apply (freerange_loop_ok _ _ _ _ ∅); [|done|lia|done|done|set_solver].
    destruct (Z.le_gt_cases 0 ((hi - PGROUNDUP lo) / PGSIZE)); lia. }
  cbn beta. intros _ s' (F & HF & Hx). exists F. split; [done|]. intros x.
  rewrite Hx. unfold whole_page.
  split; [intros [[]%not_elem_of_empty|(? & ? & ?)]; split_and!; [done|lia|done]|].
  intros (Hxm & Hx1 & Hx2). right. split; [done|]. split; [|done].
  destruct (Z.eq_dec x (PGROUNDUP lo)); [lia|].
  destruct (page_separate x (PGROUNDUP lo)); try done; lia.
Qed.
End freerange.
