(* ===== verification/FreeList.v ===== *)
(** * Free lists threaded through the free pages

    Both allocators keep free pages on a singly linked list whose links
    ([struct run]) are stored in the first eight bytes of the free pages
    themselves. [free_list m p l]: starting at pointer [p], memory [m] holds
    exactly the chain of pages [l], ended by a null link. *)

From S2P Require Import Prelude.
From S2P Require Import Memory.
From S2P Require Import Riscv.
From S2P Require Import PageAlloc.

Section free_list.
Context `{MemLayout} `{!MemLayoutOk}.

Fixpoint free_list (m : mem) (p : Z) (l : list Z) : Prop :=
  match l with
  | [] => p = 0
  | x :: l' => p = x /\ valid_page x /\ free_list m (ld64 m x) l'
  end.

Lemma free_list_valid m p l x : free_list m p l -> x ∈ l -> valid_page x.
Proof.
  revert p. induction l as [|y l IH]; intros p HL Hx; [set_solver|].
  destruct HL as (_ & Hv & HL). apply elem_of_cons in Hx as [->|Hx]; eauto.
Qed.

Lemma free_list_head m p l : free_list m p l -> p <> 0 -> exists l', l = p :: l'.
Proof. destruct l as [|x l]; simpl; [done|]. intros (-> & _) _. eauto. Qed.

Lemma free_list_null m l : free_list m 0 l -> l = [].
Proof.
  destruct l as [|x l]; [done|]. intros (<- & Hv & _).
  apply valid_page_range in Hv. lia.
Qed.

Lemma free_list_ptr_range m p l : free_list m p l -> 0 <= p < 2 ^ 64.
Proof.
  destruct l; simpl; [lia|]. intros (-> & Hv & _).
  apply valid_page_range in Hv. lia.
Qed.

(** The chain a pointer starts is unique. *)
Lemma free_list_inj m p l l' : free_list m p l -> free_list m p l' -> l = l'.
Proof.
  revert p l'. induction l as [|x l IH]; intros p l' H1 H2.
  - simpl in H1. subst. by apply free_list_null in H2.
  - destruct H1 as (-> & Hv & H1). destruct l' as [|y l'].
    + simpl in H2. apply valid_page_range in Hv. lia.
    + destruct H2 as (<- & _ & H2). f_equal. eauto.
Qed.

(** Only the pages of the chain matter. *)
Lemma free_list_frame m m' p l :
  (forall x a, x ∈ l -> in_page x a -> ld8 m' a = ld8 m a) ->
  free_list m p l -> free_list m' p l.
Proof.
  revert p. induction l as [|x l IH]; intros p Hf HL; [done|].
  destruct HL as (-> & Hv & HL). split; [done|]. split; [done|].
  rewrite (ld64_agree m m').
  - apply IH; [|done]. intros y a Hy. apply Hf. set_solver.
  - intros a Ha. apply (Hf x); [set_solver|]. unfold in_page, PGSIZE. lia.
Qed.

(** What [kfree] writes: junk over the page, then the link to the old head. *)
Definition push_mem (m : mem) (pa head : Z) : mem :=
  st64 (memset m pa 1 PGSIZE) pa head.

Lemma push_mem_outside m pa head : same_outside pa m (push_mem m pa head).
Proof.
  intros a Ha. unfold push_mem, in_page in *.
  unfold st64. rewrite ld8_st_le_out, ld8_memset_out; unfold PGSIZE in *; lia.
Qed.

Lemma free_list_push m p l pa :
  free_list m p l -> valid_page pa -> pa ∉ l ->
  free_list (push_mem m pa p) pa (pa :: l).
Proof.
  intros HL Hv Hn. split; [done|]. split; [done|].
  unfold push_mem at 2. rewrite ld_st64 by (by eapply free_list_ptr_range).
  eapply free_list_frame; [|done]. intros x a Hx Ha. apply push_mem_outside.
  eapply pages_disjoint; [| | |exact Ha].
  - eapply valid_page_aligned, free_list_valid; eauto.
  - by apply valid_page_aligned.
  - set_solver.
Qed.

(** Number of pages that can be on a free list. *)
Definition max_pages : Z := PHYSTOP / PGSIZE - end_ / PGSIZE + 1.

Lemma max_pages_pos : 0 < max_pages.
Proof.
  unfold max_pages. pose proof phystop_range.
  pose proof (Z.div_le_mono end_ PHYSTOP PGSIZE). unfold PGSIZE in *. lia.
Qed.

(** Distinct valid pages are at most [max_pages] many (counting argument over
    page numbers). *)
Lemma valid_pages_bound l :
  NoDup l -> (forall x, x ∈ l -> valid_page x) -> Z.of_nat (length l) <= max_pages.
Proof.
  intros Hnd Hv. pose proof max_pages_pos as Hpos.
  set (f := fun x => x / PGSIZE).
  assert (Hsub : incl (map f l) (seqZ (end_ / PGSIZE) max_pages)).
  { intros y Hy. apply in_map_iff in Hy as (x & <- & Hx).
    apply list_elem_of_In, elem_of_seqZ. apply list_elem_of_In in Hx.
    apply Hv, valid_page_iff in Hx as (Hm & Hr). unfold f, max_pages.
    pose proof (Z.div_le_mono end_ x PGSIZE). pose proof (Z.div_le_mono x PHYSTOP PGSIZE).
    unfold PGSIZE in *. lia. }
  assert (Hnd' : List.NoDup (map f l)).
  { apply NoDup_ListNoDup. apply (NoDup_fmap_2_strong f); [|done].
    intros x y Hx Hy Exy. apply Hv, valid_page_aligned in Hx, Hy.
    unfold f, PGSIZE in *. pose proof (Z.div_mod x 4096). pose proof (Z.div_mod y 4096). lia. }
  pose proof (NoDup_incl_length Hnd' Hsub) as Hlen.
  rewrite length_map, length_seqZ in Hlen. lia.
Qed.
End free_list.
