(* ===== verification/KallocSingle.v ===== *)
(** * The single-list page allocator (second experiment, [kalloc.c])

    One free list protected by one lock. Each function takes the lock for its
    whole access to the list, so its effect on the shared state is one atomic
    transition; the lock itself carries no other state. *)

From S2P Require Import Prelude.
From S2P Require Import Memory.
From S2P Require Import Riscv.
From S2P Require Import PageAlloc.
From S2P Require Import FreeList.

(** [struct { struct spinlock lock; struct run *freelist; } kmem]. *)
Record kmem_single : Type := KmemSingle { freelist : Z }.

Module KallocSingle.
Section ops.
Context `{MemLayout}.

Abbreviation K := (M (kstate kmem_single)).

Definition kfree (pa : Z) : K unit :=
  if kfree_bad pa then panic "kfree" else
  (* Fill with junk to catch dangling refs. *)
  modify (fun s => ksetmem (memset (kmem s) pa 1 PGSIZE) s);;
  let r := pa in
  modify (fun s => ksetmem (st64 (kmem s) r (freelist (kal s))) s);;
  modify (fun s => KS (kmem s) (KmemSingle r)).

Definition kalloc : K Z :=
  r ← gets (fun s => freelist (kal s));
  when (negb (r =? 0))
    (modify (fun s => KS (kmem s) (KmemSingle (ld64 (kmem s) r))));;
  when (negb (r =? 0))
    (modify (fun s => ksetmem (memset (kmem s) r 5 PGSIZE) s));;
  mret r.

(** [while(r){ r = r->next; freemem += PGSIZE; }] *)
Fixpoint count_loop (fuel : nat) (r freemem : Z) : K Z :=
  if r =? 0 then mret freemem else
  match fuel with
  | O => fail OutOfFuel
  | S fuel' =>
      r' ← gets (fun s => ld64 (kmem s) r);
      count_loop fuel' r' (u64 (freemem + PGSIZE))
  end.

Definition infofreemem : K Z :=
  r ← gets (fun s => freelist (kal s));
  count_loop (Z.to_nat max_pages) r 0.
End ops.

Section correct.
Context `{MemLayout} `{!MemLayoutOk}.

(** The free list represents the set [F] of free pages. *)
Definition ok (s : kstate kmem_single) (F : gset Z) : Prop :=
  exists l, free_list (kmem s) (freelist (kal s)) l /\ NoDup l /\ F = list_to_set l.

Lemma ok_valid s F p : ok s F -> p ∈ F -> valid_page p.
Proof.
  intros (l & HL & _ & ->) Hp. eapply free_list_valid; [done|]. set_solver.
Qed.

Lemma ok_frame s F m' :
  ok s F ->
  (forall p a, p ∈ F -> in_page p a -> ld8 m' a = ld8 (kmem s) a) ->
  ok (ksetmem m' s) F.
Proof.
  intros (l & HL & Hnd & ->) Hf. exists l. split; [|done].
  eapply free_list_frame; [|exact HL]. intros x a Hx. apply Hf. set_solver.
Qed.

Lemma kfree_spec s F p :
  ok s F -> valid_page p -> p ∉ F ->
  wp (kfree p) s (fun _ s' => ok s' ({[p]} ∪ F) /\ same_outside p (kmem s) (kmem s')).
Proof.
  intros (l & HL & Hnd & ->) Hv Hn. unfold kfree. rewrite Hv. wp_pure.
  split; [|apply push_mem_outside].
  exists (p :: l). split; [|split; [|done]].
  - apply free_list_push; [done|done|set_solver].
  - constructor; [set_solver|done].
Qed.

Lemma kalloc_cases s F :
  ok s F ->
  wp kalloc s (fun r s' =>
    (r = 0 /\ F = ∅ /\ s' = s) \/
    (r ∈ F /\ ok s' (F ∖ {[r]}) /\ same_outside r (kmem s) (kmem s') /\
     forall a, in_page r a -> ld8 (kmem s') a = 5)).
Proof.
  intros (l & HL & Hnd & ->). unfold kalloc, when. wp_pure.
  destruct l as [|x l].
  - simpl in HL. rewrite HL. cbn. left. done.
  - destruct HL as (Hx & Hv & HL). pose proof (valid_page_range _ Hv).
    apply NoDup_cons in Hnd as [Hxl Hnd'].
    replace (freelist (kal s) =? 0) with false by (symmetry; apply Z.eqb_neq; lia).
    right. rewrite Hx. cbn. split; [set_solver|]. split; [|split].
    + exists l. split; [|split; [done|set_solver]].
      eapply free_list_frame; [|exact HL]. intros y a Hy Ha. cbn.
      apply ld8_memset_out. apply (pages_disjoint y x); [| | |done].
      * eapply valid_page_aligned, free_list_valid; eauto.
      * by apply valid_page_aligned.
      * set_solver.
    + intros a Ha. by apply ld8_memset_out.
    + intros a Ha. by apply ld8_memset_in.
Qed.

(** Walking the list counts its pages; the length of the list bounds the
    iterations. *)
Lemma count_loop_spec s fuel p acc l :
  free_list (kmem s) p l -> (length l <= fuel)%nat ->
  wp (count_loop fuel p acc) s (fun n s' =>
    u64 n = u64 (acc + PGSIZE * Z.of_nat (length l)) /\ (0 <= acc < 2 ^ 64 -> 0 <= n < 2 ^ 64) /\ s' = s).
Proof.
  revert p acc l. induction fuel as [|fuel IH]; intros p acc l HL Hlen;
    cbn [count_loop]; destruct l as [|x l].
  all: try (simpl in HL; subst p; cbn; split; [f_equal; lia|done]).
  - simpl in Hlen. lia.
  - destruct HL as (-> & Hv & HL). pose proof (valid_page_range _ Hv).
    destruct (Z.eqb_spec x 0) as [|_]; [lia|]. wp_pure. eapply wp_mono.
    { apply (IH _ _ l); [done|]. simpl in Hlen. lia. }
    cbn beta. intros n s' (Hn & Hr & ->). split; [|split; [|done]].
    + rewrite Hn. unfold u64. rewrite Zplus_mod_idemp_l. f_equal.
      cbn [length]. lia.
    + intros _. apply Hr, u64_range.
Qed.

Lemma infofreemem_spec s F :
  ok s F ->
  wp infofreemem s (fun n s' => n = u64 (PGSIZE * Z.of_nat (size F)) /\ s' = s).
Proof.
  intros (l & HL & Hnd & ->). unfold infofreemem. wp_pure. eapply wp_mono.
  { apply (count_loop_spec s _ _ 0 l HL).
    pose proof (valid_pages_bound l Hnd (fun x => free_list_valid _ _ _ x HL)). lia. }
  cbn beta. intros n s' (Hn & Hr & ->). split; [|done].
  rewrite <- (u64_small n) by (apply Hr; lia). rewrite Hn. f_equal.
  rewrite size_list_to_set by done. lia.
Qed.
End correct.
End KallocSingle.

#[export] Instance single_allocator `{MemLayout} : PageAllocator kmem_single := {|
  kalloc := KallocSingle.kalloc;
  kfree := KallocSingle.kfree;
|}.

(** The single-list allocator keeps the allocator contract. *)
#[export, refine] Instance single_allocator_spec `{MemLayout} `{!MemLayoutOk} :
  PageAllocatorSpec kmem_single := {| al_ok := KallocSingle.ok |}.
Proof.
  - apply KallocSingle.ok_valid.
  - apply KallocSingle.ok_frame.
  - intros s F Hok. eapply wp_mono; [by apply KallocSingle.kalloc_cases|].
    cbn beta. tauto.
  - apply KallocSingle.kfree_spec.
  - intros s p Hv. unfold kfree, single_allocator, KallocSingle.kfree.
    unfold valid_page in Hv. by destruct (kfree_bad p).
Defined.

(** [kinit]: [initlock] and [freerange(end, PHYSTOP)]. *)
Definition kinit_single `{MemLayout} : M (kstate kmem_single) unit :=
  freerange end_ PHYSTOP.

(** The state at boot: an empty list. *)
Definition boot_single (m : mem) : kstate kmem_single := KS m (KmemSingle 0).

Section properties.
Context `{MemLayout} `{!MemLayoutOk}.

(** after [kinit] the free list holds exactly the whole pages between the
    end of the kernel image and the top of RAM, each once. *)
Theorem kinit_single_frees_ram m :
  wp kinit_single (boot_single m) (fun _ s' =>
    exists F, KallocSingle.ok s' F /\ forall p, p ∈ F <-> whole_page end_ PHYSTOP p).
Proof.
  pose proof phystop_range. pose proof end_pos.
  unfold kinit_single. eapply wp_mono.
  { apply freerange_ok; try (unfold PGSIZE; lia). exists []. repeat constructor. }
  cbn beta. intros _ s' (F & HF & Hp). exists F. split; [exact HF|exact Hp].
Qed.

(** [infofreemem] terminates and reports the page size times the number of
    free pages, without changing any state. *)
Theorem infofreemem_counts_free_pages s F :
  KallocSingle.ok s F ->
  wp KallocSingle.infofreemem s (fun n s' =>
    n = u64 (PGSIZE * Z.of_nat (size F)) /\ s' = s).
Proof. apply KallocSingle.infofreemem_spec. Qed.

(** [kalloc] removes one page of the free set, hands it out filled with the
    junk byte 5 and leaves all other memory alone; it returns null exactly
    when no page is free, and then changes nothing. *)
Theorem kalloc_single_spec s F :
  KallocSingle.ok s F ->
  wp KallocSingle.kalloc s (fun r s' =>
    (r = 0 /\ F = ∅ /\ s' = s) \/
    (r ∈ F /\ KallocSingle.ok s' (F ∖ {[r]}) /\ same_outside r (kmem s) (kmem s') /\
     forall a, in_page r a -> ld8 (kmem s') a = 5)).
Proof. apply KallocSingle.kalloc_cases. Qed.
End properties.

(** ** Witnesses *)

(** Two free pages on the list of a machine with four pages of RAM. *)
Definition demo_pages : list Z := [0x80021000; 0x80020000].
Definition demo_single : kstate kmem_single :=
  let _ := virt_layout 4 in
  KS (push_mem (push_mem (fun _ => 0) 0x80020000 0) 0x80021000 0x80020000)
     (KmemSingle 0x80021000).

Lemma demo_single_ok :
  @KallocSingle.ok (virt_layout 4) demo_single (list_to_set demo_pages).
Proof.
  exists demo_pages. split; [|split; [|done]].
  - repeat split; vm_compute; reflexivity.
  - apply (bool_decide_unpack _). vm_compute. exact I.
Qed.

Lemma kinit_single_witness :
  let _ := virt_layout 4 in
  wp kinit_single (boot_single (fun _ => 0)) (fun _ s' =>
    exists F, KallocSingle.ok s' F /\ forall p, p ∈ F <-> whole_page end_ PHYSTOP p).
Proof.
  apply (@kinit_single_frees_ram (virt_layout 4)). apply virt_layout_ok. lia.
Defined.

Lemma infofreemem_witness :
  let _ := virt_layout 4 in
  wp KallocSingle.infofreemem demo_single (fun n s' =>
    n = u64 (PGSIZE * Z.of_nat (size (list_to_set demo_pages : gset Z))) /\ s' = demo_single).
Proof.
  apply (@infofreemem_counts_free_pages (virt_layout 4)).
  - apply virt_layout_ok. lia.
  - apply demo_single_ok.
Defined.

Lemma kalloc_single_witness :
  let _ := virt_layout 4 in
  let F : gset Z := list_to_set demo_pages in
  wp KallocSingle.kalloc demo_single (fun r s' =>
    (r = 0 /\ F = ∅ /\ s' = demo_single) \/
    (r ∈ F /\ KallocSingle.ok s' (F ∖ {[r]}) /\
     same_outside r (kmem demo_single) (kmem s') /\
     forall a, in_page r a -> ld8 (kmem s') a = 5)).
Proof.
  apply (@kalloc_single_spec (virt_layout 4)).
  - apply virt_layout_ok. lia.
  - apply demo_single_ok.
Defined.

(** On the concrete machine: two pages of 4096 bytes are reported free. *)
Example infofreemem_demo :
  let _ := virt_layout 4 in
  match KallocSingle.infofreemem demo_single with
  | Ok (n, _) => n = 8192
  | Fail _ => False
  end.
Proof. vm_compute. reflexivity. Qed.
