(* ===== verification/KallocPerCpu.v ===== *)
(** * The per-CPU page allocator (third experiment, [kalloc.c])

    Every CPU has its own free list and lock; [kalloc] falls back to the lists
    of the other CPUs when its own is empty. Each acquire/release pair protects
    one push or one pop, so a call is a sequence of atomic critical sections:
    [push_cs] and [pop_cs]. The file gives the sequential functions, proves the
    allocator contract for them, and then a step relation in which any number
    of threads interleave their critical sections. *)

From S2P Require Import Prelude.
From S2P Require Import Memory.
From S2P Require Import Riscv.
From S2P Require Import PageAlloc.
From S2P Require Import FreeList.

(** [struct kmem kmems[NCPU]] and the hart the code runs on ([tp]). *)
Record kmems : Type := Kmems { cpu : nat; freelists : list Z }.

(** [NCPU] of [param.h]. *)
Class CpuParams : Type := { NCPU : nat }.

Module KallocPerCpu.
Section ops.
Context `{MemLayout} `{CpuParams}.

Abbreviation K := (M (kstate kmems)).

(** The value [cpuid()] returns between [push_off] and [pop_off]. *)
Definition cpuid : K nat := gets (fun s => cpu (kal s)).

Definition set_list (id : nat) (p : Z) (s : kstate kmems) : kstate kmems :=
  KS (kmem s) (Kmems (cpu (kal s)) (<[id := p]> (freelists (kal s)))).

(** [&kmems[id]]: out of range is undefined. *)
Definition head (id : nat) : K Z := fun s =>
  match freelists (kal s) !! id with
  | Some p => Ok (p, s)
  | None => Fail (Undefined "kmems[id]")
  end.

(** [acquire; r->next = kmems[id].freelist; kmems[id].freelist = r; release] *)
Definition push_cs (id : nat) (r : Z) : K unit :=
  p ← head id;
  modify (fun s => ksetmem (st64 (kmem s) r p) s);;
  modify (set_list id r).

(** [acquire; r = kmems[id].freelist; if(r) kmems[id].freelist = r->next;
    release] *)
Definition pop_cs (id : nat) : K Z :=
  r ← head id;
  when (negb (r =? 0)) (modify (fun s => set_list id (ld64 (kmem s) r) s));;
  mret r.

Definition kfree (pa : Z) : K unit :=
  if kfree_bad pa then panic "kfree" else
  (* Fill with junk to catch dangling refs. *)
  modify (fun s => ksetmem (memset (kmem s) pa 1 PGSIZE) s);;
  let r := pa in
  cpu_id ← cpuid;
  push_cs cpu_id r.

(** The [for] loop over the other CPUs, from [id], with [n] CPUs left. *)
Fixpoint steal_loop (n : nat) (cpu_id id : nat) : K Z :=
  match n with
  | O => mret 0
  | S n' =>
      if (id =? cpu_id)%nat then steal_loop n' cpu_id (S id)
      else
        r ← pop_cs id;
        if negb (r =? 0) then
          modify (fun s => ksetmem (memset (kmem s) r 5 PGSIZE) s);;
          mret r
        else steal_loop n' cpu_id (S id)
  end.

Definition kalloc : K Z :=
  cpu_id ← cpuid;
  r ← pop_cs cpu_id;
  if negb (r =? 0) then
    modify (fun s => ksetmem (memset (kmem s) r 5 PGSIZE) s);; (* fill with junk *)
    mret r
  else steal_loop NCPU cpu_id 0.
End ops.

Section lists.
Context `{MemLayout} `{!MemLayoutOk}.

(** The chains of all CPUs. *)
Definition chains (s : kstate kmems) (ls : list (list Z)) : Prop :=
  Forall2 (free_list (kmem s)) (freelists (kal s)) ls.

Lemma chains_valid s ls x : chains s ls -> x ∈ concat ls -> valid_page x.
Proof.
  intros HF (l & Hl & Hx)%elem_of_concat.
  apply list_elem_of_lookup in Hl as [i Hi].
  destruct (Forall2_lookup_r _ _ _ _ _ HF Hi) as (p & _ & HL).
  by eapply free_list_valid.
Qed.

Lemma chains_inj s ls ls' : chains s ls -> chains s ls' -> ls = ls'.
Proof.
  unfold chains. intros HF. revert ls'.
  induction HF as [|p l ps ls HL HF IH]; intros ls' HF'; inversion HF' as [|? l' ? ? HL' HF'']; subst; [done|].
  f_equal; [by eapply free_list_inj|]. by apply IH.
Qed.

Lemma chains_frame s ls m' :
  chains s ls ->
  (forall x a, x ∈ concat ls -> in_page x a -> ld8 m' a = ld8 (kmem s) a) ->
  chains (ksetmem m' s) ls.
Proof.
  unfold chains. cbn. intros HF. induction HF as [|p l ps ls HL HF IH]; intros Hf.
  { constructor. }
  constructor.
  - eapply free_list_frame; [|exact HL]. intros x a Hx. apply Hf.
    cbn. apply elem_of_app. by left.
  - apply IH. intros x a Hx. apply Hf. cbn. apply elem_of_app. by right.
Qed.

(** Writing a page that is on no list disturbs no list. *)
Lemma chains_memset s ls p c :
  chains s ls -> valid_page p -> p ∉ concat ls ->
  chains (ksetmem (memset (kmem s) p c PGSIZE) s) ls.
Proof.
  intros HF Hv Hn. apply chains_frame; [done|]. intros x a Hx Ha.
  apply ld8_memset_out. apply (pages_disjoint x p); [| | |done].
  - eapply valid_page_aligned, chains_valid; eauto.
  - by apply valid_page_aligned.
  - intros ->. done.
Qed.

Lemma wp_head s id p (Q : Z -> kstate kmems -> Prop) :
  freelists (kal s) !! id = Some p -> Q p s -> wp (head id) s Q.
Proof. intros Hp HQ. unfold wp, head. by rewrite Hp. Qed.

(** Popping: either the list of CPU [id] is empty and nothing changes, or its
    first page leaves it. *)
Lemma pop_cs_spec s ls id :
  chains s ls -> (id < length ls)%nat ->
  wp (pop_cs id) s (fun r s' =>
    (r = 0 /\ ls !! id = Some [] /\ s' = s) \/
    (exists l, r <> 0 /\ valid_page r /\ ls !! id = Some (r :: l) /\
       chains s' (<[id := l]> ls) /\ kmem s' = kmem s /\
       cpu (kal s') = cpu (kal s) /\
       length (freelists (kal s')) = length (freelists (kal s)))).
Proof.
  intros HF Hid. destruct (lookup_lt_is_Some_2 ls id Hid) as [l Hl].
  destruct (Forall2_lookup_r _ _ _ _ _ HF Hl) as (p & Hp & HL).
  unfold pop_cs. apply wp_bind. apply (wp_head _ _ _ _ Hp).
  destruct l as [|x l].
  - simpl in HL. subst p. left. done.
  - destruct HL as (-> & Hv & HL). pose proof (valid_page_range _ Hv).
    destruct (Z.eqb_spec x 0) as [|_]; [lia|]. right. exists l. cbn.
    rewrite length_insert. split_and!; try done; [lia|].
    by apply Forall2_insert.
Qed.

(** Pushing a page that is on no list puts it in front of list [id]. *)
Lemma push_cs_spec s ls id p :
  chains s ls -> (id < length ls)%nat -> valid_page p -> p ∉ concat ls ->
  wp (push_cs id p) s (fun _ s' =>
    exists l, ls !! id = Some l /\ chains s' (<[id := p :: l]> ls) /\
      same_outside p (kmem s) (kmem s') /\ cpu (kal s') = cpu (kal s) /\
      length (freelists (kal s')) = length (freelists (kal s))).
Proof.
  intros HF Hid Hv Hn. destruct (lookup_lt_is_Some_2 ls id Hid) as [l Hl].
  destruct (Forall2_lookup_r _ _ _ _ _ HF Hl) as (q & Hq & HL).
  unfold push_cs. apply wp_bind. apply (wp_head _ _ _ _ Hq). wp_pure. cbn.
  exists l. rewrite length_insert. split_and!; try done.
  - pose proof (chains_frame s ls (st64 (kmem s) p q) HF) as HF'.
    assert (Hag : forall x a, x ∈ concat ls -> in_page x a ->
              ld8 (st64 (kmem s) p q) a = ld8 (kmem s) a).
    { intros x a Hx Ha. apply ld8_st_le_out.
      assert (~ in_page p a); [|unfold in_page, PGSIZE in *; lia].
      apply (pages_disjoint x p); [| | |done].
      - eapply valid_page_aligned, chains_valid; eauto.
      - by apply valid_page_aligned.
      - intros ->. done. }
    apply Forall2_insert; [by apply HF'|]. split; [done|]. split; [done|]. cbn.
    rewrite ld_st64 by (by eapply free_list_ptr_range).
    eapply free_list_frame; [|exact HL]. intros x a Hx. apply Hag.
    apply elem_of_concat. exists l. split; [|done]. by eapply list_elem_of_lookup_2.
  - intros a Ha. apply ld8_st_le_out. unfold in_page, PGSIZE in *. lia.
Qed.
End lists.

Section contract.
Context `{MemLayout} `{!MemLayoutOk} `{CpuParams}.

Definition percpu_ok (s : kstate kmems) (F : gset Z) : Prop :=
  exists ls, chains s ls /\ NoDup (concat ls) /\ F = list_to_set (concat ls) /\
    (cpu (kal s) < NCPU)%nat /\ length (freelists (kal s)) = NCPU.

(** Page [r] left the lists [ls] and was handed out, filled with junk. *)
Definition taken (s : kstate kmems) (ls : list (list Z)) (r : Z) (s' : kstate kmems) : Prop :=
  exists ls', concat ls ≡ₚ r :: concat ls' /\ chains s' ls' /\
    same_outside r (kmem s) (kmem s') /\
    (forall a, in_page r a -> ld8 (kmem s') a = 5) /\
    cpu (kal s') = cpu (kal s) /\
    length (freelists (kal s')) = length (freelists (kal s)).

(** A successful pop followed by the junk fill hands the page out. *)
Lemma pop_fill_taken s ls id r l s' :
  NoDup (concat ls) ->
  r <> 0 -> valid_page r -> ls !! id = Some (r :: l) ->
  chains s' (<[id := l]> ls) -> kmem s' = kmem s ->
  cpu (kal s') = cpu (kal s) ->
  length (freelists (kal s')) = length (freelists (kal s)) ->
  taken s ls r (ksetmem (memset (kmem s') r 5 PGSIZE) s').
Proof.
  intros Hnd Hr Hv Hl HF Hm Hc Hlen. pose proof (concat_pop ls id r l Hl) as Hp.
  rewrite Hp in Hnd. apply NoDup_cons in Hnd as [Hn Hnd].
  exists (<[id := l]> ls). cbn. split_and!; try done.
  - by apply chains_memset.
  - intros a Ha. rewrite Hm. by apply ld8_memset_out.
  - intros a Ha. by apply ld8_memset_in.
Qed.

(** The scan finds a page on the lists from [id] on if there is one; CPUs
    below [id] and the caller's own were seen empty. *)
Lemma steal_loop_spec n cpu_id id s ls :
  chains s ls -> NoDup (concat ls) -> length ls = (id + n)%nat ->
  (forall i l, ls !! i = Some l -> (i < id)%nat \/ i = cpu_id -> l = []) ->
  wp (steal_loop n cpu_id id) s (fun r s' =>
    (r = 0 /\ concat ls = [] /\ s' = s) \/ (r <> 0 /\ taken s ls r s')).
Proof.
  revert id. induction n as [|n IH]; intros id HF Hnd Hlen Hemp; cbn [steal_loop].
  - apply wp_ret. left. split_and!; try done. apply concat_all_nil. intros i l Hi.
    eapply Hemp; [done|]. apply lookup_lt_Some in Hi. lia.
  - destruct (Nat.eqb_spec id cpu_id) as [->|Hne].
    + apply IH; [done|done|lia|]. intros i l Hi [Hlt| ->]; eapply Hemp; eauto; lia.
    + apply wp_bind. eapply wp_mono; [apply (pop_cs_spec s ls id HF); lia|].
      cbn beta. intros r s' [(-> & Hl & ->)|(l & Hr & Hv & Hl & HF' & Hm & Hc & Hlf)].
      * cbn. apply IH; [done|done|lia|]. intros i l Hi [Hlt|Heq].
        -- destruct (decide (i = id)) as [->|]; [congruence|].
           eapply Hemp; [done|]. lia.
        -- eapply Hemp; eauto.
      * destruct (Z.eqb_spec r 0) as [|_]; [done|]. wp_pure. right. split; [done|].
        by eapply pop_fill_taken.
Qed.

Lemma kalloc_percpu_taken s ls :
  chains s ls -> NoDup (concat ls) -> (cpu (kal s) < NCPU)%nat -> length ls = NCPU ->
  wp kalloc s (fun r s' =>
    (r = 0 /\ concat ls = [] /\ s' = s) \/ (r <> 0 /\ taken s ls r s')).
Proof.
  intros HF Hnd Hc Hlen. unfold kalloc, cpuid. apply wp_bind, wp_gets, wp_bind.
  eapply wp_mono; [apply (pop_cs_spec s ls _ HF); lia|].
  cbn beta. intros r s' [(-> & Hl & ->)|(l & Hr & Hv & Hl & HF' & Hm & Hcp & Hlf)].
  - cbn. apply steal_loop_spec; [done|done|lia|].
    intros i l Hi [Hlt|Heq]; [lia|]. subst. congruence.
  - destruct (Z.eqb_spec r 0) as [|_]; [done|]. wp_pure. right. split; [done|].
    by eapply pop_fill_taken.
Qed.

Lemma percpu_kalloc_cases s F :
  percpu_ok s F ->
  wp kalloc s (fun r s' =>
    (r = 0 /\ F = ∅ /\ s' = s) \/
    (r ∈ F /\ percpu_ok s' (F ∖ {[r]}) /\ same_outside r (kmem s) (kmem s') /\
     forall a, in_page r a -> ld8 (kmem s') a = 5)).
Proof.
  intros (ls & HF & Hnd & -> & Hc & Hlen). eapply wp_mono.
  { apply (kalloc_percpu_taken s ls HF Hnd Hc). rewrite <- Hlen. symmetry.
    by eapply Forall2_length. }
  cbn beta. intros r s' [(-> & He & ->)|(Hr & ls' & Hp & HF' & Hso & Hfill & Hc' & Hl')].
  - left. rewrite He. done.
  - right. rewrite Hp in Hnd. apply NoDup_cons in Hnd as [Hn Hnd].
    assert (HFr : list_to_set (concat ls) = ({[r]} ∪ list_to_set (concat ls') : gset Z)).
    { by rewrite Hp. }
    rewrite HFr. split; [set_solver|]. split; [|done].
    exists ls'. split_and!; try done; [set_solver|lia|lia].
Qed.

Lemma percpu_kfree_spec s F p :
  percpu_ok s F -> valid_page p -> p ∉ F ->
  wp (kfree p) s (fun _ s' =>
    percpu_ok s' ({[p]} ∪ F) /\ same_outside p (kmem s) (kmem s')).
Proof.
  intros (ls & HF & Hnd & -> & Hc & Hlen) Hv Hn.
  rewrite elem_of_list_to_set in Hn.
  unfold kfree. rewrite Hv. unfold cpuid. wp_pure.
  pose proof (chains_memset s ls p 1 HF Hv Hn) as HF1.
  eapply wp_mono.
  { apply (push_cs_spec _ ls); [exact HF1| |done|done]. cbn.
    rewrite <- (Forall2_length _ _ _ HF). lia. }
  cbn beta. intros _ s' (l & Hl & HF' & Hso & Hc' & Hl'). split.
  - exists (<[cpu (kal s) := p :: l]> ls). pose proof (concat_push ls _ p l Hl) as Hp.
    split_and!; try done.
    + rewrite Hp. by constructor.
    + by rewrite Hp.
    + cbn in Hc'. lia.
    + cbn in Hl'. lia.
  - intros a Ha. rewrite (Hso a Ha). by apply ld8_memset_out.
Qed.
End contract.
End KallocPerCpu.

#[export] Instance percpu_allocator `{MemLayout} `{CpuParams} : PageAllocator kmems := {|
  kalloc := KallocPerCpu.kalloc;
  kfree := KallocPerCpu.kfree;
|}.

(** The per-CPU allocator keeps the same contract as the single-list one. *)
#[export, refine] Instance percpu_allocator_spec
  `{MemLayout} `{!MemLayoutOk} `{CpuParams} :
  PageAllocatorSpec kmems := {| al_ok := KallocPerCpu.percpu_ok |}.
Proof.
  - intros s F p (ls & HF & _ & -> & _) Hp. eapply KallocPerCpu.chains_valid; [done|].
    by apply elem_of_list_to_set in Hp.
  - intros s F m' (ls & HF & Hnd & -> & Hc & Hl) Hf. exists ls. split_and!; try done.
    apply KallocPerCpu.chains_frame; [done|]. intros x a Hx. apply Hf.
    by apply elem_of_list_to_set.
  - intros s F Hok. eapply wp_mono; [by apply KallocPerCpu.percpu_kalloc_cases|].
    cbn beta. tauto.
  - apply KallocPerCpu.percpu_kfree_spec.
  - intros s p Hv. unfold kfree, percpu_allocator, KallocPerCpu.kfree.
    unfold valid_page in Hv. by destruct (kfree_bad p).
Defined.

(** [kinit]: initialise the locks, then [freerange(end, PHYSTOP)] on the boot
    CPU. *)
Definition kinit_percpu `{MemLayout} `{CpuParams} : M (kstate kmems) unit :=
  freerange end_ PHYSTOP.

(** The state at boot on CPU [c]: every list empty. *)
Definition boot_percpu `{CpuParams} (m : mem) (c : nat) : kstate kmems :=
  KS m (Kmems c (replicate NCPU 0)).

Section properties.
Context `{MemLayout} `{!MemLayoutOk} `{CpuParams}.

(** on whichever CPU [kinit] runs, it leaves exactly the whole pages between
    the end of the kernel image and the top of RAM on the free lists. *)
Theorem kinit_percpu_frees_ram m c :
  (c < NCPU)%nat ->
  wp kinit_percpu (boot_percpu m c) (fun _ s' =>
    exists F, KallocPerCpu.percpu_ok s' F /\ forall p, p ∈ F <-> whole_page end_ PHYSTOP p).
Proof.
  intros Hc. pose proof phystop_range. pose proof end_pos.
  unfold kinit_percpu. eapply wp_mono.
  { apply freerange_ok; try (unfold PGSIZE; lia).
    exists (replicate NCPU []). unfold KallocPerCpu.chains, boot_percpu. cbn.
    assert (concat (replicate NCPU []) = ([] : list Z)) as ->.
    { apply concat_all_nil. intros i l Hl. by apply lookup_replicate in Hl as [-> _]. }
    split_and!; try done; [|constructor|by rewrite length_replicate].
    apply Forall2_replicate. done. }
  cbn beta. intros _ s' (F & HF & Hp). exists F. split; [exact HF|exact Hp].
Qed.

(** C26: [kalloc] takes a page from the caller's list or, when that is empty, from
    another CPU's; it fills the page with junk and touches no other memory.
    It returns null only when the lists of all CPUs are empty. *)
Theorem kalloc_percpu_spec s F :
  KallocPerCpu.percpu_ok s F ->
  wp KallocPerCpu.kalloc s (fun r s' =>
    (r = 0 /\ F = ∅ /\ s' = s) \/
    (r ∈ F /\ KallocPerCpu.percpu_ok s' (F ∖ {[r]}) /\
     same_outside r (kmem s) (kmem s') /\
     forall a, in_page r a -> ld8 (kmem s') a = 5)).
Proof. apply KallocPerCpu.percpu_kalloc_cases. Qed.
End properties.

(** ** Witnesses: three CPUs, the free page on the list of CPU 2. *)

Definition three_cpus : CpuParams := {| NCPU := 3 |}.
Definition demo_percpu : kstate kmems :=
  KS (push_mem (fun _ => 0) 0x80020000 0) (Kmems 0 [0; 0; 0x80020000]).

Lemma kinit_percpu_witness :
  let _ := virt_layout 4 in let _ := three_cpus in
  wp kinit_percpu (boot_percpu (fun _ => 0) 1) (fun _ s' =>
    exists F, KallocPerCpu.percpu_ok s' F /\ forall p, p ∈ F <-> whole_page end_ PHYSTOP p).
Proof.
  apply (@kinit_percpu_frees_ram (virt_layout 4) (virt_layout_ok 4 ltac:(lia)) three_cpus).
  vm_compute. lia.
Defined.

Lemma kalloc_percpu_witness :
  let _ := virt_layout 4 in let _ := three_cpus in
  wp KallocPerCpu.kalloc demo_percpu (fun r s' =>
    (r = 0 /\ ({[0x80020000]} : gset Z) = ∅ /\ s' = demo_percpu) \/
    (r ∈ ({[0x80020000]} : gset Z) /\
     KallocPerCpu.percpu_ok s' ({[0x80020000]} ∖ {[r]}) /\
     same_outside r (kmem demo_percpu) (kmem s') /\
     forall a, in_page r a -> ld8 (kmem s') a = 5)).
Proof.
  apply (@kalloc_percpu_spec (virt_layout 4) (virt_layout_ok 4 ltac:(lia)) three_cpus).
  exists [[]; []; [0x80020000]]. split; [repeat constructor|].
  split; [apply (bool_decide_unpack _); vm_compute; exact I|].
  split; [apply (bool_decide_unpack _); vm_compute; exact I|].
  split; vm_compute; [lia|reflexivity].
Defined.
