(* ===== verification/KallocConcurrent.v ===== *)
(** * Threads racing in the per-CPU allocator (third experiment, [kalloc.c])

    Interrupts may move a thread to another CPU after it has read [cpuid()], and
    other CPUs run their own [kalloc] and [kfree] between two critical sections.
    A world is the shared state and one program counter per thread; a step is
    one critical section, or one private action, of one thread. *)

From S2P Require Import Prelude.
From S2P Require Import Memory.
From S2P Require Import Riscv.
From S2P Require Import PageAlloc.
From S2P Require Import FreeList.
From S2P Require Import KallocPerCpu.

Module KallocConcurrent.
Import KallocPerCpu.

(** Where a thread stands in [kfree] or [kalloc]. *)
Inductive pc : Type :=
| Idle
| FreeFill (pa : Z)            (** past the guard of [kfree] *)
| FreePush (id : nat) (pa : Z) (** [cpuid()] was [id], about to lock *)
| AllocOwn (id : nat)          (** [cpuid()] was [id], about to lock it *)
| AllocScan (cpu_id id : nat)  (** in the loop over the other CPUs *)
| AllocFill (r : Z).           (** holds [r], about to fill it with junk *)

Record thread : Type := Thread { t_pc : pc; t_own : list Z }.
Record world : Type := World { shared : kstate kmems; threads : list thread }.

Definition pc_pages (c : pc) : list Z :=
  match c with
  | FreeFill pa | FreePush _ pa => [pa]
  | AllocFill r => [r]
  | _ => []
  end.

(** The pages a thread holds: those it owns and the one in flight. *)
Definition pages_of (t : thread) : list Z := pc_pages (t_pc t) ++ t_own t.
Definition held (ts : list thread) : list Z := concat (map pages_of ts).

Section steps.
Context `{MemLayout} `{CpuParams}.

Inductive step : world -> world -> Prop :=
| step_free_call s ts i o1 pa o2 :
    ts !! i = Some (Thread Idle (o1 ++ pa :: o2)) -> kfree_bad pa = false ->
    step (World s ts) (World s (<[i := Thread (FreeFill pa) (o1 ++ o2)]> ts))
| step_free_fill s ts i pa o id :
    ts !! i = Some (Thread (FreeFill pa) o) -> (id < NCPU)%nat ->
    step (World s ts)
      (World (ksetmem (memset (kmem s) pa 1 PGSIZE) s) (<[i := Thread (FreePush id pa) o]> ts))
| step_free_push s ts i id pa o s' :
    ts !! i = Some (Thread (FreePush id pa) o) -> push_cs id pa s = Ok (tt, s') ->
    step (World s ts) (World s' (<[i := Thread Idle o]> ts))
| step_alloc_call s ts i o id :
    ts !! i = Some (Thread Idle o) -> (id < NCPU)%nat ->
    step (World s ts) (World s (<[i := Thread (AllocOwn id) o]> ts))
| step_alloc_own s ts i id o r s' :
    ts !! i = Some (Thread (AllocOwn id) o) -> pop_cs id s = Ok (r, s') ->
    step (World s ts)
      (World s' (<[i := Thread (if r =? 0 then AllocScan id 0 else AllocFill r) o]> ts))
| step_scan_own s ts i id o :
    ts !! i = Some (Thread (AllocScan id id) o) -> (id < NCPU)%nat ->
    step (World s ts) (World s (<[i := Thread (AllocScan id (S id)) o]> ts))
| step_scan s ts i cpu_id id o r s' :
    ts !! i = Some (Thread (AllocScan cpu_id id) o) -> id <> cpu_id -> (id < NCPU)%nat ->
    pop_cs id s = Ok (r, s') ->
    step (World s ts)
      (World s' (<[i := Thread (if r =? 0 then AllocScan cpu_id (S id) else AllocFill r) o]> ts))
| step_scan_end s ts i cpu_id o :
    ts !! i = Some (Thread (AllocScan cpu_id NCPU) o) ->
    step (World s ts) (World s (<[i := Thread Idle o]> ts))
| step_alloc_fill s ts i r o :
    ts !! i = Some (Thread (AllocFill r) o) ->
    step (World s ts)
      (World (ksetmem (memset (kmem s) r 5 PGSIZE) s) (<[i := Thread Idle (r :: o)]> ts))
| step_use s ts i c o pa m' :
    (* the owner of a page writes it *)
    ts !! i = Some (Thread c o) -> pa ∈ o -> same_outside pa (kmem s) m' ->
    step (World s ts) (World (ksetmem m' s) ts).

Context `{!MemLayoutOk}.

Definition pc_ok (c : pc) : Prop :=
  match c with
  | FreePush id _ | AllocOwn id => (id < NCPU)%nat
  | AllocScan _ id => (id <= NCPU)%nat
  | _ => True
  end.

(** Every page of [pages] is in exactly one place: on one list, owned by one
    thread, or in flight in one thread. *)
Definition inv (pages : list Z) (w : world) : Prop :=
  NoDup pages /\ Forall valid_page pages /\
  Forall (fun t => pc_ok (t_pc t)) (threads w) /\
  exists ls, chains (shared w) ls /\ length ls = NCPU /\
    pages ≡ₚ held (threads w) ++ concat ls.

Lemma held_lookup ts i t x : ts !! i = Some t -> x ∈ pages_of t -> x ∈ held ts.
Proof.
  intros Hi Hx. apply elem_of_concat. exists (pages_of t). split; [|done].
  apply list_elem_of_fmap. exists t. split; [done|]. by eapply list_elem_of_lookup_2.
Qed.

(** Replacing one thread replaces its pages. *)
Lemma held_insert ts i t t' :
  ts !! i = Some t -> exists R, held ts ≡ₚ pages_of t ++ R /\
    held (<[i := t']> ts) ≡ₚ pages_of t' ++ R.
Proof.
  revert i. induction ts as [|u ts IH]; intros [|i] Hi; simplify_eq/=.
  - exists (held ts). done.
  - destruct (IH i Hi) as (R & Ha & Hb). exists (pages_of u ++ R). unfold held in *.
    cbn. rewrite Ha, Hb. split; apply Permutation_app_swap_app.
Qed.

(** A page in [l1] of a partition is not in [l2]. *)
Lemma partition_disjoint (pages l1 l2 : list Z) x :
  NoDup pages -> pages ≡ₚ l1 ++ l2 -> x ∈ l1 -> x ∉ l2.
Proof. intros Hnd Hp Hx. rewrite Hp in Hnd. apply NoDup_app in Hnd. naive_solver. Qed.

Lemma inv_page pages w x :
  inv pages w -> x ∈ held (threads w) ->
  valid_page x /\ forall ls, chains (shared w) ls -> x ∉ concat ls.
Proof.
  intros (Hnd & Hv & _ & ls & HF & _ & Hp) Hx. split.
  - eapply Forall_forall; [exact Hv|]. rewrite Hp. apply elem_of_app. by left.
  - intros ls' HF'. replace ls' with ls; [by eapply partition_disjoint|].
    by eapply chains_inj.
Qed.

(** One thread moves from [t] to [t'] and the lists from [ls] to [ls'],
    keeping the pages they hold together. *)
Lemma inv_update pages ts i t t' s' ls ls' :
  NoDup pages -> Forall valid_page pages ->
  Forall (fun t => pc_ok (t_pc t)) ts ->
  pages ≡ₚ held ts ++ concat ls ->
  ts !! i = Some t -> pc_ok (t_pc t') ->
  chains s' ls' -> length ls' = NCPU ->
  pages_of t' ++ concat ls' ≡ₚ pages_of t ++ concat ls ->
  inv pages (World s' (<[i := t']> ts)).
Proof.
  intros Hnd Hv Hpc Hp Hi Hpc' HF Hlen Heq.
  destruct (held_insert ts i t t' Hi) as (R & Ha & Hb).
  split; [done|]. split; [done|]. split; [by apply Forall_insert|].
  exists ls'. split_and!; try done. cbn. rewrite Hp, Ha, Hb.
  rewrite <- !app_assoc, !(Permutation_app_comm R), !app_assoc. by rewrite Heq.
Qed.

(** The steps that only move a program counter. *)
Lemma inv_local pages s ts i t t' :
  inv pages (World s ts) -> ts !! i = Some t -> pc_ok (t_pc t') ->
  pages_of t' ≡ₚ pages_of t -> inv pages (World s (<[i := t']> ts)).
Proof.
  intros (Hnd & Hv & Hpc & ls & HF & Hlen & Hp) Hi Hpc' Heq.
  eapply inv_update; eauto. by rewrite Heq.
Qed.

(** The steps that fill a page the thread holds. *)
Lemma inv_fill pages s ts i t t' x c :
  inv pages (World s ts) -> ts !! i = Some t -> pc_ok (t_pc t') ->
  pages_of t' ≡ₚ pages_of t -> x ∈ pages_of t ->
  inv pages (World (ksetmem (memset (kmem s) x c PGSIZE) s) (<[i := t']> ts)).
Proof.
  intros Hinv Hi Hpc' Heq Hx.
  destruct (inv_page _ _ x Hinv (held_lookup _ _ _ _ Hi Hx)) as [Hvx Hnx].
  destruct Hinv as (Hnd & Hv & Hpc & ls & HF & Hlen & Hp).
  eapply inv_update; eauto; [|by rewrite Heq].
  apply chains_memset; eauto.
Qed.

(** The steps that pop a list: a page moves to the thread, or nothing does. *)
Lemma inv_pop pages s ts i o id c0 c r s' :
  inv pages (World s ts) -> ts !! i = Some (Thread c0 o) ->
  pc_pages c0 = [] -> pc_ok c -> pc_pages c = [] ->
  (id < NCPU)%nat -> pop_cs id s = Ok (r, s') ->
  inv pages (World s' (<[i := Thread (if r =? 0 then c else AllocFill r) o]> ts)).
Proof.
  intros (Hnd & Hv & Hpc & ls & HF & Hlen & Hp) Hi Hc0 Hpc' Hc Hid Hpop. cbn in *.
  pose proof (pop_cs_spec s ls id HF ltac:(lia)) as Hw. unfold wp in Hw.
  rewrite Hpop in Hw.
  destruct Hw as [(-> & Hl & ->)|(l & Hr & Hvr & Hl & HF' & _)].
  - cbn. eapply inv_update; eauto. unfold pages_of. cbn. by rewrite Hc, Hc0.
  - destruct (Z.eqb_spec r 0) as [|_]; [done|].
    eapply inv_update; eauto; [done|by rewrite length_insert|].
    unfold pages_of. cbn. rewrite Hc0, (concat_pop ls id r l Hl). cbn.
    by rewrite Permutation_middle.
Qed.

Lemma inv_step pages w w' : step w w' -> inv pages w -> inv pages w'.
Proof.
  intros Hs Hinv. destruct Hs.
  - eapply inv_local; eauto; [done|]. unfold pages_of. cbn. by rewrite Permutation_middle.
  - eapply inv_fill; eauto. unfold pages_of. cbn. set_solver.
  - destruct Hinv as (Hnd & Hv & Hpc & ls & HF & Hlen & Hp).
    assert (Hin : pa ∈ held ts) by (eapply held_lookup; eauto; unfold pages_of; set_solver).
    pose proof (Forall_lookup_1 _ _ _ _ Hpc ltac:(eassumption)) as Hid. cbn in Hid.
    assert (Hvp : valid_page pa).
    { eapply Forall_forall; [exact Hv|]. rewrite Hp. set_solver. }
    assert (Hnp : pa ∉ concat ls) by (by eapply partition_disjoint).
    pose proof (push_cs_spec s ls id pa HF ltac:(lia) Hvp Hnp) as Hw. unfold wp in Hw.
    match goal with E : push_cs _ _ _ = _ |- _ => rewrite E in Hw end.
    destruct Hw as (l & Hl & HF' & _).
    eapply inv_update; eauto; [done|by rewrite length_insert|].
    unfold pages_of. cbn. rewrite (concat_push ls id pa l Hl).
    by rewrite Permutation_middle.
  - eapply inv_local; eauto.
  - eapply inv_pop; eauto; [apply Nat.le_0_l|].
    destruct Hinv as (_ & _ & Hpc & _).
    by pose proof (Forall_lookup_1 _ _ _ _ Hpc ltac:(eassumption)).
  - eapply inv_local; eauto.
  - eapply inv_pop; eauto.
  - eapply inv_local; eauto; done.
  - eapply inv_fill; eauto; try done. unfold pages_of. cbn. set_solver.
  - destruct (inv_page _ _ pa Hinv) as [Hvx Hnx].
    { eapply held_lookup; eauto. unfold pages_of. set_solver. }
    destruct Hinv as (Hnd & Hv & Hpc & ls & HF & Hlen & Hp).
    split_and!; try done. exists ls. split_and!; try done. cbn.
    apply chains_frame; [done|]. intros x a Hx Ha.
    match goal with E : same_outside _ _ _ |- _ => apply E end.
    apply (pages_disjoint x pa); [| | |done].
    + eapply valid_page_aligned, chains_valid; eauto.
    + by apply valid_page_aligned.
    + intros ->. by eapply Hnx.
Qed.

Lemma inv_reachable pages w w' : rtc step w w' -> inv pages w -> inv pages w'.
Proof. induction 1; eauto using inv_step. Qed.

(** The scan of [kalloc], run without interruption, is a run of the thread. *)
Lemma steal_loop_run n cpu_id id s r s' ts i o :
  steal_loop n cpu_id id s = Ok (r, s') -> (id + n)%nat = NCPU ->
  ts !! i = Some (Thread (AllocScan cpu_id id) o) ->
  rtc step (World s ts)
    (World s' (<[i := Thread Idle (if r =? 0 then o else r :: o)]> ts)).
Proof.
  revert id s ts. induction n as [|n IH]; intros id s ts Hrun Hn Hi; cbn [steal_loop] in Hrun.
  - inversion Hrun; subst. eapply rtc_l; [|apply rtc_refl].
    eapply (step_scan_end _ _ _ cpu_id). replace NCPU with id by lia. done.
  - pose proof (lookup_lt_Some _ _ _ Hi) as Hlt.
    destruct (Nat.eqb_spec id cpu_id) as [<-|Hne].
    + eapply rtc_l; [eapply step_scan_own; [done|lia]|].
      specialize (IH _ _ (<[i := Thread (AllocScan id (S id)) o]> ts) Hrun ltac:(lia)).
      rewrite list_insert_insert_eq in IH. apply IH. by apply list_lookup_insert_eq.
    + apply bind_Ok in Hrun as (r0 & s0 & Hpop & Hrun).
      eapply rtc_l; [eapply step_scan; [done|done|lia|done]|].
      destruct (Z.eqb_spec r0 0) as [->|Hr0]; cbn in Hrun.
      * specialize (IH _ _ (<[i := Thread (AllocScan cpu_id (S id)) o]> ts) Hrun ltac:(lia)).
        rewrite list_insert_insert_eq in IH. apply IH. by apply list_lookup_insert_eq.
      * inversion Hrun; subst. eapply rtc_l; [|apply rtc_refl].
        destruct (Z.eqb_spec r 0) as [|_]; [done|].
        rewrite <- (list_insert_insert_eq ts i (Thread Idle (r :: o)) (Thread (AllocFill r) o)).
        apply step_alloc_fill. by apply list_lookup_insert_eq.
Qed.

(** C11: whatever the interleaving of any number of threads allocating, freeing
    and using pages, every page is in exactly one place: no page is on a free
    list while a thread holds it, none is held by two threads or listed twice,
    and no page is lost or created. *)
Theorem kalloc_race_free pages w w' :
  inv pages w -> rtc step w w' ->
  exists ls, chains (shared w') ls /\ pages ≡ₚ held (threads w') ++ concat ls /\
    NoDup (held (threads w') ++ concat ls).
Proof.
  intros Hinv Hr. destruct (inv_reachable _ _ _ Hr Hinv) as (Hnd & _ & _ & ls & HF & _ & Hp).
  exists ls. split_and!; try done. by rewrite <- Hp.
Qed.

(** no thread inside [kalloc] or [kfree] is ever stuck: whatever the other
    threads have done, its next critical section or private action is
    defined. *)
Theorem kalloc_threads_progress pages w w' i c o :
  (0 < NCPU)%nat -> inv pages w -> rtc step w w' ->
  threads w' !! i = Some (Thread c o) -> c <> Idle ->
  exists s'' t', step w' (World s'' (<[i := t']> (threads w'))).
Proof.
  intros HN Hinv Hr Hi Hc. apply (inv_reachable _ _ _ Hr) in Hinv as Hinv'.
  assert (Hh : forall x, x ∈ pc_pages c -> x ∈ held (threads w')).
  { intros x Hx. eapply held_lookup; [done|]. unfold pages_of. cbn. set_solver. }
  pose proof (fun x Hx => inv_page _ _ x Hinv' (Hh x Hx)) as Hpg. clear Hh.
  destruct w' as [s ts]. destruct Hinv' as (Hnd & Hv & Hpc & ls & HF & Hlen & Hp).
  cbn in *. pose proof (Forall_lookup_1 _ _ _ _ Hpc Hi) as Hok. cbn in Hok.
  destruct c as [|pa|id pa|id|cpu_id id|r]; cbn in Hok; [done| | | | |].
  - do 2 eexists. by eapply step_free_fill.
  - destruct (Hpg pa) as [Hvp Hnp]; [set_solver|].
    destruct (wp_elim _ _ _ (push_cs_spec s ls id pa HF ltac:(lia) Hvp (Hnp _ HF)))
      as ([] & s' & E & _).
    do 2 eexists. by eapply step_free_push.
  - destruct (wp_elim _ _ _ (pop_cs_spec s ls id HF ltac:(lia))) as (r & s' & E & _).
    do 2 eexists. by eapply step_alloc_own.
  - destruct (decide (id = NCPU)) as [->|Hn]; [do 2 eexists; by eapply step_scan_end|].
    destruct (decide (id = cpu_id)) as [->|Hne].
    { do 2 eexists. eapply step_scan_own; [done|lia]. }
    destruct (wp_elim _ _ _ (pop_cs_spec s ls id HF ltac:(lia))) as (r & s' & E & _).
    do 2 eexists. eapply step_scan; [done|done|lia|done].
  - do 2 eexists. by eapply step_alloc_fill.
Qed.

(** the sequential [kalloc] is one schedule of the concurrent system: a
    thread that runs the call without interruption ends with the same memory
    and the same lists, and owns the page that [kalloc] returns (none when it
    returns null). *)
Theorem kalloc_is_a_schedule s r s' ts i o :
  KallocPerCpu.kalloc s = Ok (r, s') -> (cpu (kal s) < NCPU)%nat ->
  ts !! i = Some (Thread Idle o) ->
  rtc step (World s ts)
    (World s' (<[i := Thread Idle (if r =? 0 then o else r :: o)]> ts)).
Proof.
  intros Hrun Hc Hi. pose proof (lookup_lt_Some _ _ _ Hi) as Hlt.
  unfold KallocPerCpu.kalloc in Hrun. apply bind_Ok in Hrun as (c & s0 & Ec & Hrun).
  inversion Ec; subst. apply bind_Ok in Hrun as (r0 & s1 & Hpop & Hrun).
  eapply rtc_l; [by eapply step_alloc_call|].
  eapply rtc_l; [eapply step_alloc_own; [by apply list_lookup_insert_eq|done]|].
  rewrite list_insert_insert_eq.
  destruct (Z.eqb_spec r0 0) as [->|Hr0]; cbn in Hrun.
  - pose proof (steal_loop_run _ _ _ _ _ _ (<[i := Thread (AllocScan (cpu (kal s0)) 0) o]> ts)
      i o Hrun eq_refl) as Hst.
    rewrite list_insert_insert_eq in Hst. apply Hst. by apply list_lookup_insert_eq.
  - inversion Hrun; subst. destruct (Z.eqb_spec r 0) as [|_]; [done|].
    eapply rtc_l; [|apply rtc_refl].
    rewrite <- (list_insert_insert_eq ts i (Thread Idle (r :: o)) (Thread (AllocFill r) o)).
    apply step_alloc_fill. by apply list_lookup_insert_eq.
Qed.
End steps.

(** ** Witnesses: two CPUs, four pages of RAM, two threads. *)

Definition two_cpus : CpuParams := {| NCPU := 2 |}.

(** CPU 1 has one free page; thread 0 owns another page and is idle, thread 1
    is scanning for a page. *)
Definition demo_world : world :=
  World (KS (push_mem (fun _ => 0) 0x80020000 0) (Kmems 0 [0; 0x80020000]))
    [Thread Idle [0x80021000]; Thread (AllocScan 0 1) []].

Lemma demo_world_inv :
  @inv (virt_layout 4) two_cpus [0x80021000; 0x80020000] demo_world.
Proof.
  split; [apply (bool_decide_unpack _); vm_compute; exact I|].
  split; [repeat constructor|]. split; [repeat constructor|].
  exists [[]; [0x80020000]]. split; [|split; [reflexivity|reflexivity]].
  repeat constructor.
Qed.

Lemma kalloc_race_free_witness :
  exists ls, @chains (virt_layout 4) (shared demo_world) ls /\
    [0x80021000; 0x80020000] ≡ₚ held (threads demo_world) ++ concat ls /\
    NoDup (held (threads demo_world) ++ concat ls).
Proof.
  apply (@kalloc_race_free (virt_layout 4) two_cpus (virt_layout_ok 4 ltac:(lia)) _ demo_world).
  - apply demo_world_inv.
  - apply rtc_refl.
Defined.

Lemma kalloc_threads_progress_witness :
  exists s'' t', @step (virt_layout 4) two_cpus demo_world
    (World s'' (<[1%nat := t']> (threads demo_world))).
Proof.
  apply (@kalloc_threads_progress (virt_layout 4) two_cpus (virt_layout_ok 4 ltac:(lia))
    [0x80021000; 0x80020000] demo_world demo_world 1 (AllocScan 0 1) []).
  - vm_compute. lia.
  - apply demo_world_inv.
  - apply rtc_refl.
  - reflexivity.
  - discriminate.
Defined.

(** The call of CPU 0 steals the page of CPU 1. *)
Lemma kalloc_is_a_schedule_witness :
  let _ := virt_layout 4 in let _ := two_cpus in
  exists s', rtc step (World (shared demo_world) [Thread Idle []])
    (World s' [Thread Idle [0x80020000]]).
Proof.
  intros L C.
  assert (Hc : match @KallocPerCpu.kalloc C (shared demo_world) with
               | Ok (r, _) => r =? 0x80020000
               | Fail _ => false
               end = true) by (vm_compute; reflexivity).
  destruct (@KallocPerCpu.kalloc C (shared demo_world)) as [[r s']|] eqn:E; [|discriminate].
  apply Z.eqb_eq in Hc. subst r. exists s'.
  exact (@kalloc_is_a_schedule L C (shared demo_world) _ s' [Thread Idle []] 0 []
    E ltac:(vm_compute; lia) eq_refl).
Defined.
End KallocConcurrent.
