(* ===== verification/Bcache.v ===== *)
(** * The hashed buffer cache (third experiment, [bio.c]): model

    [NBUF] buffers hang on [NBUCKETS] circular doubly linked lists, each with a
    sentinel [hashbucket[k]] and its own spinlock. The links are modelled as
    the source has them, as [prev] and [next] fields of sentinels and buffers,
    and every pointer assignment of the source is one update. The disk driver
    ([virtio_disk.c]) is not part of the repository and is an interface. *)

From S2P Require Import Prelude.

Definition NBUCKETS : nat := 13.

(** [NBUF] of [param.h]. *)
Class BufParams : Type := { NBUF : nat }.

(** What [virtio_disk_rw] reads and writes, per device and block number. *)
Class BlockDevice (D : Type) : Type := {
  disk_get : D -> Z -> Z -> list Z;
  disk_set : D -> Z -> Z -> list Z -> D;
}.

Class BlockDeviceOk (D : Type) `{BlockDevice D} : Prop := {
  disk_get_set d dev b x : disk_get (disk_set d dev b x) dev b = x;
  disk_get_set_other d dev b x dev' b' :
    (dev', b') <> (dev, b) -> disk_get (disk_set d dev b x) dev' b' = disk_get d dev' b';
}.

(** A pointer into the cache: a sentinel [&hashbucket[k]] or a buffer
    [&buf[i]]. *)
Inductive node : Type :=
| Head (k : nat)
| Buf (i : nat).

#[export] Instance node_eq_dec : EqDecision node.
Proof. solve_decision. Defined.

(** [struct buf], less its links. [lock] is the sleep lock: the process that
    holds it, if any. *)
Record buf : Type := MkBuf {
  dev : Z;
  blockno : Z;
  valid : Z;
  refcnt : Z;
  lock : option Z;
  data : list Z;
}.

Definition set_refcnt (r : Z) (b : buf) : buf :=
  MkBuf (dev b) (blockno b) (valid b) r (lock b) (data b).
Definition set_lock (l : option Z) (b : buf) : buf :=
  MkBuf (dev b) (blockno b) (valid b) (refcnt b) l (data b).
Definition set_valid (v : Z) (b : buf) : buf :=
  MkBuf (dev b) (blockno b) v (refcnt b) (lock b) (data b).
Definition set_data (x : list Z) (b : buf) : buf :=
  MkBuf (dev b) (blockno b) (valid b) (refcnt b) (lock b) x.

(** [struct bcache] with the links of all nodes, and the disk. *)
Record bcache (D : Type) : Type := BC {
  bufs : list buf;
  nxt : node -> node;
  prv : node -> node;
  bucket_locked : list bool;
  disk : D;
}.
Arguments BC {D} bufs nxt prv bucket_locked disk.
Arguments bufs {D} b.
Arguments nxt {D} b.
Arguments prv {D} b.
Arguments bucket_locked {D} b.
Arguments disk {D} b.

(** Assignment to one link. *)
Definition upd (f : node -> node) (x v : node) : node -> node :=
  fun y => if decide (y = x) then v else f y.
Arguments upd : simpl never.

Module Bcache.
Section ops.
Context {D : Type} `{BlockDevice D} `{BufParams}.
(** The pid of the calling process. *)
Variable me : Z.

Abbreviation B := (M (bcache D)).

Definition set_bufs (l : list buf) (s : bcache D) : bcache D :=
  BC l (nxt s) (prv s) (bucket_locked s) (disk s).
Definition set_next (x v : node) : B unit :=
  modify (fun s => BC (bufs s) (upd (nxt s) x v) (prv s) (bucket_locked s) (disk s)).
Definition set_prev (x v : node) : B unit :=
  modify (fun s => BC (bufs s) (nxt s) (upd (prv s) x v) (bucket_locked s) (disk s)).
Definition next_of (x : node) : B node := gets (fun s => nxt s x).
Definition prev_of (x : node) : B node := gets (fun s => prv s x).

Definition rd (i : nat) : B buf := fun s =>
  match bufs s !! i with
  | Some b => Ok (b, s)
  | None => Fail (Undefined "bcache.buf")
  end.
Definition wr (i : nat) (f : buf -> buf) : B unit :=
  modify (fun s => set_bufs (alter f i (bufs s)) s).

(** Spinlocks of the buckets. A lock held by another CPU is waited for. *)
Definition locked (k : nat) : B bool :=
  gets (fun s => default false (bucket_locked s !! k)).
Definition set_locked (k : nat) (v : bool) : B unit :=
  modify (fun s => BC (bufs s) (nxt s) (prv s) (<[k := v]> (bucket_locked s)) (disk s)).
Definition acquire (k : nat) : B unit :=
  l ← locked k;
  if (l : bool) then fail (Blocked "bcache") else set_locked k true.
Definition release (k : nat) : B unit := set_locked k false.

(** Sleep locks of the buffers. *)
Definition acquiresleep (i : nat) : B unit :=
  b ← rd i;
  match lock b with
  | Some _ => fail (Blocked "buffer")
  | None => wr i (set_lock (Some me))
  end.
Definition releasesleep (i : nat) : B unit := wr i (set_lock None).
Definition holdingsleep (i : nat) : B bool :=
  b ← rd i; mret (bool_decide (lock b = Some me)).

(** [b->next = hashbucket[k].next; b->prev = &hashbucket[k];
    hashbucket[k].next->prev = b; hashbucket[k].next = b;] *)
Definition insert_front (k : nat) (x : node) : B unit :=
  n ← next_of (Head k);
  set_next x n;;
  set_prev x (Head k);;
  n' ← next_of (Head k);
  set_prev n' x;;
  set_next (Head k) x.

(** [b->next->prev = b->prev; b->prev->next = b->next;] *)
Definition unlink (x : node) : B unit :=
  n ← next_of x;
  p ← prev_of x;
  set_prev n p;;
  n' ← next_of x;
  p' ← prev_of x;
  set_next p' n'.

(** The first loop of [binit]: every sentinel points to itself. *)
Fixpoint init_heads (n : nat) (count : nat) : B unit :=
  match n with
  | O => mret tt
  | S n' =>
      set_locked count false;;
      set_prev (Head count) (Head count);;
      set_next (Head count) (Head count);;
      init_heads n' (S count)
  end.

(** The second loop: buffer [i] is put in front of bucket [count % NBUCKETS]. *)
Fixpoint init_bufs (n : nat) (i count : nat) : B unit :=
  match n with
  | O => mret tt
  | S n' =>
      let count := (count mod NBUCKETS)%nat in
      n0 ← next_of (Head count);
      set_next (Buf i) n0;;
      set_prev (Buf i) (Head count);;
      wr i (set_lock None);;
      n1 ← next_of (Head count);
      set_prev n1 (Buf i);;
      set_next (Head count) (Buf i);;
      init_bufs n' (S i) (S count)
  end.

Definition binit : B unit :=
  init_heads NBUCKETS 0;;
  init_bufs NBUF 0 0.

(** [for(b = x; b != &hashbucket[k]; b = b->next)] (or [b->prev]): the first
    buffer that satisfies [p]. *)
Fixpoint scan (fuel : nat) (link : node -> B node) (k : nat) (p : buf -> bool) (x : node)
  : B (option nat) :=
  match x with
  | Head j => if decide (j = k) then mret None else fail (Undefined "bcache.hashbucket")
  | Buf i =>
      b ← rd i;
      if p b then mret (Some i) else
      match fuel with
      | O => fail OutOfFuel
      | S fuel' => y ← link (Buf i); scan fuel' link k p y
      end
  end.

Definition is_block (dv bn : Z) (b : buf) : bool := (dev b =? dv) && (blockno b =? bn).
Definition is_free (b : buf) : bool := refcnt b =? 0.

(** [b->dev = dev; b->blockno = blockno; b->valid = 0; b->refcnt = 1;] *)
Definition claim (i : nat) (dv bn : Z) : B unit :=
  wr i (fun b => MkBuf dv bn 0 1 (lock b) (data b)).

(** The third loop of [bget]: look for a free buffer in the other buckets. *)
Fixpoint steal (fuel : nat) (cur find : nat) (dv bn : Z) : B nat :=
  if (find =? cur)%nat then release cur;; panic "bget: no buffers" else
  match fuel with
  | O => fail OutOfFuel
  | S fuel' =>
      let find := (find mod NBUCKETS)%nat in
      l ← locked find;
      if (l : bool) then steal fuel' cur (S find) dv bn else
      acquire find;;
      x ← prev_of (Head find);
      r ← scan NBUF prev_of find is_free x;
      match r with
      | Some i =>
          unlink (Buf i);;
          insert_front cur (Buf i);;
          claim i dv bn;;
          release find;;
          release cur;;
          acquiresleep i;;
          mret i
      | None => release find;; steal fuel' cur (S find) dv bn
      end
  end.

Definition bucket (bn : Z) : nat := Z.to_nat (bn mod Z.of_nat NBUCKETS).

(** [fuel] bounds the iterations of the loop over the other buckets. *)
Definition bget (fuel : nat) (dv bn : Z) : B nat :=
  let cur := bucket bn in
  acquire cur;;
  (* Is the block already cached? *)
  x ← next_of (Head cur);
  r ← scan NBUF next_of cur (is_block dv bn) x;
  match r with
  | Some i =>
      wr i (fun b => set_refcnt (u32 (refcnt b + 1)) b);;
      release cur;;
      acquiresleep i;;
      mret i
  | None =>
      (* Not cached: a free buffer of this bucket, least recently used first. *)
      x ← prev_of (Head cur);
      r ← scan NBUF prev_of cur is_free x;
      match r with
      | Some i =>
          claim i dv bn;;
          release cur;;
          acquiresleep i;;
          mret i
      | None => steal fuel cur (S cur) dv bn
      end
  end.

(** [virtio_disk_rw(b, write)]. *)
Definition virtio_disk_rw (i : nat) (write : bool) : B unit :=
  b ← rd i;
  if write then
    modify (fun s => BC (bufs s) (nxt s) (prv s) (bucket_locked s)
                        (disk_set (disk s) (dev b) (blockno b) (data b)))
  else
    d ← gets disk;
    wr i (set_data (disk_get d (dev b) (blockno b))).

Definition bread (fuel : nat) (dv bn : Z) : B nat :=
  i ← bget fuel dv bn;
  b ← rd i;
  when (valid b =? 0) (virtio_disk_rw i false;; wr i (set_valid 1));;
  mret i.

Definition bwrite (i : nat) : B unit :=
  h ← holdingsleep i;
  if negb h then panic "bwrite" else virtio_disk_rw i true.

Definition brelse (i : nat) : B unit :=
  b ← rd i;
  let cur := bucket (blockno b) in
  h ← holdingsleep i;
  if negb h then panic "brelse" else
  releasesleep i;;
  acquire cur;;
  wr i (fun b => set_refcnt (u32 (refcnt b - 1)) b);;
  b' ← rd i;
  when (refcnt b' =? 0) (unlink (Buf i);; insert_front cur (Buf i));;
  release cur.

Definition bpin (i : nat) : B unit :=
  b ← rd i;
  let cur := bucket (blockno b) in
  acquire cur;;
  wr i (fun b => set_refcnt (u32 (refcnt b + 1)) b);;
  release cur.

Definition bunpin (i : nat) : B unit :=
  b ← rd i;
  let cur := bucket (blockno b) in
  acquire cur;;
  wr i (fun b => set_refcnt (u32 (refcnt b - 1)) b);;
  release cur.
End ops.
End Bcache.
