(* ===== verification/BcacheLinks.v ===== *)
(** * Circular doubly linked lists

    [linked n p x l e]: following [n] from [x] visits the nodes of [l] and then
    reaches [e], and [p] leads back along the same way. A bucket whose list is
    [l] is [linked (Head k) (map Buf l) (Head k)]. *)

From S2P Require Import Prelude.
From S2P Require Import Bcache.

Fixpoint linked (n p : node -> node) (x : node) (l : list node) (e : node) : Prop :=
  match l with
  | [] => n x = e /\ p e = x
  | y :: l' => n x = y /\ p y = x /\ linked n p y l' e
  end.

Section linked.
Implicit Types (n p : node -> node) (x y e : node) (l : list node).

Lemma upd_eq f x v : upd f x v x = v.
Proof. unfold upd. by rewrite decide_True. Qed.

Lemma upd_ne f x v y : y <> x -> upd f x v y = f y.
Proof. intros H. unfold upd. by rewrite decide_False. Qed.

Lemma linked_app n p x l1 y l2 e :
  linked n p x (l1 ++ y :: l2) e <-> linked n p x l1 y /\ linked n p y l2 e.
Proof.
  revert x. induction l1 as [|z l1 IH]; intros x; cbn; [tauto|].
  rewrite IH. tauto.
Qed.

Lemma linked_rev n p x l e : linked n p x l e -> linked p n e (rev l) x.
Proof.
  revert x. induction l as [|y l IH]; intros x HL; cbn in *; [tauto|].
  destruct HL as (Hn & Hp & HL). apply linked_app. split; [by apply IH|done].
Qed.

Lemma linked_next_in n p x l e : linked n p x l e -> n x ∈ l ++ [e].
Proof. destruct l; cbn; intros (-> & _); set_solver. Qed.

Lemma linked_prev_in n p x l e : linked n p x l e -> p e ∈ x :: l.
Proof.
  revert x. induction l as [|y l IH]; intros x HL; cbn in *.
  - destruct HL as (_ & ->). set_solver.
  - destruct HL as (_ & _ & HL). apply IH in HL. set_solver.
Qed.

(** Only the [next] fields of [x :: l] and the [prev] fields of [l ++ [e]]
    matter. *)
Lemma linked_frame n p n' p' x l e :
  (forall y, y ∈ x :: l -> n' y = n y) -> (forall y, y ∈ l ++ [e] -> p' y = p y) ->
  linked n p x l e -> linked n' p' x l e.
Proof.
  revert x. induction l as [|z l IH]; intros x Hn Hp HL; cbn in *.
  - rewrite Hn, Hp by set_solver. done.
  - destruct HL as (H1 & H2 & HL). rewrite Hn, Hp by set_solver.
    split; [done|]. split; [done|]. apply IH; [| |done].
    + intros y Hy. apply Hn. set_solver.
    + intros y Hy. apply Hp. set_solver.
Qed.

(** [b->next->prev = b->prev; b->prev->next = b->next] takes [b] out. *)
Lemma linked_remove n p x l1 b l2 e :
  linked n p x (l1 ++ b :: l2) e ->
  NoDup (x :: l1 ++ b :: l2) -> e ∉ l1 ++ b :: l2 ->
  linked (upd n (p b) (n b)) (upd p (n b) (p b)) x (l1 ++ l2) e.
Proof.
  intros [HL1 HL2]%linked_app. revert x HL1.
  induction l1 as [|a l1 IH]; intros x HL1 Hnd He.
  - cbn in HL1. destruct HL1 as (Hnx & Hpb). cbn in *. rewrite Hpb.
    destruct l2 as [|c l2]; cbn in *.
    + destruct HL2 as (Hnb & _). rewrite Hnb, !upd_eq. done.
    + destruct HL2 as (Hnb & _ & HL2). rewrite Hnb, !upd_eq. split_and!; try done.
      rewrite !NoDup_cons in Hnd.
      eapply linked_frame; [| |exact HL2]; intros y Hy; apply upd_ne; set_solver.
  - cbn in HL1. destruct HL1 as (Hnx & Hpa & HL1). cbn in Hnd, He |- *.
    pose proof (linked_prev_in _ _ _ _ _ HL1) as Hpb.
    pose proof (linked_next_in _ _ _ _ _ HL2) as Hnb.
    apply NoDup_cons in Hnd as [Hxn Hnd].
    rewrite !upd_ne; [split_and!; try done| |].
    + apply IH; [done|done|set_solver].
    + apply NoDup_cons in Hnd as [Han _]. intros ->. set_solver.
    + intros ->. set_solver.
Qed.

(** [b->next = h.next; b->prev = &h; h.next->prev = b; h.next = b] puts [b] in
    front. *)
Lemma linked_insert n p x l e b :
  linked n p x l e -> NoDup (x :: l) -> e ∉ l -> b ∉ x :: l -> b <> e ->
  linked (upd (upd n b (n x)) x b) (upd (upd p b x) (n x) b) x (b :: l) e.
Proof.
  intros HL Hnd He Hb Hbe. cbn. rewrite upd_eq.
  apply not_elem_of_cons in Hb as [Hbx Hbl].
  assert (Hnb : n x <> b).
  { pose proof (linked_next_in _ _ _ _ _ HL). set_solver. }
  rewrite (upd_ne _ (n x)) by done. rewrite upd_eq. split_and!; try done.
  destruct l as [|c l]; cbn in *.
  - destruct HL as (Hn & Hp). rewrite Hn, upd_eq, upd_ne, upd_eq by done. done.
  - destruct HL as (Hn & Hp & HL). rewrite Hn, upd_eq, upd_ne, upd_eq by done.
    split_and!; try done. rewrite !NoDup_cons in Hnd.
    eapply linked_frame; [| |exact HL]; intros y Hy; rewrite !upd_ne; set_solver.
Qed.
End linked.

(** All buckets: bucket [k] holds the buffers [ls !! k], in list order. *)
Definition rings (n p : node -> node) (ls : list (list nat)) : Prop :=
  forall k l, ls !! k = Some l -> linked n p (Head k) (map Buf l) (Head k).

(** Taking buffer [i] out of whichever list holds it. *)
Definition remove_buf (i : nat) (ls : list (list nat)) : list (list nat) :=
  map (filter (fun j => j <> i)) ls.

(** Moving buffer [i] to the front of bucket [k]. *)
Definition move_front (k i : nat) (ls : list (list nat)) : list (list nat) :=
  alter (cons i) k (remove_buf i ls).

Section rings.
Implicit Types (n p : node -> node) (ls : list (list nat)).

#[global] Instance Buf_inj : Inj (=) (=) Buf.
Proof. intros x y. congruence. Qed.

Lemma elem_map_Buf i l : Buf i ∈ map Buf l <-> i ∈ l.
Proof.
  split; [|intros Hi; apply list_elem_of_fmap; eauto].
  intros (j & Hj & Hl)%list_elem_of_fmap. by simplify_eq.
Qed.

Lemma Head_not_in k l : Head k ∉ map Buf l.
Proof. by intros (j & Hj & _)%list_elem_of_fmap. Qed.

Lemma NoDup_ring k l : NoDup l -> NoDup (Head k :: map Buf l).
Proof.
  intros Hnd. constructor; [apply Head_not_in|]. by apply (NoDup_fmap_2 Buf).
Qed.

Lemma NoDup_concat_lookup ls k (l : list nat) :
  NoDup (concat ls) -> ls !! k = Some l -> NoDup l.
Proof.
  revert k. induction ls as [|l0 ls IH]; intros [|k] Hnd Hk; simplify_eq/=;
    apply NoDup_app in Hnd; [tauto|]. destruct Hnd as (_ & _ & Hnd). eauto.
Qed.

Lemma NoDup_concat_disjoint ls k j (l l' : list nat) x :
  NoDup (concat ls) -> ls !! k = Some l -> ls !! j = Some l' -> k <> j ->
  x ∈ l -> x ∉ l'.
Proof.
  revert k j. induction ls as [|l0 ls IH]; intros [|k] [|j] Hnd Hk Hj Hne Hx Hx';
    simplify_eq/=; apply NoDup_app in Hnd as (Hnd0 & Hdis & Hnd).
  - eapply Hdis; [exact Hx|]. apply elem_of_concat. eauto using list_elem_of_lookup_2.
  - eapply Hdis; [exact Hx'|]. apply elem_of_concat. eauto using list_elem_of_lookup_2.
  - eapply (IH k j); eauto.
Qed.

Lemma filter_ne_notin i (l : list nat) : i ∉ l -> filter (fun j => j <> i) l = l.
Proof.
  induction l as [|x l IH]; intros Hi; [done|].
  rewrite filter_cons_True by set_solver. f_equal. apply IH. set_solver.
Qed.

Lemma filter_ne_middle i (l1 l2 : list nat) :
  NoDup (l1 ++ i :: l2) -> filter (fun j => j <> i) (l1 ++ i :: l2) = l1 ++ l2.
Proof.
  intros Hnd. apply NoDup_app in Hnd as (_ & Hd & Hnd).
  apply NoDup_cons in Hnd as [Hi2 _].
  rewrite filter_app, filter_cons_False by naive_solver.
  rewrite !filter_ne_notin; [done|done|]. intros Hi1. eapply Hd; [exact Hi1|]. set_solver.
Qed.

(** The rings without buffer [i], after [unlink]. *)
Lemma rings_unlink n p ls i :
  rings n p ls -> NoDup (concat ls) -> i ∈ concat ls ->
  rings (upd n (p (Buf i)) (n (Buf i))) (upd p (n (Buf i)) (p (Buf i))) (remove_buf i ls).
Proof.
  intros HR Hnd (l & Hl & Hi)%elem_of_concat.
  apply list_elem_of_lookup in Hl as [k Hk].
  apply list_elem_of_split in Hi as (l1 & l2 & ->).
  pose proof (NoDup_concat_lookup _ _ _ Hnd Hk) as Hndl.
  pose proof (HR k _ Hk) as HL. rewrite map_app in HL. cbn in HL.
  intros j l Hj. unfold remove_buf in Hj. rewrite list_lookup_fmap in Hj.
  destruct (decide (j = k)) as [->|Hne].
  - rewrite Hk in Hj. cbn in Hj. injection Hj as <-.
    rewrite filter_ne_middle, map_app by done. apply linked_remove; [done| |].
    + pose proof (NoDup_ring k _ Hndl) as Hr. by rewrite map_app in Hr.
    + pose proof (Head_not_in k (l1 ++ i :: l2)) as Hh. by rewrite map_app in Hh.
  - destruct (ls !! j) as [lj|] eqn:Ej; [|done]. cbn in Hj. injection Hj as <-.
    assert (Hij : i ∉ lj).
    { eapply (NoDup_concat_disjoint ls k j); eauto. set_solver. }
    rewrite filter_ne_notin by done.
    apply linked_app in HL as [HL1 HL2].
    pose proof (linked_prev_in _ _ _ _ _ HL1) as Hp.
    pose proof (linked_next_in _ _ _ _ _ HL2) as Hn.
    assert (Hout : forall y, y ∈ Head k :: map Buf (l1 ++ i :: l2) ->
      y ∉ Head j :: map Buf lj).
    { intros y Hy Hy'. apply elem_of_cons in Hy as [->|Hy].
      - apply elem_of_cons in Hy' as [?|Hy']; [congruence|]. by apply Head_not_in in Hy'.
      - apply list_elem_of_fmap in Hy as (z & -> & Hz).
        apply elem_of_cons in Hy' as [?|Hy']; [done|]. apply elem_map_Buf in Hy'.
        eapply (NoDup_concat_disjoint ls k j); eauto. }
    rewrite map_app in Hout. cbn in Hout.
    eapply linked_frame; [| |exact (HR j lj Ej)].
    + intros y Hy. apply upd_ne. intros ->. eapply (Hout (p (Buf i))); [set_solver|done].
    + intros y Hy. apply upd_ne. intros ->. eapply (Hout (n (Buf i))); [|].
      * apply elem_of_app in Hn as [Hn|Hn]; set_solver.
      * apply elem_of_app in Hy as [Hy|Hy]; set_solver.
Qed.

(** The rings after buffer [i], on no ring, is put in front of bucket [k]. *)
Lemma rings_insert n p ls k i l :
  rings n p ls -> NoDup (concat ls) -> i ∉ concat ls -> ls !! k = Some l ->
  rings (upd (upd n (Buf i) (n (Head k))) (Head k) (Buf i))
        (upd (upd p (Buf i) (Head k)) (n (Head k)) (Buf i))
        (<[k := i :: l]> ls).
Proof.
  intros HR Hnd Hi Hk j lj Hj. pose proof (HR k l Hk) as HL.
  assert (Hil : forall j l, ls !! j = Some l -> i ∉ l).
  { intros j' l' Hj' Hin. apply Hi, elem_of_concat. eauto using list_elem_of_lookup_2. }
  destruct (decide (j = k)) as [->|Hne].
  - rewrite list_lookup_insert_eq in Hj by (by eapply lookup_lt_Some). injection Hj as <-.
    cbn [map]. apply linked_insert; [done| |apply Head_not_in| |done].
    + apply NoDup_ring. by eapply NoDup_concat_lookup.
    + apply not_elem_of_cons. split; [done|]. rewrite elem_map_Buf. eauto.
  - rewrite list_lookup_insert_ne in Hj by done.
    pose proof (linked_next_in _ _ _ _ _ HL) as Hn.
    assert (Hout : n (Head k) ∉ Head j :: map Buf lj).
    { intros Hin. apply elem_of_app in Hn as [Hn|Hn].
      - apply list_elem_of_fmap in Hn as (z & Ez & Hz). rewrite Ez in Hin.
        apply elem_of_cons in Hin as [?|Hin]; [done|]. apply elem_map_Buf in Hin.
        eapply (NoDup_concat_disjoint ls k j); eauto.
      - apply list_elem_of_singleton in Hn. rewrite Hn in Hin.
        apply elem_of_cons in Hin as [?|Hin]; [congruence|]. by apply Head_not_in in Hin. }
    assert (Hbi : Buf i ∉ Head j :: map Buf lj).
    { apply not_elem_of_cons. split; [done|]. rewrite elem_map_Buf. eauto. }
    eapply linked_frame; [| |exact (HR j lj Hj)].
    + intros y Hy. rewrite !upd_ne; [done| |].
      * intros ->. done.
      * intros ->. apply elem_of_cons in Hy as [?|Hy]; [congruence|]. by apply Head_not_in in Hy.
    + intros y Hy. assert (y ∈ Head j :: map Buf lj) by set_solver.
      rewrite !upd_ne; [done| |]; intros ->; done.
Qed.
End rings.
