(* ===== verification/BcacheSpec.v ===== *)
(** * The buffer cache as lists, and the refinement

    The specification state drops all pointers: bucket [k] is the list of the
    buffers on it, most recently used first. Each operation of [bio.c] has a
    specification on lists, and the pointer code is proved to compute the same
    result, the same failure, and a state that represents the same lists. *)

From S2P Require Import Prelude.
From S2P Require Import Bcache.
From S2P Require Import BcacheLinks.

Record acache (D : Type) : Type := AC {
  abufs : list buf;
  als : list (list nat);
  alocked : list bool;
  adisk : D;
}.
Arguments AC {D} abufs als alocked adisk.
Arguments abufs {D} a.
Arguments als {D} a.
Arguments alocked {D} a.
Arguments adisk {D} a.

Module BcacheSpec.
Section spec.
Context {D : Type} `{BlockDevice D} `{BufParams}.
Variable me : Z.

Abbreviation A := (M (acache D)).

Definition rd (i : nat) : A buf := fun a =>
  match abufs a !! i with
  | Some b => Ok (b, a)
  | None => Fail (Undefined "bcache.buf")
  end.
Definition wr (i : nat) (f : buf -> buf) : A unit :=
  modify (fun a => AC (alter f i (abufs a)) (als a) (alocked a) (adisk a)).
Definition locked (k : nat) : A bool :=
  gets (fun a => default false (alocked a !! k)).
Definition set_locked (k : nat) (v : bool) : A unit :=
  modify (fun a => AC (abufs a) (als a) (<[k := v]> (alocked a)) (adisk a)).
Definition acquire (k : nat) : A unit :=
  l ← locked k;
  if (l : bool) then fail (Blocked "bcache") else set_locked k true.
Definition release (k : nat) : A unit := set_locked k false.
Definition acquiresleep (i : nat) : A unit :=
  b ← rd i;
  match lock b with
  | Some _ => fail (Blocked "buffer")
  | None => wr i (set_lock (Some me))
  end.
Definition holdingsleep (i : nat) : A bool :=
  b ← rd i; mret (bool_decide (lock b = Some me)).

(** The first buffer of [l] that satisfies [p]. *)
Definition first (bs : list buf) (p : buf -> bool) (l : list nat) : option nat :=
  find (fun i => match bs !! i with Some b => p b | None => false end) l.
Definition search (p : buf -> bool) (l : list nat) : A (option nat) :=
  gets (fun a => first (abufs a) p l).
Definition bucket_list (k : nat) : A (list nat) :=
  gets (fun a => default [] (als a !! k)).
Definition to_front (k i : nat) : A unit :=
  modify (fun a => AC (abufs a) (move_front k i (als a)) (alocked a) (adisk a)).
Definition claim (i : nat) (dv bn : Z) : A unit :=
  wr i (fun b => MkBuf dv bn 0 1 (lock b) (data b)).

Fixpoint steal (fuel : nat) (cur find : nat) (dv bn : Z) : A nat :=
  if (find =? cur)%nat then release cur;; panic "bget: no buffers" else
  match fuel with
  | O => fail OutOfFuel
  | S fuel' =>
      let find := (find mod NBUCKETS)%nat in
      l ← locked find;
      if (l : bool) then steal fuel' cur (S find) dv bn else
      acquire find;;
      l ← bucket_list find;
      r ← search Bcache.is_free (rev l);
      match r with
      | Some i =>
          to_front cur i;; claim i dv bn;; release find;; release cur;;
          acquiresleep i;; mret i
      | None => release find;; steal fuel' cur (S find) dv bn
      end
  end.

Definition bget (fuel : nat) (dv bn : Z) : A nat :=
  let cur := Bcache.bucket bn in
  acquire cur;;
  l ← bucket_list cur;
  r ← search (Bcache.is_block dv bn) l;
  match r with
  | Some i =>
      wr i (fun b => set_refcnt (u32 (refcnt b + 1)) b);; release cur;;
      acquiresleep i;; mret i
  | None =>
      l ← bucket_list cur;
      r ← search Bcache.is_free (rev l);
      match r with
      | Some i => claim i dv bn;; release cur;; acquiresleep i;; mret i
      | None => steal fuel cur (S cur) dv bn
      end
  end.

Definition virtio_disk_rw (i : nat) (write : bool) : A unit :=
  b ← rd i;
  if write then
    modify (fun a => AC (abufs a) (als a) (alocked a)
                        (disk_set (adisk a) (dev b) (blockno b) (data b)))
  else
    d ← gets adisk;
    wr i (set_data (disk_get d (dev b) (blockno b))).

Definition bread (fuel : nat) (dv bn : Z) : A nat :=
  i ← bget fuel dv bn;
  b ← rd i;
  when (valid b =? 0) (virtio_disk_rw i false;; wr i (set_valid 1));;
  mret i.

Definition bwrite (i : nat) : A unit :=
  h ← holdingsleep i;
  if negb h then panic "bwrite" else virtio_disk_rw i true.

Definition brelse (i : nat) : A unit :=
  b ← rd i;
  let cur := Bcache.bucket (blockno b) in
  h ← holdingsleep i;
  if negb h then panic "brelse" else
  wr i (set_lock None);;
  acquire cur;;
  wr i (fun b => set_refcnt (u32 (refcnt b - 1)) b);;
  b' ← rd i;
  when (refcnt b' =? 0) (to_front cur i);;
  release cur.

Definition addref (d : Z) (i : nat) : A unit :=
  b ← rd i;
  let cur := Bcache.bucket (blockno b) in
  acquire cur;;
  wr i (fun b => set_refcnt (u32 (refcnt b + d)) b);;
  release cur.
End spec.

(** ** The refinement *)
Section refine.
Context {D : Type} `{BlockDevice D} `{BufParams}.

(** Every buffer is on exactly one list. *)
Definition wf (a : acache D) : Prop :=
  length (abufs a) = NBUF /\ length (als a) = NBUCKETS /\
  length (alocked a) = NBUCKETS /\ concat (als a) ≡ₚ seq 0 NBUF.

(** State [s] of the pointer code represents [a]. *)
Definition rep (s : bcache D) (a : acache D) : Prop :=
  bufs s = abufs a /\ bucket_locked s = alocked a /\ disk s = adisk a /\
  rings (nxt s) (prv s) (als a) /\ wf a.

Definition sim {X} (m : M (bcache D) X) (m' : M (acache D) X) : Prop :=
  forall s a, rep s a ->
    match m s, m' a with
    | Ok (x, s'), Ok (y, a') => x = y /\ rep s' a'
    | Fail e, Fail e' => e = e'
    | _, _ => False
    end.

(** A fact about the values the specification returns. *)
Definition returns {X} (m : M (acache D) X) (Q : X -> Prop) : Prop :=
  forall a x a', wf a -> m a = Ok (x, a') -> Q x.

Lemma sim_bind {X Y} m m' (f f' : X -> M _ Y) (Q : X -> Prop) :
  sim m m' -> returns m' Q -> (forall x, Q x -> sim (f x) (f' x)) ->
  sim (m ≫= f) (m' ≫= f').
Proof.
  intros Hm HQ Hf s a Hr. specialize (Hm s a Hr). unfold mbind, M_bind.
  destruct (m s) as [[x s1]|e], (m' a) as [[y a1]|e'] eqn:E; try done.
  destruct Hm as [-> Hr1]. apply Hf; [|done]. eapply HQ; [|exact E]. apply Hr.
Qed.

Lemma sim_bind' {X Y} m m' (f f' : X -> M _ Y) :
  sim m m' -> (forall x, sim (f x) (f' x)) -> sim (m ≫= f) (m' ≫= f').
Proof. intros Hm Hf. apply (sim_bind _ _ _ _ (fun _ => True)); [done|done|auto]. Qed.

Lemma sim_ret {X} (x : X) : sim (mret x) (mret x).
Proof. intros s a Hr. split; [done|done]. Qed.

Lemma sim_fail {X} e : sim (X := X) (fail e) (fail e).
Proof. intros s a Hr. done. Qed.

Lemma wf_NoDup a : wf a -> NoDup (concat (als a)).
Proof. intros (_ & _ & _ & Hp). rewrite Hp. apply NoDup_seq. Qed.

Lemma wf_elem a i : wf a -> i ∈ concat (als a) <-> (i < NBUF)%nat.
Proof. intros (_ & _ & _ & Hp). rewrite Hp, elem_of_seq. lia. Qed.

Lemma sim_rd i : sim (Bcache.rd i) (rd i).
Proof.
  intros s a Hr. unfold Bcache.rd, rd. destruct Hr as (Hb & Hr). rewrite Hb.
  destruct (abufs a !! i); [|done]. split; [done|]. by split.
Qed.

Lemma rd_returns i : returns (rd i) (fun _ => (i < NBUF)%nat).
Proof.
  intros a x a' (Hl & _) Hrd. unfold rd in Hrd.
  destruct (abufs a !! i) eqn:E; [|done]. apply lookup_lt_Some in E. lia.
Qed.

Lemma sim_wr i f : sim (Bcache.wr i f) (wr i f).
Proof.
  intros s a (Hb & Hl & Hd & HR & Hw & Hw'). split; [done|].
  split_and!; cbn; try done; [by rewrite Hb|]. split; [|done]. cbn. by rewrite length_alter.
Qed.

Lemma sim_locked k : sim (Bcache.locked k) (locked k).
Proof.
  intros s a Hr. cbn. split; [|done]. destruct Hr as (_ & -> & _). done.
Qed.

Lemma sim_set_locked k v : sim (Bcache.set_locked k v) (set_locked k v).
Proof.
  intros s a (Hb & Hl & Hd & HR & H1 & H2 & H3 & H4). split; [done|].
  split_and!; cbn; try done; [by rewrite Hl|]. split_and!; cbn; try done.
  by rewrite length_insert.
Qed.

Lemma sim_acquire k : sim (Bcache.acquire k) (acquire k).
Proof.
  apply sim_bind'; [apply sim_locked|]. intros [|]; [apply sim_fail|apply sim_set_locked].
Qed.

Lemma sim_acquiresleep me i : sim (Bcache.acquiresleep me i) (acquiresleep me i).
Proof.
  apply sim_bind'; [apply sim_rd|]. intros b. destruct (lock b); [apply sim_fail|apply sim_wr].
Qed.

Lemma sim_holdingsleep me i : sim (Bcache.holdingsleep me i) (holdingsleep me i).
Proof. apply sim_bind'; [apply sim_rd|]. intros b. apply sim_ret. Qed.

(** The pointer loop along a ring finds the first match of the list. *)
Lemma scan_linked s (link : node -> M (bcache D) node) f g k p x l fuel :
  (forall y, link y s = Ok (f y, s)) ->
  linked f g x (map Buf l) (Head k) ->
  (forall i, i ∈ l -> is_Some (bufs s !! i)) -> (length l <= fuel)%nat ->
  Bcache.scan fuel link k p (f x) s = Ok (first (bufs s) p l, s).
Proof.
  intros Hlink. revert x fuel. induction l as [|i l IH]; intros x fuel HL Hin Hf.
  - cbn in HL. destruct HL as (-> & _). destruct fuel; cbn; by rewrite decide_True.
  - destruct HL as (Hx & _ & HL). rewrite Hx.
    destruct (Hin i) as [b Hb]; [set_solver|].
    destruct fuel as [|fuel]; [cbn in Hf; lia|].
    cbn [Bcache.scan]. rewrite (bind_step _ _ _ b s) by (unfold Bcache.rd; by rewrite Hb).
    unfold first at 1. cbn [find]. rewrite Hb. destruct (p b); [done|].
    rewrite (bind_step _ _ _ (f (Buf i)) s) by apply Hlink.
    apply IH; [done| |cbn in Hf; lia]. intros j Hj. apply Hin. set_solver.
Qed.

Lemma first_elem bs p l i : first bs p l = Some i -> i ∈ l.
Proof. intros Hf. apply find_some in Hf as [Hi _]. by apply list_elem_of_In. Qed.

Lemma bucket_lookup a k l :
  wf a -> als a !! k = Some l -> (length l <= NBUF)%nat /\ forall i, i ∈ l -> (i < NBUF)%nat.
Proof.
  intros Hw Hk. pose proof (wf_NoDup a Hw) as Hnd.
  assert (Hin : forall i, i ∈ l -> (i < NBUF)%nat).
  { intros i Hi. apply (wf_elem a i Hw), elem_of_concat. eauto using list_elem_of_lookup_2. }
  split; [|done]. rewrite <- (length_seq NBUF 0). apply NoDup_incl_length.
  - apply NoDup_ListNoDup. by eapply NoDup_concat_lookup.
  - intros i Hi. apply in_seq. apply list_elem_of_In, Hin in Hi. lia.
Qed.

(** A loop over bucket [k], forwards or backwards, against its list. *)
Lemma sim_scan {Y} (back : bool) k p (f : option nat -> M (bcache D) Y) f' :
  (k < NBUCKETS)%nat ->
  (forall r, (forall i, r = Some i -> (i < NBUF)%nat) -> sim (f r) (f' r)) ->
  sim (x ← (if back then Bcache.prev_of else Bcache.next_of) (Head k);
       r ← Bcache.scan NBUF (if back then Bcache.prev_of else Bcache.next_of) k p x; f r)
      (l ← bucket_list k; r ← search p (if back then rev l else l); f' r).
Proof.
  intros Hk Hf s a Hr. pose proof Hr as (Hb & Hlk & Hd & HR & Hw).
  destruct (lookup_lt_is_Some_2 (als a) k) as [l Hl]; [by destruct Hw as (_ & -> & _)|].
  destruct (bucket_lookup a k l Hw Hl) as [Hlen Hin].
  pose proof (HR k l Hl) as HL.
  assert (Hsome : forall i, i ∈ l -> is_Some (bufs s !! i)).
  { intros i Hi. apply lookup_lt_is_Some_2. rewrite Hb. destruct Hw as (-> & _). auto. }
  assert (Hscan : Bcache.scan NBUF (if back then Bcache.prev_of else Bcache.next_of) k p
            ((if back then prv s else nxt s) (Head k)) s =
            Ok (first (abufs a) p (if back then rev l else l), s)).
  { rewrite <- Hb. destruct back.
    - eapply scan_linked; [done| | |].
      + rewrite map_rev. by apply linked_rev.
      + intros i Hi. apply Hsome. by apply elem_of_rev.
      + by rewrite length_rev.
    - by eapply scan_linked. }
  rewrite (bind_step _ _ _ ((if back then prv s else nxt s) (Head k)) s) by (by destruct back).
  rewrite (bind_step _ _ _ _ _ Hscan).
  rewrite (bind_step _ _ _ l a) by (unfold bucket_list, gets; by rewrite Hl).
  rewrite (bind_step _ _ _ (first (abufs a) p (if back then rev l else l)) a) by done.
  apply Hf; [|done]. intros i Hi%first_elem. apply Hin. destruct back; [|done].
  by apply elem_of_rev.
Qed.

Lemma remove_buf_spec i (ls : list (list nat)) :
  NoDup (concat ls) -> i ∈ concat ls ->
  concat ls ≡ₚ i :: concat (remove_buf i ls) /\ i ∉ concat (remove_buf i ls).
Proof.
  intros Hnd Hi. assert (Hf : concat (remove_buf i ls) = filter (fun j => j <> i) (concat ls)).
  { clear. unfold remove_buf. induction ls as [|l ls IH]; [done|]. cbn. by rewrite filter_app, IH. }
  rewrite Hf. split; [|by intros [? _]%list_elem_of_filter].
  apply list_elem_of_split in Hi as (l1 & l2 & E). rewrite E in *.
  rewrite filter_ne_middle by done. by rewrite Permutation_middle.
Qed.

(** Unlinking a buffer and putting it in front of bucket [k]. *)
Lemma sim_to_front {Y} k i (f : M (bcache D) Y) f' :
  (k < NBUCKETS)%nat -> (i < NBUF)%nat -> sim f f' ->
  sim (Bcache.unlink (Buf i);; Bcache.insert_front k (Buf i);; f) (to_front k i;; f').
Proof.
  intros Hk Hi Hf s a Hr. pose proof Hr as (Hb & Hlk & Hd & HR & Hw).
  pose proof (wf_NoDup a Hw) as Hnd.
  assert (Hin : i ∈ concat (als a)) by (by apply wf_elem).
  destruct (remove_buf_spec i (als a) Hnd Hin) as [Hperm Hnot].
  pose proof (rings_unlink _ _ _ i HR Hnd Hin) as HR1.
  destruct (lookup_lt_is_Some_2 (remove_buf i (als a)) k) as [l Hl].
  { unfold remove_buf. rewrite length_map. by destruct Hw as (_ & -> & _). }
  rewrite Hperm in Hnd. apply NoDup_cons in Hnd as [_ Hnd1].
  pose proof (rings_insert _ _ _ k i l HR1 Hnd1 Hnot Hl) as HR2.
  set (n1 := upd (nxt s) (prv s (Buf i)) (nxt s (Buf i))) in *.
  set (p1 := upd (prv s) (nxt s (Buf i)) (prv s (Buf i))) in *.
  set (s2 := BC (bufs s) (upd (upd n1 (Buf i) (n1 (Head k))) (Head k) (Buf i))
                (upd (upd p1 (Buf i) (Head k)) (n1 (Head k)) (Buf i))
                (bucket_locked s) (disk s)).
  assert (Hstep : (Bcache.unlink (Buf i);; Bcache.insert_front k (Buf i);; f) s = f s2).
  { assert (Hp : p1 (Buf i) = prv s (Buf i)).
    { unfold p1, upd. by case_decide. }
    change ((Bcache.unlink (Buf i);; Bcache.insert_front k (Buf i);; f) s) with
      (let n1' := upd (nxt s) (p1 (Buf i)) (nxt s (Buf i)) in
       let n2 := upd n1' (Buf i) (n1' (Head k)) in
       f (BC (bufs s) (upd n2 (Head k) (Buf i))
             (upd (upd p1 (Buf i) (Head k)) (n2 (Head k)) (Buf i)) (bucket_locked s) (disk s))).
    assert (He : upd n1 (Buf i) (n1 (Head k)) (Head k) = n1 (Head k)) by (by apply upd_ne).
    rewrite Hp. cbv zeta. fold n1. by rewrite He. }
  rewrite Hstep. rewrite (bind_step _ _ _ tt (AC (abufs a) (move_front k i (als a)) (alocked a) (adisk a))) by done.
  apply Hf. destruct Hw as (H1 & H2 & H3 & H4).
  assert (Hmf : move_front k i (als a) = <[k := i :: l]> (remove_buf i (als a))).
  { unfold move_front. by apply list_alter_lookup. }
  split_and!; cbn; try done; [by rewrite Hmf|]. split_and!; cbn; try done.
  - rewrite Hmf, length_insert. unfold remove_buf. by rewrite length_map.
  - rewrite Hmf, (concat_push _ _ _ _ Hl), <- Hperm. done.
Qed.

Lemma bucket_lt bn : (Bcache.bucket bn < NBUCKETS)%nat.
Proof.
  unfold Bcache.bucket. pose proof (Z.mod_pos_bound bn (Z.of_nat NBUCKETS)).
  unfold NBUCKETS in *. lia.
Qed.

Lemma sim_get_done me cur i :
  sim (Bcache.release cur;; Bcache.acquiresleep me i;; mret i)
      (release cur;; acquiresleep me i;; mret i).
Proof.
  apply sim_bind'; [apply sim_set_locked|]. intros _.
  apply sim_bind'; [apply sim_acquiresleep|]. intros _. apply sim_ret.
Qed.

Lemma sim_steal me fuel cur find dv bn :
  (cur < NBUCKETS)%nat ->
  sim (Bcache.steal me fuel cur find dv bn) (steal me fuel cur find dv bn).
Proof.
  intros Hc. revert find. induction fuel as [|fuel IH]; intros find; cbn [Bcache.steal steal];
    destruct (find =? cur)%nat.
  1,3: apply sim_bind'; [apply sim_set_locked|]; intros _; apply sim_fail.
  { apply sim_fail. }
  set (k := (find mod NBUCKETS)%nat).
  assert (Hk : (k < NBUCKETS)%nat) by (apply Nat.mod_upper_bound; done).
  apply sim_bind'; [apply sim_locked|]. intros [|]; [apply IH|].
  apply sim_bind'; [apply sim_acquire|]. intros _.
  apply (sim_scan true k); [done|]. intros [i|] Hi.
  - apply sim_to_front; [done|by apply Hi|].
    apply sim_bind'; [apply sim_wr|]. intros _.
    apply sim_bind'; [apply sim_set_locked|]. intros _. apply sim_get_done.
  - apply sim_bind'; [apply sim_set_locked|]. intros _. apply IH.
Qed.

Lemma sim_bget me fuel dv bn : sim (Bcache.bget me fuel dv bn) (bget me fuel dv bn).
Proof.
  unfold Bcache.bget, bget. pose proof (bucket_lt bn) as Hc.
  apply sim_bind'; [apply sim_acquire|]. intros _.
  apply (sim_scan false); [done|]. intros [i|] Hi.
  - apply sim_bind'; [apply sim_wr|]. intros _. apply sim_get_done.
  - apply (sim_scan true); [done|]. intros [j|] Hj.
    + apply sim_bind'; [apply sim_wr|]. intros _. apply sim_get_done.
    + by apply sim_steal.
Qed.

Lemma sim_virtio i w : sim (Bcache.virtio_disk_rw i w) (virtio_disk_rw i w).
Proof.
  apply sim_bind'; [apply sim_rd|]. intros b. destruct w.
  - intros s a (Hb & Hlk & Hd & HR & Hw). split; [done|].
    split_and!; cbn; try done. by rewrite Hd.
  - apply (sim_bind' (gets disk) (gets adisk)); [|intros d; apply sim_wr].
    intros s a Hr. cbn. split; [|done]. by destruct Hr as (_ & _ & -> & _).
Qed.

Lemma sim_bread me fuel dv bn : sim (Bcache.bread me fuel dv bn) (bread me fuel dv bn).
Proof.
  apply sim_bind'; [apply sim_bget|]. intros i.
  apply sim_bind'; [apply sim_rd|]. intros b.
  apply sim_bind'; [|intros _; apply sim_ret].
  unfold when. destruct (valid b =? 0); [|apply sim_ret].
  apply sim_bind'; [apply sim_virtio|]. intros _. apply sim_wr.
Qed.

Lemma sim_bwrite me i : sim (Bcache.bwrite me i) (bwrite me i).
Proof.
  apply sim_bind'; [apply sim_holdingsleep|]. intros [|]; [apply sim_virtio|apply sim_fail].
Qed.

Lemma sim_brelse me i : sim (Bcache.brelse me i) (brelse me i).
Proof.
  eapply sim_bind; [apply sim_rd|apply rd_returns|]. intros b Hi. cbn beta zeta.
  apply sim_bind'; [apply sim_holdingsleep|]. intros [|]; [|apply sim_fail].
  cbn [negb]. apply sim_bind'; [apply sim_wr|]. intros _.
  apply sim_bind'; [apply sim_acquire|]. intros _.
  apply sim_bind'; [apply sim_wr|]. intros _.
  apply sim_bind'; [apply sim_rd|]. intros b'. unfold when.
  destruct (refcnt b' =? 0).
  - intros s a Hr.
    pose proof (sim_to_front (Bcache.bucket (blockno b)) i (mret tt) (mret tt)
      (bucket_lt _) Hi (sim_ret tt) s a Hr) as Hs.
    revert Hs. unfold mbind, M_bind.
    destruct (Bcache.unlink (Buf i) s) as [[[] s1]|]; [|done].
    destruct (Bcache.insert_front _ _ s1) as [[[] s2]|]; [|done].
    destruct (to_front _ i a) as [[[] a1]|]; [|done].
    intros [_ Hr']. by apply sim_set_locked.
  - apply sim_bind'; [apply sim_ret|]. intros _. apply sim_set_locked.
Qed.

Lemma sim_bpin i : sim (Bcache.bpin i) (addref 1 i).
Proof.
  apply sim_bind'; [apply sim_rd|]. intros b.
  apply sim_bind'; [apply sim_acquire|]. intros _.
  apply sim_bind'; [apply sim_wr|]. intros _. apply sim_set_locked.
Qed.

Lemma sim_bunpin i : sim (Bcache.bunpin i) (addref (-1) i).
Proof.
  apply sim_bind'; [apply sim_rd|]. intros b.
  apply sim_bind'; [apply sim_acquire|]. intros _.
  apply sim_bind'; [apply sim_wr|]. intros _. apply sim_set_locked.
Qed.
End refine.
End BcacheSpec.
