(* ===== verification/BcacheInv.v ===== *)
(** * Invariants of the buffer cache

    On the list specification: each disk block is cached in at most one buffer,
    a buffer that caches a block sits in the bucket its block number hashes to,
    and a buffer that nobody holds and that is valid agrees with the disk. All
    operations preserve them; with the refinement they hold of every state the
    pointer code reaches after [binit]. *)

From S2P Require Import Prelude.
From S2P Require Import Bcache.
From S2P Require Import BcacheLinks.
From S2P Require Import BcacheSpec.

Module BcacheInv.
Import BcacheSpec.

Section inv.
Context {D : Type} `{BlockDevice D} `{BufParams}.

(** Device number 0 marks the buffers [binit] left unused. *)
Record good (bs : list buf) (ls : list (list nat)) : Prop := Good {
  good_place k l i b :
    ls !! k = Some l -> i ∈ l -> bs !! i = Some b -> dev b <> 0 -> Bcache.bucket (blockno b) = k;
  good_unused i b : bs !! i = Some b -> dev b = 0 -> lock b = None;
  good_unique i j b c :
    bs !! i = Some b -> bs !! j = Some c -> dev b <> 0 ->
    dev b = dev c -> blockno b = blockno c -> i = j;
}.

(** Valid buffers that nobody holds agree with the disk. *)
Definition clean (d : D) (bs : list buf) : Prop :=
  forall i b, bs !! i = Some b -> valid b <> 0 -> lock b = None ->
    data b = disk_get d (dev b) (blockno b).

Definition inv (a : acache D) : Prop :=
  wf a /\ good (abufs a) (als a) /\ clean (adisk a) (abufs a).

Definition absent (bs : list buf) (dv bn : Z) : Prop :=
  forall i b, bs !! i = Some b -> ~ (dev b = dv /\ blockno b = bn).

Lemma lookup_alter_Some {A} (f : A -> A) (l : list A) i j y :
  alter f i l !! j = Some y ->
  (i = j /\ exists x, l !! j = Some x /\ y = f x) \/ (i <> j /\ l !! j = Some y).
Proof.
  destruct (decide (i = j)) as [->|Hne].
  - rewrite list_lookup_alter_eq. destruct (l !! j); cbn; [|done]. intros [= <-]. eauto.
  - rewrite list_lookup_alter_ne by done. eauto.
Qed.

(** Changing fields of a buffer other than its identity. *)
Lemma good_alter bs ls i f :
  good bs ls -> (forall b, dev (f b) = dev b) -> (forall b, blockno (f b) = blockno b) ->
  (forall b, bs !! i = Some b -> dev b = 0 -> lock (f b) = None) ->
  good (alter f i bs) ls.
Proof.
  intros [Hp Hu Hn] Hd Hb Hl. split.
  - intros k l j b Hk Hj Hbj Hdv.
    apply lookup_alter_Some in Hbj as [(-> & x & Hx & ->)|[_ Hbj]]; [|eauto].
    rewrite Hd in Hdv. rewrite Hb. eauto.
  - intros j b Hbj Hdv. apply lookup_alter_Some in Hbj as [(-> & x & Hx & ->)|[_ Hbj]]; [|eauto].
    rewrite Hd in Hdv. eauto.
  - intros j j' b c Hbj Hcj Hdv Hde Hbe.
    apply lookup_alter_Some in Hbj as [(-> & x & Hx & ->)|[Hne Hbj]],
      Hcj as [(-> & y & Hy & ->)|[Hne' Hcj]];
    rewrite ?Hd, ?Hb in *; eauto.
Qed.

(** Claiming buffer [i] of the right bucket for a block that is not cached. *)
Lemma good_claim bs ls i dv bn l :
  good bs ls -> absent bs dv bn -> NoDup (concat ls) ->
  ls !! Bcache.bucket bn = Some l -> i ∈ l -> dv <> 0 ->
  good (alter (fun b => MkBuf dv bn 0 1 (lock b) (data b)) i bs) ls.
Proof.
  intros [Hp Hu Hn] Habs Hnd Hl Hi Hdv. split.
  - intros k l' j b Hk Hj Hbj Hd.
    apply lookup_alter_Some in Hbj as [(-> & x & Hx & ->)|[_ Hbj]]; [|eauto]. cbn.
    destruct (decide (Bcache.bucket bn = k)) as [|Hne]; [done|].
    exfalso. eapply (NoDup_concat_disjoint ls (Bcache.bucket bn) k); eauto.
  - intros j b Hbj Hd. apply lookup_alter_Some in Hbj as [(-> & x & Hx & ->)|[_ Hbj]]; [|eauto].
    done.
  - intros j j' b c Hbj Hcj Hd Hde Hbe.
    apply lookup_alter_Some in Hbj as [(-> & x & Hx & ->)|[Hne Hbj]],
      Hcj as [(-> & y & Hy & ->)|[Hne' Hcj]]; cbn in *; [done| | |eauto].
    + exfalso. eapply Habs; eauto.
    + exfalso. eapply Habs; [exact Hbj|]. eauto.
Qed.

(** Moving a buffer to the front of the bucket it belongs to. *)
Lemma move_front_lookup ls k i j l :
  move_front k i ls !! j = Some l ->
  exists l0, ls !! j = Some l0 /\
    forall x, x ∈ l <-> (x ∈ l0 /\ x <> i) \/ (x = i /\ j = k).
Proof.
  unfold move_front, remove_buf. intros Hj.
  apply lookup_alter_Some in Hj as [(-> & l1 & Hl1 & ->)|[Hne Hj]].
  - rewrite list_lookup_fmap in Hl1. destruct (ls !! j) as [l0|] eqn:E; [|done].
    cbn in Hl1. injection Hl1 as <-. exists l0. split; [done|]. intros x.
    rewrite elem_of_cons, list_elem_of_filter. naive_solver.
  - rewrite list_lookup_fmap in Hj. destruct (ls !! j) as [l0|] eqn:E; [|done].
    cbn in Hj. injection Hj as <-. exists l0. split; [done|]. intros x.
    rewrite list_elem_of_filter. naive_solver.
Qed.

Lemma good_move bs ls k i :
  good bs ls ->
  (forall b, bs !! i = Some b -> dev b <> 0 -> Bcache.bucket (blockno b) = k) ->
  good bs (move_front k i ls).
Proof.
  intros [Hp Hu Hn] Hi. split; [|done|done].
  intros j l x b Hj Hx Hb Hd. apply move_front_lookup in Hj as (l0 & Hl0 & Hel).
  apply Hel in Hx as [[Hx _]|[-> ->]]; eauto.
Qed.

(** Taking a buffer from another bucket: move it, then claim it. *)
Lemma good_move_claim bs ls i dv bn :
  good bs ls -> absent bs dv bn -> dv <> 0 ->
  good (alter (fun b => MkBuf dv bn 0 1 (lock b) (data b)) i bs)
       (move_front (Bcache.bucket bn) i ls).
Proof.
  intros [Hp Hu Hn] Habs Hdv. split.
  - intros k l j b Hk Hj Hbj Hd. apply move_front_lookup in Hk as (l0 & Hl0 & Hel).
    apply lookup_alter_Some in Hbj as [(-> & x & Hx & ->)|[Hne Hbj]]; cbn.
    + apply Hel in Hj as [[_ ?]|[_ ->]]; done.
    + apply Hel in Hj as [[Hj _]|[-> _]]; [eauto|done].
  - intros j b Hbj Hd. apply lookup_alter_Some in Hbj as [(-> & x & Hx & ->)|[_ Hbj]]; [|eauto].
    done.
  - intros j j' b c Hbj Hcj Hd Hde Hbe.
    apply lookup_alter_Some in Hbj as [(-> & x & Hx & ->)|[Hne Hbj]],
      Hcj as [(-> & y & Hy & ->)|[Hne' Hcj]]; cbn in *; [done| | |eauto].
    + exfalso. eapply Habs; eauto.
    + exfalso. eapply Habs; [exact Hbj|]. eauto.
Qed.

Lemma clean_alter d bs i f :
  clean d bs ->
  (forall b, bs !! i = Some b -> valid (f b) <> 0 -> lock (f b) = None ->
     data (f b) = disk_get d (dev (f b)) (blockno (f b))) ->
  clean d (alter f i bs).
Proof.
  intros Hc Hf j b Hb Hv Hl.
  apply lookup_alter_Some in Hb as [(-> & x & Hx & ->)|[_ Hb]]; eauto.
Qed.

Lemma wf_alter (a : acache D) f i : wf a -> wf (AC (alter f i (abufs a)) (als a) (alocked a) (adisk a)).
Proof. intros (Ha & Hb & Hc & Hd). split_and!; try done. cbn. by rewrite length_alter. Qed.

Lemma inv_locked (a : acache D) k v :
  inv a -> inv (AC (abufs a) (als a) (<[k := v]> (alocked a)) (adisk a)).
Proof.
  intros ((Ha & Hb & Hc & Hd) & Hg & Hcl). split; [|done]. split_and!; try done.
  cbn. by rewrite length_insert.
Qed.

Lemma wf_move (a : acache D) k i :
  wf a -> (k < NBUCKETS)%nat -> (i < NBUF)%nat ->
  wf (AC (abufs a) (move_front k i (als a)) (alocked a) (adisk a)).
Proof.
  intros Hw Hk Hi. pose proof (wf_NoDup a Hw) as Hnd.
  destruct (remove_buf_spec i (als a) Hnd) as [Hperm Hnot]; [by apply wf_elem|].
  destruct Hw as (Ha & Hb & Hc & Hd).
  assert (Hl : length (remove_buf i (als a)) = NBUCKETS).
  { unfold remove_buf. by rewrite length_map. }
  destruct (lookup_lt_is_Some_2 (remove_buf i (als a)) k) as [l El]; [lia|].
  assert (Hmf : move_front k i (als a) = <[k := i :: l]> (remove_buf i (als a))).
  { unfold move_front. by apply list_alter_lookup. }
  split_and!; try done; cbn; rewrite Hmf; [by rewrite length_insert|].
  by rewrite (concat_push _ _ _ _ El), <- Hperm.
Qed.

Lemma bind_release {X} k (f : unit -> M (acache D) X) a :
  (release k ≫= f) a = f tt (AC (abufs a) (als a) (<[k := false]> (alocked a)) (adisk a)).
Proof. done. Qed.

(** What [bget] promises about the buffer it returns. *)
Definition got (me dv bn : Z) (a : acache D) (i : nat) (a' : acache D) : Prop :=
  inv a' /\ adisk a' = adisk a /\
  exists b, abufs a' !! i = Some b /\ dev b = dv /\ blockno b = bn /\ lock b = Some me /\
    (valid b <> 0 -> data b = disk_get (adisk a) dv bn).

Lemma get_done_got me a cur i dv bn b x a' :
  inv a -> abufs a !! i = Some b -> dev b = dv -> blockno b = bn -> dv <> 0 ->
  (release cur;; acquiresleep me i;; mret i) a = Ok (x, a') ->
  x = i /\ got me dv bn a i a'.
Proof.
  intros Hinv Hb Hd Hn Hdv Hrun. pose proof (inv_locked a cur false Hinv) as Hinv1.
  apply bind_Ok in Hrun as ([] & a1 & E1 & Hrun). inversion E1; subst a1; clear E1.
  apply bind_Ok in Hrun as ([] & a2 & E2 & Hrun). cbv in Hrun. injection Hrun as <- <-.
  split; [done|].
  apply bind_Ok in E2 as (b0 & a3 & E3 & E2). unfold rd in E3. cbn in E3. rewrite Hb in E3.
  inversion E3; subst; clear E3. destruct (lock b0) eqn:Elock; [done|].
  inversion E2; subst; clear E2. destruct Hinv1 as (Hw & Hg & Hcl). cbn in *.
  split; [|split; [done|]].
  - split; [|split].
    + by apply (wf_alter (AC _ _ _ _)).
    + cbn. apply good_alter; try done. intros b Hb' ?. rewrite Hb in Hb'. by injection Hb' as <-.
    + cbn. by apply clean_alter.
  - exists (set_lock (Some me) b0).
    pose proof (list_lookup_alter_eq (set_lock (Some me)) (abufs a) i) as Hx.
    rewrite Hb in Hx. split_and!; try done. cbn. intros Hv. by apply (Hcl i b0).
Qed.

Lemma absent_search (a : acache D) dv bn l :
  inv a -> als a !! Bcache.bucket bn = Some l -> dv <> 0 ->
  first (abufs a) (Bcache.is_block dv bn) l = None -> absent (abufs a) dv bn.
Proof.
  intros (Hw & Hg & _) Hl Hdv Hf i b Hb [Hd Hn].
  assert (Hi : i ∈ concat (als a)).
  { apply wf_elem; [done|]. destruct Hw as (<- & _). by eapply lookup_lt_Some. }
  apply elem_of_concat in Hi as (l' & Hl' & Hi). apply list_elem_of_lookup in Hl' as [k Hk].
  pose proof (good_place _ _ Hg k l' i b Hk Hi Hb ltac:(congruence)) as Hbk.
  subst. rewrite Hk in Hl. injection Hl as ->.
  pose proof (find_none _ _ Hf i ltac:(by apply list_elem_of_In)) as Hno. cbn in Hno.
  rewrite Hb in Hno. unfold Bcache.is_block in Hno. rewrite !Z.eqb_refl in Hno. done.
Qed.

Lemma steal_got me fuel find dv bn a i a' :
  inv a -> absent (abufs a) dv bn -> dv <> 0 ->
  steal me fuel (Bcache.bucket bn) find dv bn a = Ok (i, a') ->
  got me dv bn a i a'.
Proof.
  revert find a. induction fuel as [|fuel IH]; intros find a Hinv Habs Hdv Hrun;
    cbn [steal] in Hrun; destruct (find =? Bcache.bucket bn)%nat; try done.
  set (k := (find mod NBUCKETS)%nat) in *.
  assert (Hk : (k < NBUCKETS)%nat) by (apply Nat.mod_upper_bound; done).
  unfold locked in Hrun. run_in Hrun. destruct (default false _) eqn:El; [by eapply IH|].
  unfold acquire, locked in Hrun. run_in Hrun. rewrite El in Hrun.
  unfold set_locked, bucket_list, search in Hrun. run_in Hrun. cbn [abufs als] in Hrun.
  destruct (first _ _ _) as [j|] eqn:Ej.
  - unfold to_front, claim, wr in Hrun. run_in Hrun. rewrite bind_release in Hrun.
    cbn [abufs als alocked adisk] in Hrun.
    destruct Hinv as (Hw & Hg & Hcl).
    assert (Hj : (j < NBUF)%nat).
    { apply first_elem in Ej. rewrite elem_of_rev in Ej.
      destruct (als a !! k) as [l0|] eqn:El0; cbn in Ej; [|set_solver].
      eapply bucket_lookup; eauto. }
    destruct (lookup_lt_is_Some_2 (abufs a) j) as [b Hb]; [by destruct Hw as (-> & _)|].
    assert (Hb' : alter (fun b => MkBuf dv bn 0 1 (lock b) (data b)) j (abufs a) !! j
                  = Some (MkBuf dv bn 0 1 (lock b) (data b))).
    { rewrite list_lookup_alter_eq. by rewrite Hb. }
    eapply get_done_got in Hrun; [|split; [|split]|exact Hb'|done|done|done].
    + destruct Hrun as [-> Hgot]. exact Hgot.
    + pose proof (wf_move a (Bcache.bucket bn) j Hw (bucket_lt bn) Hj) as (Ha & Hb1 & Hc & Hd).
      cbn in *. split_and!; cbn; try done; [by rewrite length_alter|by rewrite !length_insert].
    + cbn. by apply good_move_claim.
    + cbn. by apply clean_alter.
  - unfold release, set_locked in Hrun. run_in Hrun. cbn [abufs als alocked adisk] in Hrun.
    apply IH in Hrun; [| |done|done].
    + destruct Hrun as (Hi' & Hd' & b & Hb). split; [done|]. split; [done|]. eauto.
    + apply (inv_locked (AC (abufs a) (als a) _ (adisk a))). by apply inv_locked.
Qed.

Lemma alter_lookup_set (bs : list buf) i b f :
  bs !! i = Some b -> alter f i bs !! i = Some (f b).
Proof. intros Hb. by rewrite list_lookup_alter_eq, Hb. Qed.

(** A locked-list state differs from [a] only in the bucket locks. *)
Lemma bget_got me fuel dv bn a i a' :
  inv a -> dv <> 0 -> bget me fuel dv bn a = Ok (i, a') -> got me dv bn a i a'.
Proof.
  intros Hinv Hdv Hrun. unfold bget, acquire, locked in Hrun. run_in Hrun.
  destruct (default false _); [done|].
  unfold set_locked, bucket_list, search in Hrun. run_in Hrun.
  cbn [abufs als alocked adisk] in Hrun.
  pose proof (inv_locked a (Bcache.bucket bn) true Hinv) as Hinv1.
  destruct (lookup_lt_is_Some_2 (als a) (Bcache.bucket bn)) as [l Hl].
  { destruct Hinv as ((_ & -> & _) & _). apply bucket_lt. }
  rewrite Hl in Hrun. cbn [default from_option id] in Hrun.
  destruct (bucket_lookup a _ l (proj1 Hinv) Hl) as [_ Hlt].
  destruct Hinv1 as (Hw & Hg & Hcl). cbn [abufs als alocked adisk] in Hw, Hg, Hcl.
  destruct (first _ _ l) as [j|] eqn:Ej.
  - pose proof (first_elem _ _ _ _ Ej) as Hj. apply find_some in Ej as [_ Hblk].
    destruct (abufs a !! j) as [b|] eqn:Hb; [|done]. unfold Bcache.is_block in Hblk.
    bool_to_prop. unfold wr in Hrun. run_in Hrun. cbn [abufs als alocked adisk] in Hrun.
    eapply (get_done_got _ _ _ _ _ _ (set_refcnt (u32 (refcnt b + 1)) b)) in Hrun; [|split; [|split]| |done|done|done].
    + destruct Hrun as [-> Hgot]. exact Hgot.
    + by apply (wf_alter (AC _ _ _ _)).
    + apply good_alter; try done. intros b' Hb' Hd0. exact (good_unused _ _ Hg j b' Hb' Hd0).
    + apply clean_alter; [done|]. intros b' Hb' Hv Hlk. by apply (Hcl j b').
    + exact (alter_lookup_set _ _ b (fun b => set_refcnt (u32 (refcnt b + 1)) b) Hb).
  - assert (Habs : absent (abufs a) dv bn) by (by eapply absent_search).
    run_in Hrun. cbn [abufs als alocked adisk] in Hrun. rewrite Hl in Hrun.
    cbn [default from_option id] in Hrun.
    destruct (first _ _ (rev l)) as [j|] eqn:Ej2.
    + pose proof (first_elem _ _ _ _ Ej2) as Hj. rewrite elem_of_rev in Hj.
      destruct (lookup_lt_is_Some_2 (abufs a) j) as [b Hb].
      { destruct Hinv as ((-> & _) & _). auto. }
      unfold claim, wr in Hrun. run_in Hrun. cbn [abufs als alocked adisk] in Hrun.
      eapply (get_done_got _ _ _ _ _ _ (MkBuf dv bn 0 1 (lock b) (data b))) in Hrun; [|split; [|split]| |done|done|done].
      * destruct Hrun as [-> Hgot]. exact Hgot.
      * by apply (wf_alter (AC _ _ _ _)).
      * eapply good_claim; try done. exact (wf_NoDup a (proj1 Hinv)).
      * by apply clean_alter.
      * exact (alter_lookup_set _ _ b (fun b => MkBuf dv bn 0 1 (lock b) (data b)) Hb).
    + apply steal_got in Hrun; try done.
Qed.

Lemma bread_got me fuel dv bn a i a' :
  inv a -> dv <> 0 -> bread me fuel dv bn a = Ok (i, a') ->
  got me dv bn a i a' /\
  exists b, abufs a' !! i = Some b /\ valid b <> 0 /\ data b = disk_get (adisk a) dv bn.
Proof.
  intros Hinv Hdv Hrun. apply bind_Ok in Hrun as (j & a1 & Hget & Hrun).
  apply bget_got in Hget as (Hinv1 & Hd1 & b & Hb & Hdev & Hbn & Hlk & Hdat); [|done|done].
  rewrite (bind_step _ _ _ b a1) in Hrun by (unfold rd; by rewrite Hb).
  unfold when in Hrun. destruct (Z.eqb_spec (valid b) 0) as [Hv|Hv].
  - unfold virtio_disk_rw in Hrun. rewrite !bind_assoc in Hrun.
    rewrite (bind_step _ _ _ b a1) in Hrun by (unfold rd; by rewrite Hb).
    unfold wr in Hrun. run_in Hrun. cbv [mret M_ret] in Hrun. injection Hrun as <- <-.
    destruct Hinv1 as (Hw & Hg & Hcl).
    set (b2 := set_valid 1 (set_data (disk_get (adisk a1) (dev b) (blockno b)) b)).
    assert (Hb2 : alter (set_valid 1)
        j (alter (set_data (disk_get (adisk a1) (dev b) (blockno b))) j (abufs a1)) !! j = Some b2).
    { by apply (alter_lookup_set _ _ (set_data (disk_get (adisk a1) (dev b) (blockno b)) b)),
        alter_lookup_set. }
    assert (Hdat2 : data b2 = disk_get (adisk a) dv bn).
    { unfold b2. cbn. by rewrite Hd1, Hdev, Hbn. }
    split; [|by exists b2].
    split; [|split; [done|by exists b2]].
    split; [|split].
    + apply (wf_alter (AC _ _ _ _)). by apply wf_alter.
    + apply good_alter; try done; [by apply good_alter; try done; intros b' Hb' Hd0; exact (good_unused _ _ Hg j b' Hb' Hd0)|].
      intros b' Hb' Hd0. rewrite (alter_lookup_set _ _ b) in Hb' by done.
      injection Hb' as <-. cbn in *. congruence.
    + apply clean_alter; [apply clean_alter; [done|]|].
      * intros b' Hb' _ Hl'. rewrite Hb in Hb'. injection Hb' as <-. cbn in Hl'. congruence.
      * intros b' Hb' _ Hl'. rewrite (alter_lookup_set _ _ b) in Hb' by done.
        injection Hb' as <-. cbn in Hl'. congruence.
  - run_in Hrun. cbv [mret M_ret] in Hrun. injection Hrun as <- <-.
    split; [|by exists b; auto].
    split; [done|]. split; [done|]. by exists b; auto.
Qed.

(** Writing back a held buffer. *)
Lemma bwrite_inv `{!BlockDeviceOk D} me i a u a' :
  inv a -> bwrite me i a = Ok (u, a') ->
  inv a' /\ abufs a' = abufs a /\
  exists b, abufs a !! i = Some b /\ lock b = Some me /\
    disk_get (adisk a') (dev b) (blockno b) = data b.
Proof.
  intros (Hw & Hg & Hcl) Hrun. unfold bwrite, holdingsleep in Hrun.
  destruct (abufs a !! i) as [b|] eqn:Hb.
  2:{ rewrite bind_assoc in Hrun. unfold rd in Hrun. unfold mbind at 1, M_bind at 1 in Hrun.
      by rewrite Hb in Hrun. }
  rewrite bind_assoc, (bind_step _ _ _ b a) in Hrun by (unfold rd; by rewrite Hb).
  run_in Hrun. destruct (bool_decide_reflect (lock b = Some me)) as [Hlk|]; [|done].
  cbn [negb] in Hrun. unfold virtio_disk_rw in Hrun.
  rewrite (bind_step _ _ _ b a) in Hrun by (unfold rd; by rewrite Hb).
  cbv [modify] in Hrun. injection Hrun as _ <-. cbn [abufs als alocked adisk].
  split; [|split; [done|]].
  - split; [done|]. split; [done|]. intros j c Hc Hv Hl. cbn [adisk abufs] in *.
    rewrite disk_get_set_other; [by apply (Hcl j c)|]. intros [= Ed Eb].
    assert (Hne : dev c <> 0).
    { intros E0. rewrite E0 in Ed.
      pose proof (good_unused _ _ Hg i b Hb ltac:(congruence)). congruence. }
    pose proof (good_unique _ _ Hg j i c b Hc Hb Hne Ed Eb) as ->.
    rewrite Hb in Hc. injection Hc as <-. congruence.
  - exists b. split_and!; try done. cbn. apply disk_get_set.
Qed.

Lemma rd_Ok i (a : acache D) b a' : rd i a = Ok (b, a') -> abufs a !! i = Some b /\ a' = a.
Proof. unfold rd. destruct (abufs a !! i); [|done]. by intros [= -> ->]. Qed.

(** Releasing a held buffer whose contents are on disk. *)
Lemma brelse_inv me i a u a' :
  inv a ->
  (forall b, abufs a !! i = Some b -> valid b <> 0 ->
     data b = disk_get (adisk a) (dev b) (blockno b)) ->
  brelse me i a = Ok (u, a') -> inv a' /\ adisk a' = adisk a.
Proof.
  intros (Hw & Hg & Hcl) Hflush Hrun. unfold brelse in Hrun.
  apply bind_Ok in Hrun as (b & a0 & E & Hrun). apply rd_Ok in E as [Hb ->].
  cbv zeta in Hrun. unfold holdingsleep in Hrun. rewrite bind_assoc in Hrun.
  rewrite (bind_step _ _ _ b a) in Hrun by (unfold rd; by rewrite Hb). run_in Hrun.
  destruct (bool_decide_reflect (lock b = Some me)) as [Hlk|]; [|done]. cbn [negb] in Hrun.
  unfold wr, acquire, locked in Hrun. run_in Hrun. cbn [abufs als alocked adisk] in Hrun.
  destruct (default false _); [done|]. unfold set_locked in Hrun. run_in Hrun.
  cbn [abufs als alocked adisk] in Hrun.
  set (f := fun b0 => set_refcnt (u32 (refcnt b0 - 1)) b0) in Hrun.
  set (bs := alter f i (alter (set_lock None) i (abufs a))) in Hrun.
  assert (Hbs : bs !! i = Some (f (set_lock None b))).
  { by apply (alter_lookup_set _ _ (set_lock None b)), alter_lookup_set. }
  assert (Hg' : good bs (als a)).
  { apply good_alter; try done.
    - by apply good_alter.
    - intros b' Hb' Hd0. rewrite (alter_lookup_set _ _ b) in Hb' by done. by injection Hb' as <-. }
  assert (Hcl' : clean (adisk a) bs).
  { apply clean_alter; [apply clean_alter; [done|]|].
    - intros b' Hb' Hv _. cbn in *. eauto.
    - intros b' Hb' Hv _. rewrite (alter_lookup_set _ _ b) in Hb' by done.
      injection Hb' as <-. cbn in *. eauto. }
  assert (Hi : (i < NBUF)%nat).
  { destruct Hw as (<- & _). by eapply lookup_lt_Some. }
  assert (Hw' : wf (AC bs (als a) (<[Bcache.bucket (blockno b) := true]> (alocked a)) (adisk a))).
  { destruct Hw as (Ha & Hb1 & Hc & Hd). split_and!; cbn; try done.
    - unfold bs. by rewrite !length_alter.
    - by rewrite length_insert. }
  rewrite (bind_step _ _ _ (f (set_lock None b)) _) in Hrun
    by (unfold rd; cbn [abufs]; by rewrite Hbs).
  unfold when in Hrun.
  assert (Hinv1 : inv (AC bs (als a) (<[Bcache.bucket (blockno b) := true]> (alocked a)) (adisk a))).
  { split; [done|]. by split. }
  destruct (refcnt (f (set_lock None b)) =? 0).
  - unfold to_front in Hrun. run_in Hrun. cbn [abufs als alocked adisk] in Hrun.
    cbv [release set_locked modify] in Hrun. cbn [abufs als alocked adisk] in Hrun.
    injection Hrun as _ <-. split; [|done].
    apply (inv_locked (AC bs (move_front _ i (als a)) _ (adisk a))).
    split; [|split; [|done]].
    + apply (wf_move (AC bs (als a) _ (adisk a))); [done|apply bucket_lt|done].
    + cbn. apply good_move; [done|]. intros b' Hb' _. rewrite Hbs in Hb'. by injection Hb' as <-.
  - run_in Hrun. cbv [release set_locked modify] in Hrun. cbn [abufs als alocked adisk] in Hrun.
    injection Hrun as _ <-. split; [|done]. exact (inv_locked _ _ false Hinv1).
Qed.

(** [bpin] and [bunpin]. *)
Lemma addref_inv d i a u a' : inv a -> addref d i a = Ok (u, a') -> inv a' /\ adisk a' = adisk a.
Proof.
  intros (Hw & Hg & Hcl) Hrun. unfold addref in Hrun.
  apply bind_Ok in Hrun as (b & a0 & E & Hrun). apply rd_Ok in E as [Hb ->].
  unfold acquire, locked in Hrun. run_in Hrun. destruct (default false _); [done|].
  unfold set_locked, wr in Hrun. run_in Hrun. cbn [abufs als alocked adisk] in Hrun.
  cbv [release set_locked modify] in Hrun. cbn [abufs als alocked adisk] in Hrun.
  injection Hrun as _ <-. split; [|done]. apply (inv_locked (AC _ _ _ _)).
  apply (inv_locked (AC _ _ _ (adisk a))). split; [by apply wf_alter|]. split; cbn.
  - apply good_alter; try done. intros b' Hb' Hd0. exact (good_unused _ _ Hg i b' Hb' Hd0).
  - apply clean_alter; [done|]. intros b' Hb' Hv Hl. exact (Hcl i b' Hb' Hv Hl).
Qed.

(** The holder of a buffer changes its contents. *)
Lemma set_data_inv me i x a b :
  inv a -> abufs a !! i = Some b -> lock b = Some me ->
  inv (AC (alter (set_data x) i (abufs a)) (als a) (alocked a) (adisk a)).
Proof.
  intros (Hw & Hg & Hcl) Hb Hl. split; [by apply wf_alter|]. split; cbn.
  - apply good_alter; try done. intros b' Hb' Hd0. exact (good_unused _ _ Hg i b' Hb' Hd0).
  - apply clean_alter; [done|]. intros b' Hb' _ Hl'. rewrite Hb in Hb'. injection Hb' as <-.
    cbn in Hl'. congruence.
Qed.
End inv.

(** ** Runs of the cache

    A step is one call of an interface function of [bio.c] by some process, or
    a process changing the contents of a buffer it holds. The guards are the
    protocol the header of [bio.c] states: a buffer is released after its
    changes were written; device 0 is not used. *)
Section runs.
Context {D : Type} `{BlockDevice D} `{!BlockDeviceOk D} `{BufParams}.

Inductive cstep : bcache D -> bcache D -> Prop :=
| cstep_read me fuel dv bn s i s' :
    dv <> 0 -> Bcache.bread me fuel dv bn s = Ok (i, s') -> cstep s s'
| cstep_change me i x b s :
    bufs s !! i = Some b -> lock b = Some me ->
    cstep s (Bcache.set_bufs (alter (set_data x) i (bufs s)) s)
| cstep_write me i s s' : Bcache.bwrite me i s = Ok (tt, s') -> cstep s s'
| cstep_relse me i s s' :
    (forall b, bufs s !! i = Some b -> valid b <> 0 ->
       data b = disk_get (disk s) (dev b) (blockno b)) ->
    Bcache.brelse me i s = Ok (tt, s') -> cstep s s'
| cstep_pin i s s' : Bcache.bpin i s = Ok (tt, s') -> cstep s s'
| cstep_unpin i s s' : Bcache.bunpin i s = Ok (tt, s') -> cstep s s'.

Definition cinv (s : bcache D) : Prop := exists a, rep s a /\ inv a.

Lemma sim_Ok {X} (m : M (bcache D) X) m' s a x s' :
  sim m m' -> rep s a -> m s = Ok (x, s') -> exists a', m' a = Ok (x, a') /\ rep s' a'.
Proof.
  intros Hs Hr Hm. specialize (Hs s a Hr). rewrite Hm in Hs.
  destruct (m' a) as [[y a']|]; [|done]. destruct Hs as [<- Hr']. eauto.
Qed.

Lemma cinv_step s s' : cstep s s' -> cinv s -> cinv s'.
Proof.
  intros Hs (a & Hr & Hinv). pose proof Hr as (Hb & _ & Hd & _).
  destruct Hs as [me fuel dv bn s i s' Hdv E|me i x b s Hbi Hl|me i s s' E|me i s s' Hfl E|i s s' E|i s s' E].
  - destruct (sim_Ok _ _ _ _ _ _ (sim_bread me fuel dv bn) Hr E) as (a' & Ea & Hr').
    exists a'. split; [done|]. eapply bread_got; eauto.
  - destruct (sim_Ok _ _ _ _ tt _ (sim_wr i (set_data x)) Hr eq_refl) as (a' & Ea & Hr').
    exists a'. split; [done|]. cbv [wr modify] in Ea. injection Ea as <-.
    eapply set_data_inv; [done| |exact Hl]. by rewrite <- Hb.
  - destruct (sim_Ok _ _ _ _ _ _ (sim_bwrite me i) Hr E) as (a' & Ea & Hr').
    exists a'. split; [done|]. by eapply bwrite_inv in Ea as [? _].
  - destruct (sim_Ok _ _ _ _ _ _ (sim_brelse me i) Hr E) as (a' & Ea & Hr').
    exists a'. split; [done|]. eapply brelse_inv in Ea as [? _]; [done|done|].
    rewrite <- Hb, <- Hd. exact Hfl.
  - destruct (sim_Ok _ _ _ _ _ _ (sim_bpin i) Hr E) as (a' & Ea & Hr').
    exists a'. split; [done|]. by eapply addref_inv in Ea as [? _].
  - destruct (sim_Ok _ _ _ _ _ _ (sim_bunpin i) Hr E) as (a' & Ea & Hr').
    exists a'. split; [done|]. by eapply addref_inv in Ea as [? _].
Qed.

Lemma cinv_reachable s s' : rtc cstep s s' -> cinv s -> cinv s'.
Proof. induction 1; eauto using cinv_step. Qed.
End runs.
End BcacheInv.
