(* ===== verification/BcacheThms.v ===== *)
(** * Theorems about the buffer cache (third experiment, [bio.c])

    [binit] establishes the invariant; every run keeps it; [bread] returns the
    contents of the block; what [bget] does when buffers run out. *)

From S2P Require Import Prelude.
From S2P Require Import Bcache.
From S2P Require Import BcacheLinks.
From S2P Require Import BcacheSpec.
From S2P Require Import BcacheInv.

Module BcacheThms.
Import BcacheSpec BcacheInv.

Section init.
Context {D : Type} `{BlockDevice D} `{BufParams}.

Lemma init_heads_spec n c (s : bcache D) :
  wp (Bcache.init_heads n c) s (fun _ s' =>
    bufs s' = bufs s /\ disk s' = disk s /\
    length (bucket_locked s') = length (bucket_locked s) /\
    (forall k, (c <= k < c + n)%nat -> nxt s' (Head k) = Head k /\ prv s' (Head k) = Head k) /\
    (forall k, (k < c)%nat -> nxt s' (Head k) = nxt s (Head k) /\ prv s' (Head k) = prv s (Head k))).
Proof.
  revert c s. induction n as [|n IH]; intros c s; cbn [Bcache.init_heads].
  { apply wp_ret. split_and!; try done. intros k. lia. }
  unfold Bcache.set_locked, Bcache.set_prev, Bcache.set_next. wp_pure.
  eapply wp_mono; [apply IH|]. cbn. intros _ s' (Hb & Hd & Hl & Hin & Hout).
  split_and!; try done; [by rewrite Hl, length_insert| |].
  - intros k Hk. destruct (decide (k = c)) as [->|]; [|apply Hin; lia].
    destruct (Hout c) as [-> ->]; [lia|]. by rewrite !upd_eq.
  - intros k Hk. destruct (Hout k) as [-> ->]; [lia|].
    rewrite !upd_ne; [done| |]; intros [=]; lia.
Qed.

(** The buffers among the first [i] that [binit] puts on bucket [k], last one
    first. *)
Definition dealt (i k : nat) : list nat :=
  rev (filter (fun j => j mod NBUCKETS = k)%nat (seq 0 i)).
Definition dealt_all (i : nat) : list (list nat) := map (dealt i) (seq 0 NBUCKETS).

Lemma dealt_all_lookup i k : (k < NBUCKETS)%nat -> dealt_all i !! k = Some (dealt i k).
Proof. intros Hk. unfold dealt_all. by rewrite list_lookup_fmap, lookup_seq_lt. Qed.

Lemma dealt_all_S i :
  dealt_all (S i) = <[(i mod NBUCKETS)%nat := i :: dealt i (i mod NBUCKETS)]> (dealt_all i).
Proof.
  assert (Hm : (i mod NBUCKETS < NBUCKETS)%nat) by (apply Nat.mod_upper_bound; done).
  assert (Hstep : forall k, dealt (S i) k =
    if decide (i mod NBUCKETS = k)%nat then i :: dealt i k else dealt i k).
  { intros k. unfold dealt. rewrite seq_S, filter_app, rev_app_distr. cbn [plus].
    case_decide; [rewrite filter_cons_True by done|rewrite filter_cons_False by done]; done. }
  apply list_eq. intros k. destruct (decide (k < NBUCKETS)%nat) as [Hk|Hk].
  - rewrite dealt_all_lookup, Hstep by done. case_decide as E.
    + subst k. rewrite list_lookup_insert_eq; [done|]. unfold dealt_all.
      by rewrite length_map, length_seq.
    + rewrite list_lookup_insert_ne by done. by rewrite dealt_all_lookup.
  - rewrite !lookup_ge_None_2; [done| |].
    + rewrite length_insert. unfold dealt_all. rewrite length_map, length_seq. lia.
    + unfold dealt_all. rewrite length_map, length_seq. lia.
Qed.

Lemma dealt_partition i : concat (dealt_all i) ≡ₚ seq 0 i.
Proof.
  induction i as [|i IH].
  - rewrite concat_all_nil; [done|]. intros k l Hl. unfold dealt_all in Hl.
    rewrite list_lookup_fmap in Hl. destruct (seq 0 NBUCKETS !! k); [|done]. by injection Hl as <-.
  - rewrite dealt_all_S.
    rewrite (concat_push _ _ _ _ (dealt_all_lookup i _ (Nat.mod_upper_bound i NBUCKETS ltac:(done)))).
    rewrite IH, seq_S. cbn. apply Permutation_cons_append.
Qed.

Lemma init_bufs_spec n i c (s : bcache D) :
  rings (nxt s) (prv s) (dealt_all i) -> (c mod NBUCKETS = i mod NBUCKETS)%nat ->
  wp (Bcache.init_bufs n i c) s (fun _ s' =>
    rings (nxt s') (prv s') (dealt_all (i + n)) /\
    disk s' = disk s /\ bucket_locked s' = bucket_locked s /\
    length (bufs s') = length (bufs s) /\
    forall j b, bufs s' !! j = Some b ->
      exists b0, bufs s !! j = Some b0 /\ dev b = dev b0 /\ valid b = valid b0 /\
        (lock b = lock b0 \/ lock b = None)).
Proof.
  revert i c s. induction n as [|n IH]; intros i c s HR Hc; cbn [Bcache.init_bufs].
  { apply wp_ret. rewrite Nat.add_0_r. split_and!; try done. eauto 10. }
  set (k := (c mod NBUCKETS)%nat) in *. cbv zeta.
  unfold Bcache.next_of, Bcache.set_prev, Bcache.set_next, Bcache.wr. wp_pure.
  cbn [bufs nxt prv bucket_locked disk Bcache.set_bufs].
  assert (Hk : (k < NBUCKETS)%nat) by (apply Nat.mod_upper_bound; done).
  assert (He : upd (nxt s) (Buf i) (nxt s (Head k)) (Head k) = nxt s (Head k))
    by (by apply upd_ne).
  rewrite He.
  eapply wp_mono.
  { apply IH; cbn [bufs nxt prv bucket_locked disk Bcache.set_bufs].
    - rewrite dealt_all_S, <- Hc.
      apply (rings_insert (nxt s) (prv s) (dealt_all i) k i (dealt i k)); [done| | |].
      + rewrite dealt_partition. apply NoDup_seq.
      + rewrite dealt_partition, elem_of_seq. lia.
      + by apply dealt_all_lookup.
    - rewrite Hc. apply (Nat.Div0.add_mod_idemp_r 1 i NBUCKETS). }
  cbn [bufs nxt prv bucket_locked disk Bcache.set_bufs].
  intros _ s' (HR' & Hd & Hl & Hlen & Hb).
  replace (i + S n)%nat with (S i + n)%nat by lia. split_and!; try done.
  - by rewrite Hlen, length_alter.
  - intros j b Hj. destruct (Hb j b Hj) as (b1 & Hb1 & Hd1 & Hv1 & Hl1).
    apply lookup_alter_Some in Hb1 as [(<- & b0 & Hb0 & ->)|[Hne Hb0]].
    + exists b0. cbn in *. split_and!; try done. destruct Hl1 as [->| ->]; auto.
    + eauto 10.
Qed.

(** The cache as the loader leaves it: all buffers zero. *)
Definition zeroed (s : bcache D) : Prop :=
  length (bufs s) = NBUF /\ length (bucket_locked s) = NBUCKETS /\
  forall i b, bufs s !! i = Some b -> dev b = 0 /\ valid b = 0 /\ lock b = None.

Lemma binit_rep (s : bcache D) :
  zeroed s ->
  wp Bcache.binit s (fun _ s' =>
    exists a, rep s' a /\ inv a /\ als a = dealt_all NBUF /\ disk s' = disk s).
Proof.
  intros (Hlb & Hll & Hz). unfold Bcache.binit. apply wp_bind.
  eapply wp_mono; [apply init_heads_spec|]. cbn. intros _ s1 (Hb1 & Hd1 & Hl1 & Hin & _).
  eapply wp_mono.
  { apply (init_bufs_spec NBUF 0 0); [|done]. intros k l Hl.
    unfold dealt_all in Hl. rewrite list_lookup_fmap in Hl.
    destruct (seq 0 NBUCKETS !! k) eqn:E; [|done]. apply lookup_seq in E as [-> Hk].
    injection Hl as <-. cbn. apply Hin. lia. }
  cbn. intros _ s' (HR & Hd & Hl & Hlen & Hb).
  set (a := AC (bufs s') (dealt_all NBUF) (bucket_locked s') (disk s')).
  assert (Hzero : forall i b, bufs s' !! i = Some b -> dev b = 0 /\ valid b = 0 /\ lock b = None).
  { intros i b Hi. destruct (Hb i b Hi) as (b0 & Hb0 & -> & -> & Hlk). rewrite Hb1 in Hb0.
    destruct (Hz i b0 Hb0) as (? & ? & E). rewrite E in Hlk. naive_solver. }
  assert (Hw : wf a).
  { split_and!; cbn [a abufs als alocked].
    - by rewrite Hlen, Hb1.
    - unfold dealt_all. by rewrite length_map, length_seq.
    - by rewrite Hl, Hl1.
    - apply dealt_partition. }
  exists a. split; [by split_and!|]. split; [|split; [done|by rewrite Hd, Hd1]].
  split; [done|]. split; [split|].
  - intros k l i b _ _ Hi. destruct (Hzero i b Hi) as [? _]. done.
  - intros i b Hi _. apply (Hzero i b Hi).
  - intros i j b c Hi _ Hd0. destruct (Hzero i b Hi) as [? _]. done.
  - intros i b Hi Hv. destruct (Hzero i b Hi) as (_ & ? & _). done.
Qed.
End init.

(** ** Running out of buffers *)
Section exhaust.
Context {D : Type} `{BlockDevice D} `{BufParams}.

(** No buffer is free. *)
Definition busy (bs : list buf) : Prop := forall i b, bs !! i = Some b -> refcnt b <> 0.

Lemma busy_search bs l : busy bs -> first bs Bcache.is_free l = None.
Proof.
  intros Hb. unfold first. induction l as [|i l IH]; [done|]. cbn.
  destruct (bs !! i) as [b|] eqn:E; [|done].
  unfold Bcache.is_free at 1. destruct (Z.eqb_spec (refcnt b) 0) as [E0|]; [|done].
  exfalso. by apply (Hb i b E).
Qed.

(** One round of the loop over the other buckets when nothing is free. *)
Lemma steal_busy me fuel cur find dv bn (a : acache D) :
  busy (abufs a) -> find <> cur ->
  exists a', busy (abufs a') /\
    steal me (S fuel) cur find dv bn a = steal me fuel cur (S (find mod NBUCKETS)) dv bn a'.
Proof.
  intros Hb Hne. cbn [steal]. destruct (Nat.eqb_spec find cur) as [|_]; [done|].
  set (k := (find mod NBUCKETS)%nat). unfold locked at 1. rewrite bind_gets.
  destruct (default false (alocked a !! k)) eqn:El.
  { exists a. split; [done|]. done. }
  unfold acquire, locked. rewrite bind_assoc, bind_gets, El. unfold set_locked.
  rewrite bind_modify. unfold bucket_list, search. rewrite !bind_gets.
  cbn [abufs als alocked adisk]. rewrite busy_search by done.
  rewrite bind_release. cbn [abufs als alocked adisk]. eexists. split; [|reflexivity]. done.
Qed.

(** From any other bucket the loop reaches bucket [cur] after a full turn,
    unless [cur] is 0. *)
Lemma steal_panics me cur dv bn d : forall fuel find (a : acache D),
  busy (abufs a) -> (0 < cur < NBUCKETS)%nat -> (0 < find <= NBUCKETS)%nat ->
  d = (if (find <=? cur) then cur - find else NBUCKETS - find + cur)%nat -> (d <= fuel)%nat ->
  steal me fuel cur find dv bn a = Fail (Panic "bget: no buffers").
Proof.
  induction d as [|d IH]; intros fuel find a Hb Hc Hf Hd Hfuel.
  - assert (find = cur) as -> by (destruct (Nat.leb_spec find cur); lia).
    destruct fuel; cbn [steal]; rewrite Nat.eqb_refl; by rewrite bind_release.
  - destruct fuel as [|fuel]; [lia|].
    assert (Hne : find <> cur) by (intros ->; rewrite Nat.leb_refl in Hd; lia).
    destruct (steal_busy me fuel cur find dv bn a Hb Hne) as (a' & Hb' & ->).
    assert (Hm : (find mod NBUCKETS = if find =? NBUCKETS then 0 else find)%nat).
    { destruct (Nat.eqb_spec find NBUCKETS) as [->|]; [done|]. apply Nat.mod_small. lia. }
    rewrite Hm. unfold NBUCKETS in *.
    destruct (Nat.eqb_spec find 13); destruct (Nat.leb_spec find cur); apply IH; try done; try lia.
    all: match goal with |- context [Nat.leb ?x ?y] => destruct (Nat.leb_spec x y) end; lia.
Qed.

(** Looking for a buffer for bucket 0, the loop never ends. *)
Lemma steal_spins me dv bn fuel : forall find (a : acache D),
  busy (abufs a) -> (0 < find)%nat -> steal me fuel 0 find dv bn a = Fail OutOfFuel.
Proof.
  induction fuel as [|fuel IH]; intros find a Hb Hf.
  - cbn [steal]. destruct find; [lia|done].
  - destruct (steal_busy me fuel 0 find dv bn a Hb ltac:(lia)) as (a' & Hb' & ->).
    apply IH; [done|lia].
Qed.

(** A miss with nothing free reaches the loop. *)
Lemma bget_busy me fuel dv bn (a : acache D) :
  busy (abufs a) -> absent (abufs a) dv bn ->
  alocked a !! Bcache.bucket bn = Some false ->
  exists a', busy (abufs a') /\
    bget me fuel dv bn a = steal me fuel (Bcache.bucket bn) (S (Bcache.bucket bn)) dv bn a'.
Proof.
  intros Hb Habs Hl. unfold bget, acquire, locked. rewrite bind_assoc, bind_gets, Hl.
  cbn [default from_option id]. unfold set_locked. rewrite bind_modify.
  unfold bucket_list, search. rewrite !bind_gets. cbn [abufs als alocked adisk].
  set (l := default [] _).
  assert (first (abufs a) (Bcache.is_block dv bn) l = None) as ->.
  { destruct (first _ _ l) as [i|] eqn:E; [|done]. apply find_some in E as [_ E].
    destruct (abufs a !! i) as [b|] eqn:Eb; [|done]. unfold Bcache.is_block in E.
    bool_to_prop. exfalso. by eapply Habs. }
  rewrite !bind_gets. cbn [abufs als alocked adisk]. rewrite busy_search by done.
  eexists. split; [|reflexivity]. done.
Qed.

Lemma sim_Fail {X} (m : M (bcache D) X) m' s a e :
  sim m m' -> rep s a -> m' a = Fail e -> m s = Fail e.
Proof.
  intros Hs Hr Hm. specialize (Hs s a Hr). rewrite Hm in Hs.
  destruct (m s) as [[]|]; [done|]. by subst.
Qed.

(** The last free buffer of a list is the first one the backward loop meets. *)
Lemma first_rev_last bs l1 i l2 b :
  bs !! i = Some b -> refcnt b = 0 ->
  (forall j c, j ∈ l2 -> bs !! j = Some c -> refcnt c <> 0) ->
  first bs Bcache.is_free (rev (l1 ++ i :: l2)) = Some i.
Proof.
  intros Hb Hr Hbusy. rewrite rev_app_distr. cbn [rev]. rewrite <- app_assoc. cbn.
  assert (Hin : forall j c, j ∈ rev l2 -> bs !! j = Some c -> refcnt c <> 0).
  { intros j c Hj. apply Hbusy. by apply elem_of_rev. }
  revert Hin. generalize (rev l2) as l. induction l as [|j l IH]; intros Hin; unfold first; cbn.
  - rewrite Hb. unfold Bcache.is_free. by rewrite Hr.
  - destruct (bs !! j) as [c|] eqn:Hc.
    + unfold Bcache.is_free at 1. destruct (Z.eqb_spec (refcnt c) 0) as [E|_].
      * exfalso. apply (Hin j c); [set_solver|done|done].
      * apply IH. intros j' c' Hj'. apply Hin. set_solver.
    + apply IH. intros j' c' Hj'. apply Hin. set_solver.
Qed.
End exhaust.

(** ** The properties *)
Section properties.
Context {D : Type} `{BlockDevice D} `{!BlockDeviceOk D} `{BufParams}.

(** C9: the pointer code of every interface function of the cache computes what
    its specification on lists computes: the same result or failure, and a
    state that represents the specification's final state. *)
Theorem bcache_refines_lists me fuel dv bn i :
  sim (D := D) (Bcache.bget me fuel dv bn) (bget me fuel dv bn) /\
  sim (D := D) (Bcache.bread me fuel dv bn) (bread me fuel dv bn) /\
  sim (D := D) (Bcache.bwrite me i) (bwrite me i) /\
  sim (D := D) (Bcache.brelse me i) (brelse me i) /\
  sim (D := D) (Bcache.bpin i) (addref 1 i) /\
  sim (D := D) (Bcache.bunpin i) (addref (-1) i).
Proof.
  split_and!; [apply sim_bget|apply sim_bread|apply sim_bwrite|apply sim_brelse
    |apply sim_bpin|apply sim_bunpin].
Qed.

(** [binit] deals the buffers out to the buckets round robin, buffer [i] to
    bucket [i mod NBUCKETS], and establishes the cache invariant. *)
Theorem binit_deals_buffers (s : bcache D) :
  zeroed s ->
  wp Bcache.binit s (fun _ s' =>
    cinv s' /\ disk s' = disk s /\
    forall k, (k < NBUCKETS)%nat ->
      linked (nxt s') (prv s') (Head k) (map Buf (dealt NBUF k)) (Head k)).
Proof.
  intros Hz. eapply wp_mono; [by apply binit_rep|].
  cbn beta. intros _ s' (a & Hr & Hi & Hls & Hd). split; [by exists a|]. split; [done|].
  intros k Hk. destruct Hr as (_ & _ & _ & HR & _). apply HR. rewrite Hls.
  by apply dealt_all_lookup.
Qed.

(** C10: in every state that runs of the interface functions reach, a disk block
    is cached in at most one buffer. *)
Theorem one_buffer_per_block (s s' : bcache D) i j b c :
  cinv s -> rtc cstep s s' ->
  bufs s' !! i = Some b -> bufs s' !! j = Some c ->
  dev b <> 0 -> dev b = dev c -> blockno b = blockno c -> i = j.
Proof.
  intros Hi Hr Hb Hc. destruct (cinv_reachable _ _ Hr Hi) as (a & (Hbufs & _) & _ & Hg & _).
  rewrite Hbufs in Hb, Hc. by apply (good_unique _ _ Hg).
Qed.

(** C25: in every reachable state, when [bread] returns a buffer it is locked by
    the caller, valid, labelled with the requested block, and holds that
    block's contents on disk. *)
Theorem bread_returns_block (s s' s'' : bcache D) me fuel dv bn i :
  cinv s -> rtc cstep s s' -> dv <> 0 ->
  Bcache.bread me fuel dv bn s' = Ok (i, s'') ->
  exists b, bufs s'' !! i = Some b /\ dev b = dv /\ blockno b = bn /\
    lock b = Some me /\ valid b <> 0 /\ data b = disk_get (disk s') dv bn.
Proof.
  intros Hi Hr Hdv E. destruct (cinv_reachable _ _ Hr Hi) as (a & Hrep & Hinv).
  destruct (sim_Ok _ _ _ _ _ _ (sim_bread me fuel dv bn) Hrep E) as (a' & Ea & Hrep').
  destruct (bread_got _ _ _ _ _ _ _ Hinv Hdv Ea) as [(_ & _ & b & Hb & Hd & Hn & Hl & _) (b' & Hb' & Hv & Hdat)].
  rewrite Hb in Hb'. injection Hb' as <-. exists b.
  destruct Hrep as (_ & _ & -> & _). destruct Hrep' as (-> & _). done.
Qed.

(** C27: on a miss, [bget] recycles the least recently used free buffer of the
    block's own bucket when there is one, and changes no other buffer and no
    list. *)
Theorem bget_recycles_lru (s : bcache D) a me fuel dv bn l1 i l2 b :
  rep s a -> absent (abufs a) dv bn ->
  alocked a !! Bcache.bucket bn = Some false ->
  als a !! Bcache.bucket bn = Some (l1 ++ i :: l2) ->
  abufs a !! i = Some b -> refcnt b = 0 -> lock b = None ->
  (forall j c, j ∈ l2 -> abufs a !! j = Some c -> refcnt c <> 0) ->
  exists s', Bcache.bget me fuel dv bn s = Ok (i, s') /\
    rep s' (AC (<[i := MkBuf dv bn 0 1 (Some me) (data b)]> (abufs a)) (als a)
               (alocked a) (adisk a)).
Proof.
  intros Hr Habs Hlk Hl Hb Hrc Hlock Hbusy.
  assert (Ea : bget me fuel dv bn a = Ok (i,
    AC (<[i := MkBuf dv bn 0 1 (Some me) (data b)]> (abufs a)) (als a) (alocked a) (adisk a))).
  { unfold bget, acquire, locked. rewrite bind_assoc, bind_gets, Hlk.
    cbn [default from_option id]. unfold set_locked. rewrite bind_modify.
    unfold bucket_list, search. rewrite !bind_gets. cbn [abufs als alocked adisk].
    rewrite Hl. cbn [default from_option id].
    assert (first (abufs a) (Bcache.is_block dv bn) (l1 ++ i :: l2) = None) as ->.
    { destruct (first _ _ _) as [j|] eqn:E; [|done]. apply find_some in E as [_ E].
      destruct (abufs a !! j) as [c|] eqn:Ec; [|done]. unfold Bcache.is_block in E.
      bool_to_prop. exfalso. by eapply Habs. }
    rewrite !bind_gets. cbn [abufs als alocked adisk]. rewrite Hl. cbn [default from_option id].
    rewrite (first_rev_last _ l1 i l2 b) by done.
    unfold claim, wr. rewrite bind_modify, bind_release. cbn [abufs als alocked adisk].
    rewrite (list_alter_lookup _ _ _ b) by done.
    assert (Hlt : (i < length (abufs a))%nat) by (by eapply lookup_lt_Some).
    unfold acquiresleep. rewrite bind_assoc.
    rewrite (bind_step _ _ _ (MkBuf dv bn 0 1 (lock b) (data b)) (AC (<[i := MkBuf dv bn 0 1 (lock b) (data b)]> (abufs a)) (als a)
               (<[Bcache.bucket bn:=false]> (<[Bcache.bucket bn:=true]> (alocked a))) (adisk a)))
      by (unfold rd; cbn [abufs]; by rewrite list_lookup_insert_eq).
    cbn [lock]. rewrite Hlock. unfold wr. rewrite bind_modify. cbn [abufs als alocked adisk].
    rewrite (list_alter_lookup _ _ _ (MkBuf dv bn 0 1 None (data b)))
      by (by rewrite list_lookup_insert_eq).
    rewrite !list_insert_insert_eq, (list_insert_id (alocked a)) by done. done. }
  destruct (Bcache.bget me fuel dv bn s) as [[j s']|e] eqn:E.
  - destruct (sim_Ok _ _ _ _ _ _ (sim_bget me fuel dv bn) Hr E) as (a' & Ea' & Hr').
    rewrite Ea in Ea'. injection Ea' as <- <-. eauto.
  - pose proof (sim_bget me fuel dv bn s a Hr) as Hs. by rewrite E, Ea in Hs.
Qed.

(** when the block is not cached and no buffer is free, [bget] for a block of
    any bucket but the first goes once round the other buckets and panics with
    "bget: no buffers"; a turn takes fewer than [NBUCKETS] iterations. *)
Theorem bget_exhausted_panics (s : bcache D) a me fuel dv bn :
  rep s a -> busy (bufs s) -> absent (bufs s) dv bn ->
  bucket_locked s !! Bcache.bucket bn = Some false ->
  Bcache.bucket bn <> 0%nat -> (NBUCKETS <= fuel)%nat ->
  Bcache.bget me fuel dv bn s = Fail (Panic "bget: no buffers").
Proof.
  intros Hr Hb Habs Hl Hne Hf. pose proof Hr as (Eb & El & _). rewrite Eb in *. rewrite El in *.
  eapply sim_Fail; [apply sim_bget|exact Hr|].
  destruct (bget_busy me fuel dv bn a Hb Habs Hl) as (a' & Hb' & ->).
  pose proof (bucket_lt bn). eapply steal_panics; [done|lia|lia|reflexivity|].
  destruct (Nat.leb_spec (S (Bcache.bucket bn)) (Bcache.bucket bn)); lia.
Qed.

(** C28: for a block that hashes to bucket 0 the same loop never ends: its bound
    [findCount != currentCount] is tested before [findCount] is reduced modulo
    [NBUCKETS], so [findCount] is never 0 there, and however many iterations
    are allowed, [bget] neither returns nor reaches its panic. *)
Theorem bget_exhausted_spins (s : bcache D) a me fuel dv bn :
  rep s a -> busy (bufs s) -> absent (bufs s) dv bn ->
  bucket_locked s !! Bcache.bucket bn = Some false ->
  Bcache.bucket bn = 0%nat ->
  Bcache.bget me fuel dv bn s = Fail OutOfFuel.
Proof.
  intros Hr Hb Habs Hl Hz. pose proof Hr as (Eb & El & _). rewrite Eb in *. rewrite El in *.
  eapply sim_Fail; [apply sim_bget|exact Hr|].
  destruct (bget_busy me fuel dv bn a Hb Habs Hl) as (a' & Hb' & ->).
  rewrite Hz. apply steal_spins; [done|lia].
Qed.
End properties.
End BcacheThms.

Module BcacheWit.
Import BcacheSpec BcacheInv BcacheThms.

Definition fdisk : Type := Z -> Z -> list Z.

#[export] Instance fdisk_device : BlockDevice fdisk := {
  disk_get d dv b := d dv b;
  disk_set d dv b x := fun dv' b' => if (dv' =? dv) && (b' =? b) then x else d dv' b';
}.

#[export] Instance fdisk_ok : BlockDeviceOk fdisk.
Proof.
  constructor; cbn.
  - intros. by rewrite !Z.eqb_refl.
  - intros d dv b x dv' b' Hne.
    destruct (Z.eqb_spec dv' dv), (Z.eqb_spec b' b); cbn; congruence.
Qed.

#[local] Instance one_buffer : BufParams := { NBUF := 1 }.

Definition cold : bcache fdisk :=
  BC [MkBuf 0 0 0 0 None []] (fun _ => Head 0) (fun _ => Head 0)
     (replicate NBUCKETS false) (fun dv b => [dv; b]).

Definition after {X} (m : M (bcache fdisk) X) (s : bcache fdisk) : bcache fdisk :=
  match m s with Ok (_, s') => s' | Fail _ => s end.

(** The machine after [binit], and after block 5 of device 1 has been read. *)
Definition booted : bcache fdisk := after Bcache.binit cold.
Definition loaded : bcache fdisk := after (Bcache.bread 1 20 1 5) booted.

Lemma cold_zeroed : zeroed cold.
Proof.
  split_and!; [done|done|]. intros [|i] b Hb; [|done]. by injection Hb as <-.
Qed.

Lemma after_wp {X} (m : M (bcache fdisk) X) s Q :
  wp m s Q -> exists x, m s = Ok (x, after m s) /\ Q x (after m s).
Proof. unfold wp, after. destruct (m s) as [[x s']|]; [eauto|done]. Qed.

Lemma after_returns {X} `{!EqDecision X} (m : M (bcache fdisk) X) s x :
  match m s with Ok (y, _) => bool_decide (y = x) | Fail _ => false end = true ->
  m s = Ok (x, after m s).
Proof. unfold after. destruct (m s) as [[y s']|]; [|done]. by intros ->%bool_decide_eq_true. Qed.

Lemma bread_runs : Bcache.bread 1 20 1 5 booted = Ok (0%nat, loaded).
Proof. refine (after_returns (Bcache.bread 1 20 1 5) booted 0%nat _). vm_compute. reflexivity. Qed.

Lemma booted_rep : exists a, rep booted a /\ inv a /\ als a = dealt_all NBUF.
Proof.
  destruct (after_wp _ _ _ (binit_rep cold cold_zeroed)) as (_ & _ & a & ? & ? & ? & _).
  by exists a.
Qed.

Lemma booted_cinv : cinv booted.
Proof. destruct booted_rep as (a & ? & ? & _). by exists a. Qed.

Lemma loaded_step : rtc cstep booted loaded.
Proof. apply rtc_once. eapply cstep_read; [|exact bread_runs]. done. Qed.

Lemma loaded_cinv : cinv loaded.
Proof. apply (cinv_reachable booted); [apply loaded_step|apply booted_cinv]. Qed.

Lemma loaded_bufs : bufs loaded = [MkBuf 1 5 1 1 (Some 1) [1; 5]].
Proof. vm_compute. reflexivity. Qed.

Lemma loaded_busy : busy (bufs loaded).
Proof. rewrite loaded_bufs. intros [|i] b Hb; [|done]. by injection Hb as <-. Qed.

Lemma loaded_absent bn : bn <> 5 -> absent (bufs loaded) 1 bn.
Proof.
  rewrite loaded_bufs. intros Hne [|i] b Hb; [|done]. injection Hb as <-. cbn. lia.
Qed.

Lemma binit_deals_buffers_witness :
  zeroed cold /\
  wp Bcache.binit cold (fun _ s' =>
      cinv s' /\ disk s' = disk cold /\
      forall k, (k < NBUCKETS)%nat ->
        linked (nxt s') (prv s') (Head k) (map Buf (dealt NBUF k)) (Head k)).
Proof. split; [exact cold_zeroed|]. exact (binit_deals_buffers cold cold_zeroed). Defined.

Lemma one_buffer_per_block_witness :
  exists b, bufs loaded !! 0%nat = Some b /\ dev b = 1 /\ 0%nat = 0%nat.
Proof.
  exists (MkBuf 1 5 1 1 (Some 1) [1; 5]). split; [by rewrite loaded_bufs|]. split; [done|].
  apply (one_buffer_per_block booted loaded 0 0 (MkBuf 1 5 1 1 (Some 1) [1; 5])
           (MkBuf 1 5 1 1 (Some 1) [1; 5]));
    [exact booted_cinv|exact loaded_step|by rewrite loaded_bufs|by rewrite loaded_bufs
    |done|done|done].
Defined.

Lemma bread_returns_block_witness :
  exists b, bufs loaded !! 0%nat = Some b /\ dev b = 1 /\ blockno b = 5 /\
    lock b = Some 1 /\ valid b <> 0 /\ data b = disk_get (disk booted) 1 5.
Proof.
  apply (bread_returns_block booted booted loaded 1 20 1 5 0);
    [exact booted_cinv|apply rtc_refl|done|exact bread_runs].
Defined.

Lemma bget_recycles_lru_witness :
  exists s', Bcache.bget 1 20 1 13 booted = Ok (0%nat, s') /\
    bufs s' = [MkBuf 1 13 0 1 (Some 1) []].
Proof.
  destruct booted_rep as (a & Hr & _ & Hls). pose proof Hr as (Hb & Hl & _).
  assert (Eb : abufs a = [MkBuf 0 0 0 0 None []]) by (rewrite <- Hb; reflexivity).
  assert (El : alocked a = replicate NBUCKETS false) by (rewrite <- Hl; reflexivity).
  destruct (bget_recycles_lru booted a 1 20 1 13 [] 0 [] (MkBuf 0 0 0 0 None []))
    as (s' & E & Hr').
  - exact Hr.
  - rewrite Eb. intros [|i] b Hi; [|done]. injection Hi as <-. cbn. lia.
  - rewrite El. reflexivity.
  - rewrite Hls. reflexivity.
  - rewrite Eb. reflexivity.
  - reflexivity.
  - reflexivity.
  - intros j c Hj. by apply elem_of_nil in Hj.
  - exists s'. split; [exact E|]. destruct Hr' as (-> & _). cbn [abufs]. rewrite Eb. reflexivity.
Defined.

Lemma bget_exhausted_panics_witness :
  Bcache.bget 2 20 1 1 loaded = Fail (Panic "bget: no buffers").
Proof.
  destruct loaded_cinv as (a & Hr & _).
  apply (bget_exhausted_panics loaded a 2 20 1 1);
    [exact Hr|exact loaded_busy|by apply loaded_absent|reflexivity|done|].
  unfold NBUCKETS. lia.
Defined.

Lemma bget_exhausted_spins_witness : Bcache.bget 2 1000 1 13 loaded = Fail OutOfFuel.
Proof.
  destruct loaded_cinv as (a & Hr & _).
  apply (bget_exhausted_spins loaded a 2 1000 1 13);
    [exact Hr|exact loaded_busy|by apply loaded_absent|reflexivity|reflexivity].
Defined.
End BcacheWit.
