(* ===== verification/Vm.v ===== *)
(** * Virtual memory (fourth experiment, [vm.c]): model

    Page tables live in physical memory: a page-table entry is eight bytes of
    [kmem], every [*pte] is a load and every assignment to it a store. Pages
    come from the allocator interface [PageAllocator], so the functions here run
    on either allocator. A pointer is a 64-bit address and the null pointer is
    [0]; filling a page through a null pointer is [Undefined]. The number of
    iterations a loop is given is computed from its arguments. *)

From S2P Require Import Prelude.
From S2P Require Import Memory.
From S2P Require Import Riscv.
From S2P Require Import PageAlloc.

(** One line of [vmprint]'s output: the depth of the entry, its index, its value
    and the address it holds. *)
Inductive vmline : Type :=
| VmRoot (pgtbl : Z)
| VmEntry (level i pte pa : Z).

#[export] Instance vmline_eq_dec : EqDecision vmline.
Proof. solve_decision. Defined.

(** [x & f] as a C condition. *)
Definition has (x f : Z) : bool := negb (Z.land x f =? 0).

Section vm.
Context `{MemLayout} {A : Type} `{!PageAllocator A}.

Abbreviation K := (M (kstate A)).

Definition load64 (a : Z) : K Z := gets (fun s => ld64 (kmem s) a).
Definition store64 (a v : Z) : K unit := modify (fun s => ksetmem (st64 (kmem s) a v) s).
Definition load8 (a : Z) : K Z := gets (fun s => ld8 (kmem s) a).
Definition store8 (a v : Z) : K unit := modify (fun s => ksetmem (st8 (kmem s) a v) s).
Definition do_memset (p c n : Z) : K unit :=
  if p =? 0 then fail (Undefined "memset") else
  modify (fun s => ksetmem (memset (kmem s) p c n) s).
Definition do_memmove (dst src n : Z) : K unit :=
  if dst =? 0 then fail (Undefined "memmove") else
  modify (fun s => ksetmem (memmove (kmem s) dst src n) s).

(** [&pagetable[i]] *)
Definition entry (pagetable i : Z) : Z := u64 (pagetable + 8 * i).

(** The loop of [walk], [n] levels above the leaf table. *)
Fixpoint walk_loop (n : nat) (pagetable va : Z) (alloc : bool) : K Z :=
  match n with
  | O => mret (entry pagetable (PX 0 va))
  | S n' =>
      let pte := entry pagetable (PX (Z.of_nat n) va) in
      v ← load64 pte;
      if has v PTE_V then walk_loop n' (PTE2PA v) va alloc else
      if negb alloc then mret 0 else
      p ← kalloc;
      if p =? 0 then mret 0 else
      do_memset p 0 PGSIZE;;
      store64 pte (Z.lor (PA2PTE p) PTE_V);;
      walk_loop n' p va alloc
  end.

Definition walk (pagetable va : Z) (alloc : bool) : K Z :=
  if MAXVA <=? va then panic "walk" else walk_loop 2 pagetable va alloc.

Definition walkaddr (pagetable va : Z) : K Z :=
  if MAXVA <=? va then mret 0 else
  pte ← walk pagetable va false;
  if pte =? 0 then mret 0 else
  v ← load64 pte;
  if negb (has v PTE_V) then mret 0 else
  if negb (has v PTE_U) then mret 0 else
  mret (PTE2PA v).

Fixpoint mappages_loop (fuel : nat) (pagetable a last pa perm : Z) : K Z :=
  pte ← walk pagetable a true;
  if pte =? 0 then mret (-1) else
  v ← load64 pte;
  if has v PTE_V then panic "remap" else
  store64 pte (Z.lor (Z.lor (PA2PTE pa) perm) PTE_V);;
  if a =? last then mret 0 else
  match fuel with
  | O => fail OutOfFuel
  | S fuel' =>
      mappages_loop fuel' pagetable (u64 (a + PGSIZE)) last (u64 (pa + PGSIZE)) perm
  end.

Definition mappages (pagetable va size pa perm : Z) : K Z :=
  let a := PGROUNDDOWN va in
  let last := PGROUNDDOWN (u64 (va + size - 1)) in
  mappages_loop (Z.to_nat (u64 (last - a) / PGSIZE)) pagetable a last pa perm.

Definition kvmmap_proc (k_pagetable va pa sz perm : Z) : K unit :=
  r ← mappages k_pagetable va sz pa perm;
  when (negb (r =? 0)) (panic "kvmmap_proc").

(** [kvmmap] takes the global [kernel_pagetable] as an argument. *)
Definition kvmmap (kernel_pagetable va pa sz perm : Z) : K unit :=
  r ← mappages kernel_pagetable va sz pa perm;
  when (negb (r =? 0)) (panic "kvmmap").

(** Returns the value assigned to [kernel_pagetable]. *)
Definition kvminit : K Z :=
  kernel_pagetable ← kalloc;
  do_memset kernel_pagetable 0 PGSIZE;;
  kvmmap kernel_pagetable UART0 UART0 PGSIZE (Z.lor PTE_R PTE_W);;
  kvmmap kernel_pagetable VIRTIO0 VIRTIO0 PGSIZE (Z.lor PTE_R PTE_W);;
  kvmmap kernel_pagetable CLINT CLINT 0x10000 (Z.lor PTE_R PTE_W);;
  kvmmap kernel_pagetable PLIC PLIC 0x400000 (Z.lor PTE_R PTE_W);;
  kvmmap kernel_pagetable KERNBASE KERNBASE (etext - KERNBASE) (Z.lor PTE_R PTE_X);;
  kvmmap kernel_pagetable etext etext (PHYSTOP - etext) (Z.lor PTE_R PTE_W);;
  kvmmap kernel_pagetable TRAMPOLINE trampoline PGSIZE (Z.lor PTE_R PTE_X);;
  mret kernel_pagetable.

Definition kvminit_proc : K Z :=
  k_pagetable ← kalloc;
  do_memset k_pagetable 0 PGSIZE;;
  kvmmap_proc k_pagetable UART0 UART0 PGSIZE (Z.lor PTE_R PTE_W);;
  kvmmap_proc k_pagetable VIRTIO0 VIRTIO0 PGSIZE (Z.lor PTE_R PTE_W);;
  kvmmap_proc k_pagetable PLIC PLIC 0x400000 (Z.lor PTE_R PTE_W);;
  kvmmap_proc k_pagetable KERNBASE KERNBASE (etext - KERNBASE) (Z.lor PTE_R PTE_X);;
  kvmmap_proc k_pagetable etext etext (PHYSTOP - etext) (Z.lor PTE_R PTE_W);;
  kvmmap_proc k_pagetable TRAMPOLINE trampoline PGSIZE (Z.lor PTE_R PTE_X);;
  mret k_pagetable.

Definition kvmpa (kernel_pagetable va : Z) : K Z :=
  let off := va mod PGSIZE in
  pte ← walk kernel_pagetable va false;
  if pte =? 0 then panic "kvmpa" else
  v ← load64 pte;
  if negb (has v PTE_V) then panic "kvmpa" else
  mret (u64 (PTE2PA v + off)).

Fixpoint uvmunmap_loop (fuel : nat) (pagetable a hi : Z) (do_free : bool) : K unit :=
  if a <? hi then
    match fuel with
    | O => fail OutOfFuel
    | S fuel' =>
        pte ← walk pagetable a false;
        if pte =? 0 then panic "uvmunmap: walk" else
        v ← load64 pte;
        if negb (has v PTE_V) then panic "uvmunmap: not mapped" else
        if PTE_FLAGS v =? PTE_V then panic "uvmunmap: not a leaf" else
        when do_free (kfree (PTE2PA v));;
        store64 pte 0;;
        uvmunmap_loop fuel' pagetable (u64 (a + PGSIZE)) hi do_free
    end
  else mret tt.

Definition uvmunmap (pagetable va npages : Z) (do_free : bool) : K unit :=
  if negb (va mod PGSIZE =? 0) then panic "uvmunmap: not aligned" else
  let hi := u64 (va + u64 (npages * PGSIZE)) in
  uvmunmap_loop (Z.to_nat ((hi - va + PGSIZE - 1) / PGSIZE)) pagetable va hi do_free.

Definition uvmcreate : K Z :=
  pagetable ← kalloc;
  if pagetable =? 0 then mret 0 else
  do_memset pagetable 0 PGSIZE;;
  mret pagetable.

Definition RWXU : Z := Z.lor (Z.lor (Z.lor PTE_W PTE_R) PTE_X) PTE_U.

Definition uvminit (pagetable src sz : Z) : K unit :=
  if PGSIZE <=? sz then panic "inituvm: more than a page" else
  mem ← kalloc;
  do_memset mem 0 PGSIZE;;
  _ ← mappages pagetable 0 PGSIZE mem RWXU;
  do_memmove mem src sz.

(** [uvmdealloc] and [kvmdealloc] differ in whether the pages are freed. *)
Definition uvmdealloc (pagetable oldsz newsz : Z) : K Z :=
  if oldsz <=? newsz then mret oldsz else
  when (PGROUNDUP newsz <? PGROUNDUP oldsz)
    (let npages := s32 ((PGROUNDUP oldsz - PGROUNDUP newsz) / PGSIZE) in
     uvmunmap pagetable (PGROUNDUP newsz) (u64 npages) true);;
  mret newsz.

Definition kvmdealloc (k_pagetable oldsz newsz : Z) : K Z :=
  if oldsz <=? newsz then mret oldsz else
  when (PGROUNDUP newsz <? PGROUNDUP oldsz)
    (let npages := s32 ((PGROUNDUP oldsz - PGROUNDUP newsz) / PGSIZE) in
     uvmunmap k_pagetable (PGROUNDUP newsz) (u64 npages) false);;
  mret newsz.

Fixpoint uvmalloc_loop (fuel : nat) (pagetable a oldsz newsz : Z) : K Z :=
  if a <? newsz then
    match fuel with
    | O => fail OutOfFuel
    | S fuel' =>
        mem ← kalloc;
        if mem =? 0 then
          uvmdealloc pagetable a oldsz;; mret 0
        else
          do_memset mem 0 PGSIZE;;
          r ← mappages pagetable a PGSIZE mem RWXU;
          if negb (r =? 0) then
            kfree mem;;
            uvmdealloc pagetable a oldsz;; mret 0
          else uvmalloc_loop fuel' pagetable (u64 (a + PGSIZE)) oldsz newsz
    end
  else mret newsz.

Definition uvmalloc (pagetable oldsz newsz : Z) : K Z :=
  if newsz <? oldsz then mret oldsz else
  let oldsz := PGROUNDUP oldsz in
  uvmalloc_loop (Z.to_nat ((newsz - oldsz + PGSIZE - 1) / PGSIZE)) pagetable oldsz oldsz newsz.

(** [for(int i = i0; n more times; i++) body(i)] *)
Fixpoint for_range (n : nat) (i : Z) (body : Z -> K unit) : K unit :=
  match n with
  | O => mret tt
  | S n' => body i;; for_range n' (i + 1) body
  end.

(** The same with an output collected in order. *)
Fixpoint for_print {B} (n : nat) (i : Z) (body : Z -> K (list B)) : K (list B) :=
  match n with
  | O => mret []
  | S n' => l ← body i; k ← for_print n' (i + 1) body; mret (l ++ k)
  end.

Definition RWX : Z := Z.lor (Z.lor PTE_R PTE_W) PTE_X.

(** [pte & PTE_V] and no permission bit: the entry points to a lower table. *)
Definition is_table (pte : Z) : bool := has pte PTE_V && (Z.land pte RWX =? 0).

(** [depth] bounds the recursion: a page table has three levels. *)
Fixpoint vmprint_rec (depth : nat) (pgtbl level : Z) : K (list vmline) :=
  match depth with
  | O => fail OutOfFuel
  | S depth' =>
      k ← for_print 512 0 (fun i =>
        pte ← load64 (entry pgtbl i);
        if is_table pte then
          let child := PTE2PA pte in
          if level =? 0 then
            l ← vmprint_rec depth' child 1; mret (VmEntry 0 i pte child :: l)
          else if level =? 1 then
            l ← vmprint_rec depth' child 2; mret (VmEntry 1 i pte child :: l)
          else panic "vmprint: wrong"
        else if (level =? 2) && has pte PTE_V then
          mret [VmEntry 2 i pte (PTE2PA pte)]
        else mret []);
      mret (if level =? 0 then VmRoot pgtbl :: k else k)
  end.

Definition vmprint (pgtbl level : Z) : K (list vmline) := vmprint_rec 3 pgtbl level.

Fixpoint freewalk_rec (depth : nat) (pagetable : Z) : K unit :=
  match depth with
  | O => fail OutOfFuel
  | S depth' =>
      for_range 512 0 (fun i =>
        pte ← load64 (entry pagetable i);
        if is_table pte then
          freewalk_rec depth' (PTE2PA pte);;
          store64 (entry pagetable i) 0
        else if has pte PTE_V then panic "freewalk: leaf"
        else mret tt);;
      kfree pagetable
  end.

Definition freewalk (pagetable : Z) : K unit := freewalk_rec 3 pagetable.

Fixpoint freeallocatewalk_rec (depth : nat) (k_pagetable : Z) : K unit :=
  match depth with
  | O => fail OutOfFuel
  | S depth' =>
      for_range 512 0 (fun i =>
        pte ← load64 (entry k_pagetable i);
        if is_table pte then
          freeallocatewalk_rec depth' (PTE2PA pte);;
          store64 (entry k_pagetable i) 0
        else mret tt);;
      kfree k_pagetable
  end.

Definition freeallocatewalk (k_pagetable : Z) : K unit := freeallocatewalk_rec 3 k_pagetable.

Definition kvmfree (k_pagetable : Z) : K unit := freeallocatewalk k_pagetable.

Definition uvmfree (pagetable sz : Z) : K unit :=
  when (0 <? sz) (uvmunmap pagetable 0 (PGROUNDUP sz / PGSIZE) true);;
  freewalk pagetable.

(** The loop returns [None] at its end and [Some i] where it jumps to [err]. *)
Fixpoint uvmcopy_loop (fuel : nat) (old new i sz : Z) : K (option Z) :=
  if i <? sz then
    match fuel with
    | O => fail OutOfFuel
    | S fuel' =>
        pte ← walk old i false;
        if pte =? 0 then panic "uvmcopy: pte should exist" else
        v ← load64 pte;
        if negb (has v PTE_V) then panic "uvmcopy: page not present" else
        let pa := PTE2PA v in
        let flags := PTE_FLAGS v in
        mem ← kalloc;
        if mem =? 0 then mret (Some i) else
        do_memmove mem pa PGSIZE;;
        r ← mappages new i PGSIZE mem flags;
        if negb (r =? 0) then kfree mem;; mret (Some i) else
        uvmcopy_loop fuel' old new (u64 (i + PGSIZE)) sz
    end
  else mret None.

Definition uvmcopy (old new sz : Z) : K Z :=
  r ← uvmcopy_loop (Z.to_nat ((sz + PGSIZE - 1) / PGSIZE)) old new 0 sz;
  match r with
  | None => mret 0
  | Some i => uvmunmap new 0 (i / PGSIZE) true;; mret (-1)
  end.

Fixpoint kvmcopy_loop (fuel : nat) (old new i sz : Z) : K (option Z) :=
  if i <? sz then
    match fuel with
    | O => fail OutOfFuel
    | S fuel' =>
        pte ← walk old i false;
        if pte =? 0 then panic "kvmcopy: pte should exist" else
        v ← load64 pte;
        if negb (has v PTE_V) then panic "kvmcopy: page not present" else
        let pa := PTE2PA v in
        let flags := Z.land (PTE_FLAGS v) (Z.lnot PTE_U) in
        r ← mappages new i PGSIZE pa flags;
        if negb (r =? 0) then mret (Some i) else
        kvmcopy_loop fuel' old new (u64 (i + PGSIZE)) sz
    end
  else mret None.

Definition kvmcopy (old new st sz : Z) : K Z :=
  if PLIC <? sz then mret (-1) else
  let st := PGROUNDUP st in
  r ← kvmcopy_loop (Z.to_nat ((sz - st + PGSIZE - 1) / PGSIZE)) old new st sz;
  match r with
  | None => mret 0
  | Some i => uvmunmap new 0 (i / PGSIZE) false;; mret (-1)
  end.

Definition uvmclear (pagetable va : Z) : K unit :=
  pte ← walk pagetable va false;
  if pte =? 0 then panic "uvmclear" else
  v ← load64 pte;
  store64 pte (Z.land v (Z.lnot PTE_U)).

(** A copy of [len] bytes touches at most [len / PGSIZE + 2] pages. *)
Definition copy_fuel (len : Z) : nat := S (S (Z.to_nat (len / PGSIZE))).

Fixpoint copyout_loop (fuel : nat) (pagetable dstva src len : Z) : K Z :=
  if 0 <? len then
    match fuel with
    | O => fail OutOfFuel
    | S fuel' =>
        let va0 := PGROUNDDOWN dstva in
        pa0 ← walkaddr pagetable va0;
        if pa0 =? 0 then mret (-1) else
        let n := PGSIZE - (dstva - va0) in
        let n := if len <? n then len else n in
        do_memmove (pa0 + (dstva - va0)) src n;;
        copyout_loop fuel' pagetable (u64 (va0 + PGSIZE)) (u64 (src + n)) (len - n)
    end
  else mret 0.

Definition copyout (pagetable dstva src len : Z) : K Z :=
  copyout_loop (copy_fuel len) pagetable dstva src len.

Fixpoint copyin_loop (fuel : nat) (pagetable dst srcva len : Z) : K Z :=
  if 0 <? len then
    match fuel with
    | O => fail OutOfFuel
    | S fuel' =>
        let va0 := PGROUNDDOWN srcva in
        pa0 ← walkaddr pagetable va0;
        if pa0 =? 0 then mret (-1) else
        let n := PGSIZE - (srcva - va0) in
        let n := if len <? n then len else n in
        do_memmove dst (pa0 + (srcva - va0)) n;;
        copyin_loop fuel' pagetable (u64 (dst + n)) (u64 (va0 + PGSIZE)) (len - n)
    end
  else mret 0.

Definition copyin (pagetable dst srcva len : Z) : K Z :=
  copyin_loop (copy_fuel len) pagetable dst srcva len.

(** The inner loop of [copyinstr]: [n] bytes from [p], stopping after a zero
    byte. Returns [got_null], [max] and [dst]. *)
Fixpoint copy_chars (n : nat) (p dst max : Z) : K (bool * Z * Z) :=
  match n with
  | O => mret (false, max, dst)
  | S n' =>
      c ← load8 p;
      if c =? 0 then
        store8 dst 0;; mret (true, max, dst)
      else
        store8 dst c;; copy_chars n' (p + 1) (u64 (dst + 1)) (max - 1)
  end.

Fixpoint copyinstr_loop (fuel : nat) (pagetable dst srcva max : Z) (got_null : bool) : K Z :=
  if negb got_null && (0 <? max) then
    match fuel with
    | O => fail OutOfFuel
    | S fuel' =>
        let va0 := PGROUNDDOWN srcva in
        pa0 ← walkaddr pagetable va0;
        if pa0 =? 0 then mret (-1) else
        let n := PGSIZE - (srcva - va0) in
        let n := if max <? n then max else n in
        r ← copy_chars (Z.to_nat n) (pa0 + (srcva - va0)) dst max;
        let '(got_null, max, dst) := r in
        copyinstr_loop fuel' pagetable dst (u64 (va0 + PGSIZE)) max got_null
    end
  else mret (if got_null then 0 else -1).

Definition copyinstr (pagetable dst srcva max : Z) : K Z :=
  copyinstr_loop (copy_fuel max) pagetable dst srcva max false.

(** [kvminithart] and [kvminithart_proc]: the value written to [satp]. *)
Definition kvminithart (kernel_pagetable : Z) : Z := MAKE_SATP kernel_pagetable.
Definition kvminithart_proc (k_pagetable : Z) : Z := MAKE_SATP k_pagetable.

(** [test_pagetable], given the value of [satp]. *)
Definition test_pagetable (satp kernel_pagetable : Z) : bool :=
  negb (satp =? MAKE_SATP kernel_pagetable).
End vm.
