(* ===== verification/VmTree.v ===== *)
(** * Page tables as trees

    The page-table pages of one address space form a tree of depth three. The
    tree is a finite map from paths (the indices that lead to a table, root
    first) to the physical page of that table; [pt_ok] says that memory holds
    such a tree. The file relates [walk] to it: without allocation [walk]
    computes the address of the leaf entry, with allocation it extends the tree
    by at most two fresh zeroed pages and changes no leaf entry. *)

From S2P Require Import Prelude.
From S2P Require Import Memory.
From S2P Require Import Riscv.
From S2P Require Import PageAlloc.
From S2P Require Import Vm.

Module VmTree.

Abbreviation tree := (gmap (list Z) Z).

(** Page [p] is one of the tree's table pages. *)
Definition tpage (T : tree) (p : Z) : Prop := exists π, T !! π = Some p.

Definition pages (T : tree) : gset Z := map_img T.

Lemma elem_of_pages T p : p ∈ pages T <-> tpage T p.
Proof. apply elem_of_map_img. Qed.

#[export] Instance tpage_dec T p : Decision (tpage T p).
Proof. refine (cast_if (decide (p ∈ pages T))); by rewrite <- elem_of_pages. Defined.

(** The entry a table holds for a child. *)
Definition link (o : option Z) : Z :=
  match o with
  | Some q => Z.lor (PA2PTE q) PTE_V
  | None => 0
  end.

Definition index (i : Z) : Prop := 0 <= i < 512.

Section tree.
Context `{MemLayout}.

Record pt_ok (m : mem) (root : Z) (T : tree) : Prop := PtOk {
  pt_root : T !! [] = Some root;
  pt_path π p : T !! π = Some p -> (length π <= 2)%nat /\ Forall index π /\ valid_page p;
  pt_low i π p : T !! (i :: π) = Some p -> i < 256;
  pt_up π i : is_Some (T !! (π ++ [i])) -> is_Some (T !! π);
  pt_inj π π' p : T !! π = Some p -> T !! π' = Some p -> π = π';
  pt_entry π p i :
    T !! π = Some p -> (length π < 2)%nat -> index i ->
    ld64 m (p + 8 * i) = link (T !! (π ++ [i]));
}.

(** The leaf entry of a virtual address; [0] where there is no leaf table. *)
Definition leaf (m : mem) (T : tree) (va : Z) : Z :=
  match T !! [PX 2 va; PX 1 va] with
  | Some p => ld64 m (p + 8 * PX 0 va)
  | None => 0
  end.

(** The address of the leaf entry, or the null pointer. *)
Definition leaf_addr (T : tree) (va : Z) : Z :=
  match T !! [PX 2 va; PX 1 va] with
  | Some p => p + 8 * PX 0 va
  | None => 0
  end.

Definition user_va (va : Z) : Prop := 0 <= va < MAXVA.

(** Below [MAXVA] only the first half of the root table is used. *)
Lemma PX_low va : user_va va -> PX 2 va < 256.
Proof.
  unfold user_va. intros Hva. rewrite PX_div by lia. change MAXVA with (2 ^ 38) in Hva.
  change (12 + 9 * 2) with 30.
  assert (0 <= va / 2 ^ 30 < 256) by (split; [apply Z.div_pos; lia|apply Z.div_lt_upper_bound; lia]).
  rewrite Z.mod_small; lia.
Qed.

Lemma PX_index l va : index (PX l va).
Proof. apply PX_range. Qed.

Lemma in_page_entry p i x : index i -> p + 8 * i <= x < p + 8 * i + 8 -> in_page p x.
Proof. unfold index, in_page, PGSIZE. lia. Qed.

Lemma pt_ok_tpage m root T p : pt_ok m root T -> tpage T p -> valid_page p.
Proof. intros Hok (π & Hπ). by apply (pt_path _ _ _ Hok) in Hπ as (_ & _ & ?). Qed.

(** A page table and its leaves only depend on the table pages. *)
Lemma pt_ok_frame m m' root T :
  pt_ok m root T ->
  (forall p a, tpage T p -> in_page p a -> ld8 m' a = ld8 m a) ->
  pt_ok m' root T.
Proof.
  intros [Hr Hp Hlow Hu Hi He] Hm. split; try done. intros π p i Hπ Hl Hix.
  rewrite <- (He _ _ _ Hπ Hl Hix). apply ld64_agree. intros x Hx.
  apply (Hm p); [by exists π|by eapply in_page_entry].
Qed.

Lemma leaf_frame m m' T va :
  (forall p a, tpage T p -> in_page p a -> ld8 m' a = ld8 m a) ->
  leaf m' T va = leaf m T va.
Proof.
  intros Hm. unfold leaf. destruct (T !! _) as [p|] eqn:E; [|done].
  apply ld64_agree. intros x Hx. apply (Hm p); [by eexists|].
  eapply in_page_entry; [apply PX_index|done].
Qed.

Lemma leaf_addr_page m root T va :
  pt_ok m root T -> leaf_addr T va <> 0 ->
  exists p, T !! [PX 2 va; PX 1 va] = Some p /\ leaf_addr T va = p + 8 * PX 0 va.
Proof.
  intros Hok. unfold leaf_addr. destruct (T !! _) as [p|]; [eauto|done].
Qed.

Lemma PX_addr_page va vb :
  va / PGSIZE = vb / PGSIZE ->
  PX 2 va = PX 2 vb /\ PX 1 va = PX 1 vb /\ PX 0 va = PX 0 vb.
Proof. intros E. split_and!; by apply PX_page. Qed.

Lemma leaf_page m T va vb : va / PGSIZE = vb / PGSIZE -> leaf m T va = leaf m T vb.
Proof. intros (E2 & E1 & E0)%PX_addr_page. unfold leaf. by rewrite E2, E1, E0. Qed.

(** Writing one leaf entry changes that leaf only. *)
Lemma leaf_store m root T va v vb :
  pt_ok m root T -> leaf_addr T va <> 0 -> 0 <= v < 2 ^ 64 ->
  user_va va -> user_va vb ->
  leaf (st64 m (leaf_addr T va) v) T vb =
    if decide (va / PGSIZE = vb / PGSIZE) then v else leaf m T vb.
Proof.
  intros Hok Hne Hv Ha Hb.
  destruct (leaf_addr_page _ _ _ _ Hok Hne) as (p & Hp & ->).
  case_decide as E.
  - rewrite <- (leaf_page _ _ _ _ E). unfold leaf. rewrite Hp. by apply ld_st64.
  - unfold leaf. destruct (T !! [PX 2 vb; PX 1 vb]) as [q|] eqn:Hq; [|done].
    apply ld64_st64_ne. pose proof (PX_range 0 va). pose proof (PX_range 0 vb).
    destruct (Z.eq_dec p q) as [->|Hpq].
    + pose proof (pt_inj _ _ _ Hok _ _ _ Hp Hq) as E'. injection E' as E2 E1.
      assert (PX 0 va <> PX 0 vb) by (intros E0; apply E; by apply PX_inj). lia.
    + apply (pt_path _ _ _ Hok) in Hp as (_ & _ & Hp). apply (pt_path _ _ _ Hok) in Hq as (_ & _ & Hq).
      destruct (page_separate p q); try done; try by apply valid_page_aligned.
      all: unfold PGSIZE in *; lia.
Qed.

(** Writing a leaf entry keeps the tree. *)
Lemma pt_ok_store m root T va v :
  pt_ok m root T -> leaf_addr T va <> 0 -> pt_ok (st64 m (leaf_addr T va) v) root T.
Proof.
  intros Hok Hne. destruct (leaf_addr_page _ _ _ _ Hok Hne) as (p & Hp & ->).
  pose proof Hok as [Hr Hpa Hlow Hu Hi He]. split; try done. intros π q i Hπ Hl Hix.
  rewrite <- (He _ _ _ Hπ Hl Hix). apply ld64_st64_ne.
  assert (p <> q) by (intros ->; pose proof (Hi _ _ _ Hp Hπ) as <-; cbn in Hl; lia).
  apply Hpa in Hp as (_ & _ & Hp). apply Hpa in Hπ as (_ & _ & Hq).
  pose proof (PX_range 0 va). unfold index in Hix.
  destruct (page_separate p q); try done; try by apply valid_page_aligned.
  all: unfold PGSIZE in *; lia.
Qed.

Lemma leaf_addr_in m root T va x :
  pt_ok m root T -> leaf_addr T va <> 0 ->
  leaf_addr T va <= x < leaf_addr T va + 8 -> exists p, tpage T p /\ in_page p x.
Proof.
  intros Hok Hne Hx. destruct (leaf_addr_page _ _ _ _ Hok Hne) as (p & Hp & E).
  rewrite E in Hx. exists p. split; [by eexists|]. eapply in_page_entry; [apply PX_index|done].
Qed.

(** A zeroed page is an empty page table. *)
Lemma pt_ok_root m r :
  valid_page r -> (forall i, index i -> ld64 m (r + 8 * i) = 0) -> pt_ok m r {[ [] := r ]}.
Proof.
  intros Hv Hz. split.
  - apply lookup_singleton_eq.
  - intros π p [<- <-]%lookup_singleton_Some. split_and!; [cbn; lia|constructor|done].
  - intros i π p [? _]%lookup_singleton_Some. done.
  - intros π i [p [E _]%lookup_singleton_Some]. by destruct π.
  - intros π π' p [<- _]%lookup_singleton_Some [<- _]%lookup_singleton_Some. done.
  - intros π p i [<- <-]%lookup_singleton_Some _ Hi. rewrite lookup_singleton_ne by done.
    by apply Hz.
Qed.

Lemma leaf_root m r va : leaf m {[ [] := r ]} va = 0.
Proof. unfold leaf. by rewrite lookup_singleton_ne. Qed.

Lemma link_page `{!MemLayoutOk} q : valid_page q -> PTE2PA (Z.lor (PA2PTE q) PTE_V) = q.
Proof.
  intros Hq. pose proof (valid_page_range _ Hq).
  apply PTE2PA_mk; [lia|by apply valid_page_aligned|done].
Qed.

(** Reading an inner entry. *)
Lemma read_entry `{!MemLayoutOk} m root T π p i :
  pt_ok m root T -> T !! π = Some p -> (length π < 2)%nat -> index i ->
  entry p i = p + 8 * i /\
  match T !! (π ++ [i]) with
  | Some q => has (ld64 m (p + 8 * i)) PTE_V = true /\ PTE2PA (ld64 m (p + 8 * i)) = q
  | None => has (ld64 m (p + 8 * i)) PTE_V = false
  end.
Proof.
  intros Hok Hπ Hl Hi. split.
  - apply (pt_path _ _ _ Hok) in Hπ as (_ & _ & Hv%valid_page_range).
    unfold entry, index in *. apply u64_small. lia.
  - rewrite (pt_entry _ _ _ Hok _ _ _ Hπ Hl Hi).
    destruct (T !! (π ++ [i])) as [q|] eqn:Eq; cbn [link]; [|done].
    apply (pt_path _ _ _ Hok) in Eq as (_ & _ & Hq).
    split; [|by apply link_page].
    unfold has. by rewrite (land_flags _ PTE_V), PTE_FLAGS_mk by done.
Qed.

(** The table [n] levels above the leaf table of [va]. *)
Definition path (n : nat) (va : Z) : list Z :=
  match n with
  | O => [PX 2 va; PX 1 va]
  | S O => [PX 2 va]
  | _ => []
  end.

Lemma path_S n va :
  (n < 2)%nat ->
  path n va = path (S n) va ++ [PX (Z.of_nat (S n)) va] /\ (length (path (S n) va) < 2)%nat.
Proof. intros Hn. destruct n as [|[|n]]; [| |lia]; (split; [reflexivity|cbn; lia]). Qed.

Lemma leaf_entry `{!MemLayoutOk} m root T va p :
  pt_ok m root T -> T !! path 0 va = Some p -> entry p (PX 0 va) = leaf_addr T va.
Proof.
  intros Hok Hp. unfold leaf_addr. cbn in Hp. rewrite Hp. unfold entry. apply u64_small.
  apply (pt_path _ _ _ Hok) in Hp as (_ & _ & Hv%valid_page_range).
  pose proof (PX_range 0 va). lia.
Qed.

Lemma leaf_addr_nonzero `{!MemLayoutOk} m root T va p :
  pt_ok m root T -> T !! path 0 va = Some p -> leaf_addr T va <> 0.
Proof.
  intros Hok Hp. unfold leaf_addr. cbn in Hp. rewrite Hp.
  apply (pt_path _ _ _ Hok) in Hp as (_ & _ & Hv%valid_page_range).
  pose proof (PX_range 0 va). lia.
Qed.
End tree.

(** ** [walk] *)
Section walk.
Context `{MemLayout} `{!MemLayoutOk} {A : Type} `{!PageAllocator A}.

(** An absent table stays absent further down. *)
Lemma absent_below m root T va n :
  pt_ok m root T -> (n < 2)%nat -> T !! path n va = None -> leaf_addr T va = 0.
Proof.
  intros Hok Hn Ha. unfold leaf_addr. change [PX 2 va; PX 1 va] with (path 0 va).
  destruct n as [|[|n]]; [by rewrite Ha| |lia].
  destruct (T !! path 0 va) as [p|] eqn:E; [|done].
  destruct (pt_up _ _ _ Hok (path 1 va) (PX 1 va)) as [q Hq]; [by exists p|]. congruence.
Qed.

Lemma walk_loop_find (s : kstate A) root T va n p :
  pt_ok (kmem s) root T -> (n <= 2)%nat -> T !! path n va = Some p ->
  walk_loop n p va false s = Ok (leaf_addr T va, s).
Proof.
  intros Hok. revert p. induction n as [|n IH]; intros p Hn Hp; cbn [walk_loop].
  { unfold mret, M_ret. by rewrite (leaf_entry _ _ _ _ _ Hok Hp). }
  destruct (path_S n va) as [Ep Hl]; [lia|]. cbv zeta.
  destruct (read_entry _ _ _ _ _ (PX (Z.of_nat (S n)) va) Hok Hp Hl (PX_index _ _)) as [-> Hr].
  unfold load64. rewrite bind_gets. rewrite <- Ep in Hr.
  destruct (T !! path n va) as [q|] eqn:Eq.
  - destruct Hr as [-> ->]. apply IH; [lia|done].
  - rewrite Hr. cbn [negb]. rewrite (absent_below _ _ _ va n Hok) by (done || lia). done.
Qed.

(** Without allocation [walk] changes nothing and returns the address of the
    leaf entry, null where there is no leaf table. *)
Lemma walk_find (s : kstate A) root T va :
  pt_ok (kmem s) root T -> user_va va ->
  walk root va false s = Ok (leaf_addr T va, s).
Proof.
  intros Hok [_ Hva]. unfold walk. destruct (Z.leb_spec MAXVA va); [lia|].
  apply (walk_loop_find s root); [done|lia|]. apply (pt_root _ _ _ Hok).
Qed.
End walk.
End VmTree.
