(* ===== verification/VmWalk.v ===== *)
(** * Growing a page table

    [owned]: the allocator and a page table share physical memory without
    overlap. [extends]: what a walk with allocation may do to such a state. *)

From S2P Require Import Prelude.
From S2P Require Import Memory.
From S2P Require Import Riscv.
From S2P Require Import PageAlloc.
From S2P Require Import Vm.
From S2P Require Import VmTree.

Module VmWalk.
Import VmTree.

Section walk.
Context `{MemLayout} `{!MemLayoutOk} {A : Type} `{!PageAllocator A} `{!PageAllocatorSpec A}.

(** The free pages are [F] and the page table at [root] is [T]. *)
Record owned (s : kstate A) (F : gset Z) (root : Z) (T : tree) : Prop := Owned {
  own_al : al_ok s F;
  own_pt : pt_ok (kmem s) root T;
  own_sep p : tpage T p -> p ∉ F;
}.

(** The address is in no free page and in no table page. *)
Definition apart (F : gset Z) (T : tree) (a : Z) : Prop :=
  forall p, p ∈ F \/ tpage T p -> ~ in_page p a.

(** Table pages were added to [T], taken from the free pages; no leaf entry and
    no memory outside changed. *)
Record extends (s : kstate A) (F : gset Z) (T : tree)
               (s' : kstate A) (F' : gset Z) (T' : tree) : Prop := Extends {
  ext_tree : T ⊆ T';
  ext_free : F = F' ∪ (pages T' ∖ pages T);
  ext_leaf va : user_va va -> leaf (kmem s') T' va = leaf (kmem s) T va;
  ext_frame a : apart F T a -> ld8 (kmem s') a = ld8 (kmem s) a;
}.

Lemma pages_mono (T T' : tree) : T ⊆ T' -> pages T ⊆ pages T'.
Proof.
  intros Hs p. rewrite !elem_of_pages. intros (π & Hπ). exists π.
  by eapply lookup_weaken.
Qed.

Lemma extends_refl s F T : extends s F T s F T.
Proof. split; try done. set_solver. Qed.

Lemma extends_apart s F T s' F' T' a : extends s F T s' F' T' -> apart F T a -> apart F' T' a.
Proof.
  intros [_ Hf _ _] Ha p Hp. apply Ha. rewrite <- !elem_of_pages in *. rewrite Hf.
  destruct (decide (p ∈ pages T)); set_solver.
Qed.

Lemma extends_trans s F T s1 F1 T1 s2 F2 T2 :
  extends s F T s1 F1 T1 -> extends s1 F1 T1 s2 F2 T2 -> extends s F T s2 F2 T2.
Proof.
  intros Ha Hb. pose proof Ha as [Ht Hf Hl Hm]. pose proof Hb as [Ht' Hf' Hl' Hm']. split.
  - by transitivity T1.
  - rewrite Hf, Hf'. pose proof (pages_mono _ _ Ht). pose proof (pages_mono _ _ Ht').
    apply set_eq. intros p. destruct (decide (p ∈ pages T1)), (decide (p ∈ pages T)); set_solver.
  - intros va Hva. by rewrite Hl', Hl.
  - intros a Ha'. rewrite Hm'; [by apply Hm|]. by eapply extends_apart.
Qed.

Lemma path_ne_ext (π : list Z) i : π <> π ++ [i].
Proof. intros E. apply (f_equal length) in E. rewrite length_app in E. cbn in E. lia. Qed.

Lemma pages_insert (T : tree) π q :
  T !! π = None -> pages (<[π := q]> T) = {[q]} ∪ pages T.
Proof. intros Hn. unfold pages. by apply (map_img_insert_notin_L (SA := gset Z) T). Qed.

(** Loads are unaffected by writes to other pages. *)
Lemma ld64_other_page m m' p q i :
  same_outside q m m' -> valid_page p -> valid_page q -> p <> q -> index i ->
  ld64 m' (p + 8 * i) = ld64 m (p + 8 * i).
Proof.
  intros Hs Hp Hq Hne Hi. apply ld64_agree. intros x Hx. apply Hs.
  apply (pages_disjoint p q); try done; try by apply valid_page_aligned.
  by eapply in_page_entry.
Qed.

(** The memory after a fresh page [q] was zeroed and linked into slot [i] of
    table [p]. *)
Definition link_mem (m : mem) (p i q : Z) : mem :=
  st64 (memset m q 0 PGSIZE) (p + 8 * i) (Z.lor (PA2PTE q) PTE_V).

Lemma link_range q : valid_page q -> 0 <= Z.lor (PA2PTE q) PTE_V < 2 ^ 64.
Proof.
  intros Hq%valid_page_range. rewrite PA2PTE_lor_flags by done.
  pose proof (PA2PTE_range q ltac:(lia)). change PTE_V with 1. lia.
Qed.

Lemma link_mem_slot m p i q :
  valid_page q -> ld64 (link_mem m p i q) (p + 8 * i) = Z.lor (PA2PTE q) PTE_V.
Proof. intros Hq. unfold link_mem. by apply ld_st64, link_range. Qed.

Lemma link_mem_fresh m p i q j :
  valid_page p -> valid_page q -> p <> q -> index i -> index j ->
  ld64 (link_mem m p i q) (q + 8 * j) = 0.
Proof.
  intros Hp Hq Hne Hi Hj. unfold link_mem. rewrite ld64_st64_ne.
  - apply ld64_memset0; unfold index, PGSIZE in *; lia.
  - unfold index in *. destruct (page_separate p q); try done; try by apply valid_page_aligned.
    all: unfold PGSIZE in *; lia.
Qed.

Lemma link_mem_other m p i q r j :
  valid_page p -> valid_page q -> valid_page r -> r <> q -> (r <> p \/ i <> j) ->
  index i -> index j ->
  ld64 (link_mem m p i q) (r + 8 * j) = ld64 m (r + 8 * j).
Proof.
  intros Hp Hq Hr Hrq Hd Hi Hj. unfold link_mem. rewrite ld64_st64_ne.
  - apply (ld64_other_page _ _ _ q); try done. intros a Ha. apply ld8_memset_out. exact Ha.
  - unfold index in *. destruct (Z.eq_dec r p) as [->|Hne]; [lia|].
    destruct (page_separate p r); try done; try by apply valid_page_aligned.
    all: unfold PGSIZE in *; lia.
Qed.

Lemma link_mem_outside m p i q a :
  index i -> ~ in_page p a -> ~ in_page q a -> ld8 (link_mem m p i q) a = ld8 m a.
Proof.
  intros Hi Hp Hq. unfold link_mem, st64. rewrite ld8_st_le_out.
  - by apply ld8_memset_out.
  - unfold in_page, index, PGSIZE in *. lia.
Qed.

(** The tree after the link. *)
Lemma pt_ok_grow m root T π p i q :
  pt_ok m root T -> T !! π = Some p -> (length π < 2)%nat -> index i -> (π = [] -> i < 256) ->
  T !! (π ++ [i]) = None -> valid_page q -> ~ tpage T q ->
  pt_ok (link_mem m p i q) root (<[π ++ [i] := q]> T).
Proof.
  intros Hok Hπ Hl Hi Hi2 Hn Hq Hfr. pose proof Hok as [Hr Hp Hlow Hu Hinj He].
  assert (Hvp : valid_page p) by (by apply Hp in Hπ as (_ & _ & ?)).
  assert (Hpq : p <> q) by (intros ->; apply Hfr; by exists π).
  split.
  - rewrite lookup_insert_ne; [done|]. by intros [_ ?]%app_eq_nil.
  - intros π' p' [[<- <-]|[_ H']]%lookup_insert_Some; [|by apply Hp].
    split; [rewrite length_app; cbn; lia|]. split; [|done].
    apply Forall_app. split; [by apply Hp in Hπ as (_ & ? & _)|by apply Forall_singleton].
  - intros j π' p' [[E _]|[_ H']]%lookup_insert_Some; [|by eapply Hlow].
    destruct π as [|j' π0]; cbn in E; injection E as -> E; [by apply Hi2|by eapply Hlow].
  - intros π' j [p' [[E _]|[_ H']]%lookup_insert_Some].
    + apply app_inj_tail in E as [-> _]. rewrite lookup_insert_ne; [by exists p|].
      symmetry. apply path_ne_ext.
    + destruct (Hu π' j) as [r Hr']; [by exists p'|]. destruct (decide (π ++ [i] = π')) as [<-|].
      * congruence.
      * exists r. by rewrite lookup_insert_ne.
  - intros π1 π2 r [[<- <-]|[_ H1']]%lookup_insert_Some [[<- E]|[_ H2']]%lookup_insert_Some.
    + done.
    + exfalso. apply Hfr. by exists π2.
    + subst. exfalso. apply Hfr. by exists π1.
    + by eapply Hinj.
  - intros π' p' j [[<- <-]|[Hne' H']]%lookup_insert_Some Hl' Hj.
    + rewrite link_mem_fresh by done.
      rewrite lookup_insert_ne by apply path_ne_ext.
      destruct (T !! ((π ++ [i]) ++ [j])) as [r|] eqn:E; [|done].
      destruct (Hu (π ++ [i]) j) as [? ?]; [by exists r|]. congruence.
    + destruct (decide (π ++ [i] = π' ++ [j])) as [E|E].
      * rewrite <- E, lookup_insert_eq. apply app_inj_tail in E as [<- <-].
        rewrite Hπ in H'. injection H' as <-. by apply link_mem_slot.
      * rewrite lookup_insert_ne by done. rewrite <- (He _ _ _ H' Hl' Hj).
        apply link_mem_other; try done; [by apply Hp in H' as (_ & _ & ?)| |].
        -- intros ->. apply Hfr. by exists π'.
        -- destruct (Z.eq_dec p' p) as [->|]; [|by left]. right. intros ->.
           apply E. f_equal. by eapply Hinj.
Qed.

Lemma leaf_grow m root T π p i q va :
  pt_ok m root T -> T !! π = Some p -> (length π < 2)%nat -> index i ->
  T !! (π ++ [i]) = None -> valid_page q -> ~ tpage T q ->
  leaf (link_mem m p i q) (<[π ++ [i] := q]> T) va = leaf m T va.
Proof.
  intros Hok Hπ Hl Hi Hn Hq Hfr. unfold leaf.
  assert (Hvp : valid_page p) by (by apply (pt_path _ _ _ Hok) in Hπ as (_ & _ & ?)).
  assert (Hpq : p <> q) by (intros ->; apply Hfr; by exists π).
  destruct (decide (π ++ [i] = [PX 2 va; PX 1 va])) as [E|E].
  - rewrite <- E, lookup_insert_eq, Hn. apply link_mem_fresh; try done. apply PX_index.
  - rewrite lookup_insert_ne by done. destruct (T !! [PX 2 va; PX 1 va]) as [r|] eqn:Er; [|done].
    apply link_mem_other; try done; try apply PX_index.
    + by apply (pt_path _ _ _ Hok) in Er as (_ & _ & ?).
    + intros ->. apply Hfr. by eexists.
    + left. intros ->. rewrite (pt_inj _ _ _ Hok _ _ _ Hπ Er) in Hl. cbn in Hl. lia.
Qed.

(** One allocation inside [walk]. *)
Lemma walk_grow s s1 F root T π p i q :
  owned s F root T -> T !! π = Some p -> (length π < 2)%nat -> index i -> (π = [] -> i < 256) ->
  T !! (π ++ [i]) = None -> q ∈ F -> al_ok s1 (F ∖ {[q]}) ->
  same_outside q (kmem s) (kmem s1) ->
  owned (ksetmem (link_mem (kmem s1) p i q) s1) (F ∖ {[q]}) root (<[π ++ [i] := q]> T) /\
  extends s F T (ksetmem (link_mem (kmem s1) p i q) s1) (F ∖ {[q]}) (<[π ++ [i] := q]> T).
Proof.
  intros [Hal Hpt Hsep] Hπ Hl Hi Hi2 Hn Hq Hal1 Hso.
  assert (Hvq : valid_page q) by exact (al_ok_valid _ _ _ Hal Hq).
  assert (Hfr : ~ tpage T q) by (intros Ht; by apply Hsep in Ht).
  assert (Hsame : forall r a, tpage T r -> in_page r a -> ld8 (kmem s1) a = ld8 (kmem s) a).
  { intros r a Hr Ha. apply Hso. apply (pages_disjoint r q); try done.
    - by eapply valid_page_aligned, pt_ok_tpage.
    - by apply valid_page_aligned.
    - by intros ->. }
  assert (Hpt1 : pt_ok (kmem s1) root T) by (by eapply pt_ok_frame).
  assert (Htp : tpage T p) by (by exists π).
  split; split; cbn [kmem ksetmem].
  - apply al_ok_frame; [done|]. intros r a Hr Ha. apply link_mem_outside; [done| |].
    + apply (pages_disjoint r p); try done.
      * eapply valid_page_aligned, (al_ok_valid _ _ _ Hal1 Hr).
      * by eapply valid_page_aligned, pt_ok_tpage.
      * intros ->. apply Hsep in Htp. set_solver.
    + apply (pages_disjoint r q); try done.
      * eapply valid_page_aligned, (al_ok_valid _ _ _ Hal1 Hr).
      * by apply valid_page_aligned.
      * set_solver.
  - by apply pt_ok_grow.
  - intros r (π' & [[<- <-]|[_ Hr]]%lookup_insert_Some); [set_solver|].
    assert (r ∉ F) by (apply Hsep; by exists π'). set_solver.
  - by apply insert_subseteq.
  - rewrite pages_insert by done. apply set_eq. intros r.
    destruct (decide (r = q)) as [->|]; [|set_solver].
    rewrite <- elem_of_pages in Hfr. set_solver.
  - intros va _. rewrite (leaf_grow _ root) by done. by apply leaf_frame.
  - intros a Ha. rewrite link_mem_outside; [|done|apply Ha; by right|apply Ha; by left].
    apply Hso. apply Ha. by left.
Qed.

(** What a walk with allocation returns. *)
Definition walked (s : kstate A) (F : gset Z) (root : Z) (T : tree) (va r : Z) (s' : kstate A) : Prop :=
  exists F' T', owned s' F' root T' /\ extends s F T s' F' T' /\
    ((r = 0 /\ F' = ∅) \/ (r <> 0 /\ r = leaf_addr T' va)).

Lemma walk_loop_alloc va root n : user_va va -> forall s F T p,
  owned s F root T -> (n <= 2)%nat -> T !! path n va = Some p ->
  wp (walk_loop n p va true) s (walked s F root T va).
Proof.
  intros Hva. induction n as [|n IH]; intros s F T p Hown Hn Hp; cbn [walk_loop].
  { pose proof (own_pt _ _ _ _ Hown) as Hpt. apply wp_ret. exists F, T.
    split; [done|]. split; [apply extends_refl|]. right.
    rewrite (leaf_entry _ _ _ _ _ Hpt Hp). split; [|done]. by eapply leaf_addr_nonzero. }
  pose proof (own_pt _ _ _ _ Hown) as Hpt.
  destruct (path_S n va) as [Ep Hl]; [lia|]. cbv zeta.
  destruct (read_entry _ _ _ _ _ (PX (Z.of_nat (S n)) va) Hpt Hp Hl (PX_index _ _)) as [-> Hr].
  unfold load64. apply wp_bind, wp_gets. rewrite <- Ep in Hr.
  destruct (T !! path n va) as [q|] eqn:Eq.
  { destruct Hr as [-> ->]. apply IH; [done|lia|done]. }
  rewrite Hr. cbn [negb]. apply wp_bind.
  eapply wp_mono; [apply kalloc_ok, (own_al _ _ _ _ Hown)|]. cbn beta.
  intros r s1 [(-> & HF & ->)|(Hq & Hal1 & Hso)].
  { apply wp_ret. exists F, T. split; [done|]. split; [apply extends_refl|]. by left. }
  assert (Hvq : valid_page r) by (by eapply al_ok_valid; [apply (own_al _ _ _ _ Hown)|]).
  destruct (Z.eqb_spec r 0) as [->|Hr0]; [apply valid_page_range in Hvq; lia|].
  unfold do_memset, store64. destruct (Z.eqb_spec r 0) as [|_]; [done|]. wp_pure.
  cbn [kmem ksetmem kal]. rewrite Ep in Eq.
  assert (Hlow : path (S n) va = [] -> PX (Z.of_nat (S n)) va < 256).
  { intros E. destruct n as [|[|n]]; [done|by apply PX_low|lia]. }
  destruct (walk_grow s s1 F root T _ p _ r Hown Hp Hl (PX_index (Z.of_nat (S n)) va) Hlow Eq Hq Hal1 Hso)
    as [Hown' Hext].
  eapply wp_mono.
  { apply (IH _ _ _ _ Hown'); [lia|]. rewrite Ep. apply lookup_insert_eq. }
  cbn beta. intros x s2 (F' & T' & Ho & He & Hc). exists F', T'. split; [done|].
  split; [|done]. by eapply extends_trans.
Qed.

(** With allocation [walk] returns the address of the leaf entry in a tree that
    extends the old one, or null when no page is free. *)
Lemma walk_alloc s F root T va :
  owned s F root T -> user_va va -> wp (walk root va true) s (walked s F root T va).
Proof.
  intros Hown Hva. unfold walk. destruct (Z.leb_spec MAXVA va); [unfold user_va in Hva; lia|].
  apply walk_loop_alloc; [done|done|lia|]. apply (pt_root _ _ _ (own_pt _ _ _ _ Hown)).
Qed.
End walk.
End VmWalk.
