(* ===== verification/VmMap.v ===== *)
(** * Installing and removing mappings

    What [mappages], [uvmunmap] and [walkaddr] do to the leaf entries of a page
    table, as functions of the virtual address. *)

From S2P Require Import Prelude.
From S2P Require Import Memory.
From S2P Require Import Riscv.
From S2P Require Import PageAlloc.
From S2P Require Import Vm.
From S2P Require Import VmTree.
From S2P Require Import VmWalk.

Module VmMap.
Import VmTree VmWalk.

(** Arithmetic on page numbers. *)
Ltac page_lia := unfold PGSIZE in *; Z.to_euclidean_division_equations; lia.

Lemma same_page a va : a mod PGSIZE = 0 -> a / PGSIZE = va / PGSIZE <-> a <= va < a + PGSIZE.
Proof. intros Ha. page_lia. Qed.

(** The leaf entry [mappages] writes. *)
Definition mkpte (pa perm : Z) : Z := Z.lor (Z.lor (PA2PTE pa) perm) PTE_V.

Lemma flags_or_V perm : 0 <= perm < 1024 -> 0 <= Z.lor perm PTE_V < 1024.
Proof.
  intros Hp. change PTE_V with 1. split; [apply Z.lor_nonneg; lia|]. change 1 with PTE_V.
  assert (E : Z.lor perm PTE_V = Z.lor perm PTE_V mod 2 ^ 10).
  { rewrite <- Z.land_ones by lia. rewrite Z.land_lor_distr_l.
    rewrite !Z.land_ones by lia. change PTE_V with 1. by rewrite !Z.mod_small by lia. }
  rewrite E. apply Z.mod_pos_bound. lia.
Qed.

Lemma mkpte_eq pa perm : mkpte pa perm = Z.lor (PA2PTE pa) (Z.lor perm PTE_V).
Proof. unfold mkpte. by rewrite Z.lor_assoc. Qed.

Lemma mkpte_pa pa perm :
  0 <= pa < 2 ^ 56 -> pa mod PGSIZE = 0 -> 0 <= perm < 1024 -> PTE2PA (mkpte pa perm) = pa.
Proof. intros. rewrite mkpte_eq. apply PTE2PA_mk; try done. by apply flags_or_V. Qed.

Lemma mkpte_flags pa perm : 0 <= perm < 1024 -> PTE_FLAGS (mkpte pa perm) = Z.lor perm PTE_V.
Proof. intros. rewrite mkpte_eq. by apply PTE_FLAGS_mk, flags_or_V. Qed.

Lemma has_flag v f : 0 <= f < 1024 -> has v f = has (PTE_FLAGS v) f.
Proof. intros Hf. unfold has. by rewrite (land_flags v f). Qed.

Lemma mkpte_valid pa perm : 0 <= perm < 1024 -> has (mkpte pa perm) PTE_V = true.
Proof.
  intros Hp. rewrite has_flag, mkpte_flags by done. unfold has.
  rewrite Z.land_lor_distr_l. change (Z.land PTE_V PTE_V) with 1.
  destruct (Z.eqb_spec (Z.lor (Z.land perm PTE_V) 1) 0) as [E|]; [|done].
  apply Z.lor_eq_0_iff in E. lia.
Qed.

Lemma mkpte_has pa perm f :
  0 <= perm < 1024 -> 0 <= f < 1024 -> has perm f = true -> has (mkpte pa perm) f = true.
Proof.
  intros Hp Hf Hh. rewrite has_flag, mkpte_flags by done. unfold has in *.
  rewrite Z.land_lor_distr_l. bool_to_prop. apply negb_true_iff, Z.eqb_neq.
  intros E%Z.lor_eq_0_iff. lia.
Qed.

Lemma mkpte_range pa perm :
  0 <= pa < 2 ^ 56 -> 0 <= perm < 1024 -> 0 <= mkpte pa perm < 2 ^ 64.
Proof.
  intros Hpa Hp. rewrite mkpte_eq, PA2PTE_lor_flags by (by apply flags_or_V).
  pose proof (PA2PTE_range pa Hpa). pose proof (flags_or_V perm Hp). lia.
Qed.

(** [n] pages from [a] mapped to consecutive pages from [pa]. *)
Definition map_range (L : Z -> Z) (a n pa perm va : Z) : Z :=
  if (a <=? va) && (va <? a + n * PGSIZE)
  then mkpte (pa + (va - a) / PGSIZE * PGSIZE) perm else L va.

(** [n] pages from [a] unmapped. *)
Definition unmap_range (L : Z -> Z) (a n va : Z) : Z :=
  if (a <=? va) && (va <? a + n * PGSIZE) then 0 else L va.

Lemma map_range_0 L a pa perm va : map_range L a 0 pa perm va = L va.
Proof.
  unfold map_range. destruct (Z.leb_spec a va), (Z.ltb_spec va (a + 0 * PGSIZE)); cbn; try done.
  lia.
Qed.

Lemma map_range_S L a n pa perm va :
  a mod PGSIZE = 0 -> 0 <= n ->
  map_range (fun v => if decide (a / PGSIZE = v / PGSIZE) then mkpte pa perm else L v)
    (a + PGSIZE) n (pa + PGSIZE) perm va = map_range L a (n + 1) pa perm va.
Proof.
  intros Ha Hn. unfold map_range.
  replace (a + PGSIZE + n * PGSIZE) with (a + (n + 1) * PGSIZE) by lia.
  destruct (decide (a / PGSIZE = va / PGSIZE)) as [E|E].
  - apply same_page in E; [|done]. rewrite (Z.div_small (va - a)) by lia.
    rewrite (Zle_imp_le_bool a va) by lia.
    destruct (Z.leb_spec (a + PGSIZE) va), (Z.ltb_spec va (a + (n + 1) * PGSIZE));
      cbn; try (unfold PGSIZE in *; lia). f_equal. lia.
  - assert (~ a <= va < a + PGSIZE) by (by rewrite <- same_page).
    destruct (Z.leb_spec (a + PGSIZE) va), (Z.leb_spec a va),
      (Z.ltb_spec va (a + (n + 1) * PGSIZE)); cbn; try done; try (unfold PGSIZE in *; lia).
    f_equal. replace (va - (a + PGSIZE)) with (va - a + (-1) * PGSIZE) by lia.
    rewrite Z.div_add by done. lia.
Qed.

Section ops.
Context `{MemLayout} `{!MemLayoutOk} {A : Type} `{!PageAllocator A} `{!PageAllocatorSpec A}.

(** Like [extends], with the new leaf entries given by [L]. *)
Record remaps (s : kstate A) (F : gset Z) (T : tree)
              (s' : kstate A) (F' : gset Z) (T' : tree) (L : Z -> Z) : Prop := Remaps {
  rm_tree : T ⊆ T';
  rm_free : F = F' ∪ (pages T' ∖ pages T);
  rm_leaf va : user_va va -> leaf (kmem s') T' va = L va;
  rm_frame a : apart F T a -> ld8 (kmem s') a = ld8 (kmem s) a;
}.

Lemma extends_remaps s F T s' F' T' :
  extends s F T s' F' T' -> remaps s F T s' F' T' (leaf (kmem s) T).
Proof. intros []. by split. Qed.

Lemma remaps_ext s F T s' F' T' L L' :
  remaps s F T s' F' T' L -> (forall va, user_va va -> L va = L' va) ->
  remaps s F T s' F' T' L'.
Proof. intros [] HL. split; try done. intros va Hva. rewrite <- HL; auto. Qed.

Lemma remaps_apart s F T s' F' T' L a :
  remaps s F T s' F' T' L -> apart F T a -> apart F' T' a.
Proof.
  intros [_ Hf _ _] Ha p Hp. apply Ha. rewrite <- !elem_of_pages in *. rewrite Hf.
  destruct (decide (p ∈ pages T)); set_solver.
Qed.

Lemma remaps_trans s F T s1 F1 T1 s2 F2 T2 L1 L2 :
  remaps s F T s1 F1 T1 L1 -> remaps s1 F1 T1 s2 F2 T2 L2 -> remaps s F T s2 F2 T2 L2.
Proof.
  intros Ha Hb. pose proof Ha as [Ht Hf Hl Hm]. pose proof Hb as [Ht' Hf' Hl' Hm']. split.
  - by transitivity T1.
  - rewrite Hf, Hf'. pose proof (pages_mono _ _ Ht). pose proof (pages_mono _ _ Ht').
    apply set_eq. intros p. destruct (decide (p ∈ pages T1)), (decide (p ∈ pages T)); set_solver.
  - done.
  - intros a Ha'. rewrite Hm'; [by apply Hm|]. by eapply remaps_apart.
Qed.

(** A store to a leaf entry. *)
Lemma owned_store s F root T va v :
  owned s F root T -> leaf_addr T va <> 0 ->
  owned (ksetmem (st64 (kmem s) (leaf_addr T va) v) s) F root T.
Proof.
  intros [Hal Hpt Hsep] Hne. split; cbn [kmem ksetmem]; [|by apply pt_ok_store|done].
  apply al_ok_frame; [done|]. intros p a Hp Ha. apply ld8_st_le_out. intros Hx.
  destruct (leaf_addr_in _ _ _ _ _ Hpt Hne Hx) as (q & Hq & Hqa).
  apply (pages_disjoint p q a); try done.
  - by eapply valid_page_aligned, al_ok_valid.
  - by eapply valid_page_aligned, pt_ok_tpage.
  - intros ->. by apply (Hsep q).
Qed.

Lemma remaps_store s F root T va v :
  owned s F root T -> leaf_addr T va <> 0 -> 0 <= v < 2 ^ 64 -> user_va va ->
  remaps s F T (ksetmem (st64 (kmem s) (leaf_addr T va) v) s) F T
    (fun vb => if decide (va / PGSIZE = vb / PGSIZE) then v else leaf (kmem s) T vb).
Proof.
  intros [Hal Hpt Hsep] Hne Hv Hva. split; cbn [kmem ksetmem].
  - done.
  - set_solver.
  - intros vb Hvb. by eapply leaf_store.
  - intros a Ha. apply ld8_st_le_out. intros Hx.
    destruct (leaf_addr_in _ _ _ _ _ Hpt Hne Hx) as (q & Hq & Hqa). apply (Ha q); [by right|done].
Qed.

Lemma leaf_load s F root T va :
  owned s F root T -> leaf_addr T va <> 0 -> ld64 (kmem s) (leaf_addr T va) = leaf (kmem s) T va.
Proof.
  intros [_ Hpt _] Hne. unfold leaf_addr, leaf in *. destruct (T !! _); done.
Qed.

(** What [mappages] leaves behind: on success all [n] pages are mapped, on
    failure some first ones are and no page is free. *)
Definition mapped_to (s : kstate A) (F : gset Z) (root : Z) (T : tree)
    (a n pa perm r : Z) (s' : kstate A) : Prop :=
  exists F' T' k, owned s' F' root T' /\
    remaps s F T s' F' T' (map_range (leaf (kmem s) T) a k pa perm) /\
    ((r = 0 /\ k = n) \/ (r = -1 /\ F' = ∅ /\ 0 <= k < n)).

Lemma mapped_to_step s F root T s1 F1 T1 s2 F2 T2 a pa perm k :
  a mod PGSIZE = 0 -> 0 <= k ->
  remaps s F T s1 F1 T1 (fun v => if decide (a / PGSIZE = v / PGSIZE)
                                  then mkpte pa perm else leaf (kmem s) T v) ->
  owned s2 F2 root T2 ->
  remaps s1 F1 T1 s2 F2 T2
    (map_range (leaf (kmem s1) T1) (a + PGSIZE) k (pa + PGSIZE) perm) ->
  remaps s F T s2 F2 T2 (map_range (leaf (kmem s) T) a (k + 1) pa perm).
Proof.
  intros Ha Hk Hr Ho Hr2. eapply remaps_ext; [by eapply remaps_trans|].
  intros va Hva. cbn beta. rewrite <- map_range_S by done. unfold map_range.
  by rewrite (rm_leaf _ _ _ _ _ _ _ Hr va Hva).
Qed.

(** The body of the loop. *)
Lemma mappages_step root a last pa perm fuel s F T (Q : Z -> kstate A -> Prop) :
  owned s F root T -> user_va a -> 0 <= pa < 2 ^ 56 -> 0 <= perm < 1024 ->
  has (leaf (kmem s) T a) PTE_V = false ->
  (forall s1 T1, owned s1 ∅ root T1 -> extends s F T s1 ∅ T1 -> Q (-1) s1) ->
  (forall s1 F1 T1, owned s1 F1 root T1 ->
     remaps s F T s1 F1 T1 (fun v => if decide (a / PGSIZE = v / PGSIZE)
                                     then mkpte pa perm else leaf (kmem s) T v) ->
     wp (if a =? last then mret 0 else
         match fuel with
         | O => fail OutOfFuel
         | S fuel' =>
             mappages_loop fuel' root (u64 (a + PGSIZE)) last (u64 (pa + PGSIZE)) perm
         end) s1 Q) ->
  wp (mappages_loop fuel root a last pa perm) s Q.
Proof.
  intros Hown Hva Hpa Hperm Hfree Hfail Hgo.
  assert (E : mappages_loop fuel root a last pa perm =
    (pte ← walk root a true;
     if pte =? 0 then mret (-1) else
     v ← load64 pte;
     if has v PTE_V then panic "remap" else
     store64 pte (Z.lor (Z.lor (PA2PTE pa) perm) PTE_V);;
     if a =? last then mret 0 else
     match fuel with
     | O => fail OutOfFuel
     | S fuel' => mappages_loop fuel' root (u64 (a + PGSIZE)) last (u64 (pa + PGSIZE)) perm
     end)) by (by destruct fuel).
  rewrite E. apply wp_bind. eapply wp_mono; [by apply walk_alloc|]. cbn beta.
  intros r s1 (F1 & T1 & Hown1 & Hext & [(-> & ->)|(Hne & ->)]).
  { cbn. apply wp_ret. by eapply Hfail. }
  destruct (Z.eqb_spec (leaf_addr T1 a) 0) as [|_]; [done|].
  unfold load64. apply wp_bind, wp_gets.
  rewrite (leaf_load _ _ _ _ _ Hown1 Hne), (ext_leaf _ _ _ _ _ _ Hext) by done.
  rewrite Hfree. unfold store64. apply wp_bind, wp_modify. fold (mkpte pa perm).
  eapply Hgo; [by apply owned_store|].
  eapply remaps_trans; [by apply extends_remaps|].
  eapply remaps_ext; [by eapply remaps_store; [| |apply mkpte_range|]|].
  intros vb Hvb. cbn beta. by rewrite (ext_leaf _ _ _ _ _ _ Hext).
Qed.

Lemma mappages_loop_ok root perm n : forall fuel s F T a pa,
  owned s F root T -> Z.of_nat n <= Z.of_nat fuel ->
  a mod PGSIZE = 0 -> 0 <= a -> a + Z.of_nat (S n) * PGSIZE <= MAXVA ->
  0 <= pa -> pa + Z.of_nat (S n) * PGSIZE <= 2 ^ 56 -> 0 <= perm < 1024 ->
  (forall va, a <= va < a + Z.of_nat (S n) * PGSIZE -> has (leaf (kmem s) T va) PTE_V = false) ->
  wp (mappages_loop fuel root a (a + Z.of_nat n * PGSIZE) pa perm) s
    (mapped_to s F root T a (Z.of_nat (S n)) pa perm).
Proof.
  assert (HM : MAXVA = 2 ^ 38) by done.
  induction n as [|n IH]; intros fuel s F T a pa Hown Hfuel Ha Ha0 Ha1 Hpa Hpa1 Hperm Hfree;
    (eapply mappages_step; [done|unfold user_va, PGSIZE in *; lia|unfold PGSIZE in *; lia|done
      |apply Hfree; unfold PGSIZE; lia| |]).
  1, 3: intros s1 T1 Hown1 Hext; exists ∅, T1, 0; split; [done|]; split;
     [eapply remaps_ext; [by apply extends_remaps|]; intros va _; by rewrite map_range_0
     |right; split_and!; (done || lia)].
  - intros s1 F1 T1 Hown1 Hrm. destruct (Z.eqb_spec a (a + Z.of_nat 0 * PGSIZE)); [|lia].
    apply wp_ret. exists F1, T1, 1. split; [done|]. split; [|by left].
    eapply remaps_ext; [done|]. intros va Hva. cbn beta.
    change 1 with (0 + 1). rewrite <- map_range_S by done. by rewrite map_range_0.
  - intros s1 F1 T1 Hown1 Hrm.
    destruct (Z.eqb_spec a (a + Z.of_nat (S n) * PGSIZE)); [unfold PGSIZE in *; lia|].
    destruct fuel as [|fuel]; [lia|].
    rewrite (u64_small (a + PGSIZE)), (u64_small (pa + PGSIZE)) by (unfold PGSIZE in *; lia).
    replace (a + Z.of_nat (S n) * PGSIZE) with (a + PGSIZE + Z.of_nat n * PGSIZE) by lia.
    eapply wp_mono.
    { apply (IH fuel s1 F1 T1); try done; try (unfold PGSIZE in *; lia).
      - unfold PGSIZE in *. rewrite Z.add_mod, Ha by lia. done.
      - intros va Hva. rewrite (rm_leaf _ _ _ _ _ _ _ Hrm) by (unfold user_va, PGSIZE in *; lia).
        rewrite decide_False; [apply Hfree; unfold PGSIZE in *; lia|].
        rewrite same_page by done. unfold PGSIZE in *. lia. }
    cbn beta. intros r s2 (F2 & T2 & k & Hown2 & Hrm2 & Hr).
    exists F2, T2, (k + 1). split; [done|]. split.
    + eapply mapped_to_step; try done. destruct Hr as [[_ ->]|(_ & _ & ?)]; lia.
    + destruct Hr as [[-> ->]|(-> & -> & ?)]; [left; split; [done|lia]|right; split_and!; (done || lia)].
Qed.

(** [mappages] of the pages that hold [va .. va + size - 1]. *)
Lemma mappages_ok s F root T va size pa perm :
  let a := va / PGSIZE * PGSIZE in
  let n := (va + size - 1) / PGSIZE - va / PGSIZE + 1 in
  owned s F root T -> 0 <= va -> 0 < size -> va + size <= MAXVA ->
  0 <= pa -> pa + n * PGSIZE <= 2 ^ 56 -> 0 <= perm < 1024 ->
  (forall v, a <= v < a + n * PGSIZE -> has (leaf (kmem s) T v) PTE_V = false) ->
  wp (mappages root va size pa perm) s (mapped_to s F root T a n pa perm).
Proof.
  intros a n Hown Hva Hsz Hmax Hpa Hpa1 Hperm Hfree.
  assert (HM : MAXVA = 2 ^ 38) by done.
  destruct (Z_of_nat_complete (n - 1)) as [k Hk]; [subst n; page_lia|].
  assert (Hend : a + n * PGSIZE <= MAXVA) by (subst a n; rewrite HM in *; page_lia).
  assert (Ha : a mod PGSIZE = 0) by (by apply Z.mod_mul).
  assert (Ha0 : 0 <= a) by (subst a; page_lia).
  unfold mappages. rewrite !PGROUNDDOWN_spec, (u64_small (va + size - 1)) by lia.
  replace (va - va mod PGSIZE) with a by (subst a; page_lia).
  replace (va + size - 1 - (va + size - 1) mod PGSIZE) with (a + Z.of_nat k * PGSIZE)
    by (rewrite <- Hk; subst a n; page_lia).
  clearbody a n. assert (n = Z.of_nat (S k)) as -> by lia.
  apply mappages_loop_ok; try done.
  rewrite u64_small by (unfold PGSIZE in *; lia).
  replace (a + Z.of_nat k * PGSIZE - a) with (Z.of_nat k * PGSIZE) by lia.
  rewrite Z.div_mul by done. lia.
Qed.

(** [mappages] of a single page. *)
Definition set_leaf (L : Z -> Z) (a v va : Z) : Z :=
  if decide (a / PGSIZE = va / PGSIZE) then v else L va.

Lemma mappages_page s F root T a pa perm :
  owned s F root T -> a mod PGSIZE = 0 -> 0 <= a -> a + PGSIZE <= MAXVA ->
  0 <= pa -> pa + PGSIZE <= 2 ^ 56 -> 0 <= perm < 1024 ->
  has (leaf (kmem s) T a) PTE_V = false ->
  wp (mappages root a PGSIZE pa perm) s (fun r s' =>
    exists F' T', owned s' F' root T' /\
      ((r = 0 /\ remaps s F T s' F' T' (set_leaf (leaf (kmem s) T) a (mkpte pa perm))) \/
       (r = -1 /\ F' = ∅ /\ remaps s F T s' F' T' (leaf (kmem s) T)))).
Proof.
  intros Hown Ha Ha0 Hmax Hpa Hpa1 Hperm Hfree.
  assert (E : (a + PGSIZE - 1) / PGSIZE - a / PGSIZE + 1 = 1) by page_lia.
  assert (Ea : a / PGSIZE * PGSIZE = a) by page_lia.
  eapply wp_mono.
  { apply (mappages_ok s F root T); try done; rewrite E; [lia|]. rewrite Ea. intros v Hv.
    rewrite (leaf_page _ _ v a); [done|]. symmetry. apply same_page; [done|]. lia. }
  cbn beta. rewrite E, Ea. intros r s' (F' & T' & k & Hown' & Hrm & Hr).
  exists F', T'. split; [done|].
  destruct Hr as [[-> ->]|(-> & -> & Hk)]; [left|right].
  - split; [done|]. eapply remaps_ext; [done|]. intros va _. unfold set_leaf.
    change 1 with (0 + 1). rewrite <- map_range_S by done. by rewrite map_range_0.
  - assert (k = 0) as -> by lia. split_and!; try done. eapply remaps_ext; [done|].
    intros va _. apply map_range_0.
Qed.

(** ** Unmapping *)

(** The physical pages behind [n] pages from [a]. *)
Fixpoint frames (L : Z -> Z) (n : nat) (a : Z) : list Z :=
  match n with
  | O => []
  | S n' => PTE2PA (L a) :: frames L n' (a + PGSIZE)
  end.

Lemma frames_ext L L' n a :
  (forall va, a <= va < a + Z.of_nat n * PGSIZE -> L va = L' va) -> frames L n a = frames L' n a.
Proof.
  revert a. induction n as [|n IH]; intros a HL; [done|]. cbn [frames].
  rewrite (HL a) by (unfold PGSIZE; lia). f_equal. apply IH. intros va Hva. apply HL.
  unfold PGSIZE in *. lia.
Qed.

(** Every page of the range is a mapped leaf. *)
Definition all_leaves (L : Z -> Z) (n : nat) (a : Z) : Prop :=
  forall va, a <= va < a + Z.of_nat n * PGSIZE ->
    has (L va) PTE_V = true /\ PTE_FLAGS (L va) <> PTE_V.

(** The frames of the range can be given back to the allocator. *)
Definition freeable (F : gset Z) (T : tree) (l : list Z) : Prop :=
  NoDup l /\ forall p, p ∈ l -> valid_page p /\ p ∉ F /\ ~ tpage T p.

Definition freed (do_free : bool) (l : list Z) : gset Z :=
  if do_free then list_to_set l else ∅.

(** What unmapping does: same tree, leaves zero in the range, memory unchanged
    outside the table pages and the freed pages. *)
Record unmaps (s : kstate A) (F : gset Z) (T : tree) (s' : kstate A)
              (root a : Z) (n : nat) (D : gset Z) : Prop := Unmaps {
  um_owned : owned s' (D ∪ F) root T;
  um_leaf va : user_va va ->
    leaf (kmem s') T va = unmap_range (leaf (kmem s) T) a (Z.of_nat n) va;
  um_frame x : (forall p, p ∈ D \/ tpage T p -> ~ in_page p x) ->
    ld8 (kmem s') x = ld8 (kmem s) x;
}.

Lemma owned_kfree s F root T p :
  owned s F root T -> valid_page p -> p ∉ F -> ~ tpage T p ->
  wp (kfree p) s (fun _ s' => owned s' ({[p]} ∪ F) root T /\
    same_outside p (kmem s) (kmem s') /\
    forall va, leaf (kmem s') T va = leaf (kmem s) T va).
Proof.
  intros [Hal Hpt Hsep] Hp HF HT. eapply wp_mono; [by apply kfree_ok|]. cbn beta.
  intros _ s' [Hal' Hso].
  assert (Hsame : forall q a, tpage T q -> in_page q a -> ld8 (kmem s') a = ld8 (kmem s) a).
  { intros q a Hq Ha. apply Hso. apply (pages_disjoint q p); try done.
    - by eapply valid_page_aligned, pt_ok_tpage.
    - by apply valid_page_aligned.
    - by intros ->. }
  split; [split|split].
  - done.
  - by eapply pt_ok_frame.
  - intros q Hq. assert (q <> p) by (by intros ->). apply Hsep in Hq. set_solver.
  - done.
  - intros va. by apply leaf_frame.
Qed.

Lemma unmap_range_S L a n va :
  a mod PGSIZE = 0 -> 0 <= n ->
  unmap_range (set_leaf L a 0) (a + PGSIZE) n va = unmap_range L a (n + 1) va.
Proof.
  intros Ha Hn. unfold unmap_range, set_leaf.
  replace (a + PGSIZE + n * PGSIZE) with (a + (n + 1) * PGSIZE) by lia.
  case_decide as E; [apply same_page in E; [|done]|assert (~ a <= va < a + PGSIZE) by (by rewrite <- same_page)];
  destruct (Z.leb_spec (a + PGSIZE) va), (Z.leb_spec a va),
    (Z.ltb_spec va (a + (n + 1) * PGSIZE)); cbn; try done; unfold PGSIZE in *; lia.
Qed.

(** The body of the loop: free the page behind [a] if asked to, clear the entry. *)
Lemma unmap_page s F root T a v (do_free : bool) :
  owned s F root T -> user_va a -> leaf_addr T a <> 0 -> v = leaf (kmem s) T a ->
  (do_free = true -> freeable F T [PTE2PA v]) ->
  wp (when do_free (kfree (PTE2PA v));; store64 (leaf_addr T a) 0) s (fun _ s' =>
    let D := freed do_free [PTE2PA v] in
    owned s' (D ∪ F) root T /\
    (forall va, user_va va -> leaf (kmem s') T va = set_leaf (leaf (kmem s) T) a 0 va) /\
    (forall x, (forall p, p ∈ D \/ tpage T p -> ~ in_page p x) ->
       ld8 (kmem s') x = ld8 (kmem s) x)).
Proof.
  intros Hown Hva Hne Ev Hfr. apply wp_bind.
  eapply (wp_mono _ _ (fun _ s1 => owned s1 (freed do_free [PTE2PA v] ∪ F) root T /\
    (do_free = true -> same_outside (PTE2PA v) (kmem s) (kmem s1)) /\
    (do_free = false -> s1 = s) /\
    (forall va, leaf (kmem s1) T va = leaf (kmem s) T va))).
  { destruct do_free; cbn [when freed].
    - destruct (Hfr eq_refl) as [_ Hp]. destruct (Hp (PTE2PA v)) as (Hvp & HF & HT); [set_solver|].
      eapply wp_mono; [by apply owned_kfree|]. cbn beta. intros _ s1 (Ho & Hso & Hl).
      replace (list_to_set [PTE2PA v] ∪ F : gset Z) with ({[PTE2PA v]} ∪ F : gset Z) by set_solver.
      done.
    - apply wp_ret. rewrite (left_id_L ∅ (∪)). done. }
  cbn beta. intros _ s1 (Ho & Hso & Heq & Hl). unfold store64. apply wp_modify.
  split; [by apply owned_store|]. split.
  - intros va Hv. unfold set_leaf. cbn [kmem ksetmem].
    rewrite (leaf_store _ root) by (done || apply (own_pt _ _ _ _ Ho)). by rewrite Hl.
  - intros x Hx. cbn [kmem ksetmem].
    transitivity (ld8 (kmem s1) x).
    + apply ld8_st_le_out. intros Hin.
      destruct (leaf_addr_in _ _ _ _ _ (own_pt _ _ _ _ Ho) Hne Hin) as (q & Hq & Hqa).
      apply (Hx q); [by right|done].
    + destruct do_free; [|by rewrite Heq]. apply Hso; [done|]. apply Hx. left. set_solver.
Qed.

Lemma has_leaf_addr m T va : has (leaf m T va) PTE_V = true -> T !! [PX 2 va; PX 1 va] <> None.
Proof. unfold leaf. by destruct (T !! _). Qed.

Lemma leaf_addr_of_valid m root T va :
  pt_ok m root T -> has (leaf m T va) PTE_V = true -> leaf_addr T va <> 0.
Proof.
  intros Hpt Hv%has_leaf_addr. destruct (T !! [PX 2 va; PX 1 va]) as [p|] eqn:E; [|done].
  by eapply leaf_addr_nonzero.
Qed.

Lemma freed_cons do_free p l : freed do_free (p :: l) = freed do_free l ∪ freed do_free [p].
Proof. destruct do_free; cbn; set_solver. Qed.

Lemma uvmunmap_loop_ok root T do_free n : forall fuel s F a,
  owned s F root T -> (n <= fuel)%nat ->
  a mod PGSIZE = 0 -> 0 <= a -> a + Z.of_nat n * PGSIZE <= MAXVA ->
  all_leaves (leaf (kmem s) T) n a ->
  (do_free = true -> freeable F T (frames (leaf (kmem s) T) n a)) ->
  wp (uvmunmap_loop fuel root a (a + Z.of_nat n * PGSIZE) do_free) s (fun _ s' =>
    unmaps s F T s' root a n (freed do_free (frames (leaf (kmem s) T) n a))).
Proof.
  assert (HM : MAXVA = 2 ^ 38) by done.
  induction n as [|n IH]; intros fuel s F a Hown Hfuel Ha Ha0 Hmax Hall Hfr.
  { assert (E : uvmunmap_loop fuel root a (a + Z.of_nat 0 * PGSIZE) do_free = mret tt).
    { destruct fuel; cbn [uvmunmap_loop]; destruct (Z.ltb_spec a (a + Z.of_nat 0 * PGSIZE)); (done || lia). }
    rewrite E. apply wp_ret.
    replace (freed do_free _) with (∅ : gset Z) by (by destruct do_free).
    split; [by rewrite (left_id_L ∅ (∪))| |done].
    intros va Hva. unfold unmap_range.
    destruct (Z.leb_spec a va), (Z.ltb_spec va (a + Z.of_nat 0 * PGSIZE)); cbn; (done || lia). }
  destruct fuel as [|fuel]; [lia|]. cbn [uvmunmap_loop].
  assert (Hva : user_va a) by (unfold user_va, PGSIZE in *; lia).
  destruct (Z.ltb_spec a (a + Z.of_nat (S n) * PGSIZE)); [|unfold PGSIZE in *; lia].
  destruct (Hall a) as [Hv Hf]; [unfold PGSIZE in *; lia|].
  pose proof (own_pt _ _ _ _ Hown) as Hpt.
  assert (Hne : leaf_addr T a <> 0) by (by eapply leaf_addr_of_valid).
  apply wp_bind. eapply wp_Ok; [by apply walk_find|].
  destruct (Z.eqb_spec (leaf_addr T a) 0) as [|_]; [done|].
  unfold load64. apply wp_bind, wp_gets. rewrite (leaf_load _ _ _ _ _ Hown Hne), Hv. cbn [negb].
  destruct (Z.eqb_spec (PTE_FLAGS (leaf (kmem s) T a)) PTE_V) as [|_]; [done|].
  cbn [frames] in Hfr. set (p := PTE2PA (leaf (kmem s) T a)) in *.
  set (l := frames (leaf (kmem s) T) n (a + PGSIZE)) in *.
  apply wp_bind_assoc. apply wp_bind. eapply wp_mono.
  { apply (unmap_page s F root T a); try done. intros E. destruct (Hfr E) as [Hnd Hp].
    split; [apply NoDup_singleton|]. intros q ->%list_elem_of_singleton. apply Hp. by left. }
  cbn beta zeta. intros _ s1 (Hown1 & Hl1 & Hm1).
  rewrite u64_small by (unfold PGSIZE in *; lia).
  replace (a + Z.of_nat (S n) * PGSIZE) with (a + PGSIZE + Z.of_nat n * PGSIZE) by lia.
  assert (Hrest : forall va, a + PGSIZE <= va < a + PGSIZE + Z.of_nat n * PGSIZE ->
    leaf (kmem s1) T va = leaf (kmem s) T va).
  { intros va Hr. rewrite Hl1 by (unfold user_va, PGSIZE in *; lia). unfold set_leaf.
    rewrite decide_False; [done|]. rewrite same_page by done. unfold PGSIZE in *. lia. }
  assert (El : frames (leaf (kmem s1) T) n (a + PGSIZE) = l) by (by apply frames_ext).
  eapply wp_mono.
  { apply (IH fuel s1 _ (a + PGSIZE) Hown1); try (unfold PGSIZE in *; lia).
    - unfold PGSIZE in *. rewrite Z.add_mod, Ha by lia. done.
    - intros va Hr. rewrite Hrest by done. apply Hall. unfold PGSIZE in *. lia.
    - rewrite El. intros E. destruct (Hfr E) as [Hnd Hp]. apply NoDup_cons in Hnd as [Hn Hnd].
      split; [done|]. intros q Hq. destruct (Hp q) as (? & ? & ?); [by right|].
      split_and!; try done. rewrite E. cbn [freed]. set_solver. }
  cbn beta. rewrite El. intros _ s2 [Ho Hl Hm]. cbn [frames]. fold l p. rewrite freed_cons. split.
  - by rewrite <- (assoc_L (∪)).
  - intros va Hv'. rewrite Hl by done. rewrite Nat2Z.inj_succ, <- Z.add_1_r, <- unmap_range_S by (done || lia).
    unfold unmap_range. by rewrite Hl1.
  - intros x Hx. rewrite Hm, Hm1; [done| |]; intros q Hq; apply Hx; set_solver.
Qed.

Lemma uvmunmap_ok s F root T a n do_free :
  owned s F root T -> a mod PGSIZE = 0 -> 0 <= a -> a + Z.of_nat n * PGSIZE <= MAXVA ->
  all_leaves (leaf (kmem s) T) n a ->
  (do_free = true -> freeable F T (frames (leaf (kmem s) T) n a)) ->
  wp (uvmunmap root a (Z.of_nat n) do_free) s (fun _ s' =>
    unmaps s F T s' root a n (freed do_free (frames (leaf (kmem s) T) n a))).
Proof.
  intros Hown Ha Ha0 Hmax Hall Hfr. assert (HM : MAXVA = 2 ^ 38) by done.
  unfold uvmunmap. destruct (Z.eqb_spec (a mod PGSIZE) 0); [|done]. cbn [negb].
  rewrite (u64_small (Z.of_nat n * PGSIZE)), (u64_small (a + _)) by (unfold PGSIZE in *; lia).
  apply uvmunmap_loop_ok; try done.
  replace (a + Z.of_nat n * PGSIZE - a + PGSIZE - 1) with (PGSIZE - 1 + Z.of_nat n * PGSIZE) by lia.
  rewrite Z.div_add by done. unfold PGSIZE. change ((4096 - 1) / 4096) with 0. lia.
Qed.

(** ** Looking up user addresses *)

(** The physical page behind a user virtual address: what [walkaddr] returns. *)
Definition uaddr (L : Z -> Z) (va : Z) : Z :=
  if has (L va) PTE_V && has (L va) PTE_U then PTE2PA (L va) else 0.

Lemma walkaddr_ok (s : kstate A) root T va :
  pt_ok (kmem s) root T -> 0 <= va ->
  walkaddr root va s = Ok (if va <? MAXVA then uaddr (leaf (kmem s) T) va else 0, s).
Proof.
  intros Hpt Hva. unfold walkaddr. destruct (Z.leb_spec MAXVA va), (Z.ltb_spec va MAXVA); try lia; [done|].
  rewrite (bind_step _ _ _ _ _ (walk_find s root T va Hpt (conj Hva ltac:(done)))).
  unfold uaddr. destruct (Z.eqb_spec (leaf_addr T va) 0) as [E|E].
  - destruct (has (leaf (kmem s) T va) PTE_V) eqn:Ev; [|done].
    by apply (leaf_addr_of_valid _ root) in Ev.
  - unfold load64. rewrite bind_gets.
    assert (Eq : ld64 (kmem s) (leaf_addr T va) = leaf (kmem s) T va).
    { unfold leaf, leaf_addr in *. by destruct (T !! _). }
    rewrite Eq. destruct (has _ PTE_V); [|done]. cbn. by destruct (has _ PTE_U).
Qed.
End ops.
End VmMap.
