(* ===== verification/VmUser.v ===== *)
(** * User address spaces

    A user address space of [n] pages: the first [n] virtual pages are mapped to
    distinct physical pages of their own, nothing else below the trapframe is
    mapped. [uvmalloc] grows it by zeroed pages, or leaves it as it was when
    memory runs out; [uvmdealloc] shrinks it; no page is lost or owned twice. *)

From S2P Require Import Prelude.
From S2P Require Import Memory.
From S2P Require Import Riscv.
From S2P Require Import PageAlloc.
From S2P Require Import Vm.
From S2P Require Import VmTree.
From S2P Require Import VmWalk.
From S2P Require Import VmMap.

Module VmUser.
Import VmTree VmWalk VmMap.

(** The number of pages of a process of [sz] bytes. *)
Definition npages (sz : Z) : nat := Z.to_nat (PGROUNDUP sz / PGSIZE).

Lemma frames_app L n k a :
  frames L (n + k) a = frames L n a ++ frames L k (a + Z.of_nat n * PGSIZE).
Proof.
  revert a. induction n as [|n IH]; intros a; cbn [frames Nat.add app].
  - f_equal. lia.
  - rewrite IH. do 3 f_equal. lia.
Qed.

Lemma frames_elem L n a p :
  p ∈ frames L n a <-> exists i, (i < n)%nat /\ p = PTE2PA (L (a + Z.of_nat i * PGSIZE)).
Proof.
  revert a. induction n as [|n IH]; intros a; cbn [frames].
  - split; [by intros ?%elem_of_nil|intros (i & ? & _); lia].
  - rewrite elem_of_cons, IH. split.
    + intros [->|(i & Hi & ->)].
      * exists 0%nat. split; [lia|]. do 2 f_equal. lia.
      * exists (S i). split; [lia|]. do 2 f_equal. lia.
    + intros ([|i] & Hi & ->).
      * left. do 2 f_equal. lia.
      * right. exists i. split; [lia|]. do 2 f_equal. lia.
Qed.

Section user.
Context `{MemLayout} `{!MemLayoutOk} {A : Type} `{!PageAllocator A} `{!PageAllocatorSpec A}.

Record space (s : kstate A) (F : gset Z) (root : Z) (T : tree) (n : nat) : Prop := Space {
  sp_own : owned s F root T;
  sp_max : Z.of_nat n * PGSIZE <= TRAPFRAME;
  sp_all : all_leaves (leaf (kmem s) T) n 0;
  sp_free : freeable F T (frames (leaf (kmem s) T) n 0);
  sp_above va : Z.of_nat n * PGSIZE <= va < TRAPFRAME -> leaf (kmem s) T va = 0;
}.

(** From a space of [n] pages to one of [n'], all taken from the free pages. Every
    new page satisfies [P], a property of its virtual address, its entry and the
    contents of memory; everything else is unchanged. *)
Record grown (P : Z -> Z -> mem -> Prop)
             (s : kstate A) (F : gset Z) (T : tree) (n : nat)
             (s' : kstate A) (F' : gset Z) (T' : tree) (n' : nat) : Prop := Grown {
  gr_le : (n <= n')%nat;
  gr_tree : T ⊆ T';
  gr_free : F = F' ∪ (pages T' ∖ pages T) ∪
    list_to_set (frames (leaf (kmem s') T') (n' - n) (Z.of_nat n * PGSIZE));
  gr_leaf va : user_va va -> ~ Z.of_nat n * PGSIZE <= va < Z.of_nat n' * PGSIZE ->
    leaf (kmem s') T' va = leaf (kmem s) T va;
  gr_new i : (n <= i < n')%nat ->
    P (Z.of_nat i * PGSIZE) (leaf (kmem s') T' (Z.of_nat i * PGSIZE)) (kmem s');
  gr_frame x : apart F T x -> ld8 (kmem s') x = ld8 (kmem s) x;
}.

(** [P] only looks at the page the entry points to. *)
Definition local (P : Z -> Z -> mem -> Prop) : Prop :=
  forall va pte m m', (forall x, in_page (PTE2PA pte) x -> ld8 m' x = ld8 m x) ->
    P va pte m -> P va pte m'.

(** Page [p] was taken from the free pages and mapped at virtual page [n]. *)
Record added (s : kstate A) (F : gset Z) (root : Z) (T : tree) (n : nat) (p perm : Z)
             (s' : kstate A) (F' : gset Z) (T' : tree) : Prop := Added {
  ad_in : p ∈ F;
  ad_own : owned s' F' root T';
  ad_tree : T ⊆ T';
  ad_free : F ∖ {[p]} = F' ∪ (pages T' ∖ pages T);
  ad_leaf va : user_va va ->
    leaf (kmem s') T' va = set_leaf (leaf (kmem s) T) (Z.of_nat n * PGSIZE) (mkpte p perm) va;
  ad_frame x : apart F T x -> ld8 (kmem s') x = ld8 (kmem s) x;
}.

Lemma TRAPFRAME_user : TRAPFRAME + PGSIZE + PGSIZE = MAXVA.
Proof. reflexivity. Qed.

(** Writing into a page that is neither free nor a table page. *)
Lemma owned_write s F root T m' :
  owned s F root T ->
  (forall p a, p ∈ F \/ tpage T p -> in_page p a -> ld8 m' a = ld8 (kmem s) a) ->
  owned (ksetmem m' s) F root T /\
  (forall va, leaf m' T va = leaf (kmem s) T va).
Proof.
  intros [Hal Hpt Hsep] Hm. split.
  - split; [|by eapply pt_ok_frame; eauto|done]. apply al_ok_frame; eauto.
  - intros va. apply leaf_frame. eauto.
Qed.

(** Taking a page off the allocator leaves page table and leaves alone. *)
Lemma owned_kalloc s F root T :
  owned s F root T ->
  wp kalloc s (fun p s' =>
    (p = 0 /\ F = ∅ /\ s' = s) \/
    (p <> 0 /\ valid_page p /\ p ∈ F /\ ~ tpage T p /\ owned s' (F ∖ {[p]}) root T /\
     same_outside p (kmem s) (kmem s') /\
     forall va, leaf (kmem s') T va = leaf (kmem s) T va)).
Proof.
  intros [Hal Hpt Hsep]. eapply wp_mono; [by apply kalloc_ok|]. cbn beta.
  intros p s' [?|(Hp & Hal' & Hso)]; [by left|right].
  assert (Hvp : valid_page p) by exact (al_ok_valid _ _ _ Hal Hp).
  assert (HT : ~ tpage T p) by (intros ?; by apply (Hsep p)).
  assert (Hsame : forall q a, tpage T q -> in_page q a -> ld8 (kmem s') a = ld8 (kmem s) a).
  { intros q a Hq Ha. apply Hso. apply (pages_disjoint q p); try done.
    - by eapply valid_page_aligned, pt_ok_tpage.
    - by apply valid_page_aligned.
    - by intros ->. }
  split_and!; try done.
  - apply valid_page_range in Hvp. lia.
  - split; [done|by eapply pt_ok_frame|]. intros q Hq%Hsep. set_solver.
  - intros va. by apply leaf_frame.
Qed.

(** Filling a page that is not free. *)
Lemma owned_memset s F root T p c :
  owned s F root T -> valid_page p -> p ∉ F -> ~ tpage T p ->
  owned (ksetmem (memset (kmem s) p c PGSIZE) s) F root T /\
  (forall va, leaf (memset (kmem s) p c PGSIZE) T va = leaf (kmem s) T va).
Proof.
  intros Hown Hp HF HT. apply owned_write; [done|]. intros q a Hq Ha.
  apply ld8_memset_out. change (~ in_page p a). apply (pages_disjoint q p); try done.
  - destruct Hown as [Hal Hpt _]. destruct Hq.
    + by eapply valid_page_aligned, al_ok_valid.
    + by eapply valid_page_aligned, pt_ok_tpage.
  - by apply valid_page_aligned.
  - intros ->. by destruct Hq.
Qed.

Lemma RWXU_flags : 0 <= RWXU < 1024.
Proof. by vm_compute. Qed.

Lemma apart_in_page F T p x :
  (forall q, q ∈ F \/ tpage T q -> valid_page q) -> valid_page p ->
  p ∉ F -> ~ tpage T p -> in_page p x -> apart F T x.
Proof.
  intros Hv Hp HF HT Hx q Hq. apply (pages_disjoint p q); try done.
  - by apply valid_page_aligned.
  - by apply valid_page_aligned, Hv.
  - intros ->. by destruct Hq.
Qed.

Lemma owned_valid s F root T q : owned s F root T -> q ∈ F \/ tpage T q -> valid_page q.
Proof.
  intros [Hal Hpt _] [Hq|Hq]; [by eapply al_ok_valid|by eapply pt_ok_tpage].
Qed.

Lemma apart_subset F F' T x : F' ⊆ F -> apart F T x -> apart F' T x.
Proof. intros Hs Ha q [Hq|Hq]; apply Ha; [left; set_solver|by right]. Qed.

(** [mappages] of a page that was just allocated and filled. *)
Lemma map_fresh s F root T n p perm s2 :
  owned s F root T -> p ∈ F -> Z.of_nat n * PGSIZE < TRAPFRAME -> 0 <= perm < 1024 ->
  has (leaf (kmem s) T (Z.of_nat n * PGSIZE)) PTE_V = false ->
  owned s2 (F ∖ {[p]}) root T -> same_outside p (kmem s) (kmem s2) ->
  wp (mappages root (Z.of_nat n * PGSIZE) PGSIZE p perm) s2 (fun r s3 =>
    (forall x, in_page p x -> ld8 (kmem s3) x = ld8 (kmem s2) x) /\
    ((r = 0 /\ exists F' T', added s F root T n p perm s3 F' T') \/
     (r = -1 /\ exists T', owned s3 ∅ root T' /\ T ⊆ T' /\ F ∖ {[p]} = pages T' ∖ pages T /\
        (forall va, user_va va -> leaf (kmem s3) T' va = leaf (kmem s) T va) /\
        (forall x, apart F T x -> ld8 (kmem s3) x = ld8 (kmem s) x)))).
Proof.
  intros Hown Hp Hn Hperm Hfree Hown2 Hso.
  assert (Hvp : valid_page p) by exact (owned_valid s F root T p Hown (or_introl Hp)).
  assert (HT : ~ tpage T p) by (intros Ht; by apply (own_sep _ _ _ _ Hown p)).
  pose proof (valid_page_range p Hvp).
  assert (Hpe : p + PGSIZE <= 2 ^ 56) by (apply valid_page_aligned in Hvp; page_lia).
  assert (Hl2 : forall va, leaf (kmem s2) T va = leaf (kmem s) T va).
  { intros va. apply leaf_frame. intros q a Hq Ha. apply Hso.
    apply (pages_disjoint q p); try done; try by apply valid_page_aligned.
    - apply valid_page_aligned, (owned_valid s F root T q Hown). by right.
    - by intros ->. }
  assert (Hfr2 : forall x, apart F T x -> ld8 (kmem s2) x = ld8 (kmem s) x).
  { intros x Hx. apply Hso. apply Hx. by left. }
  eapply wp_mono.
  { apply (mappages_page s2 (F ∖ {[p]}) root T (Z.of_nat n * PGSIZE) p perm); try done; try lia.
    - by apply Z.mod_mul.
    - unfold PGSIZE. lia.
    - pose proof TRAPFRAME_user. assert (TRAPFRAME mod PGSIZE = 0) by done. page_lia.
    - by rewrite Hl2. }
  cbn beta. intros r s3 (F' & T' & Hown3 & Hr).
  assert (Hin : forall x, in_page p x -> apart (F ∖ {[p]}) T x).
  { intros x Hx. eapply apart_in_page; [|exact Hvp|set_solver|done|done].
    intros q Hq. by apply (owned_valid s2 _ root T q Hown2). }
  destruct Hr as [(-> & [Ht Hf Hl Hfr])|(-> & -> & [Ht Hf Hl Hfr])]; split; auto; [left|right].
  - split; [done|]. exists F', T'. split; try done.
    + intros va Hva. rewrite Hl by done. unfold set_leaf. by rewrite Hl2.
    + intros x Hx. rewrite Hfr, Hfr2; [done|done|]. eapply apart_subset; [|done]. set_solver.
  - split; [done|]. exists T'. split_and!; try done.
    + rewrite Hf. set_solver.
    + intros va Hva. by rewrite Hl.
    + intros x Hx. rewrite Hfr, Hfr2; [done|done|]. eapply apart_subset; [|done]. set_solver.
Qed.

Lemma added_frames s F root T n p perm s' F' T' k j :
  added s F root T n p perm s' F' T' -> (j + k <= n)%nat -> Z.of_nat n * PGSIZE < TRAPFRAME ->
  frames (leaf (kmem s') T') k (Z.of_nat j * PGSIZE) =
  frames (leaf (kmem s) T) k (Z.of_nat j * PGSIZE).
Proof.
  intros Had Hk Hn. pose proof TRAPFRAME_user. apply frames_ext. intros va Hva.
  rewrite (ad_leaf _ _ _ _ _ _ _ _ _ _ Had) by (unfold user_va, PGSIZE in *; lia).
  unfold set_leaf. rewrite decide_False; [done|].
  rewrite same_page by (by apply Z.mod_mul). unfold PGSIZE in *. lia.
Qed.

Lemma added_at s F root T n p perm s' F' T' :
  added s F root T n p perm s' F' T' -> Z.of_nat n * PGSIZE < TRAPFRAME ->
  leaf (kmem s') T' (Z.of_nat n * PGSIZE) = mkpte p perm.
Proof.
  intros Had Hn. pose proof TRAPFRAME_user.
  rewrite (ad_leaf _ _ _ _ _ _ _ _ _ _ Had) by (unfold user_va, PGSIZE in *; lia).
  unfold set_leaf. by rewrite decide_True.
Qed.

Lemma added_valid s F root T n p perm s' F' T' :
  owned s F root T -> added s F root T n p perm s' F' T' ->
  valid_page p /\ 0 <= p < 2 ^ 56 /\ p mod PGSIZE = 0.
Proof.
  intros Hown Had.
  assert (Hv : valid_page p) by exact (owned_valid _ _ _ _ _ Hown (or_introl (ad_in _ _ _ _ _ _ _ _ _ _ Had))).
  pose proof (valid_page_range _ Hv). split_and!; try lia; [done|by apply valid_page_aligned].
Qed.

(** The space with the page added. *)
Lemma space_added s F root T n p perm s' F' T' :
  space s F root T n -> Z.of_nat n * PGSIZE < TRAPFRAME -> 0 <= perm < 1024 ->
  Z.lor perm PTE_V <> PTE_V -> added s F root T n p perm s' F' T' ->
  space s' F' root T' (S n).
Proof.
  intros [Hown Hmax Hall Hfr Hab] Hn Hperm Hleaf Had. pose proof TRAPFRAME_user as HTF.
  destruct (added_valid _ _ _ _ _ _ _ _ _ _ Hown Had) as (Hvp & Hpr & Hpa).
  pose proof (added_at _ _ _ _ _ _ _ _ _ _ Had Hn) as Hat.
  pose proof Had as [Hp Hown' Ht Hf Hl _]. assert (Hmod : TRAPFRAME mod PGSIZE = 0) by done.
  assert (Hal : Z.of_nat n * PGSIZE mod PGSIZE = 0) by (by apply Z.mod_mul).
  split; [done|page_lia| | |].
  - intros va Hva. rewrite Hl by (unfold user_va, PGSIZE in *; lia). unfold set_leaf.
    case_decide as E.
    + rewrite mkpte_valid, mkpte_flags by done. done.
    + apply Hall. rewrite same_page in E by done. unfold PGSIZE in *. lia.
  - assert (Ef : frames (leaf (kmem s') T') (S n) 0 = frames (leaf (kmem s) T) n 0 ++ [p]).
    { replace (S n) with (n + 1)%nat by lia. rewrite frames_app. cbn [frames].
      rewrite Z.add_0_l, Hat, mkpte_pa by done. f_equal.
      apply (added_frames _ _ _ _ _ _ _ _ _ _ n 0 Had); [lia|done]. }
    destruct Hfr as [Hnd Hfr]. rewrite Ef. split.
    + apply NoDup_app. split; [done|]. split; [|apply NoDup_singleton].
      intros q Hq ->%list_elem_of_singleton. by apply Hfr in Hq as (_ & ? & _).
    + assert (HF' : F' ⊆ F ∖ {[p]}) by set_solver.
      assert (HT' : forall q, tpage T' q -> tpage T q \/ q ∈ F ∖ {[p]}).
      { intros q Hq%elem_of_pages. destruct (decide (tpage T q)) as [|Hn']; [by left|].
        right. rewrite Hf. apply elem_of_union_r, elem_of_difference. split; [done|].
        rewrite elem_of_pages. done. }
      intros q Hq. apply elem_of_app in Hq as [Hq|Hq]; [|apply list_elem_of_singleton in Hq as ->].
      * destruct (Hfr q Hq) as (? & ? & ?). split_and!; [done|set_solver|].
        intros [|]%HT'; [done|set_solver].
      * split_and!; [done|set_solver|]. intros [Hq|]%HT'; [|set_solver].
        by apply (own_sep _ _ _ _ Hown p).
  - intros va Hva. rewrite Hl by (unfold user_va, PGSIZE in *; lia). unfold set_leaf.
    rewrite decide_False by (rewrite same_page by done; unfold PGSIZE in *; lia).
    apply Hab. unfold PGSIZE in *. lia.
Qed.

Lemma grown_refl P s F T n : grown P s F T n s F T n.
Proof.
  split; try done; [|intros; lia]. rewrite Nat.sub_diag. cbn. set_solver.
Qed.

Lemma grown_apart P s F T n s' F' T' n' x :
  grown P s F T n s' F' T' n' -> apart F T x -> apart F' T' x.
Proof.
  intros Hg Ha q Hq. apply Ha. rewrite (gr_free _ _ _ _ _ _ _ _ _ Hg).
  rewrite <- !elem_of_pages in *. destruct (decide (q ∈ pages T)); set_solver.
Qed.

Lemma space_frame_apart s F root T n i x :
  space s F root T n -> (i < n)%nat ->
  in_page (PTE2PA (leaf (kmem s) T (Z.of_nat i * PGSIZE))) x -> apart F T x.
Proof.
  intros Hsp Hi Hx. destruct (sp_free _ _ _ _ _ Hsp) as [_ Hfr].
  destruct (Hfr (PTE2PA (leaf (kmem s) T (Z.of_nat i * PGSIZE)))) as (Hv & HF & HT).
  { apply frames_elem. exists i. split; [done|]. by rewrite Z.add_0_l. }
  eapply apart_in_page; [|exact Hv|done|done|done].
  intros q Hq. by eapply owned_valid; [apply (sp_own _ _ _ _ _ Hsp)|].
Qed.

Lemma grown_added P s0 F0 T0 n0 s F root T n p perm s' F' T' :
  local P -> space s F root T n -> Z.of_nat n * PGSIZE < TRAPFRAME -> 0 <= perm < 1024 ->
  grown P s0 F0 T0 n0 s F T n -> added s F root T n p perm s' F' T' ->
  P (Z.of_nat n * PGSIZE) (mkpte p perm) (kmem s') ->
  grown P s0 F0 T0 n0 s' F' T' (S n).
Proof.
  intros Hloc Hsp Hn Hperm Hg Had HP. pose proof (sp_own _ _ _ _ _ Hsp) as Hown.
  pose proof TRAPFRAME_user as HTF.
  destruct (added_valid _ _ _ _ _ _ _ _ _ _ Hown Had) as (Hvp & Hpr & Hpa).
  pose proof (added_at _ _ _ _ _ _ _ _ _ _ Had Hn) as Hat.
  pose proof Had as [Hp Hown' Ht Hf Hl Hfr]. pose proof Hg as [Hle Ht0 HF0 Hl0 Hnew Hfr0].
  assert (Hal : Z.of_nat n * PGSIZE mod PGSIZE = 0) by (by apply Z.mod_mul). split.
  - lia.
  - by transitivity T.
  - assert (Ef : frames (leaf (kmem s') T') (S n - n0) (Z.of_nat n0 * PGSIZE) =
                 frames (leaf (kmem s) T) (n - n0) (Z.of_nat n0 * PGSIZE) ++ [p]).
    { replace (S n - n0)%nat with (n - n0 + 1)%nat by lia. rewrite frames_app. cbn [frames].
      replace (Z.of_nat n0 * PGSIZE + Z.of_nat (n - n0) * PGSIZE) with (Z.of_nat n * PGSIZE)
        by (unfold PGSIZE; lia).
      rewrite Hat, mkpte_pa by done. f_equal.
      apply (added_frames _ _ _ _ _ _ _ _ _ _ (n - n0) n0 Had); [lia|done]. }
    rewrite Ef, list_to_set_app_L, HF0. cbn [list_to_set].
    pose proof (pages_mono _ _ Ht). pose proof (pages_mono _ _ Ht0).
    assert (EF : F = {[p]} ∪ F' ∪ (pages T' ∖ pages T)).
    { apply set_eq. intros q. destruct (decide (q = p)); set_solver. }
    rewrite EF. apply set_eq. intros q.
    destruct (decide (q ∈ pages T)), (decide (q ∈ pages T0)); set_solver.
  - intros va Hva Hout. rewrite Hl by done. unfold set_leaf.
    rewrite decide_False by (rewrite same_page by done; unfold PGSIZE in *; lia).
    apply Hl0; [done|]. unfold PGSIZE in *. lia.
  - intros i Hi. destruct (decide (i = n)) as [->|Hne]; [by rewrite Hat|].
    assert (Ei : leaf (kmem s') T' (Z.of_nat i * PGSIZE) = leaf (kmem s) T (Z.of_nat i * PGSIZE)).
    { rewrite Hl by (unfold user_va, PGSIZE in *; lia). unfold set_leaf.
      rewrite decide_False by (rewrite same_page by done; unfold PGSIZE in *; lia). done. }
    rewrite Ei. eapply Hloc; [|apply Hnew; lia]. intros x Hx. apply Hfr.
    eapply space_frame_apart; [done| |done]. lia.
  - intros x Hx. rewrite Hfr, Hfr0; [done|done|]. by eapply grown_apart.
Qed.

(** Unmapping and freeing the last pages. *)
Lemma space_unmapped s F root T n n' s' :
  space s F root T n -> (n' <= n)%nat ->
  let l := frames (leaf (kmem s) T) (n - n') (Z.of_nat n' * PGSIZE) in
  unmaps s F T s' root (Z.of_nat n' * PGSIZE) (n - n') (list_to_set l) ->
  space s' (list_to_set l ∪ F) root T n'.
Proof.
  intros [Hown Hmax Hall [Hnd Hfr] Hab] Hn l [Hown' Hl Hm]. pose proof TRAPFRAME_user as HTF.
  assert (Ef : frames (leaf (kmem s) T) n 0 = frames (leaf (kmem s) T) n' 0 ++ l).
  { replace n with (n' + (n - n'))%nat at 1 by lia. rewrite frames_app. f_equal. }
  rewrite Ef in Hnd, Hfr. apply NoDup_app in Hnd as (Hnd & Hdis & _).
  assert (Hsame : forall va, 0 <= va < Z.of_nat n' * PGSIZE ->
    leaf (kmem s') T va = leaf (kmem s) T va).
  { intros va Hva. rewrite Hl by (unfold user_va, PGSIZE in *; lia). unfold unmap_range.
    destruct (Z.leb_spec (Z.of_nat n' * PGSIZE) va); [lia|done]. }
  split; [done|unfold PGSIZE in *; lia| | |].
  - intros va Hva. rewrite Hsame by lia. apply Hall. unfold PGSIZE in *. lia.
  - rewrite (frames_ext _ (leaf (kmem s) T)) by (intros va Hva; apply Hsame; lia).
    split; [done|]. intros q Hq. destruct (Hfr q) as (? & ? & ?); [set_solver|].
    split_and!; try done. apply not_elem_of_union. split; [|done].
    rewrite elem_of_list_to_set. by apply Hdis.
  - intros va Hva. rewrite Hl by (unfold user_va, PGSIZE in *; lia). unfold unmap_range.
    destruct (Z.leb_spec (Z.of_nat n' * PGSIZE) va); [|lia].
    destruct (Z.ltb_spec va (Z.of_nat n' * PGSIZE + Z.of_nat (n - n') * PGSIZE)); [done|].
    apply Hab. unfold PGSIZE in *. lia.
Qed.

(** [uvmunmap] of the last [n - n'] pages. *)
Lemma space_shrink s F root T n n' :
  space s F root T n -> (n' <= n)%nat ->
  let l := frames (leaf (kmem s) T) (n - n') (Z.of_nat n' * PGSIZE) in
  wp (uvmunmap root (Z.of_nat n' * PGSIZE) (Z.of_nat (n - n')) true) s (fun _ s' =>
    space s' (list_to_set l ∪ F) root T n' /\
    unmaps s F T s' root (Z.of_nat n' * PGSIZE) (n - n') (list_to_set l)).
Proof.
  intros Hsp Hn l. pose proof Hsp as [Hown Hmax Hall [Hnd Hfr] Hab]. pose proof TRAPFRAME_user.
  assert (Ef : frames (leaf (kmem s) T) n 0 = frames (leaf (kmem s) T) n' 0 ++ l).
  { replace n with (n' + (n - n'))%nat at 1 by lia. rewrite frames_app. f_equal. }
  eapply wp_mono.
  { apply (uvmunmap_ok s F root T (Z.of_nat n' * PGSIZE) (n - n') true); try done.
    - by apply Z.mod_mul.
    - unfold PGSIZE. lia.
    - unfold PGSIZE in *. lia.
    - intros va Hva. apply Hall. unfold PGSIZE in *. lia.
    - intros _. rewrite Ef in Hnd, Hfr. apply NoDup_app in Hnd as (_ & _ & Hnd).
      split; [done|]. intros q Hq. apply Hfr. fold l in Hq. set_solver. }
  cbn beta. intros _ s' Hu. split; [by apply space_unmapped|done].
Qed.
End user.
End VmUser.
