(* ===== verification/VmUvm.v ===== *)
(** * Growing, shrinking and creating user memory

    [uvmcreate], [uvmalloc], [uvmdealloc] and [kvmdealloc] on address spaces. *)

From S2P Require Import Prelude.
From S2P Require Import Memory.
From S2P Require Import Riscv.
From S2P Require Import PageAlloc.
From S2P Require Import Vm.
From S2P Require Import VmTree.
From S2P Require Import VmWalk.
From S2P Require Import VmMap.
From S2P Require Import VmUser.

Module VmUvm.
Import VmTree VmWalk VmMap VmUser.

Lemma TRAPFRAME_val : TRAPFRAME = 2 ^ 38 - 8192.
Proof. reflexivity. Qed.

Lemma npages_spec sz :
  0 <= sz <= TRAPFRAME -> PGROUNDUP sz = Z.of_nat (npages sz) * PGSIZE.
Proof.
  rewrite TRAPFRAME_val. intros Hsz. unfold npages.
  destruct (PGROUNDUP_bounds sz) as [Hb Hm]; [lia|unfold PGSIZE; lia|]. page_lia.
Qed.

Lemma npages_bounds sz :
  0 <= sz <= TRAPFRAME ->
  sz <= Z.of_nat (npages sz) * PGSIZE < sz + PGSIZE.
Proof.
  intros Hsz. rewrite <- npages_spec by done. rewrite TRAPFRAME_val in Hsz.
  apply PGROUNDUP_bounds; unfold PGSIZE; lia.
Qed.

Lemma npages_max sz : 0 <= sz <= TRAPFRAME -> Z.of_nat (npages sz) * PGSIZE <= TRAPFRAME.
Proof.
  intros Hsz. pose proof (npages_bounds sz Hsz). rewrite TRAPFRAME_val in *. unfold PGSIZE in *. lia.
Qed.

Lemma npages_le a b : 0 <= a -> a <= b -> b <= TRAPFRAME -> (npages a <= npages b)%nat.
Proof.
  intros Ha Hab Hb. pose proof (npages_bounds a). pose proof (npages_bounds b).
  unfold PGSIZE in *. lia.
Qed.

Lemma npages_pages n : Z.of_nat n * PGSIZE <= TRAPFRAME -> npages (Z.of_nat n * PGSIZE) = n.
Proof.
  intros Hn. pose proof (npages_bounds (Z.of_nat n * PGSIZE)). unfold PGSIZE in *. lia.
Qed.

(** What a page of a freshly grown heap looks like: zero bytes, readable,
    writable, executable and user accessible. *)
Definition fresh_page (va pte : Z) (m : mem) : Prop :=
  PTE_FLAGS pte = Z.lor RWXU PTE_V /\ forall x, in_page (PTE2PA pte) x -> ld8 m x = 0.

Lemma fresh_page_local : local fresh_page.
Proof. intros va pte m m' Hm [Hf Hz]. split; [done|]. intros x Hx. by rewrite Hm, Hz. Qed.

Section uvm.
Context `{MemLayout} `{!MemLayoutOk} {A : Type} `{!PageAllocator A} `{!PageAllocatorSpec A}.

Lemma unmaps_refl s F root T a :
  owned s F root T -> unmaps s F T s root a 0 ∅.
Proof.
  intros Hown. split; [by rewrite (left_id_L ∅ (∪))| |done].
  intros va Hva. unfold unmap_range.
  destruct (Z.leb_spec a va), (Z.ltb_spec va (a + Z.of_nat 0 * PGSIZE)); cbn; (done || lia).
Qed.

(** [uvmdealloc] gives the pages above [newsz] back to the allocator. *)
Lemma uvmdealloc_ok s F root T oldsz newsz :
  space s F root T (npages oldsz) -> 0 <= newsz <= oldsz -> oldsz <= TRAPFRAME ->
  let n := npages newsz in
  let l := frames (leaf (kmem s) T) (npages oldsz - n) (Z.of_nat n * PGSIZE) in
  wp (uvmdealloc root oldsz newsz) s (fun r s' =>
    r = newsz /\ space s' (list_to_set l ∪ F) root T n /\
    unmaps s F T s' root (Z.of_nat n * PGSIZE) (npages oldsz - n) (list_to_set l)).
Proof.
  intros Hsp Hnew Hold n l.
  assert (Hle : (n <= npages oldsz)%nat) by (apply npages_le; lia).
  assert (Hnil : (npages oldsz <= n)%nat -> l = [] /\ npages oldsz = n).
  { intros Hge. subst l. replace (npages oldsz - n)%nat with 0%nat by lia. split; [done|lia]. }
  assert (Hstay : npages oldsz = n -> space s (list_to_set l ∪ F) root T n /\
    unmaps s F T s root (Z.of_nat n * PGSIZE) (npages oldsz - n) (list_to_set l)).
  { intros E. destruct Hnil as [-> _]; [lia|]. rewrite <- E at 1. cbn [list_to_set].
    rewrite (left_id_L ∅ (∪)). split; [done|]. rewrite E, Nat.sub_diag.
    eapply unmaps_refl. apply (sp_own _ _ _ _ _ Hsp). }
  unfold uvmdealloc. destruct (Z.leb_spec oldsz newsz).
  { assert (oldsz = newsz) as -> by lia. apply wp_ret. split; [done|]. by apply Hstay. }
  rewrite !npages_spec by lia. fold n. apply wp_bind.
  destruct (Z.ltb_spec (Z.of_nat n * PGSIZE) (Z.of_nat (npages oldsz) * PGSIZE)); cbn [when].
  - replace (Z.of_nat (npages oldsz) * PGSIZE - Z.of_nat n * PGSIZE) with
      (Z.of_nat (npages oldsz - n) * PGSIZE) by (unfold PGSIZE; lia).
    rewrite Z.div_mul by done.
    pose proof (npages_max oldsz ltac:(lia)) as Hmax. rewrite TRAPFRAME_val in Hmax.
    rewrite s32_small, u64_small by (unfold PGSIZE in *; lia).
    eapply wp_mono; [by apply space_shrink|]. cbn beta. intros _ s' Hs'. by apply wp_ret.
  - apply wp_ret, wp_ret. split; [done|]. apply Hstay. unfold PGSIZE in *. lia.
Qed.

(** Giving back everything a growth added restores the original space. *)
Lemma grown_undo P s0 F0 T0 n0 s F root T n s' :
  Z.of_nat n * PGSIZE <= TRAPFRAME ->
  grown P s0 F0 T0 n0 s F T n ->
  let l := frames (leaf (kmem s) T) (n - n0) (Z.of_nat n0 * PGSIZE) in
  unmaps s F T s' root (Z.of_nat n0 * PGSIZE) (n - n0) (list_to_set l) ->
  (forall va, Z.of_nat n0 * PGSIZE <= va < Z.of_nat n * PGSIZE -> leaf (kmem s0) T0 va = 0) ->
  extends s0 F0 T0 s' (list_to_set l ∪ F) T.
Proof.
  intros Hn [Hle Ht HF Hl Hnew Hfr] l [Hown' Hl' Hm'] Hz. split.
  - done.
  - rewrite HF. set_solver.
  - intros va Hva. rewrite Hl' by done. unfold unmap_range.
    destruct (Z.leb_spec (Z.of_nat n0 * PGSIZE) va); cbn.
    + destruct (Z.ltb_spec va (Z.of_nat n0 * PGSIZE + Z.of_nat (n - n0) * PGSIZE)).
      * rewrite Hz; [done|]. unfold PGSIZE in *. lia.
      * apply Hl; [done|]. unfold PGSIZE in *. lia.
    + apply Hl; [done|]. unfold PGSIZE in *. lia.
  - intros x Hx. rewrite Hm', Hfr; [done|done|]. intros q Hq. apply Hx.
    rewrite HF. rewrite <- !elem_of_pages in *. destruct (decide (q ∈ pages T0)); set_solver.
Qed.

(** One round of a loop that allocates a page, fills it and maps it at virtual
    page [n] of a space; [fill] is what the loop writes into the page. *)
Lemma grow_page P s0 F0 T0 n0 s F root T n p perm s1 m2 :
  local P -> space s F root T n -> Z.of_nat n * PGSIZE < TRAPFRAME ->
  0 <= perm < 1024 -> Z.lor perm PTE_V <> PTE_V ->
  grown P s0 F0 T0 n0 s F T n ->
  p ∈ F -> owned s1 (F ∖ {[p]}) root T -> same_outside p (kmem s) (kmem s1) ->
  same_outside p (kmem s1) m2 ->
  (forall m3, (forall x, in_page p x -> ld8 m3 x = ld8 m2 x) ->
     P (Z.of_nat n * PGSIZE) (mkpte p perm) m3) ->
  wp (mappages root (Z.of_nat n * PGSIZE) PGSIZE p perm) (ksetmem m2 s1) (fun r s3 =>
    (r = 0 /\ exists F' T', space s3 F' root T' (S n) /\ grown P s0 F0 T0 n0 s3 F' T' (S n)) \/
    (r = -1 /\ exists T', owned s3 ∅ root T' /\ p ∉ (∅ : gset Z) /\ ~ tpage T' p /\ valid_page p /\
       T ⊆ T' /\ F ∖ {[p]} = pages T' ∖ pages T /\
       (forall va, user_va va -> leaf (kmem s3) T' va = leaf (kmem s) T va) /\
       (forall x, apart F T x -> ld8 (kmem s3) x = ld8 (kmem s) x))).
Proof.
  intros Hloc Hsp Hn Hperm Hleaf Hg Hp Hown1 Hso Hso2 HP.
  pose proof (sp_own _ _ _ _ _ Hsp) as Hown.
  assert (Hvp : valid_page p) by exact (owned_valid _ _ _ _ _ Hown (or_introl Hp)).
  assert (HT : ~ tpage T p) by (intros Ht; by apply (own_sep _ _ _ _ Hown p)).
  assert (Hown2 : owned (ksetmem m2 s1) (F ∖ {[p]}) root T).
  { apply owned_write; [done|]. intros q a Hq Ha. apply Hso2.
    apply (pages_disjoint q p); try done; try by apply valid_page_aligned.
    - by apply valid_page_aligned, (owned_valid _ _ _ _ _ Hown1).
    - intros ->. destruct Hq; [set_solver|done]. }
  eapply wp_mono.
  { apply (map_fresh s F root T n p perm); try done.
    - rewrite (sp_above _ _ _ _ _ Hsp); [done|]. lia.
    - intros a Ha. cbn [kmem ksetmem]. rewrite Hso2, Hso; done. }
  cbn beta. cbn [kmem ksetmem]. intros r s3 (Hc & [(-> & F' & T' & Had)|(-> & T' & Ho & Ht & Hf & Hl & Hfr)]).
  - left. split; [done|]. exists F', T'. split; [by eapply space_added|].
    eapply grown_added; try done. by apply HP.
  - right. split; [done|]. exists T'. split_and!; try done.
    intros Hq%elem_of_pages. assert (p ∈ pages T' ∖ pages T).
    { apply elem_of_difference. split; [done|]. by rewrite elem_of_pages. }
    rewrite <- Hf in *. set_solver.
Qed.

(** Table pages a failed [mappages] added change neither the space nor what has
    been grown so far. *)
Lemma space_extends s F root T n s' F' T' :
  space s F root T n -> owned s' F' root T' -> extends s F T s' F' T' -> space s' F' root T' n.
Proof.
  intros [Hown Hmax Hall [Hnd Hfr] Hab] Hown' [Ht Hf Hl Hm]. pose proof TRAPFRAME_user.
  assert (HL : forall va, 0 <= va < TRAPFRAME -> leaf (kmem s') T' va = leaf (kmem s) T va).
  { intros va Hva. apply Hl. unfold user_va, PGSIZE in *. lia. }
  split; [done|done| | |].
  - intros va Hva. rewrite HL by lia. by apply Hall.
  - rewrite (frames_ext _ (leaf (kmem s) T)) by (intros va Hva; apply HL; lia).
    split; [done|]. intros q Hq. destruct (Hfr q Hq) as (? & HqF & HqT).
    split_and!; [done|set_solver|]. rewrite <- elem_of_pages in *. set_solver.
  - intros va Hva. rewrite HL by (unfold PGSIZE in *; lia). by apply Hab.
Qed.

Lemma grown_extends P s0 F0 T0 n0 s F root T n s' F' T' :
  local P -> space s F root T n -> extends s F T s' F' T' ->
  grown P s0 F0 T0 n0 s F T n -> grown P s0 F0 T0 n0 s' F' T' n.
Proof.
  intros Hloc Hsp Hext [Hle Ht0 HF0 Hl0 Hnew Hfr0]. pose proof Hext as [Ht Hf Hl Hm].
  pose proof (sp_max _ _ _ _ _ Hsp) as Hmax. pose proof TRAPFRAME_user.
  assert (HL : forall va, 0 <= va < TRAPFRAME -> leaf (kmem s') T' va = leaf (kmem s) T va).
  { intros va Hva. apply Hl. unfold user_va, PGSIZE in *. lia. }
  split.
  - done.
  - by transitivity T.
  - rewrite (frames_ext _ (leaf (kmem s) T)) by (intros va Hva; apply HL; unfold PGSIZE in *; lia).
    rewrite HF0, Hf. pose proof (pages_mono _ _ Ht0). pose proof (pages_mono _ _ Ht).
    apply set_eq. intros q. destruct (decide (q ∈ pages T)), (decide (q ∈ pages T0)); set_solver.
  - intros va Hva Hout. rewrite Hl by done. by apply Hl0.
  - intros i Hi. rewrite HL by (unfold PGSIZE in *; lia). eapply Hloc; [|by apply Hnew].
    intros x Hx. apply Hm. eapply space_frame_apart; [done| |done]. lia.
  - intros x Hx. rewrite Hm, Hfr0; [done|done|]. intros q Hq. apply Hx. rewrite HF0.
    rewrite <- !elem_of_pages in *. destruct (decide (q ∈ pages T0)); set_solver.
Qed.

(** The error path of the loops: the page that could not be mapped is freed. *)
Lemma kfree_unmapped s F T s3 root T' p :
  p ∈ F -> owned s3 ∅ root T' -> ~ tpage T' p -> valid_page p ->
  T ⊆ T' -> F ∖ {[p]} = pages T' ∖ pages T ->
  (forall va, user_va va -> leaf (kmem s3) T' va = leaf (kmem s) T va) ->
  (forall x, apart F T x -> ld8 (kmem s3) x = ld8 (kmem s) x) ->
  wp (kfree p) s3 (fun _ s4 => owned s4 {[p]} root T' /\ extends s F T s4 {[p]} T').
Proof.
  intros Hp Hown HT Hv Ht Hf Hl Hfr.
  eapply wp_mono; [apply (owned_kfree s3 ∅ root T' p); [done|done|set_solver|done]|]. cbn beta.
  intros _ s4 (Ho & Hso & Hl4). rewrite (right_id_L ∅ (∪)) in Ho. split; [done|]. split.
  - done.
  - rewrite <- Hf. apply set_eq. intros q. destruct (decide (q = p)); set_solver.
  - intros va Hva. by rewrite Hl4, Hl.
  - intros x Hx. rewrite Hso, Hfr; [done|done|]. apply Hx. by left.
Qed.

(** ** [uvmalloc] *)
Definition alloc_result (s0 : kstate A) F0 root T0 (n0 : nat) (newsz r : Z) (s' : kstate A) : Prop :=
  exists F' T',
    (r = newsz /\ space s' F' root T' (npages newsz) /\
       grown fresh_page s0 F0 T0 n0 s' F' T' (npages newsz)) \/
    (r = 0 /\ space s' F' root T' n0 /\ extends s0 F0 T0 s' F' T').

(** The clean-up after a failure. *)
Lemma uvmalloc_undo P s0 F0 T0 n0 s F root T n (Q : Z -> kstate A -> Prop) :
  space s0 F0 root T0 n0 -> space s F root T n -> grown P s0 F0 T0 n0 s F T n ->
  (forall s' F', space s' F' root T n0 -> extends s0 F0 T0 s' F' T -> Q 0 s') ->
  wp (uvmdealloc root (Z.of_nat n * PGSIZE) (Z.of_nat n0 * PGSIZE);; mret 0) s Q.
Proof.
  intros Hsp0 Hsp Hg HQ. apply wp_bind. pose proof (sp_max _ _ _ _ _ Hsp) as Hmax.
  pose proof (gr_le _ _ _ _ _ _ _ _ _ Hg) as Hle. pose proof (sp_max _ _ _ _ _ Hsp0) as Hmax0.
  eapply wp_mono.
  { apply (uvmdealloc_ok s F root T); [by rewrite npages_pages|unfold PGSIZE; lia|done]. }
  cbn beta zeta. rewrite !npages_pages by done. intros _ s' (_ & Hsp' & Hu). apply wp_ret.
  eapply HQ; [done|]. eapply grown_undo; try done.
  intros va Hva. apply (sp_above _ _ _ _ _ Hsp0). unfold PGSIZE in *. lia.
Qed.

Lemma uvmalloc_loop_ok root s0 F0 T0 n0 newsz : forall fuel n s F T,
  space s0 F0 root T0 n0 -> space s F root T n -> grown fresh_page s0 F0 T0 n0 s F T n ->
  0 <= newsz <= TRAPFRAME -> (n <= npages newsz)%nat -> (npages newsz - n <= fuel)%nat ->
  wp (uvmalloc_loop fuel root (Z.of_nat n * PGSIZE) (Z.of_nat n0 * PGSIZE) newsz) s
    (alloc_result s0 F0 root T0 n0 newsz).
Proof.
  induction fuel as [|fuel IH]; intros n s F T Hsp0 Hsp Hg Hnew Hn Hfuel; cbn [uvmalloc_loop];
    pose proof (npages_bounds newsz Hnew) as Hb;
    destruct (Z.ltb_spec (Z.of_nat n * PGSIZE) newsz) as [Hlt|Hge].
  1: unfold PGSIZE in *; lia.
  1, 3: apply wp_ret; exists F, T; left; assert (npages newsz = n) as -> by (unfold PGSIZE in *; lia); done.
  apply wp_bind. eapply wp_mono; [by apply (owned_kalloc s F root T), (sp_own _ _ _ _ _ Hsp)|].
  cbn beta. intros p s1 [(-> & HF & ->)|(Hp0 & Hvp & Hp & HT & Hown1 & Hso & Hl1)].
  { eapply uvmalloc_undo; try done. intros s' F' Hs' He. exists F', T. by right. }
  destruct (Z.eqb_spec p 0) as [|_]; [done|]. unfold do_memset.
  destruct (Z.eqb_spec p 0) as [|_]; [done|]. apply wp_bind, wp_modify. apply wp_bind.
  pose proof (valid_page_range p Hvp) as Hpr. pose proof (valid_page_aligned p Hvp) as Hpa.
  eapply wp_mono.
  { apply (grow_page fresh_page s0 F0 T0 n0 s F root T n p RWXU s1); try done; try lia.
    - apply fresh_page_local.
    - intros a Ha. by apply ld8_memset_out.
    - intros m3 Hm3. split; [by apply mkpte_flags|].
      rewrite mkpte_pa by (done || lia). intros x Hx. rewrite Hm3, ld8_memset_in; done. }
  cbn beta. intros r s3 [(-> & F' & T' & Hsp' & Hg')|(-> & T' & Hown3 & _ & HT' & _ & Ht & Hf & Hl & Hfr)];
    cbn [negb Z.eqb].
  - replace (u64 (Z.of_nat n * PGSIZE + PGSIZE)) with (Z.of_nat (S n) * PGSIZE).
    + apply (IH _ _ F' T'); try done; unfold PGSIZE in *; lia.
    + rewrite u64_small; [unfold PGSIZE; lia|]. rewrite TRAPFRAME_val in *. unfold PGSIZE in *. lia.
  - apply wp_bind. eapply wp_mono; [by apply (kfree_unmapped s F T s3 root T' p)|]. cbn beta.
    intros _ s4 [Hown4 Hext]. eapply uvmalloc_undo.
    + done.
    + by eapply space_extends.
    + by eapply grown_extends; [apply fresh_page_local|..].
    + intros s' F' Hs' He. exists F', T'. by right.
Qed.

Lemma uvmalloc_ok s F root T oldsz newsz :
  space s F root T (npages oldsz) -> 0 <= oldsz <= newsz -> newsz <= TRAPFRAME ->
  wp (uvmalloc root oldsz newsz) s (alloc_result s F root T (npages oldsz) newsz).
Proof.
  intros Hsp Hold Hnew. unfold uvmalloc. destruct (Z.ltb_spec newsz oldsz); [lia|].
  rewrite npages_spec by lia. pose proof (npages_le oldsz newsz) as Hle.
  apply (uvmalloc_loop_ok root s F T _ newsz _ _ s F T); try done; try lia; [apply grown_refl|].
  pose proof (npages_bounds newsz). unfold PGSIZE in *. Z.to_euclidean_division_equations. lia.
Qed.
End uvm.
End VmUvm.
