(* ===== verification/VmFree.v ===== *)
(** * Freeing page tables

    [freewalk] and [freeallocatewalk] give every page of a page table back to
    the allocator; [uvmfree] gives back the user pages as well. *)

From S2P Require Import Prelude.
From S2P Require Import Memory.
From S2P Require Import Riscv.
From S2P Require Import PageAlloc.
From S2P Require Import Vm.
From S2P Require Import VmTree.
From S2P Require Import VmWalk.
From S2P Require Import VmMap.
From S2P Require Import VmUser.
From S2P Require Import VmUvm.

Module VmFree.
Import VmTree VmWalk VmMap VmUser VmUvm.

(** The pages of the subtree at path [π]. *)
Definition sub (T : tree) (π : list Z) : gset Z :=
  map_img (filter (fun kv => π `prefix_of` kv.1) T).

Lemma elem_of_sub T π q : q ∈ sub T π <-> exists ρ, T !! (π ++ ρ) = Some q.
Proof.
  unfold sub. rewrite elem_of_map_img. setoid_rewrite map_lookup_filter_Some. cbn. split.
  - intros (π' & Hq & (ρ & ->)). by exists ρ.
  - intros (ρ & Hρ). exists (π ++ ρ). split; [done|by exists ρ].
Qed.

Lemma sub_root T : sub T [] = pages T.
Proof.
  apply set_eq. intros q. rewrite elem_of_sub, elem_of_pages. unfold tpage. cbn. done.
Qed.

Section free.
Context `{MemLayout} `{!MemLayoutOk} {A : Type} `{!PageAllocator A} `{!PageAllocatorSpec A}.

Lemma wp_for_range (I : Z -> kstate A -> Prop) body : forall n i s,
  I i s ->
  (forall j s', i <= j < i + Z.of_nat n -> I j s' -> wp (body j) s' (fun _ => I (j + 1))) ->
  wp (for_range n i body) s (fun _ => I (i + Z.of_nat n)).
Proof.
  induction n as [|n IH]; intros i s HI Hb; cbn [for_range].
  - apply wp_ret. by rewrite Z.add_0_r.
  - apply wp_bind. eapply wp_mono; [apply Hb; [lia|done]|]. cbn beta. intros _ s' HI'.
    replace (i + Z.of_nat (S n)) with (i + 1 + Z.of_nat n) by lia.
    apply IH; [done|]. intros j s'' Hj. apply Hb. lia.
Qed.

Lemma for_range_ext (f g : Z -> M (kstate A) unit) :
  (forall i s, f i s = g i s) -> forall n i s, for_range n i f s = for_range n i g s.
Proof.
  intros Hfg. induction n as [|n IH]; intros i s; [done|]. cbn [for_range].
  unfold mbind, M_bind. rewrite Hfg. destruct (g i s) as [[[] s']|]; [apply IH|done].
Qed.

(** Both functions at once: [strict] tells whether a mapped leaf is an error. *)
Fixpoint free_rec (strict : bool) (depth : nat) (pt : Z) : M (kstate A) unit :=
  match depth with
  | O => fail OutOfFuel
  | S depth' =>
      for_range 512 0 (fun i =>
        pte ← load64 (entry pt i);
        if is_table pte then
          free_rec strict depth' (PTE2PA pte);; store64 (entry pt i) 0
        else if strict && has pte PTE_V then panic "freewalk: leaf"
        else mret tt);;
      kfree pt
  end.

Lemma freewalk_rec_eq d : forall pt s, freewalk_rec d pt s = free_rec true d pt s.
Proof.
  induction d as [|d IH]; intros pt s; [done|]. cbn [freewalk_rec free_rec].
  apply bind_ext; [|done]. apply for_range_ext. intros i s'. apply bind_ext; [done|].
  intros pte s''. destruct (is_table pte); [|done]. by apply bind_ext.
Qed.

Lemma freeallocatewalk_rec_eq d : forall pt s, freeallocatewalk_rec d pt s = free_rec false d pt s.
Proof.
  induction d as [|d IH]; intros pt s; [done|]. cbn [freeallocatewalk_rec free_rec].
  apply bind_ext; [|done]. apply for_range_ext. intros i s'. apply bind_ext; [done|].
  intros pte s''. destruct (is_table pte); [|done]. by apply bind_ext.
Qed.

(** What the leaf tables may contain. *)
Definition leaves_ok (strict : bool) (m : mem) (T : tree) : Prop :=
  forall π q i, T !! π = Some q -> length π = 2%nat -> index i ->
    is_table (ld64 m (q + 8 * i)) = false /\
    (strict = true -> has (ld64 m (q + 8 * i)) PTE_V = false).

Lemma is_table_link q : is_table (Z.lor (PA2PTE q) PTE_V) = true.
Proof.
  unfold is_table, has. rewrite (land_flags _ PTE_V), (land_flags _ RWX) by done.
  by rewrite PTE_FLAGS_mk.
Qed.

Section walk.
Variables (m0 : mem) (root : Z) (T : tree) (strict : bool).
Hypothesis (Hpt : pt_ok m0 root T) (Hlv : leaves_ok strict m0 T).

(** The subtree at [π] is as in [m0], and its pages are not free. *)
Definition intact (s : kstate A) (F : gset Z) (π : list Z) : Prop :=
  al_ok s F /\
  forall q, q ∈ sub T π -> q ∉ F /\ forall x, in_page q x -> ld8 (kmem s) x = ld8 m0 x.

Lemma sub_valid π q : q ∈ sub T π -> valid_page q.
Proof. intros (ρ & Hρ)%elem_of_sub. by apply (pt_path _ _ _ Hpt) in Hρ as (_ & _ & ?). Qed.

Lemma sub_self π p : T !! π = Some p -> p ∈ sub T π.
Proof. intros Hp. apply elem_of_sub. exists []. by rewrite app_nil_r. Qed.

Lemma sub_child π i q : q ∈ sub T (π ++ [i]) -> q ∈ sub T π.
Proof. rewrite !elem_of_sub. intros (ρ & Hρ). exists (i :: ρ). by rewrite <- app_assoc in Hρ. Qed.

Lemma sub_disjoint π i j q : q ∈ sub T (π ++ [i]) -> q ∈ sub T (π ++ [j]) -> i = j.
Proof.
  rewrite !elem_of_sub. intros (ρ & Hρ) (ρ' & Hρ'). pose proof (pt_inj _ _ _ Hpt _ _ _ Hρ Hρ') as E.
  rewrite <- !app_assoc in E. apply app_inv_head in E. by injection E.
Qed.

Lemma sub_not_self π p i : T !! π = Some p -> p ∉ sub T (π ++ [i]).
Proof.
  intros Hp (ρ & Hρ)%elem_of_sub. pose proof (pt_inj _ _ _ Hpt _ _ _ Hp Hρ) as E.
  apply (f_equal length) in E. rewrite !length_app in E. cbn in E. lia.
Qed.

Lemma sub_split π p q :
  T !! π = Some p -> q ∈ sub T π <-> q = p \/ exists j, index j /\ q ∈ sub T (π ++ [j]).
Proof.
  intros Hp. split.
  - intros ([|j ρ] & Hρ)%elem_of_sub; [left; rewrite app_nil_r in Hρ; congruence|right].
    exists j. split.
    + apply (pt_path _ _ _ Hpt) in Hρ as (_ & Hi & _). apply Forall_app in Hi as [_ Hi].
      by apply Forall_cons in Hi as [? _].
    + apply elem_of_sub. exists ρ. by rewrite <- app_assoc.
  - intros [->|(j & _ & Hj)]; [by apply sub_self|by eapply sub_child].
Qed.

(** After the first [i] entries: the subtrees below them are free, the rest is
    untouched. *)
Definition done_upto (s0 : kstate A) (F : gset Z) (π : list Z) (p i : Z) (s : kstate A) : Prop :=
  exists D, al_ok s (D ∪ F) /\
    (forall q, q ∈ D <-> exists j, 0 <= j < i /\ q ∈ sub T (π ++ [j])) /\
    (forall x, (forall q, q ∈ D -> ~ in_page q x) -> ~ (p <= x < p + 8 * i) ->
       ld8 (kmem s) x = ld8 (kmem s0) x).

Lemma done_upto_skip s0 F π p i s :
  T !! (π ++ [i]) = None -> done_upto s0 F π p i s -> done_upto s0 F π p (i + 1) s.
Proof.
  intros Hn (D & Hal & HD & Hm). exists D. split; [done|]. split.
  - intros q. rewrite HD. split.
    + intros (j & ? & ?). exists j. split; [lia|done].
    + intros (j & Hj & Hq). exists j. split; [|done].
      assert (j <> i); [|lia]. intros ->. apply elem_of_sub in Hq as (ρ & Hρ).
      clear -Hn Hρ Hpt. revert Hρ. generalize q. induction ρ as [|k ρ IH] using rev_ind; intros q' Hρ.
      * rewrite app_nil_r in Hρ. congruence.
      * rewrite app_assoc in Hρ. destruct (pt_up _ _ _ Hpt _ k (ex_intro _ q' Hρ)) as [q'' Hq'].
        by apply (IH q'').
  - intros x Hx Hp. apply Hm; [done|lia].
Qed.

(** What freeing the subtree at [π] does. *)
Definition freed_sub (s : kstate A) (F : gset Z) (π : list Z) (s' : kstate A) : Prop :=
  al_ok s' (sub T π ∪ F) /\
  forall x, (forall q, q ∈ sub T π -> ~ in_page q x) -> ld8 (kmem s') x = ld8 (kmem s) x.

(** The subtrees that are still to be freed are intact. *)
Lemma upto_intact s0 F π p i s D :
  T !! π = Some p -> intact s0 F π -> 0 <= i ->
  al_ok s (D ∪ F) ->
  (forall q, q ∈ D <-> exists j, 0 <= j < i /\ q ∈ sub T (π ++ [j])) ->
  (forall x, (forall q, q ∈ D -> ~ in_page q x) -> ~ (p <= x < p + 8 * i) ->
     ld8 (kmem s) x = ld8 (kmem s0) x) ->
  index i ->
  p ∉ D /\ intact s (D ∪ F) (π ++ [i]) /\ ld64 (kmem s) (p + 8 * i) = ld64 m0 (p + 8 * i).
Proof.
  intros Hp [Hal0 Hold] Hi0 Hal HD Hm Hi.
  assert (HpD : p ∉ D) by (intros (j & _ & Hj)%HD; exact (sub_not_self _ _ _ Hp Hj)).
  assert (Hvp : valid_page p) by (by eapply sub_valid, sub_self).
  split; [done|]. split; [split|].
  - done.
  - intros q Hq. destruct (Hold q) as [HqF Hqm]; [by eapply sub_child|].
    assert (HqD : q ∉ D).
    { intros (j & Hj & Hq')%HD. assert (i = j) by (by eapply sub_disjoint). lia. }
    split; [set_solver|]. intros x Hx. rewrite Hm; [by apply Hqm| |].
    + intros r Hr. apply (pages_disjoint q r); try done.
      * by eapply valid_page_aligned, sub_valid.
      * apply HD in Hr as (j & _ & Hr). by eapply valid_page_aligned, sub_valid.
      * by intros ->.
    + assert (Hpq : ~ in_page p x).
      { apply (pages_disjoint q p); try done.
        - by eapply valid_page_aligned, sub_valid.
        - by apply valid_page_aligned.
        - intros ->. by eapply sub_not_self. }
      unfold in_page, index, PGSIZE in *. lia.
  - destruct (Hold p) as [_ Hpm]; [by apply sub_self|]. apply ld64_agree. intros x Hx.
    assert (Hpx : in_page p x) by (by eapply in_page_entry).
    rewrite Hm; [by apply Hpm| |lia]. intros r Hr. apply (pages_disjoint p r); try done.
    + by apply valid_page_aligned.
    + apply HD in Hr as (j & _ & Hr). by eapply valid_page_aligned, sub_valid.
    + by intros ->.
Qed.

(** A freed child is added to what is done. *)
Lemma upto_child s0 F π p i q s D s1 :
  T !! π = Some p -> T !! (π ++ [i]) = Some q -> intact s0 F π -> index i ->
  (forall r, r ∈ D <-> exists j, 0 <= j < i /\ r ∈ sub T (π ++ [j])) ->
  (forall x, (forall r, r ∈ D -> ~ in_page r x) -> ~ (p <= x < p + 8 * i) ->
     ld8 (kmem s) x = ld8 (kmem s0) x) ->
  freed_sub s (D ∪ F) (π ++ [i]) s1 ->
  done_upto s0 F π p (i + 1) (ksetmem (st64 (kmem s1) (p + 8 * i) 0) s1).
Proof.
  intros Hp Hq [_ Hold] Hi HD Hm [Hal1 Hm1]. exists (sub T (π ++ [i]) ∪ D).
  assert (Hvp : valid_page p) by (by eapply sub_valid, sub_self).
  assert (HpD : p ∉ D) by (intros (j & _ & Hj)%HD; exact (sub_not_self _ _ _ Hp Hj)).
  assert (Hps : p ∉ sub T (π ++ [i])) by (by apply sub_not_self).
  destruct (Hold p) as [HpF _]; [by apply sub_self|]. split; [|split].
  - rewrite <- (assoc_L (∪)). apply al_ok_frame; [done|]. intros r a Hr Ha.
    apply ld8_st_le_out. intros Hx. apply (pages_disjoint r p a); try done.
    + by eapply valid_page_aligned, (al_ok_valid _ _ _ Hal1).
    + by apply valid_page_aligned.
    + intros ->. set_solver.
    + by eapply in_page_entry.
  - intros r. rewrite elem_of_union, HD. split.
    + intros [Hr|(j & Hj & Hr)]; [exists i; split; [unfold index in *; lia|done]|].
      exists j. split; [lia|done].
    + intros (j & Hj & Hr). destruct (Z.eq_dec j i) as [->|]; [by left|right].
      exists j. split; [lia|done].
  - intros x Hx Hpx. cbn [kmem ksetmem]. unfold st64. rewrite ld8_st_le_out by (unfold index in *; lia).
    rewrite Hm1 by (intros r Hr; apply Hx; set_solver).
    apply Hm; [intros r Hr; apply Hx; set_solver|lia].
Qed.

Lemma free_rec_ok d : forall π p s F,
  T !! π = Some p -> (length π + d = 3)%nat -> intact s F π ->
  wp (free_rec strict d p) s (fun _ => freed_sub s F π).
Proof.
  induction d as [|d IH]; intros π p s F Hp Hd Hint.
  { apply (pt_path _ _ _ Hpt) in Hp as (? & _). lia. }
  cbn [free_rec]. apply wp_bind.
  assert (Hvp : valid_page p) by (by eapply sub_valid, sub_self).
  eapply wp_mono; [apply (wp_for_range (done_upto s F π p) _ 512 0)|]; cbn beta.
  - destruct Hint as [Hal _]. exists ∅. rewrite (left_id_L ∅ (∪)). split; [done|]. split.
    + intros q. split; [set_solver|intros (j & ? & _); lia].
    + done.
  - intros i s' Hi Hupto. pose proof Hupto as (D & Hal & HD & Hm).
    assert (Hix : index i) by (unfold index; lia).
    destruct (upto_intact s F π p i s' D) as (HpD & Hint' & He); try done; [lia|].
    assert (Een : entry p i = p + 8 * i).
    { unfold entry. apply u64_small. apply valid_page_range in Hvp. unfold index in *. lia. }
    rewrite Een. unfold load64, store64. apply wp_bind, wp_gets. rewrite He.
    destruct (decide (length π = 2%nat)) as [E2|E2].
    + destruct (Hlv π p i Hp E2 Hix) as [-> Hs].
      replace (strict && has (ld64 m0 (p + 8 * i)) PTE_V) with false
        by (destruct strict; [by rewrite Hs|done]).
      apply wp_ret. apply done_upto_skip; [|done].
      destruct (T !! (π ++ [i])) eqn:E; [|done]. apply (pt_path _ _ _ Hpt) in E as (El & _).
      rewrite length_app in El. cbn in El. lia.
    + rewrite (pt_entry _ _ _ Hpt _ _ _ Hp) by (done || lia).
      destruct (T !! (π ++ [i])) as [q|] eqn:E; cbn [link].
      * rewrite is_table_link. pose proof (pt_path _ _ _ Hpt _ _ E) as (_ & _ & Hvq).
        rewrite link_page by done.
        apply wp_bind. eapply wp_mono.
        { apply (IH (π ++ [i]) q s' (D ∪ F)); [done| |done]. rewrite length_app. cbn. lia. }
        cbn beta. intros _ s1 Hf. apply wp_modify. by eapply upto_child.
      * change (is_table 0) with false. change (has 0 PTE_V) with false. rewrite andb_false_r.
        apply wp_ret. by apply done_upto_skip.
  - intros _ s' (D & Hal & HD & Hm). destruct Hint as [Hal0 Hold].
    assert (HpD : p ∉ D) by (intros (j & _ & Hj)%HD; exact (sub_not_self _ _ _ Hp Hj)).
    destruct (Hold p) as [HpF _]; [by apply sub_self|].
    eapply wp_mono; [apply kfree_ok; [done|done|set_solver]|]. cbn beta. intros _ s2 [Hal2 Hso].
    assert (Es : sub T π = {[p]} ∪ D).
    { apply set_eq. intros q. rewrite (sub_split _ _ _ Hp), elem_of_union, HD, elem_of_singleton.
      unfold index. naive_solver lia. }
    split; [rewrite Es, <- (assoc_L (∪)); done|]. intros x Hx. rewrite Hso, Hm; [done| | |].
    + intros q Hq. apply Hx. rewrite Es. set_solver.
    + assert (Hpx : ~ in_page p x) by (apply Hx; rewrite Es; set_solver).
      unfold in_page, PGSIZE in *. lia.
    + apply Hx. rewrite Es. set_solver.
Qed.
End walk.

Lemma owned_intact s F root T : owned s F root T -> intact (kmem s) T s F [].
Proof.
  intros [Hal Hpt Hsep]. split; [done|]. intros q Hq. rewrite sub_root in Hq.
  split; [by apply Hsep, elem_of_pages|done].
Qed.

Lemma freewalk_ok s F root T :
  owned s F root T -> leaves_ok true (kmem s) T ->
  wp (freewalk root) s (fun _ s' => al_ok s' (pages T ∪ F) /\
    forall x, (forall q, tpage T q -> ~ in_page q x) -> ld8 (kmem s') x = ld8 (kmem s) x).
Proof.
  intros Hown Hlv. pose proof (own_pt _ _ _ _ Hown) as Hpt.
  assert (Hw : wp (free_rec true 3 root) s (fun _ => freed_sub T s F [])).
  { eapply (free_rec_ok (kmem s) root T true Hpt Hlv); [apply (pt_root _ _ _ Hpt)|done|].
    by eapply owned_intact. }
  unfold wp, freewalk in *. rewrite freewalk_rec_eq.
  destruct (free_rec true 3 root s) as [[[] s']|]; [|done]. destruct Hw as [Hal Hm].
  rewrite sub_root in Hal, Hm. split; [done|]. intros x Hx. apply Hm. intros q Hq.
  by apply Hx, elem_of_pages.
Qed.

Lemma kvmfree_ok s F root T :
  owned s F root T -> leaves_ok false (kmem s) T ->
  wp (kvmfree root) s (fun _ s' => al_ok s' (pages T ∪ F) /\
    forall x, (forall q, tpage T q -> ~ in_page q x) -> ld8 (kmem s') x = ld8 (kmem s) x).
Proof.
  intros Hown Hlv. pose proof (own_pt _ _ _ _ Hown) as Hpt.
  assert (Hw : wp (free_rec false 3 root) s (fun _ => freed_sub T s F [])).
  { eapply (free_rec_ok (kmem s) root T false Hpt Hlv); [apply (pt_root _ _ _ Hpt)|done|].
    by eapply owned_intact. }
  unfold wp, kvmfree, freeallocatewalk in *. rewrite freeallocatewalk_rec_eq.
  destruct (free_rec false 3 root s) as [[[] s']|]; [|done]. destruct Hw as [Hal Hm].
  rewrite sub_root in Hal, Hm. split; [done|]. intros x Hx. apply Hm. intros q Hq.
  by apply Hx, elem_of_pages.
Qed.

(** The virtual page of a slot of a leaf table. *)
Lemma slot_va m root T π q i :
  pt_ok m root T -> T !! π = Some q -> length π = 2%nat -> index i ->
  exists va, user_va va /\ T !! [PX 2 va; PX 1 va] = Some q /\ PX 0 va = i.
Proof.
  intros Hpt Hπ Hl Hi. destruct π as [|i2 [|i1 [|]]]; try done.
  pose proof (pt_low _ _ _ Hpt _ _ _ Hπ) as Hlow.
  pose proof (pt_path _ _ _ Hpt _ _ Hπ) as (_ & Hix & _).
  apply Forall_cons in Hix as [Hi2 Hix]. apply Forall_cons in Hix as [Hi1 _].
  unfold index in *. exists (((i2 * 512 + i1) * 512 + i) * 4096).
  assert (user_va (((i2 * 512 + i1) * 512 + i) * 4096)) by (unfold user_va; change MAXVA with (2 ^ 38); lia).
  rewrite !PX_div by lia. change (12 + 9 * 2) with 30. change (12 + 9 * 1) with 21.
  change (12 + 9 * 0) with 12.
  assert (E2 : ((i2 * 512 + i1) * 512 + i) * 4096 / 2 ^ 30 mod 512 = i2) by (Z.to_euclidean_division_equations; lia).
  assert (E1 : ((i2 * 512 + i1) * 512 + i) * 4096 / 2 ^ 21 mod 512 = i1) by (Z.to_euclidean_division_equations; lia).
  assert (E0 : ((i2 * 512 + i1) * 512 + i) * 4096 / 2 ^ 12 mod 512 = i) by (Z.to_euclidean_division_equations; lia).
  rewrite E2, E1, E0. done.
Qed.

(** A property of all leaf entries, checked on the virtual addresses. *)
Lemma leaves_by_va m root T (P : Z -> Prop) :
  pt_ok m root T -> (forall va, user_va va -> P (leaf m T va)) ->
  forall π q i, T !! π = Some q -> length π = 2%nat -> index i -> P (ld64 m (q + 8 * i)).
Proof.
  intros Hpt HP π q i Hπ Hl Hi. destruct (slot_va _ _ _ _ _ _ Hpt Hπ Hl Hi) as (va & Hva & Hq & <-).
  specialize (HP va Hva). unfold leaf in HP. by rewrite Hq in HP.
Qed.

(** [uvmfree] returns the user pages and the table pages. *)
Lemma uvmfree_ok s F root T sz :
  space s F root T (npages sz) -> 0 <= sz <= TRAPFRAME ->
  (forall va, TRAPFRAME <= va < MAXVA -> leaf (kmem s) T va = 0) ->
  wp (uvmfree root sz) s (fun _ s' =>
    al_ok s' (pages T ∪ (list_to_set (frames (leaf (kmem s) T) (npages sz) 0) ∪ F))).
Proof.
  intros Hsp Hsz Htop. unfold uvmfree. apply wp_bind.
  set (l := frames (leaf (kmem s) T) (npages sz) 0).
  assert (Hall0 : forall s1, space s1 (list_to_set l ∪ F) root T 0 ->
    (forall va, TRAPFRAME <= va < MAXVA -> leaf (kmem s1) T va = 0) ->
    wp (freewalk root) s1 (fun _ s' => al_ok s' (pages T ∪ (list_to_set l ∪ F)))).
  { intros s1 [Hown1 _ _ _ Hab] Htop1. eapply wp_mono.
    - apply (freewalk_ok s1 _ root T Hown1). intros π q i Hπ Hl Hi.
      eapply (leaves_by_va _ root T (fun v => is_table v = false /\ (true = true -> has v PTE_V = false)));
        try done; [apply (own_pt _ _ _ _ Hown1)|].
      intros va Hva. destruct (Z.lt_ge_cases va TRAPFRAME).
      + rewrite Hab; [done|]. unfold user_va, PGSIZE in *. lia.
      + rewrite Htop1; [done|]. unfold user_va in *. lia.
    - cbn beta. by intros _ s' [? _]. }
  destruct (Z.ltb_spec 0 sz); cbn [when].
  - rewrite npages_spec by done. rewrite Z.div_mul by done.
    change (uvmunmap root 0 (Z.of_nat (npages sz)) true) with
      (uvmunmap root (Z.of_nat 0 * PGSIZE) (Z.of_nat (npages sz)) true).
    replace (npages sz) with (npages sz - 0)%nat at 1 by lia.
    eapply wp_mono; [apply (space_shrink s F root T (npages sz) 0); [done|lia]|]. cbn beta.
    rewrite Nat.sub_0_r. change (Z.of_nat 0 * PGSIZE) with 0. fold l.
    intros _ s1 [Hsp1 Hu]. apply Hall0; [done|]. intros va Hva.
    rewrite (um_leaf _ _ _ _ _ _ _ _ Hu) by (unfold user_va; rewrite TRAPFRAME_val in *; lia).
    unfold unmap_range. destruct (Z.leb_spec 0 va), (Z.ltb_spec va (0 + Z.of_nat (npages sz) * PGSIZE));
      cbn; try done; by apply Htop.
  - assert (sz = 0) as -> by lia. apply wp_ret. apply Hall0; [|done].
    subst l. change (npages 0) with 0%nat in *. cbn [frames list_to_set].
    by rewrite (left_id_L ∅ (∪)).
Qed.

(** [uvmcreate] makes an empty address space. *)
Lemma uvmcreate_ok s F :
  al_ok s F ->
  wp uvmcreate s (fun r s' =>
    (r = 0 /\ F = ∅ /\ s' = s) \/
    (r ∈ F /\ space s' (F ∖ {[r]}) r {[ [] := r ]} 0 /\
     (forall va, leaf (kmem s') {[ [] := r ]} va = 0) /\
     same_outside r (kmem s) (kmem s'))).
Proof.
  intros Hal. unfold uvmcreate. apply wp_bind. eapply wp_mono; [by apply kalloc_ok|]. cbn beta.
  intros r s1 [(-> & -> & ->)|(Hr & Hal1 & Hso)]; [apply wp_ret; by left|].
  assert (Hv : valid_page r) by exact (al_ok_valid _ _ _ Hal Hr).
  pose proof (valid_page_range r Hv). destruct (Z.eqb_spec r 0); [lia|].
  unfold do_memset. destruct (Z.eqb_spec r 0); [lia|]. wp_pure. right. cbn [kmem ksetmem kal].
  split; [done|]. split; [|split; [intros va; apply leaf_root|]].
  - split; [split| | | |].
    + apply al_ok_frame; [done|]. intros q a Hq Ha. apply ld8_memset_out.
      change (~ in_page r a). apply (pages_disjoint q r); try done.
      * eapply valid_page_aligned, (al_ok_valid _ _ _ Hal1 Hq).
      * by apply valid_page_aligned.
      * set_solver.
    + apply pt_ok_root; [done|]. intros i Hi. cbn [kmem ksetmem].
      apply ld64_memset0; unfold index, PGSIZE in *; lia.
    + intros p (π & [_ <-]%lookup_singleton_Some). set_solver.
    + rewrite TRAPFRAME_val. lia.
    + intros va Hva. unfold PGSIZE in *. lia.
    + split; [constructor|]. by intros p ?%elem_of_nil.
    + intros va _. apply leaf_root.
  - intros a Ha. rewrite ld8_memset_out by done. by apply Hso.
Qed.
End free.
End VmFree.
