(* ===== verification/VmCopy.v ===== *)
(** * Copying address spaces

    [uvmcopy] gives a child its own copies of the parent's pages; [kvmcopy]
    makes a process's user pages visible, without user permission, in its kernel
    page table. *)

From S2P Require Import Prelude.
From S2P Require Import Memory.
From S2P Require Import Riscv.
From S2P Require Import PageAlloc.
From S2P Require Import Vm.
From S2P Require Import VmTree.
From S2P Require Import VmWalk.
From S2P Require Import VmMap.
From S2P Require Import VmUser.
From S2P Require Import VmUvm.
From S2P Require Import VmFree.

Module VmCopy.
Import VmTree VmWalk VmMap VmUser VmUvm VmFree.

(** The page behind [pte] is a copy of the page the parent has at [va]. *)
Definition copy_of (m0 : mem) (L0 : Z -> Z) (va pte : Z) (m : mem) : Prop :=
  PTE_FLAGS pte = PTE_FLAGS (L0 va) /\
  forall k, 0 <= k < PGSIZE -> ld8 m (PTE2PA pte + k) = ld8 m0 (PTE2PA (L0 va) + k).

Lemma copy_of_local m0 L0 : local (copy_of m0 L0).
Proof.
  intros va pte m m' Hm [Hf Hc]. split; [done|]. intros k Hk. rewrite Hm; [by apply Hc|].
  unfold in_page. lia.
Qed.

Lemma lor_V_has v : has v PTE_V = true -> Z.lor (PTE_FLAGS v) PTE_V = PTE_FLAGS v.
Proof.
  rewrite has_flag by done. unfold has. intros Hv. bool_to_prop.
  apply Z.bits_inj'. intros n Hn. rewrite Z.lor_spec.
  destruct (Z.eq_dec n 0) as [->|Hne].
  - change (Z.testbit PTE_V 0) with true. rewrite orb_true_r.
    destruct (Z.testbit (PTE_FLAGS v) 0) eqn:E; [done|]. exfalso. apply Hv.
    apply Z.bits_inj'. intros k Hk. rewrite Z.land_spec, Z.bits_0.
    destruct (Z.eq_dec k 0) as [->|]; [by rewrite E|].
    change PTE_V with (2 ^ 0). by rewrite Z.pow2_bits_false, andb_false_r by lia.
  - change PTE_V with (2 ^ 0). by rewrite Z.pow2_bits_false, orb_false_r by lia.
Qed.

Section copy.
Context `{MemLayout} `{!MemLayoutOk} {A : Type} `{!PageAllocator A} `{!PageAllocatorSpec A}.

(** The parent's page table and pages, beside the child's: [n] mapped pages, and
    neither tables nor pages are free or part of the child's tables. *)
Record parent (s : kstate A) (F : gset Z) (T : tree) (old : Z) (To : tree) (n : nat) : Prop := Parent {
  pa_pt : pt_ok (kmem s) old To;
  pa_max : Z.of_nat n * PGSIZE <= TRAPFRAME;
  pa_all : all_leaves (leaf (kmem s) To) n 0;
  pa_tables p : tpage To p -> p ∉ F /\ ~ tpage T p;
  pa_frames p : p ∈ frames (leaf (kmem s) To) n 0 -> valid_page p /\ p ∉ F /\ ~ tpage T p;
}.

Lemma parent_table_apart s F root T old To n p x :
  owned s F root T -> parent s F T old To n -> tpage To p -> in_page p x -> apart F T x.
Proof.
  intros Hown Hpa Hp Hx. destruct (pa_tables _ _ _ _ _ _ Hpa p Hp) as [HF HT].
  eapply apart_in_page; [|by eapply pt_ok_tpage, Hp; apply (pa_pt _ _ _ _ _ _ Hpa)|done|done|done].
  intros q Hq. by apply (owned_valid _ _ _ _ _ Hown).
Qed.

Lemma parent_frame s F T old To n i :
  parent s F T old To n -> (i < n)%nat ->
  let p := PTE2PA (leaf (kmem s) To (Z.of_nat i * PGSIZE)) in
  valid_page p /\ p ∉ F /\ ~ tpage T p.
Proof.
  intros Hpa Hi p. apply (pa_frames _ _ _ _ _ _ Hpa). apply frames_elem. exists i.
  split; [done|]. by rewrite Z.add_0_l.
Qed.

Lemma parent_frame_apart s F root T old To n i x :
  owned s F root T -> parent s F T old To n -> (i < n)%nat ->
  in_page (PTE2PA (leaf (kmem s) To (Z.of_nat i * PGSIZE))) x -> apart F T x.
Proof.
  intros Hown Hpa Hi Hx. destruct (parent_frame _ _ _ _ _ _ _ Hpa Hi) as (Hv & HF & HT).
  eapply apart_in_page; [|exact Hv|done|done|done].
  intros q Hq. by apply (owned_valid _ _ _ _ _ Hown).
Qed.

(** Reading the parent's entry from a later state. *)
Lemma parent_lookup s0 F0 root T0 old To n s va :
  owned s0 F0 root T0 -> parent s0 F0 T0 old To n ->
  (forall x, apart F0 T0 x -> ld8 (kmem s) x = ld8 (kmem s0) x) ->
  0 <= va < Z.of_nat n * PGSIZE ->
  leaf_addr To va <> 0 /\ walk old va false s = Ok (leaf_addr To va, s) /\
  ld64 (kmem s) (leaf_addr To va) = leaf (kmem s0) To va.
Proof.
  intros Hown Hpa Hfr Hva. pose proof (pa_pt _ _ _ _ _ _ Hpa) as Hpt.
  pose proof (pa_max _ _ _ _ _ _ Hpa). pose proof TRAPFRAME_user.
  assert (Hsame : forall p a, tpage To p -> in_page p a -> ld8 (kmem s) a = ld8 (kmem s0) a).
  { intros p a Hp Ha. apply Hfr. by eapply parent_table_apart. }
  destruct (pa_all _ _ _ _ _ _ Hpa va) as [Hv _]; [lia|].
  assert (Hne : leaf_addr To va <> 0) by (by eapply leaf_addr_of_valid).
  split; [done|]. split.
  - apply (walk_find s old); [by eapply pt_ok_frame|]. unfold user_va, PGSIZE in *. lia.
  - rewrite <- (leaf_frame _ _ To va Hsame). unfold leaf_addr, leaf in *. by destruct (To !! _).
Qed.

Definition copy_result s0 F0 new T0 To (n : nat) (r : Z) (s' : kstate A) : Prop :=
  exists F' T',
    (r = 0 /\ space s' F' new T' n /\
       grown (copy_of (kmem s0) (leaf (kmem s0) To)) s0 F0 T0 0 s' F' T' n) \/
    (r = -1 /\ space s' F' new T' 0 /\ extends s0 F0 T0 s' F' T').

(** The copying loop stops either past the last page or at the page for which
    memory ran out. *)
Definition copy_loop_result s0 F0 new T0 To (n : nat) (r : option Z) (s' : kstate A) : Prop :=
  exists F' T' (i : nat), space s' F' new T' i /\ (i <= n)%nat /\
    grown (copy_of (kmem s0) (leaf (kmem s0) To)) s0 F0 T0 0 s' F' T' i /\
    ((r = None /\ i = n) \/ r = Some (Z.of_nat i * PGSIZE)).

Lemma uvmcopy_loop_ok old new s0 F0 T0 To sz : forall fuel i s F T,
  let n := npages sz in
  space s0 F0 new T0 0 -> parent s0 F0 T0 old To n -> 0 <= sz <= TRAPFRAME ->
  space s F new T i ->
  grown (copy_of (kmem s0) (leaf (kmem s0) To)) s0 F0 T0 0 s F T i ->
  (i <= n)%nat -> (n - i <= fuel)%nat ->
  wp (uvmcopy_loop fuel old new (Z.of_nat i * PGSIZE) sz) s (copy_loop_result s0 F0 new T0 To n).
Proof.
  induction fuel as [|fuel IH]; intros i s F T n Hsp0 Hpa Hsz Hsp Hg Hi Hfuel; cbn [uvmcopy_loop];
    pose proof (npages_bounds sz Hsz) as Hb; fold n in Hb;
    destruct (Z.ltb_spec (Z.of_nat i * PGSIZE) sz) as [Hlt|Hge].
  1: unfold PGSIZE in *; lia.
  1, 3: apply wp_ret; exists F, T, i; assert (i = n) by (unfold PGSIZE in *; lia);
    split_and!; [done|done|done|by left].
  pose proof (sp_own _ _ _ _ _ Hsp0) as Hown0. pose proof (sp_own _ _ _ _ _ Hsp) as Hown.
  pose proof (gr_frame _ _ _ _ _ _ _ _ _ Hg) as Hfr.
  assert (Hva : 0 <= Z.of_nat i * PGSIZE < Z.of_nat n * PGSIZE) by (unfold PGSIZE in *; lia).
  assert (Hin : (i < n)%nat) by (unfold PGSIZE in *; lia).
  destruct (parent_lookup _ _ _ _ _ _ _ s _ Hown0 Hpa Hfr Hva) as (Hne & Ew & El).
  destruct (pa_all _ _ _ _ _ _ Hpa (Z.of_nat i * PGSIZE)) as [HV Hnl]; [lia|].
  apply wp_bind. eapply wp_Ok; [exact Ew|].
  destruct (Z.eqb_spec (leaf_addr To (Z.of_nat i * PGSIZE)) 0) as [|_]; [done|].
  unfold load64. apply wp_bind, wp_gets. rewrite El, HV. cbn [negb].
  set (v := leaf (kmem s0) To (Z.of_nat i * PGSIZE)) in *.
  destruct (parent_frame _ _ _ _ _ _ i Hpa Hin) as (Hvo & HFo & HTo). fold v in Hvo, HFo, HTo.
  apply wp_bind. eapply wp_mono; [by apply (owned_kalloc s F new T)|].
  cbn beta. intros p s1 [(-> & HF & ->)|(Hp0 & Hvp & Hp & HT & Hown1 & Hso & Hl1)].
  { apply wp_ret. exists F, T, i. split_and!; [done|lia|done|by right]. }
  destruct (Z.eqb_spec p 0) as [|_]; [done|]. unfold do_memmove.
  destruct (Z.eqb_spec p 0) as [|_]; [done|]. apply wp_bind, wp_modify. apply wp_bind.
  pose proof (valid_page_range p Hvp) as Hpr. pose proof (valid_page_aligned p Hvp) as Hpa'.
  pose proof (pa_max _ _ _ _ _ _ Hpa) as Hmax.
  assert (HpF0 : p ∈ F0) by (rewrite (gr_free _ _ _ _ _ _ _ _ _ Hg); set_solver).
  assert (Hsrc : forall k, 0 <= k < PGSIZE -> ld8 (kmem s1) (PTE2PA v + k) = ld8 (kmem s0) (PTE2PA v + k)).
  { intros k Hk. rewrite Hso, Hfr; [done| |].
    - eapply (parent_frame_apart s0 F0 new T0 old To n i); try done. unfold in_page. fold v. lia.
    - apply (pages_disjoint (PTE2PA v) p); try done; [by apply valid_page_aligned|by intros E; rewrite E in HFo|].
      unfold in_page. lia. }
  eapply wp_mono.
  { apply (grow_page (copy_of (kmem s0) (leaf (kmem s0) To)) s0 F0 T0 0 s F new T i p (PTE_FLAGS v) s1);
      try done; try lia.
    - apply copy_of_local.
    - apply PTE_FLAGS_range.
    - by rewrite lor_V_has.
    - intros a Ha. by apply ld8_memmove_out.
    - intros m3 Hm3. pose proof (PTE_FLAGS_range v). split.
      + rewrite mkpte_flags by done. by apply lor_V_has.
      + rewrite mkpte_pa by (done || lia). intros k Hk. rewrite Hm3 by (unfold in_page; lia).
        rewrite ld8_memmove_in by lia. replace (p + k - p) with k by lia. by apply Hsrc. }
  cbn beta. intros r s3 [(-> & F' & T' & Hsp' & Hg')|(-> & T' & Hown3 & _ & HT' & _ & Ht & Hf & Hl & Hfr')];
    cbn [negb Z.eqb].
  - replace (u64 (Z.of_nat i * PGSIZE + PGSIZE)) with (Z.of_nat (S i) * PGSIZE).
    + apply (IH _ _ F' T'); try done; unfold PGSIZE in *; lia.
    + rewrite u64_small; [unfold PGSIZE; lia|]. rewrite TRAPFRAME_val in *. unfold PGSIZE in *. lia.
  - apply wp_bind. eapply wp_mono; [by apply (kfree_unmapped s F T s3 new T' p)|]. cbn beta.
    intros _ s4 [Hown4 Hext]. apply wp_ret. exists {[p]}, T', i. split_and!.
    + by eapply space_extends.
    + lia.
    + by eapply grown_extends; [apply copy_of_local|..].
    + by right.
Qed.

(** [uvmcopy]: the child gets copies of the parent's pages, or stays empty. *)
Lemma uvmcopy_ok s F old new T To sz :
  space s F new T 0 -> parent s F T old To (npages sz) -> 0 <= sz <= TRAPFRAME ->
  wp (uvmcopy old new sz) s (copy_result s F new T To (npages sz)).
Proof.
  intros Hsp Hpa Hsz. unfold uvmcopy. apply wp_bind.
  eapply wp_mono.
  { change 0 with (Z.of_nat 0 * PGSIZE) at 1.
    apply (uvmcopy_loop_ok old new s F T To sz _ 0 s F T); try done; [apply grown_refl|lia|].
    pose proof (npages_bounds sz Hsz). unfold PGSIZE in *. Z.to_euclidean_division_equations. lia. }
  cbn beta. intros r s' (F' & T' & i & Hsp' & Hi & Hg & [(-> & ->)| ->]).
  - apply wp_ret. exists F', T'. by left.
  - rewrite Z.div_mul by done. apply wp_bind.
    eapply wp_mono.
    { change 0 with (Z.of_nat 0 * PGSIZE) at 1. replace i with (i - 0)%nat at 1 by lia.
      apply (space_shrink s' F' new T' i 0); [done|lia]. }
    cbn beta zeta. intros _ s2 [Hsp2 Hu]. apply wp_ret. eexists _, T'. right.
    split; [done|]. split; [exact Hsp2|].
    eapply grown_undo; try done; [apply (sp_max _ _ _ _ _ Hsp')|].
    intros va Hva. apply (sp_above _ _ _ _ _ Hsp). pose proof (sp_max _ _ _ _ _ Hsp'). lia.
Qed.

(** ** [kvmcopy] *)

(** The kernel's entry for a user entry: same page, no user permission. *)
Definition kpte (v : Z) : Z := mkpte (PTE2PA v) (Z.land (PTE_FLAGS v) (Z.lnot PTE_U)).

Definition k_range (L Lu : Z -> Z) (lo hi va : Z) : Z :=
  if (lo <=? va) && (va <? hi) then kpte (Lu va) else L va.

Lemma kflags_range v : 0 <= Z.land (PTE_FLAGS v) (Z.lnot PTE_U) < 1024.
Proof.
  pose proof (PTE_FLAGS_range v). split; [apply Z.land_nonneg; lia|].
  assert (E : Z.land (PTE_FLAGS v) (Z.lnot PTE_U) mod 2 ^ 10 = Z.land (PTE_FLAGS v) (Z.lnot PTE_U)).
  { rewrite <- Z.land_ones by lia. rewrite <- Z.land_assoc, (Z.land_comm (Z.lnot _)), Z.land_assoc.
    rewrite Z.land_ones by lia. by rewrite Z.mod_small. }
  rewrite <- E. apply Z.mod_pos_bound. lia.
Qed.

Lemma kpte_leaf v :
  has v RWX = true -> has (kpte v) PTE_V = true /\ PTE_FLAGS (kpte v) <> PTE_V.
Proof.
  intros Hv. pose proof (kflags_range v) as Hk. unfold kpte. split; [exact (mkpte_valid _ _ Hk)|].
  assert (Hr : has (mkpte (PTE2PA v) (Z.land (PTE_FLAGS v) (Z.lnot PTE_U))) RWX = true).
  { apply mkpte_has; [exact Hk|done|]. rewrite has_flag in Hv by done. unfold has in *.
    rewrite <- Z.land_assoc. change (Z.land (Z.lnot PTE_U) RWX) with RWX. done. }
  intros E. rewrite has_flag, E in Hr by done. done.
Qed.

Lemma k_range_S L Lu lo i va :
  lo <= i -> i mod PGSIZE = 0 -> (forall v, i / PGSIZE = v / PGSIZE -> Lu v = Lu i) ->
  set_leaf (k_range L Lu lo i) i (kpte (Lu i)) va = k_range L Lu lo (i + PGSIZE) va.
Proof.
  intros Hlo Hi HLu. unfold set_leaf, k_range. case_decide as E.
  - rewrite (HLu va E). rewrite same_page in E by done.
    destruct (Z.leb_spec lo va), (Z.ltb_spec va (i + PGSIZE)); cbn; (done || lia).
  - rewrite same_page in E by done.
    destruct (Z.leb_spec lo va), (Z.ltb_spec va i), (Z.ltb_spec va (i + PGSIZE)); cbn;
      (done || unfold PGSIZE in *; lia).
Qed.

Section kvmcopy.
Variables (old new : Z) (s0 : kstate A) (F0 : gset Z) (T0 To : tree) (st n : nat).
Hypothesis (Hown0 : owned s0 F0 new T0) (Hpa : parent s0 F0 T0 old To n).
Hypothesis (Hfree : forall va, Z.of_nat st * PGSIZE <= va < Z.of_nat n * PGSIZE ->
  has (leaf (kmem s0) T0 va) PTE_V = false).

Definition kcopied (i : nat) (F : gset Z) (T : tree) (s : kstate A) : Prop :=
  owned s F new T /\
  remaps s0 F0 T0 s F T (k_range (leaf (kmem s0) T0) (leaf (kmem s0) To)
                           (Z.of_nat st * PGSIZE) (Z.of_nat i * PGSIZE)).

Lemma kvmcopy_loop_ok sz : n = npages sz -> 0 <= sz <= TRAPFRAME -> forall fuel i s F T,
  kcopied i F T s -> (st <= i <= n)%nat -> (n - i <= fuel)%nat ->
  wp (kvmcopy_loop fuel old new (Z.of_nat i * PGSIZE) sz) s (fun r s' =>
    exists F' T' i', kcopied i' F' T' s' /\ (i <= i')%nat /\
      ((r = None /\ i' = n) \/
       (r = Some (Z.of_nat i' * PGSIZE) /\ F' = ∅ /\ (i' < n)%nat))).
Proof.
  intros En Hsz. pose proof (npages_bounds sz Hsz) as Hb. rewrite <- En in Hb.
  pose proof (pa_max _ _ _ _ _ _ Hpa) as Hmax. pose proof TRAPFRAME_user as HTF.
  pose proof TRAPFRAME_val as HTV.
  induction fuel as [|fuel IH]; intros i s F T [Hown Hrm] Hi Hfuel; cbn [kvmcopy_loop];
    destruct (Z.ltb_spec (Z.of_nat i * PGSIZE) sz) as [Hlt|Hge].
  1: unfold PGSIZE in *; lia.
  1, 3: apply wp_ret; exists F, T, i; assert (i = n) by (unfold PGSIZE in *; lia);
    split_and!; [by split|done|by left].
  assert (Hin : (i < n)%nat) by (unfold PGSIZE in *; lia).
  assert (Hva : 0 <= Z.of_nat i * PGSIZE < Z.of_nat n * PGSIZE) by (unfold PGSIZE in *; lia).
  pose proof (rm_frame _ _ _ _ _ _ _ Hrm) as Hfr.
  destruct (parent_lookup _ _ _ _ _ _ _ s _ Hown0 Hpa Hfr Hva) as (Hne & Ew & El).
  destruct (pa_all _ _ _ _ _ _ Hpa (Z.of_nat i * PGSIZE)) as [HV Hnl]; [lia|].
  apply wp_bind. eapply wp_Ok; [exact Ew|].
  destruct (Z.eqb_spec (leaf_addr To (Z.of_nat i * PGSIZE)) 0) as [|_]; [done|].
  unfold load64. apply wp_bind, wp_gets. rewrite El, HV. cbn [negb].
  set (v := leaf (kmem s0) To (Z.of_nat i * PGSIZE)) in *.
  destruct (parent_frame _ _ _ _ _ _ i Hpa Hin) as (Hvo & _ & _). fold v in Hvo.
  pose proof (valid_page_range _ Hvo). pose proof (valid_page_aligned _ Hvo).
  apply wp_bind. eapply wp_mono.
  { apply (mappages_page s F new T (Z.of_nat i * PGSIZE) (PTE2PA v) _); try done; try lia.
    - by apply Z.mod_mul.
    - page_lia.
    - apply kflags_range.
    - rewrite (rm_leaf _ _ _ _ _ _ _ Hrm) by (unfold user_va, PGSIZE in *; lia). unfold k_range.
      destruct (Z.ltb_spec (Z.of_nat i * PGSIZE) (Z.of_nat i * PGSIZE)); [lia|].
      rewrite andb_false_r. apply Hfree. unfold PGSIZE in *. lia. }
  cbn beta. intros r s1 (F1 & T1 & Hown1 & [(-> & Hrm1)|(-> & -> & Hrm1)]); cbn [negb Z.eqb].
  - replace (u64 (Z.of_nat i * PGSIZE + PGSIZE)) with (Z.of_nat (S i) * PGSIZE)
      by (rewrite u64_small; unfold PGSIZE in *; lia).
    eapply wp_mono; [apply (IH (S i) s1 F1 T1); [|lia|lia]|].
    + split; [done|]. eapply remaps_ext; [by eapply remaps_trans|]. intros va Hv.
      replace (Z.of_nat (S i) * PGSIZE) with (Z.of_nat i * PGSIZE + PGSIZE) by (unfold PGSIZE; lia).
      rewrite <- k_range_S.
      * unfold set_leaf. case_decide; [done|]. by apply (rm_leaf _ _ _ _ _ _ _ Hrm).
      * unfold PGSIZE. lia.
      * by apply Z.mod_mul.
      * intros w E. symmetry. by apply leaf_page.
    + cbn beta. intros r s' (F' & T' & i' & Hk & Hle & Hr). exists F', T', i'.
      split_and!; [done|lia|done].
  - apply wp_ret. exists ∅, T1, i. split; [|split; [lia|by right]]. split; [done|].
    eapply remaps_ext; [by eapply remaps_trans|]. intros va Hv.
    by apply (rm_leaf _ _ _ _ _ _ _ Hrm).
Qed.
End kvmcopy.

(** [kvmcopy] on success maps the user pages of [st .. sz); on failure it leaves
    the first [i] pages of the kernel table unmapped, those below [st] too. *)
Lemma kvmcopy_ok s F old new T To st sz :
  owned s F new T -> parent s F T old To (npages sz) ->
  0 <= st <= sz -> sz <= PLIC -> PLIC <= TRAPFRAME ->
  (forall va, PGROUNDUP st <= va < PGROUNDUP sz -> has (leaf (kmem s) T va) PTE_V = false) ->
  (forall va, PGROUNDUP st <= va < PGROUNDUP sz -> has (leaf (kmem s) To va) RWX = true) ->
  all_leaves (leaf (kmem s) T) (npages st) 0 ->
  wp (kvmcopy old new st sz) s (fun r s' => exists F' T', owned s' F' new T' /\
    ((r = 0 /\ remaps s F T s' F' T' (k_range (leaf (kmem s) T) (leaf (kmem s) To)
                                        (PGROUNDUP st) (PGROUNDUP sz))) \/
     (r = -1 /\ exists i, (npages st <= i < npages sz)%nat /\ F' = ∅ /\
        remaps s F T s' F' T' (unmap_range (leaf (kmem s) T) 0 (Z.of_nat i))))).
Proof.
  intros Hown Hpa Hst Hplic HPT Hfree Hrwx Hlow. rewrite !npages_spec in * by lia.
  assert (Hle : (npages st <= npages sz)%nat) by (apply npages_le; lia).
  unfold kvmcopy. destruct (Z.ltb_spec PLIC sz); [lia|]. rewrite npages_spec by lia.
  apply wp_bind. eapply wp_mono.
  { apply (kvmcopy_loop_ok old new s F T To (npages st) (npages sz) Hown Hpa Hfree sz eq_refl ltac:(lia)
             _ (npages st) s F T).
    - split; [done|]. split; [done|set_solver| |done]. intros va Hva. unfold k_range.
      destruct (Z.leb_spec (Z.of_nat (npages st) * PGSIZE) va),
        (Z.ltb_spec va (Z.of_nat (npages st) * PGSIZE)); cbn; (done || lia).
    - lia.
    - pose proof (npages_bounds sz ltac:(lia)). unfold PGSIZE in *. Z.to_euclidean_division_equations. lia. }
  cbn beta. intros r s1 (F1 & T1 & i & [Hown1 Hrm] & Hi & [(-> & ->)|(-> & -> & Hin)]).
  { apply wp_ret. exists F1, T1. split; [done|]. by left. }
  pose proof (pa_max _ _ _ _ _ _ Hpa). pose proof TRAPFRAME_user.
  rewrite Z.div_mul by done. apply wp_bind. eapply wp_mono.
  { apply (uvmunmap_ok s1 ∅ new T1 0 i false); try done.
    - unfold PGSIZE in *. lia.
    - intros va Hva. rewrite (rm_leaf _ _ _ _ _ _ _ Hrm) by (unfold user_va, PGSIZE in *; lia).
      unfold k_range. destruct (Z.leb_spec (Z.of_nat (npages st) * PGSIZE) va); cbn.
      + destruct (Z.ltb_spec va (Z.of_nat i * PGSIZE)); [|lia]. apply kpte_leaf, Hrwx.
        unfold PGSIZE in *. lia.
      + apply Hlow. lia. }
  cbn beta. intros _ s' [Hown' Hl Hm]. apply wp_ret. exists ∅, T1.
  cbn [freed] in Hown'. rewrite (left_id_L ∅ (∪)) in Hown'. split; [done|]. right.
  split; [done|]. exists i. split; [done|]. split; [done|].
  split; [apply (rm_tree _ _ _ _ _ _ _ Hrm)|apply (rm_free _ _ _ _ _ _ _ Hrm)| |].
  2: { intros x Hx. rewrite Hm; [by apply (rm_frame _ _ _ _ _ _ _ Hrm)|]. cbn [freed].
    pose proof (remaps_apart _ _ _ _ _ _ _ _ Hrm Hx) as Hx'. intros p [Hp|Hp]; [set_solver|]. apply Hx'. by right. }
  intros va Hva. rewrite Hl by done. unfold unmap_range. rewrite (rm_leaf _ _ _ _ _ _ _ Hrm) by done. unfold k_range.
  destruct (Z.leb_spec 0 va), (Z.ltb_spec va (0 + Z.of_nat i * PGSIZE)),
    (Z.ltb_spec va (Z.of_nat i * PGSIZE)); cbn; try done; try lia; rewrite ?andb_false_r; try done.
  unfold user_va in *; lia.
Qed.
End copy.
End VmCopy.
