(* ===== verification/VmBytes.v ===== *)
(** * Copying between the kernel and user memory

    [copyout], [copyin] and [copyinstr] go page by page through the user page
    table. Their effect is stated byte by byte, for every length and alignment,
    together with exactly when they fail. *)

From S2P Require Import Prelude.
From S2P Require Import Memory.
From S2P Require Import Riscv.
From S2P Require Import PageAlloc.
From S2P Require Import Vm.
From S2P Require Import VmTree.
From S2P Require Import VmWalk.
From S2P Require Import VmMap.

Module VmBytes.
Import VmTree VmWalk VmMap.

(** The user address is below [MAXVA] and mapped with user permission. *)
Definition umapped (L : Z -> Z) (va : Z) : Prop := va < MAXVA /\ uaddr L va <> 0.

#[export] Instance umapped_dec L va : Decision (umapped L va).
Proof. unfold umapped. apply _. Defined.

(** The physical address of a mapped user byte. *)
Definition upa (L : Z -> Z) (va : Z) : Z := uaddr L va + va mod PGSIZE.

Lemma uaddr_page L va vb :
  (forall a b, a / PGSIZE = b / PGSIZE -> L a = L b) ->
  va / PGSIZE = vb / PGSIZE -> uaddr L va = uaddr L vb.
Proof. intros HL E. unfold uaddr. by rewrite (HL va vb E). Qed.

Lemma uaddr_aligned L va : uaddr L va mod PGSIZE = 0.
Proof. unfold uaddr. destruct (_ && _); [apply PTE2PA_aligned|done]. Qed.

Lemma uaddr_range L va : 0 <= uaddr L va.
Proof.
  unfold uaddr. destruct (_ && _); [|done]. unfold PTE2PA. apply u64_range.
Qed.

(** The part of a copy of [len] bytes at [va] that stays in [va]'s page. *)
Definition chunk (va len : Z) : Z :=
  if len <? PGSIZE - va mod PGSIZE then len else PGSIZE - va mod PGSIZE.

Lemma chunk_bounds va len :
  0 < len ->
  0 < chunk va len <= len /\ va mod PGSIZE + chunk va len <= PGSIZE /\
  (chunk va len < len -> (va + chunk va len) mod PGSIZE = 0).
Proof.
  intros Hl. unfold chunk. assert (0 <= va mod PGSIZE < PGSIZE) by (by apply Z.mod_pos_bound).
  destruct (Z.ltb_spec len (PGSIZE - va mod PGSIZE)); [lia|]. split; [lia|]. split; [lia|].
  intros _. replace (va + (PGSIZE - va mod PGSIZE)) with ((va / PGSIZE + 1) * PGSIZE) by page_lia.
  by apply Z.mod_mul.
Qed.

Lemma chunk_page va len k :
  0 < len -> 0 <= k < chunk va len ->
  (va + k) / PGSIZE = va / PGSIZE /\ (va + k) mod PGSIZE = va mod PGSIZE + k.
Proof. intros Hl Hk. pose proof (chunk_bounds va len Hl). page_lia. Qed.

Section bytes.
Context `{MemLayout} `{!MemLayoutOk} {A : Type} `{!PageAllocator A}.

Abbreviation L s T := (leaf (kmem s) T).

Lemma leaf_pages m T a b : a / PGSIZE = b / PGSIZE -> leaf m T a = leaf m T b.
Proof. apply leaf_page. Qed.

Lemma upa_chunk m T va len k :
  0 < len -> 0 <= k < chunk va len ->
  uaddr (leaf m T) (va + k) = uaddr (leaf m T) va /\
  upa (leaf m T) (va + k) = uaddr (leaf m T) va + va mod PGSIZE + k.
Proof.
  intros Hl Hk. destruct (chunk_page va len k Hl Hk) as [Hd Hm]. unfold upa.
  rewrite Hm. rewrite (uaddr_page _ (va + k) va (leaf_pages m T) Hd). split; [done|lia].
Qed.

Lemma MAXVA_page va : va / PGSIZE * PGSIZE < MAXVA <-> va < MAXVA.
Proof. change MAXVA with (2 ^ 26 * 4096). page_lia. Qed.

(** The lookup at the start of each round. *)
Lemma round_lookup (s : kstate A) root T va :
  pt_ok (kmem s) root T -> 0 <= va ->
  walkaddr root (PGROUNDDOWN va) s =
    Ok (if decide (umapped (L s T) va) then uaddr (L s T) va else 0, s).
Proof.
  intros Hpt Hva. rewrite PGROUNDDOWN_spec.
  replace (va - va mod PGSIZE) with (va / PGSIZE * PGSIZE) by page_lia.
  rewrite (walkaddr_ok s root T) by (done || page_lia).
  assert (Hd : va / PGSIZE * PGSIZE / PGSIZE = va / PGSIZE) by (by apply Z.div_mul).
  rewrite (uaddr_page _ _ _ (leaf_pages (kmem s) T) Hd).
  pose proof (MAXVA_page va) as HM. unfold umapped.
  destruct (Z.ltb_spec (va / PGSIZE * PGSIZE) MAXVA), (decide (va < MAXVA /\ _)) as [[? ?]|Hn];
    try done; try lia.
  destruct (Z.eq_dec (uaddr (L s T) va) 0) as [E|E]; [by rewrite E|]. exfalso. apply Hn. split; [lia|done].
Qed.

(** What [copyin] promises: all bytes copied, or some byte is not mapped. *)
Definition copied_in (m m' : mem) (Lf : Z -> Z) (dst srcva len r : Z) : Prop :=
  (forall x, ~ (dst <= x < dst + len) -> ld8 m' x = ld8 m x) /\
  ((r = 0 /\ forall k, 0 <= k < len ->
      umapped Lf (srcva + k) /\ ld8 m' (dst + k) = ld8 m (upa Lf (srcva + k))) \/
   (r = -1 /\ exists k, 0 <= k < len /\ ~ umapped Lf (srcva + k))).

(** The destination overlaps neither the page table nor the user bytes. *)
Definition kbuf (Lf : Z -> Z) (T : tree) (buf va len : Z) : Prop :=
  0 < buf /\ buf + len < 2 ^ 64 /\
  (forall p x, tpage T p -> in_page p x -> ~ (buf <= x < buf + len)) /\
  (forall k, 0 <= k < len -> umapped Lf (va + k) -> ~ (buf <= upa Lf (va + k) < buf + len)).

Lemma copyin_loop_ok root T : forall fuel dst srcva len s,
  pt_ok (kmem s) root T -> 0 <= srcva -> 0 <= len ->
  len + srcva mod PGSIZE <= Z.of_nat fuel * PGSIZE ->
  kbuf (L s T) T dst srcva len ->
  wp (copyin_loop fuel root dst srcva len) s (fun r s' =>
    copied_in (kmem s) (kmem s') (L s T) dst srcva len r).
Proof.
  induction fuel as [|fuel IH]; intros dst srcva len s Hpt Hva Hlen Hfuel Hbuf;
    cbn [copyin_loop]; destruct (Z.ltb_spec 0 len) as [Hpos|Hz].
  1: exfalso; assert (0 <= srcva mod PGSIZE) by (by apply Z.mod_pos_bound); lia.
  1, 3: apply wp_ret; split; [done|]; left; split; [done|]; intros k Hk; lia.
  rewrite PGROUNDDOWN_spec. rewrite <- PGROUNDDOWN_spec at 1.
  cbv zeta. apply wp_bind. eapply wp_Ok; [by apply round_lookup|].
  case_decide as Hm; cbn [Z.eqb].
  2: { apply wp_ret. split; [done|]. right. split; [done|]. exists 0. by rewrite Z.add_0_r. }
  destruct (Z.eqb_spec (uaddr (L s T) srcva) 0) as [E|_]; [by destruct Hm|].
  replace (srcva - (srcva - srcva mod PGSIZE)) with (srcva mod PGSIZE) by lia.
  fold (chunk srcva len). set (n := chunk srcva len) in *.
  destruct (chunk_bounds srcva len Hpos) as (Hn & Hoff & Hnext). fold n in Hn, Hoff, Hnext.
  destruct Hbuf as (Hb0 & Hb1 & Hbt & Hbu).
  unfold do_memmove. destruct (Z.eqb_spec dst 0) as [|_]; [lia|].
  apply wp_bind, wp_modify.
  set (m1 := memmove (kmem s) dst (uaddr (L s T) srcva + srcva mod PGSIZE) n).
  assert (Hout : forall x, ~ (dst <= x < dst + n) -> ld8 m1 x = ld8 (kmem s) x)
    by (intros x Hx; by apply ld8_memmove_out).
  assert (HT : forall p a, tpage T p -> in_page p a -> ld8 m1 a = ld8 (kmem s) a).
  { intros p a Hp Ha. apply Hout. pose proof (Hbt p a Hp Ha). lia. }
  assert (HL : forall va, leaf m1 T va = L s T va) by (intros va; by apply leaf_frame).
  assert (Hcopy : forall k, 0 <= k < n ->
    umapped (L s T) (srcva + k) /\ ld8 m1 (dst + k) = ld8 (kmem s) (upa (L s T) (srcva + k))).
  { intros k Hk. destruct (upa_chunk (kmem s) T srcva len k Hpos Hk) as [Eu ->].
    split.
    - destruct Hm as [Hmax Hne]. unfold umapped. rewrite Eu. split; [|done].
      destruct (chunk_page srcva len k Hpos Hk) as [Hd _].
      apply MAXVA_page. rewrite Hd. by apply MAXVA_page.
    - unfold m1. rewrite ld8_memmove_in by lia. f_equal. lia. }
  replace (srcva - srcva mod PGSIZE + PGSIZE) with (srcva + (PGSIZE - srcva mod PGSIZE)) by lia.
  destruct (Z.eq_dec n len) as [En|Hne].
  { rewrite En. rewrite Z.sub_diag. destruct fuel; cbn; apply wp_ret;
      (split; [intros x Hx; apply Hout; lia|left; split; [done|]; rewrite <- En; done]). }
  assert (En : n = PGSIZE - srcva mod PGSIZE).
  { unfold n, chunk in *. destruct (Z.ltb_spec len (PGSIZE - srcva mod PGSIZE)); lia. }
  rewrite <- En. destruct Hm as [Hmax Hne0].
  assert (Hmod : 0 <= srcva mod PGSIZE) by (by apply Z.mod_pos_bound).
  rewrite (u64_small (dst + n)), (u64_small (srcva + n))
    by (change MAXVA with (2 ^ 38) in Hmax; unfold PGSIZE in *; lia).
  eapply wp_mono.
  { apply (IH (dst + n) (srcva + n) (len - n) (ksetmem m1 s)); cbn [kmem ksetmem].
    - by eapply pt_ok_frame.
    - lia.
    - lia.
    - rewrite Hnext by lia. unfold PGSIZE in *. lia.
    - split; [lia|]. split; [lia|]. split.
      + intros p x Hp Hx. pose proof (Hbt p x Hp Hx). lia.
      + intros k Hk. unfold umapped, upa, uaddr. rewrite HL. replace (srcva + n + k) with (srcva + (n + k)) by lia.
        intros Hu. pose proof (Hbu (n + k) ltac:(lia) Hu). unfold upa, uaddr in *. lia. }
  cbn beta. cbn [kmem ksetmem]. intros r s' [Hfr Hr]. split.
  { intros x Hx. rewrite Hfr by lia. apply Hout. lia. }
  destruct Hr as [[-> Hc]|(-> & k & Hk & Hnm)]; [left|right]; (split; [done|]).
  - intros k Hk. destruct (Z.lt_ge_cases k n).
    + destruct (Hcopy k ltac:(lia)) as [Hu Hc']. split; [done|]. rewrite Hfr by lia. done.
    + destruct (Hc (k - n) ltac:(lia)) as [Hu Hc'].
      replace (srcva + n + (k - n)) with (srcva + k) in * by lia.
      replace (dst + n + (k - n)) with (dst + k) in * by lia.
      unfold umapped, upa, uaddr in *. rewrite HL in *. split; [done|]. rewrite Hc'.
      apply Hout. pose proof (Hbu k Hk Hu). lia.
  - exists (n + k). split; [lia|]. unfold umapped, uaddr in *. rewrite HL in Hnm.
    by replace (srcva + (n + k)) with (srcva + n + k) by lia.
Qed.

Lemma copy_fuel_ok va len :
  0 <= len -> len + va mod PGSIZE <= Z.of_nat (copy_fuel len) * PGSIZE.
Proof.
  intros Hl. unfold copy_fuel. assert (0 <= va mod PGSIZE < PGSIZE) by (by apply Z.mod_pos_bound).
  page_lia.
Qed.

Lemma copyin_ok (s : kstate A) root T dst srcva len :
  pt_ok (kmem s) root T -> 0 <= srcva -> 0 <= len -> kbuf (L s T) T dst srcva len ->
  wp (copyin root dst srcva len) s (fun r s' =>
    copied_in (kmem s) (kmem s') (L s T) dst srcva len r).
Proof. intros. apply copyin_loop_ok; try done. by apply copy_fuel_ok. Qed.

(** ** [copyout] *)

(** What [copyout] promises. *)
Definition copied_out (m m' : mem) (Lf : Z -> Z) (dstva src len r : Z) : Prop :=
  (forall x, (forall k, 0 <= k < len -> umapped Lf (dstva + k) -> upa Lf (dstva + k) <> x) ->
     ld8 m' x = ld8 m x) /\
  ((r = 0 /\ forall k, 0 <= k < len ->
      umapped Lf (dstva + k) /\ ld8 m' (upa Lf (dstva + k)) = ld8 m (src + k)) \/
   (r = -1 /\ exists k, 0 <= k < len /\ ~ umapped Lf (dstva + k))).

(** The user bytes written are outside the page table and the source, and
    different virtual pages have different physical pages. *)
Definition ubuf (Lf : Z -> Z) (T : tree) (src va len : Z) : Prop :=
  0 <= src /\ src + len < 2 ^ 64 /\
  (forall k, 0 <= k < len -> umapped Lf (va + k) ->
     (forall p, tpage T p -> ~ in_page p (upa Lf (va + k))) /\
     ~ (src <= upa Lf (va + k) < src + len)) /\
  (forall k j, 0 <= k < len -> 0 <= j < len -> umapped Lf (va + k) ->
     uaddr Lf (va + k) = uaddr Lf (va + j) -> (va + k) / PGSIZE = (va + j) / PGSIZE).

Lemma upa_inj Lf va k j :
  uaddr Lf (va + k) mod PGSIZE = 0 -> uaddr Lf (va + j) mod PGSIZE = 0 ->
  (uaddr Lf (va + k) = uaddr Lf (va + j) -> (va + k) / PGSIZE = (va + j) / PGSIZE) ->
  upa Lf (va + k) = upa Lf (va + j) -> k = j.
Proof.
  intros H1' H2' Hinj E. unfold upa in E.
  assert (Eu : uaddr Lf (va + k) = uaddr Lf (va + j)).
  { assert (0 <= (va + k) mod PGSIZE < PGSIZE) by (by apply Z.mod_pos_bound).
    assert (0 <= (va + j) mod PGSIZE < PGSIZE) by (by apply Z.mod_pos_bound). page_lia. }
  specialize (Hinj Eu). page_lia.
Qed.

Lemma copyout_loop_ok root T : forall fuel dstva src len s,
  pt_ok (kmem s) root T -> 0 <= dstva -> 0 <= len ->
  len + dstva mod PGSIZE <= Z.of_nat fuel * PGSIZE ->
  ubuf (L s T) T src dstva len ->
  wp (copyout_loop fuel root dstva src len) s (fun r s' =>
    copied_out (kmem s) (kmem s') (L s T) dstva src len r).
Proof.
  induction fuel as [|fuel IH]; intros dstva src len s Hpt Hva Hlen Hfuel Hbuf;
    cbn [copyout_loop]; destruct (Z.ltb_spec 0 len) as [Hpos|Hz].
  1: exfalso; assert (0 <= dstva mod PGSIZE) by (by apply Z.mod_pos_bound); lia.
  1, 3: apply wp_ret; split; [done|]; left; split; [done|]; intros k Hk; lia.
  rewrite PGROUNDDOWN_spec. rewrite <- PGROUNDDOWN_spec at 1.
  cbv zeta. apply wp_bind. eapply wp_Ok; [by apply round_lookup|].
  case_decide as Hm; cbn [Z.eqb].
  2: { apply wp_ret. split; [done|]. right. split; [done|]. exists 0. by rewrite Z.add_0_r. }
  destruct (Z.eqb_spec (uaddr (L s T) dstva) 0) as [E|_]; [by destruct Hm|].
  replace (dstva - (dstva - dstva mod PGSIZE)) with (dstva mod PGSIZE) by lia.
  fold (chunk dstva len). set (n := chunk dstva len) in *.
  destruct (chunk_bounds dstva len Hpos) as (Hn & Hoff & Hnext). fold n in Hn, Hoff, Hnext.
  assert (Hmod : 0 <= dstva mod PGSIZE) by (by apply Z.mod_pos_bound).
  pose proof (uaddr_range (L s T) dstva) as Hup. destruct Hm as [Hmax Hne0].
  destruct Hbuf as (Hb0 & Hb1 & Hbt & Hinj).
  set (d := uaddr (L s T) dstva + dstva mod PGSIZE) in *.
  unfold do_memmove. destruct (Z.eqb_spec d 0) as [|_]; [lia|].
  apply wp_bind, wp_modify. set (m1 := memmove (kmem s) d src n).
  assert (Hin : forall k, 0 <= k < n -> umapped (L s T) (dstva + k) /\ upa (L s T) (dstva + k) = d + k).
  { intros k Hk. destruct (upa_chunk (kmem s) T dstva len k Hpos Hk) as [Eu ->]. split; [|done].
    unfold umapped. rewrite Eu. split; [|done].
    destruct (chunk_page dstva len k Hpos Hk) as [Hd _]. apply MAXVA_page. rewrite Hd. by apply MAXVA_page. }
  assert (Hout : forall x, ~ (d <= x < d + n) -> ld8 m1 x = ld8 (kmem s) x)
    by (intros x Hx; by apply ld8_memmove_out).
  assert (Hd : forall x, d <= x < d + n -> exists k, 0 <= k < n /\ x = upa (L s T) (dstva + k)).
  { intros x Hx. exists (x - d). split; [lia|]. destruct (Hin (x - d)) as [_ ->]; lia. }
  assert (HT : forall p a, tpage T p -> in_page p a -> ld8 m1 a = ld8 (kmem s) a).
  { intros p a Hp Ha. apply Hout. intros (k & Hk & ->)%Hd. destruct (Hin k Hk) as [Hu _].
    destruct (Hbt k ltac:(lia) Hu) as [Hbt' _]. by apply (Hbt' p). }
  assert (HL : forall va, leaf m1 T va = L s T va) by (intros va; by apply leaf_frame).
  replace (dstva - dstva mod PGSIZE + PGSIZE) with (dstva + (PGSIZE - dstva mod PGSIZE)) by lia.
  assert (Hfirst : forall k, 0 <= k < n -> ld8 m1 (upa (L s T) (dstva + k)) = ld8 (kmem s) (src + k)).
  { intros k Hk. destruct (Hin k Hk) as [_ ->]. unfold m1. rewrite ld8_memmove_in by lia. f_equal. lia. }
  assert (Hfr1 : forall x, (forall k, 0 <= k < n -> upa (L s T) (dstva + k) <> x) ->
    ld8 m1 x = ld8 (kmem s) x).
  { intros x Hx. apply Hout. intros (k & Hk & ->)%Hd. by apply (Hx k). }
  destruct (Z.eq_dec n len) as [En|Hne].
  { rewrite En, Z.sub_diag. destruct fuel; cbn; apply wp_ret.
    all: split; [intros x Hx; apply Hfr1; intros k Hk; apply Hx; [lia|by apply Hin]|].
    all: left; split; [done|]; rewrite <- En; intros k Hk; split; [by apply Hin|by apply Hfirst]. }
  assert (En : n = PGSIZE - dstva mod PGSIZE).
  { unfold n, chunk in *. destruct (Z.ltb_spec len (PGSIZE - dstva mod PGSIZE)); lia. }
  rewrite <- En.
  rewrite (u64_small (src + n)), (u64_small (dstva + n))
    by (change MAXVA with (2 ^ 38) in Hmax; unfold PGSIZE in *; lia).
  assert (HU : forall va, umapped (leaf m1 T) va <-> umapped (L s T) va)
    by (intros va; unfold umapped, uaddr; by rewrite HL).
  assert (HUa : forall va, uaddr (leaf m1 T) va = uaddr (L s T) va)
    by (intros va; unfold uaddr; by rewrite HL).
  assert (HUp : forall va, upa (leaf m1 T) va = upa (L s T) va)
    by (intros va; unfold upa; by rewrite HUa).
  assert (Hsh : forall k, dstva + n + k = dstva + (n + k)) by (intros; lia).
  eapply wp_mono.
  { apply (IH (dstva + n) (src + n) (len - n) (ksetmem m1 s)); cbn [kmem ksetmem].
    - by eapply pt_ok_frame.
    - lia.
    - lia.
    - rewrite Hnext by lia. unfold PGSIZE in *. lia.
    - split; [lia|]. split; [lia|]. split.
      + intros k Hk. rewrite HU, HUp, Hsh. intros Hu.
        destruct (Hbt (n + k) ltac:(lia) Hu) as [Ht Hs]. split; [done|lia].
      + intros k j Hk Hj. rewrite HU, !HUa, !Hsh. apply Hinj; lia. }
  cbn beta. cbn [kmem ksetmem]. intros r s' [Hfr Hr].
  assert (Hkeep : forall k, 0 <= k < n -> ld8 (kmem s') (upa (L s T) (dstva + k)) = ld8 (kmem s) (src + k)).
  { intros k Hk. rewrite Hfr; [by apply Hfirst|]. intros j Hj. rewrite HU, HUp, Hsh. intros Hu E.
    assert (n + j = k); [|lia].
    eapply (upa_inj (L s T)); [apply uaddr_aligned|apply uaddr_aligned|apply Hinj; [lia|lia|done]|done]. }
  split.
  { intros x Hx. rewrite Hfr; [apply Hfr1|].
    - intros k Hk. apply Hx; [lia|by apply Hin].
    - intros k Hk. rewrite HU, HUp, Hsh. apply Hx. lia. }
  destruct Hr as [[-> Hc]|(-> & k & Hk & Hnm)]; [left|right]; (split; [done|]).
  - intros k Hk. destruct (Z.lt_ge_cases k n).
    + split; [apply Hin; lia|apply Hkeep; lia].
    + destruct (Hc (k - n) ltac:(lia)) as [Hu Hc']. rewrite HU, Hsh in Hu. rewrite HUp, Hsh in Hc'.
      replace (n + (k - n)) with k in * by lia. split; [done|]. rewrite Hc'.
      replace (src + n + (k - n)) with (src + k) by lia. apply Hfr1. intros j Hj E.
      destruct (Hbt j ltac:(lia)) as [_ Hs]; [by apply Hin|]. lia.
  - exists (n + k). split; [lia|]. by rewrite HU, Hsh in Hnm.
Qed.

Lemma copyout_ok (s : kstate A) root T dstva src len :
  pt_ok (kmem s) root T -> 0 <= dstva -> 0 <= len -> ubuf (L s T) T src dstva len ->
  wp (copyout root dstva src len) s (fun r s' =>
    copied_out (kmem s) (kmem s') (L s T) dstva src len r).
Proof. intros. apply copyout_loop_ok; try done. by apply copy_fuel_ok. Qed.

(** ** [copyinstr] *)

Lemma copy_chars_ok n : forall p dst max (s : kstate A),
  0 <= dst -> dst + Z.of_nat n < 2 ^ 64 ->
  (forall x, p <= x < p + Z.of_nat n -> ~ (dst <= x < dst + Z.of_nat n)) ->
  wp (copy_chars n p dst max) s (fun '(g, max', dst') s' =>
    let m := kmem s in let m' := kmem s' in
    (forall x, ~ (dst <= x < dst + Z.of_nat n) -> ld8 m' x = ld8 m x) /\
    exists k, 0 <= k <= Z.of_nat n /\
      (forall j, 0 <= j < k -> ld8 m (p + j) <> 0 /\ ld8 m' (dst + j) = ld8 m (p + j)) /\
      ((g = true /\ k < Z.of_nat n /\ ld8 m (p + k) = 0 /\ ld8 m' (dst + k) = 0) \/
       (g = false /\ k = Z.of_nat n /\ max' = max - k /\ dst' = dst + k))).
Proof.
  induction n as [|n IH]; intros p dst max s Hd Hd1 Hsep; cbn [copy_chars].
  { apply wp_ret. split; [done|]. exists 0. split; [lia|]. split; [lia|]. right. split_and!; (done || lia). }
  unfold load8, store8. apply wp_bind, wp_gets. destruct (Z.eqb_spec (ld8 (kmem s) p) 0) as [E|E].
  - apply wp_bind, wp_modify, wp_ret. cbn [kmem ksetmem].
    split; [intros x Hx; apply ld8_st8_ne; lia|].
    exists 0. split; [lia|]. split; [lia|]. left. rewrite !Z.add_0_r. split_and!; [done|lia|done|].
    by rewrite ld8_st8_eq.
  - apply wp_bind, wp_modify. rewrite u64_small by lia. set (c := ld8 (kmem s) p) in *.
    assert (Hsame : forall x, x <> dst -> ld8 (st8 (kmem s) dst c) x = ld8 (kmem s) x)
      by (intros x Hx; apply ld8_st8_ne; done).
    eapply wp_mono.
    { apply (IH (p + 1) (dst + 1) (max - 1) (ksetmem (st8 (kmem s) dst c) s)); try lia.
      intros x Hx. specialize (Hsep x ltac:(lia)). lia. }
    cbn [kmem ksetmem]. intros [[g max'] dst'] s' (Hfr & k & Hk & Hcp & Hr).
    assert (Hc0 : ld8 (kmem s') dst = c).
    { rewrite Hfr, ld8_st8_eq by lia. unfold c. unfold ld8 at 2. apply u8_idemp. }
    split; [intros x Hx; rewrite Hfr by lia; apply Hsame; lia|].
    exists (k + 1). split; [lia|]. split.
    + intros j Hj. destruct (Z.eq_dec j 0) as [->|]; [rewrite !Z.add_0_r; done|].
      destruct (Hcp (j - 1) ltac:(lia)) as [H1' H2'].
      replace (p + 1 + (j - 1)) with (p + j) in * by lia.
      replace (dst + 1 + (j - 1)) with (dst + j) in * by lia.
      specialize (Hsep (p + j) ltac:(lia)). rewrite Hsame in * by lia. done.
    + replace (p + (k + 1)) with (p + 1 + k) by lia. replace (dst + (k + 1)) with (dst + 1 + k) by lia.
      destruct Hr as [(-> & Hlt & Hz & Hz')|(-> & -> & -> & ->)]; [left|right].
      * specialize (Hsep (p + 1 + k) ltac:(lia)). rewrite Hsame in Hz by lia. split_and!; (done || lia).
      * split_and!; (done || lia).
Qed.

(** The first [k] characters at [srcva] were copied, none of them zero. *)
Definition prefix_copied (m m' : mem) (Lf : Z -> Z) (dst srcva k : Z) : Prop :=
  forall j, 0 <= j < k ->
    umapped Lf (srcva + j) /\ ld8 m (upa Lf (srcva + j)) <> 0 /\
    ld8 m' (dst + j) = ld8 m (upa Lf (srcva + j)).

(** What [copyinstr] promises: the string up to and including its zero byte, or
    no zero byte among the first [max] ones that are mapped. *)
Definition copied_str (m m' : mem) (Lf : Z -> Z) (dst srcva max r : Z) : Prop :=
  (forall x, ~ (dst <= x < dst + max) -> ld8 m' x = ld8 m x) /\
  exists k, 0 <= k <= max /\ prefix_copied m m' Lf dst srcva k /\
    ((r = 0 /\ k < max /\ umapped Lf (srcva + k) /\
        ld8 m (upa Lf (srcva + k)) = 0 /\ ld8 m' (dst + k) = 0) \/
     (r = -1 /\ (k = max \/ ~ umapped Lf (srcva + k)))).

Lemma copyinstr_loop_end fuel root dst srcva max b :
  (b = true \/ max <= 0) ->
  copyinstr_loop (A := A) fuel root dst srcva max b = mret (if b then 0 else -1).
Proof.
  intros Hb. destruct fuel; cbn [copyinstr_loop]; destruct b; cbn; try done;
    destruct (Z.ltb_spec 0 max); try done; naive_solver lia.
Qed.

Lemma copyinstr_loop_ok root T : forall fuel dst srcva max s,
  pt_ok (kmem s) root T -> 0 <= srcva -> 0 <= max ->
  max + srcva mod PGSIZE <= Z.of_nat fuel * PGSIZE ->
  kbuf (L s T) T dst srcva max ->
  wp (copyinstr_loop fuel root dst srcva max false) s (fun r s' =>
    copied_str (kmem s) (kmem s') (L s T) dst srcva max r).
Proof.
  induction fuel as [|fuel IH]; intros dst srcva max s Hpt Hva Hlen Hfuel Hbuf;
    (destruct (Z.ltb_spec 0 max) as [Hpos|Hz];
     [|rewrite copyinstr_loop_end by (by right); apply wp_ret; split; [done|]; exists 0;
       split; [lia|]; split; [intros j Hj; lia|right; split; [done|left; lia]]]).
  { exfalso. assert (0 <= srcva mod PGSIZE) by (by apply Z.mod_pos_bound). lia. }
  cbn [copyinstr_loop negb andb]. destruct (Z.ltb_spec 0 max) as [_|]; [|lia].
  rewrite PGROUNDDOWN_spec. rewrite <- PGROUNDDOWN_spec at 1.
  cbv zeta. apply wp_bind. eapply wp_Ok; [by apply round_lookup|].
  case_decide as Hm; cbn [Z.eqb].
  2: { apply wp_ret. split; [done|]. exists 0. split; [lia|]. split; [intros j Hj; lia|].
       right. split; [done|]. right. by rewrite Z.add_0_r. }
  destruct (Z.eqb_spec (uaddr (L s T) srcva) 0) as [E|_]; [by destruct Hm|].
  replace (srcva - (srcva - srcva mod PGSIZE)) with (srcva mod PGSIZE) by lia.
  fold (chunk srcva max). set (n := chunk srcva max) in *.
  destruct (chunk_bounds srcva max Hpos) as (Hn & Hoff & Hnext). fold n in Hn, Hoff, Hnext.
  assert (Hmod : 0 <= srcva mod PGSIZE) by (by apply Z.mod_pos_bound).
  destruct Hbuf as (Hb0 & Hb1 & Hbt & Hbu). destruct Hm as [Hmax Hne0].
  set (p := uaddr (L s T) srcva + srcva mod PGSIZE) in *.
  assert (Hin : forall k, 0 <= k < n -> umapped (L s T) (srcva + k) /\ upa (L s T) (srcva + k) = p + k).
  { intros k Hk. destruct (upa_chunk (kmem s) T srcva max k Hpos Hk) as [Eu ->]. split; [|done].
    unfold umapped. rewrite Eu. split; [|done].
    destruct (chunk_page srcva max k Hpos Hk) as [Hd _]. apply MAXVA_page. rewrite Hd. by apply MAXVA_page. }
  apply wp_bind. eapply wp_mono.
  { apply (copy_chars_ok (Z.to_nat n) p dst max s); [lia|lia|].
    rewrite Z2Nat.id by lia. intros x Hx. destruct (Hin (x - p)) as [Hu Ep]; [lia|].
    pose proof (Hbu (x - p) ltac:(lia) Hu). rewrite Ep in *. lia. }
  rewrite Z2Nat.id by lia. intros [[g max'] dst'] s1 (Hfr & k & Hk & Hcp & Hr).
  assert (Hpre : prefix_copied (kmem s) (kmem s1) (L s T) dst srcva k).
  { intros j Hj. destruct (Hin j ltac:(lia)) as [Hu ->]. destruct (Hcp j Hj). done. }
  destruct Hr as [(-> & Hlt & Hz & Hz')|(-> & -> & -> & ->)].
  { rewrite copyinstr_loop_end by (by left). apply wp_ret.
    split; [intros x Hx; apply Hfr; lia|]. exists k. split; [lia|]. split; [done|]. left.
    destruct (Hin k ltac:(lia)) as [Hu ->]. split_and!; (done || lia). }
  destruct (Z.eq_dec n max) as [En|Hne].
  { rewrite copyinstr_loop_end by (right; lia). apply wp_ret.
    split; [intros x Hx; apply Hfr; lia|]. exists n. split; [lia|]. split; [done|]. right. by split; [|left]. }
  replace (srcva - srcva mod PGSIZE + PGSIZE) with (srcva + (PGSIZE - srcva mod PGSIZE)) by lia.
  assert (En : n = PGSIZE - srcva mod PGSIZE).
  { unfold n, chunk in *. destruct (Z.ltb_spec max (PGSIZE - srcva mod PGSIZE)); lia. }
  rewrite <- En, u64_small by (change MAXVA with (2 ^ 38) in Hmax; unfold PGSIZE in *; lia).
  assert (HT : forall q a, tpage T q -> in_page q a -> ld8 (kmem s1) a = ld8 (kmem s) a).
  { intros q a Hq Ha. apply Hfr. pose proof (Hbt q a Hq Ha). lia. }
  assert (HL : forall va, leaf (kmem s1) T va = L s T va) by (intros va; by apply leaf_frame).
  assert (HU : forall va, umapped (leaf (kmem s1) T) va <-> umapped (L s T) va)
    by (intros va; unfold umapped, uaddr; by rewrite HL).
  assert (HUp : forall va, upa (leaf (kmem s1) T) va = upa (L s T) va)
    by (intros va; unfold upa, uaddr; by rewrite HL).
  assert (Hsh : forall j, srcva + n + j = srcva + (n + j)) by (intros; lia).
  assert (Hsrc : forall j, 0 <= j < max -> umapped (L s T) (srcva + j) ->
    ld8 (kmem s1) (upa (L s T) (srcva + j)) = ld8 (kmem s) (upa (L s T) (srcva + j))).
  { intros j Hj Hu. apply Hfr. pose proof (Hbu j Hj Hu). lia. }
  eapply wp_mono.
  { apply (IH (dst + n) (srcva + n) (max - n) s1).
    - by eapply pt_ok_frame.
    - lia.
    - lia.
    - rewrite Hnext by lia. unfold PGSIZE in *. lia.
    - split; [lia|]. split; [lia|]. split.
      + intros q x Hq Hx. pose proof (Hbt q x Hq Hx). lia.
      + intros j Hj. rewrite HU, HUp, Hsh. intros Hu. pose proof (Hbu (n + j) ltac:(lia) Hu). lia. }
  cbn beta. intros r s' (Hfr' & k & Hk' & Hcp' & Hr).
  split; [intros x Hx; rewrite Hfr' by lia; apply Hfr; lia|].
  exists (n + k). split; [lia|]. split.
  - intros j Hj. destruct (Z.lt_ge_cases j n).
    + destruct (Hpre j ltac:(lia)) as (? & ? & Ec). split_and!; try done. rewrite Hfr' by lia. done.
    + destruct (Hcp' (j - n) ltac:(lia)) as (Hu & Hnz & Ec). rewrite HU, Hsh in Hu.
      rewrite HUp, Hsh in Hnz, Ec. replace (n + (j - n)) with j in * by lia.
      replace (dst + n + (j - n)) with (dst + j) in Ec by lia.
      rewrite Hsrc in * by (done || lia). done.
  - replace (dst + (n + k)) with (dst + n + k) by lia.
    destruct Hr as [(-> & Hlt & Hu & Hz & Hz')|(-> & Hr)]; [left|right].
    + rewrite HU, Hsh in Hu. rewrite HUp, Hsh, Hsrc in Hz by (done || lia). split_and!; (done || lia).
    + split; [done|]. rewrite HU, Hsh in Hr. destruct Hr; [left; lia|by right].
Qed.

Lemma copyinstr_ok (s : kstate A) root T dst srcva max :
  pt_ok (kmem s) root T -> 0 <= srcva -> 0 <= max -> kbuf (L s T) T dst srcva max ->
  wp (copyinstr root dst srcva max) s (fun r s' =>
    copied_str (kmem s) (kmem s') (L s T) dst srcva max r).
Proof. intros. apply copyinstr_loop_ok; try done. by apply copy_fuel_ok. Qed.
End bytes.
End VmBytes.
