(* ===== verification/VmThms.v ===== *)
(** * Theorems about virtual memory (fourth experiment, [vm.c])

    Stated for any allocator that keeps the [PageAllocatorSpec] contract. *)

From S2P Require Import Prelude.
From S2P Require Import Memory.
From S2P Require Import Riscv.
From S2P Require Import PageAlloc.
From S2P Require Import Vm.
From S2P Require Import VmTree.
From S2P Require Import VmWalk.
From S2P Require Import VmMap.
From S2P Require Import VmUser.
From S2P Require Import VmUvm.
From S2P Require Import VmFree.
From S2P Require Import VmCopy.
From S2P Require Import VmBytes.

Module VmThms.
Import VmTree VmWalk VmMap VmUser VmUvm VmFree VmCopy VmBytes.

Section properties.
Context `{MemLayout} `{!MemLayoutOk} {A : Type} `{!PageAllocator A} `{!PageAllocatorSpec A}.

(** What [kvmpa] computes. *)
Lemma kvmpa_ok (s : kstate A) root T va :
  pt_ok (kmem s) root T -> user_va va ->
  kvmpa root va s =
    if has (leaf (kmem s) T va) PTE_V
    then Ok (u64 (PTE2PA (leaf (kmem s) T va) + va mod PGSIZE), s) else Fail (Panic "kvmpa").
Proof.
  intros Hpt Hva. unfold kvmpa. cbv zeta. rewrite (bind_step _ _ _ _ _ (walk_find s root T va Hpt Hva)).
  destruct (Z.eqb_spec (leaf_addr T va) 0) as [E|E].
  - destruct (has (leaf (kmem s) T va) PTE_V) eqn:Ev; [|done].
    by apply (leaf_addr_of_valid _ root) in Ev.
  - unfold load64. rewrite bind_gets.
    assert (Eq : ld64 (kmem s) (leaf_addr T va) = leaf (kmem s) T va).
    { unfold leaf, leaf_addr in *. by destruct (T !! _). }
    rewrite Eq. by destruct (has _ PTE_V).
Qed.

(** The pages that hold the bytes [va .. va + size - 1]. *)
Definition first_page (va : Z) : Z := va / PGSIZE * PGSIZE.
Definition page_count (va size : Z) : Z := (va + size - 1) / PGSIZE - va / PGSIZE + 1.

(** C24: after a successful [mappages] every address of the pages that hold
    [va .. va + size - 1] translates to the corresponding physical address, and
    no other translation has changed; it fails only when no page is free. *)
Theorem mappages_translates s F root T va size pa perm :
  owned s F root T -> 0 <= va -> 0 < size -> va + size <= MAXVA ->
  0 <= pa -> pa mod PGSIZE = 0 -> pa + page_count va size * PGSIZE <= 2 ^ 56 ->
  0 <= perm < 1024 ->
  (forall v, first_page va <= v < first_page va + page_count va size * PGSIZE ->
     has (leaf (kmem s) T v) PTE_V = false) ->
  wp (mappages root va size pa perm) s (fun r s' =>
    exists F' T', owned s' F' root T' /\ (r = 0 \/ (r = -1 /\ F' = ∅)) /\
      (r = 0 -> forall v,
         first_page va <= v < first_page va + page_count va size * PGSIZE ->
         kvmpa root v s' = Ok (pa + (v - first_page va), s')) /\
      (forall v p, user_va v ->
         ~ first_page va <= v < first_page va + page_count va size * PGSIZE ->
         kvmpa root v s = Ok (p, s) -> kvmpa root v s' = Ok (p, s'))).
Proof.
  intros Hown Hva Hsz Hmax Hpa Hpam Hpa1 Hperm Hfree.
  eapply wp_mono; [by apply (mappages_ok s F root T va size pa perm)|]. cbn beta.
  fold (first_page va) (page_count va size).
  intros r s' (F' & T' & k & Hown' & Hrm & Hr). exists F', T'. split; [done|].
  pose proof (own_pt _ _ _ _ Hown) as Hpt. pose proof (own_pt _ _ _ _ Hown') as Hpt'.
  assert (HM : MAXVA = 2 ^ 38) by done.
  assert (Hend : first_page va + page_count va size * PGSIZE <= MAXVA)
    by (unfold first_page, page_count; rewrite HM in *; page_lia).
  assert (Hf0 : 0 <= first_page va) by (unfold first_page; page_lia).
  split; [destruct Hr as [[-> _]|(-> & -> & _)]; auto|]. split.
  - intros -> v Hv. destruct Hr as [[_ ->]|[? _]]; [|done].
    assert (Huv : user_va v) by (unfold user_va; lia).
    rewrite (kvmpa_ok s' root T' v Hpt' Huv), (rm_leaf _ _ _ _ _ _ _ Hrm) by done.
    unfold map_range. destruct (Z.leb_spec (first_page va) v); [|lia].
    destruct (Z.ltb_spec v (first_page va + page_count va size * PGSIZE)); [|lia]. cbn [andb].
    assert (Hoff : 0 <= (v - first_page va) / PGSIZE * PGSIZE < page_count va size * PGSIZE) by page_lia.
    rewrite mkpte_valid, mkpte_pa by (done || page_lia).
    replace (pa + (v - first_page va) / PGSIZE * PGSIZE + v mod PGSIZE) with (pa + (v - first_page va)).
    + rewrite u64_small by lia. done.
    + assert (first_page va mod PGSIZE = 0) by (by apply Z.mod_mul). page_lia.
  - intros v p Huv Hout. rewrite (kvmpa_ok s root T), (kvmpa_ok s' root T') by done.
    rewrite (rm_leaf _ _ _ _ _ _ _ Hrm) by done. unfold map_range.
    assert (k <= page_count va size) by (destruct Hr as [[_ ->]|(_ & _ & ?)]; lia).
    destruct (Z.leb_spec (first_page va) v), (Z.ltb_spec v (first_page va + k * PGSIZE));
      cbn [andb]; try (unfold PGSIZE in *; lia); destruct (has _ PTE_V); naive_solver.
Qed.

(** C18: [uvmalloc] either grows the space to [newsz] bytes, by zeroed pages with
    read, write, execute and user permission taken from the free pages, leaving
    every other mapping and all other memory unchanged; or it returns 0, and
    then the space is as before and every user page it had allocated is free
    again: at most page-table pages were added. *)
Theorem uvmalloc_grows_or_restores s F root T oldsz newsz :
  space s F root T (npages oldsz) -> 0 <= oldsz <= newsz -> newsz <= TRAPFRAME ->
  wp (uvmalloc root oldsz newsz) s (fun r s' => exists F' T',
    (r = newsz /\ space s' F' root T' (npages newsz) /\
       grown fresh_page s F T (npages oldsz) s' F' T' (npages newsz)) \/
    (r = 0 /\ space s' F' root T' (npages oldsz) /\ extends s F T s' F' T')).
Proof. apply uvmalloc_ok. Qed.

(** [uvmdealloc] unmaps exactly the pages above [newsz] and gives exactly
    their physical pages back to the allocator. *)
Theorem uvmdealloc_frees_tail s F root T oldsz newsz :
  space s F root T (npages oldsz) -> 0 <= newsz <= oldsz -> oldsz <= TRAPFRAME ->
  wp (uvmdealloc root oldsz newsz) s (fun r s' =>
    let n := npages newsz in
    let l := frames (leaf (kmem s) T) (npages oldsz - n) (Z.of_nat n * PGSIZE) in
    r = newsz /\ space s' (list_to_set l ∪ F) root T n /\
    forall va, user_va va -> leaf (kmem s') T va =
      unmap_range (leaf (kmem s) T) (Z.of_nat n * PGSIZE) (Z.of_nat (npages oldsz - n)) va).
Proof.
  intros Hsp Hn Ho. eapply wp_mono; [by apply uvmdealloc_ok|]. cbn beta zeta.
  intros r s' (Hr & Hs' & Hu). split_and!; [done|done|apply (um_leaf _ _ _ _ _ _ _ _ Hu)].
Qed.

(** The life of an address space: create it, grow it to [sz] bytes, free it. *)
Definition lifecycle (sz : Z) : M (kstate A) unit :=
  root ← uvmcreate;
  if root =? 0 then mret tt else
  r ← uvmalloc root 0 sz;
  uvmfree root (if r =? 0 then 0 else sz).

(** creating an address space, growing it and freeing it returns every page:
    the free set at the end is the one at the start, also when memory runs out
    half way. *)
Theorem address_space_lifecycle s F sz :
  al_ok s F -> 0 < sz <= TRAPFRAME ->
  wp (lifecycle sz) s (fun _ s' => al_ok s' F).
Proof.
  intros Hal Hsz. unfold lifecycle. apply wp_bind. eapply wp_mono; [by apply uvmcreate_ok|].
  cbn beta. intros r s1 [(-> & -> & ->)|(Hr & Hsp & Hl0 & _)]; [by apply wp_ret|].
  assert (Hv : valid_page r) by exact (al_ok_valid _ _ _ Hal Hr).
  destruct (Z.eqb_spec r 0) as [->|_]; [apply valid_page_range in Hv; lia|].
  assert (Hp0 : pages {[ [] := r ]} = {[r]}) by (unfold pages; apply map_img_singleton_L).
  apply wp_bind. eapply wp_mono; [apply (uvmalloc_ok s1 (F ∖ {[r]}) r {[ [] := r ]} 0 sz Hsp); lia|].
  cbn beta. intros x s2 (F' & T' & [(-> & Hsp2 & Hg)|(-> & Hsp2 & He)]).
  - destruct (Z.eqb_spec sz 0); [lia|]. eapply wp_mono; [apply (uvmfree_ok s2 F' r T' sz Hsp2); [lia|]|].
    + intros va Hva. pose proof (sp_max _ _ _ _ _ Hsp2).
      rewrite (gr_leaf _ _ _ _ _ _ _ _ _ Hg); [apply Hl0|unfold user_va; rewrite TRAPFRAME_val in *; lia|].
      change (npages 0) with 0%nat. unfold PGSIZE in *. lia.
    + cbn beta. intros _ s3 Hal3. replace F with
        (pages T' ∪ (list_to_set (frames (leaf (kmem s2) T') (npages sz) 0) ∪ F')); [done|].
      pose proof (gr_free _ _ _ _ _ _ _ _ _ Hg) as HF. change (npages 0) with 0%nat in HF.
      rewrite Nat.sub_0_r in HF. change (Z.of_nat 0 * PGSIZE) with 0 in HF. rewrite Hp0 in HF.
      pose proof (pages_mono _ _ (gr_tree _ _ _ _ _ _ _ _ _ Hg)) as Hsub. rewrite Hp0 in Hsub.
      apply set_eq. intros q. destruct (decide (q = r)) as [->|Hne]; [set_solver|].
      assert (q ∈ F <-> q ∈ F ∖ {[r]}) as -> by set_solver. rewrite HF. set_solver.
  - cbn [Z.eqb]. eapply wp_mono; [apply (uvmfree_ok s2 F' r T' 0 Hsp2); [rewrite TRAPFRAME_val; lia|]|].
    + intros va Hva. rewrite (ext_leaf _ _ _ _ _ _ He); [apply Hl0|].
      unfold user_va. rewrite TRAPFRAME_val in *. lia.
    + cbn beta. intros _ s3 Hal3. change (npages 0) with 0%nat in Hal3. cbn [frames list_to_set] in Hal3.
      replace F with (pages T' ∪ (∅ ∪ F')); [done|].
      pose proof (ext_free _ _ _ _ _ _ He) as HF. rewrite Hp0 in HF.
      pose proof (pages_mono _ _ (ext_tree _ _ _ _ _ _ He)) as Hsub. rewrite Hp0 in Hsub.
      apply set_eq. intros q. destruct (decide (q = r)) as [->|Hne]; [set_solver|].
      assert (q ∈ F <-> q ∈ F ∖ {[r]}) as -> by set_solver. rewrite HF. set_solver.
Qed.

(** [kvmfree] gives back every page of the kernel page table and touches no
    other memory: the pages its leaves map stay allocated and keep their
    contents. *)
Theorem kvmfree_keeps_leaves s F root T :
  owned s F root T ->
  (forall va, user_va va -> leaf (kmem s) T va = 0 \/ has (leaf (kmem s) T va) RWX = true) ->
  wp (kvmfree root) s (fun _ s' => al_ok s' (pages T ∪ F) /\
    forall x, (forall q, tpage T q -> ~ in_page q x) -> ld8 (kmem s') x = ld8 (kmem s) x).
Proof.
  intros Hown Hl. apply kvmfree_ok; [done|]. intros π q i Hπ Hlen Hi. split; [|done].
  eapply (leaves_by_va _ root T (fun v => is_table v = false)); try done; [apply (own_pt _ _ _ _ Hown)|].
  intros va Hva. destruct (Hl va Hva) as [->|Hr]; [done|].
  unfold is_table, has in *. bool_to_prop. destruct (Z.eqb_spec (Z.land (leaf (kmem s) T va) RWX) 0); [done|].
  by rewrite andb_false_r.
Qed.

(** C6: [uvmcopy] gives the child, page by page, a private copy of the parent's
    memory with the parent's permissions, all in pages taken from the free ones;
    when memory runs out it returns -1 and the child is empty again, with every
    copied page freed. The parent's memory is unchanged in both cases. *)
Theorem uvmcopy_duplicates s F old new T To sz :
  space s F new T 0 -> parent s F T old To (npages sz) -> 0 <= sz <= TRAPFRAME ->
  wp (uvmcopy old new sz) s (fun r s' => exists F' T',
    (forall i x, (i < npages sz)%nat ->
       in_page (PTE2PA (leaf (kmem s) To (Z.of_nat i * PGSIZE))) x ->
       ld8 (kmem s') x = ld8 (kmem s) x) /\
    ((r = 0 /\ space s' F' new T' (npages sz) /\
        grown (copy_of (kmem s) (leaf (kmem s) To)) s F T 0 s' F' T' (npages sz)) \/
     (r = -1 /\ space s' F' new T' 0 /\ extends s F T s' F' T'))).
Proof.
  intros Hsp Hpa Hsz. eapply wp_mono; [by apply uvmcopy_ok|]. cbn beta.
  intros r s' (F' & T' & Hr). exists F', T'. split; [|done]. intros i x Hi Hx.
  assert (Ha : apart F T x) by (eapply parent_frame_apart; try done; apply (sp_own _ _ _ _ _ Hsp)).
  destruct Hr as [(_ & _ & Hg)|(_ & _ & He)].
  - by apply (gr_frame _ _ _ _ _ _ _ _ _ Hg).
  - by apply (ext_frame _ _ _ _ _ _ He).
Qed.


(** when [kvmcopy] runs out of memory its error path unmaps from address 0:
    also the pages below [st], which were mapped in the kernel page table before
    the call and were to stay, are gone. *)
Theorem kvmcopy_failure_drops_lower_pages s F old new T To st sz :
  owned s F new T -> parent s F T old To (npages sz) ->
  0 <= st <= sz -> sz <= PLIC -> PLIC <= TRAPFRAME ->
  (forall va, PGROUNDUP st <= va < PGROUNDUP sz -> has (leaf (kmem s) T va) PTE_V = false) ->
  (forall va, PGROUNDUP st <= va < PGROUNDUP sz -> has (leaf (kmem s) To va) RWX = true) ->
  all_leaves (leaf (kmem s) T) (npages st) 0 ->
  wp (kvmcopy old new st sz) s (fun r s' => r = -1 -> exists T', owned s' ∅ new T' /\
    forall va, 0 <= va < PGROUNDUP st ->
      has (leaf (kmem s) T va) PTE_V = true /\ leaf (kmem s') T' va = 0).
Proof.
  intros Hown Hpa Hst Hplic HPT Hfree Hrwx Hlow.
  eapply wp_mono; [by apply (kvmcopy_ok s F old new T To st sz)|]. cbn beta.
  intros r s' (F' & T' & Hown' & [(-> & _)|(-> & i & Hi & -> & [_ _ Hl _])]) Er; [done|].
  exists T'. split; [done|]. rewrite npages_spec by lia. intros va Hva.
  split; [by apply Hlow; lia|]. pose proof (npages_max sz ltac:(lia)).
  rewrite Hl by (unfold user_va; rewrite TRAPFRAME_val in *; unfold PGSIZE in *; change MAXVA with (2 ^ 38); lia).
  unfold unmap_range. destruct (Z.leb_spec 0 va), (Z.ltb_spec va (0 + Z.of_nat i * PGSIZE));
    cbn; try done; unfold PGSIZE in *; lia.
Qed.
End properties.

Section bytes.
Context `{MemLayout} `{!MemLayoutOk} {A : Type} `{!PageAllocator A}.

(** C7: [copyin] returns 0 exactly when every byte of the source range is below
    [MAXVA] and mapped for the user, and then the destination holds those bytes;
    otherwise it returns -1. It writes only to the destination. Any length and
    alignment; the loop ends. *)
Theorem copyin_exact (s : kstate A) root T dst srcva len :
  pt_ok (kmem s) root T -> 0 <= srcva -> 0 <= len ->
  kbuf (leaf (kmem s) T) T dst srcva len ->
  wp (copyin root dst srcva len) s (fun r s' =>
    let L := leaf (kmem s) T in
    (forall x, ~ (dst <= x < dst + len) -> ld8 (kmem s') x = ld8 (kmem s) x) /\
    (r = 0 \/ r = -1) /\
    (r = 0 <-> forall k, 0 <= k < len -> umapped L (srcva + k)) /\
    (r = 0 -> forall k, 0 <= k < len -> ld8 (kmem s') (dst + k) = ld8 (kmem s) (upa L (srcva + k)))).
Proof.
  intros Hpt Hs Hl Hb. eapply wp_mono; [by apply copyin_ok|]. cbn beta zeta.
  intros r s' (Hfr & [[-> Hc]|(-> & k & Hk & Hn)]); (split; [done|]).
  - split; [by left|]. split; [split; [intros _ k Hk; by apply Hc|done]|]. intros _ k Hk. by apply Hc.
  - split; [by right|]. split; [split; [done|intros Hall; by destruct (Hn (Hall k Hk))]|done].
Qed.

(** C8: [copyout] returns 0 exactly when every byte of the destination range is
    below [MAXVA] and mapped for the user, and then those user bytes hold the
    source; otherwise it returns -1. It writes only to bytes of the destination
    range. *)
Theorem copyout_exact (s : kstate A) root T dstva src len :
  pt_ok (kmem s) root T -> 0 <= dstva -> 0 <= len ->
  ubuf (leaf (kmem s) T) T src dstva len ->
  wp (copyout root dstva src len) s (fun r s' =>
    let L := leaf (kmem s) T in
    (forall x, (forall k, 0 <= k < len -> umapped L (dstva + k) -> upa L (dstva + k) <> x) ->
       ld8 (kmem s') x = ld8 (kmem s) x) /\
    (r = 0 \/ r = -1) /\
    (r = 0 <-> forall k, 0 <= k < len -> umapped L (dstva + k)) /\
    (r = 0 -> forall k, 0 <= k < len -> ld8 (kmem s') (upa L (dstva + k)) = ld8 (kmem s) (src + k))).
Proof.
  intros Hpt Hs Hl Hb. eapply wp_mono; [by apply copyout_ok|]. cbn beta zeta.
  intros r s' (Hfr & [[-> Hc]|(-> & k & Hk & Hn)]); (split; [done|]).
  - split; [by left|]. split; [split; [intros _ k Hk; by apply Hc|done]|]. intros _ k Hk. by apply Hc.
  - split; [by right|]. split; [split; [done|intros Hall; by destruct (Hn (Hall k Hk))]|done].
Qed.

(** C19: [copyinstr] copies the string at [srcva] up to and including its zero byte
    and returns 0, or returns -1 because none of the first [max] bytes is zero
    or an unmapped byte comes before one; it never writes more than [max]
    bytes. *)
Theorem copyinstr_exact (s : kstate A) root T dst srcva max :
  pt_ok (kmem s) root T -> 0 <= srcva -> 0 <= max ->
  kbuf (leaf (kmem s) T) T dst srcva max ->
  wp (copyinstr root dst srcva max) s (fun r s' =>
    let L := leaf (kmem s) T in
    (forall x, ~ (dst <= x < dst + max) -> ld8 (kmem s') x = ld8 (kmem s) x) /\
    exists k, 0 <= k <= max /\
      (forall j, 0 <= j < k -> umapped L (srcva + j) /\ ld8 (kmem s) (upa L (srcva + j)) <> 0 /\
         ld8 (kmem s') (dst + j) = ld8 (kmem s) (upa L (srcva + j))) /\
      ((r = 0 /\ k < max /\ umapped L (srcva + k) /\
          ld8 (kmem s) (upa L (srcva + k)) = 0 /\ ld8 (kmem s') (dst + k) = 0) \/
       (r = -1 /\ (k = max \/ ~ umapped L (srcva + k))))).
Proof. apply copyinstr_ok. Qed.

(** Copying out does not change the page table. *)
Lemma copied_out_table (s s' : kstate A) root T dstva src len r :
  pt_ok (kmem s) root T -> ubuf (leaf (kmem s) T) T src dstva len ->
  copied_out (kmem s) (kmem s') (leaf (kmem s) T) dstva src len r ->
  pt_ok (kmem s') root T /\ forall va, leaf (kmem s') T va = leaf (kmem s) T va.
Proof.
  intros Hpt (_ & _ & Hb & _) [Hfr _].
  assert (Hsame : forall p a, tpage T p -> in_page p a -> ld8 (kmem s') a = ld8 (kmem s) a).
  { intros p a Hp Ha. apply Hfr. intros k Hk Hu <-. destruct (Hb k Hk Hu) as [Ht _].
    by apply (Ht p). }
  split; [by eapply pt_ok_frame|]. intros va. by apply leaf_frame.
Qed.

(** what the kernel wrote to a user buffer with [copyout] it reads back with
    [copyin], byte for byte. *)
Theorem copyout_copyin (s : kstate A) root T uva src dst len :
  pt_ok (kmem s) root T -> 0 <= uva -> 0 <= len ->
  ubuf (leaf (kmem s) T) T src uva len -> kbuf (leaf (kmem s) T) T dst uva len ->
  (forall k, 0 <= k < len -> umapped (leaf (kmem s) T) (uva + k)) ->
  wp (r1 ← copyout root uva src len; r2 ← copyin root dst uva len; mret (r1, r2)) s
    (fun r s' => r = (0, 0) /\
       forall k, 0 <= k < len -> ld8 (kmem s') (dst + k) = ld8 (kmem s) (src + k)).
Proof.
  intros Hpt Hu Hl Hub Hkb Hall. apply wp_bind.
  eapply wp_mono; [by apply copyout_ok|]. cbn beta. intros r1 s1 Hout.
  destruct (copied_out_table s s1 root T _ _ _ _ Hpt Hub Hout) as [Hpt1 HL].
  assert (HU : forall va, umapped (leaf (kmem s1) T) va <-> umapped (leaf (kmem s) T) va)
    by (intros va; unfold umapped, uaddr; by rewrite HL).
  assert (HUp : forall va, upa (leaf (kmem s1) T) va = upa (leaf (kmem s) T) va)
    by (intros va; unfold upa, uaddr; by rewrite HL).
  destruct Hout as (_ & [[-> Hc]|(_ & k & Hk & Hn)]); [|by destruct (Hn (Hall k Hk))].
  apply wp_bind. eapply wp_mono.
  { apply (copyin_ok s1 root T dst uva len Hpt1 Hu Hl). destruct Hkb as (? & ? & ? & Hkb).
    split_and!; try done. intros k Hk. rewrite HU, HUp. by apply Hkb. }
  cbn beta. intros r2 s2 (_ & [[-> Hc2]|(_ & k & Hk & Hn)]).
  - apply wp_ret. split; [done|]. intros k Hk. destruct (Hc2 k Hk) as [_ ->]. rewrite HUp. by apply Hc.
  - rewrite HU in Hn. by destruct (Hn (Hall k Hk)).
Qed.
End bytes.
End VmThms.
