(* ===== verification/VmWit.v ===== *)
(** * Virtual memory on a concrete machine

    Sixteen pages of RAM: five are free, one process has one page of user memory
    (three table pages and a data page), and a second page table is empty. The
    theorems of [VmThms] are applied to this state. *)

From S2P Require Import Prelude.
From S2P Require Import Memory.
From S2P Require Import Riscv.
From S2P Require Import PageAlloc.
From S2P Require Import FreeList.
From S2P Require Import KallocSingle.
From S2P Require Import Vm.
From S2P Require Import VmTree.
From S2P Require Import VmWalk.
From S2P Require Import VmMap.
From S2P Require Import VmUser.
From S2P Require Import VmUvm.
From S2P Require Import VmFree.
From S2P Require Import VmCopy.
From S2P Require Import VmBytes.
From S2P Require Import VmThms.

Module VmWit.
Import VmTree VmWalk VmMap VmUser VmUvm VmFree VmCopy VmBytes VmThms.

#[local] Instance board : MemLayout := virt_layout 16.
#[local] Instance board_ok : MemLayoutOk.
Proof. apply virt_layout_ok. lia. Qed.

Definition free_pages : list Z := [0x80024000; 0x80023000; 0x80022000; 0x80021000; 0x80020000].
Definition UR : Z := 0x80028000.
Definition U1 : Z := 0x80029000.
Definition U0 : Z := 0x8002A000.
Definition UD : Z := 0x8002B000.
Definition KR : Z := 0x8002C000.
Definition KB : Z := 0x8002D000.

Definition m_free : mem :=
  push_mem (push_mem (push_mem (push_mem (push_mem (fun _ => 0)
    0x80020000 0) 0x80021000 0x80020000) 0x80022000 0x80021000)
    0x80023000 0x80022000) 0x80024000 0x80023000.

(** The user page table, built as [walk] and [mappages] build it, and two bytes
    of user data. *)
Definition m_tables : mem := link_mem (link_mem m_free UR 0 U1) U1 0 U0.
Definition m_user : mem := st64 m_tables U0 (mkpte UD RWXU).
Definition m_demo : mem := st8 (st8 m_user UD 104) (UD + 1) 105.

Definition demo : kstate kmem_single := KS m_demo (KmemSingle 0x80024000).
Definition F_demo : gset Z := list_to_set free_pages.
Definition T_user : tree := <[ [0; 0] := U0 ]> (<[ [0] := U1 ]> {[ [] := UR ]}).
Definition T_empty : tree := {[ [] := KR ]}.

Lemma pages_valid p :
  p ∈ [UR; U1; U0; UD; KR; KB] -> valid_page p /\ p ∉ F_demo.
Proof.
  intros Hp. repeat (apply elem_of_cons in Hp as [->|Hp]; [split; [reflexivity|];
    unfold F_demo; rewrite elem_of_list_to_set; by apply (bool_decide_unpack _)|]).
  by apply elem_of_nil in Hp.
Qed.

Lemma m_free_ok : KallocSingle.ok (KS m_free (KmemSingle 0x80024000)) F_demo.
Proof.
  exists free_pages. split; [|split; [|done]].
  - repeat split; vm_compute; reflexivity.
  - apply (bool_decide_unpack _). vm_compute. exact I.
Qed.

(** Outside the three table pages and the data page nothing was written. *)
Lemma m_demo_outside a :
  ~ in_page UR a -> ~ in_page U1 a -> ~ in_page U0 a -> ~ in_page UD a ->
  ld8 m_demo a = ld8 m_free a.
Proof.
  intros HR H1' H0' HD. unfold m_demo, m_user, m_tables.
  assert (Hd : a <> UD /\ a <> UD + 1) by (unfold in_page, PGSIZE in *; lia).
  rewrite !ld8_st8_ne by lia. unfold st64. rewrite ld8_st_le_out by (unfold in_page, PGSIZE in *; lia).
  rewrite !link_mem_outside; try done; unfold index; lia.
Qed.

Lemma table_page p : p = UR \/ p = U1 \/ p = U0 -> ~ in_page UD p.
Proof. unfold in_page, PGSIZE, UR, U1, U0, UD. lia. Qed.

Lemma demo_al : al_ok demo F_demo.
Proof.
  change demo with (ksetmem m_demo (KS m_free (KmemSingle 0x80024000))).
  apply al_ok_frame; [exact m_free_ok|]. intros p a Hp Ha. cbn [kmem].
  assert (Hv : valid_page p) by exact (al_ok_valid _ _ _ m_free_ok Hp).
  assert (Hd : forall q, q ∈ [UR; U1; U0; UD; KR; KB] -> ~ in_page q a).
  { intros q Hq. destruct (pages_valid q Hq) as [Hvq HF]. apply (pages_disjoint p q); try done.
    - by apply valid_page_aligned.
    - by apply valid_page_aligned.
    - by intros ->. }
  apply m_demo_outside; apply Hd; set_solver.
Qed.

(** A page that [m_free] leaves zero. *)
Lemma m_free_zero p i : p ∈ [UR; U1; U0; UD; KR; KB] -> index i -> ld64 m_free (p + 8 * i) = 0.
Proof.
  intros Hp Hi. transitivity (ld64 (fun _ => 0) (p + 8 * i)); [|done].
  apply ld64_agree. intros x Hx. unfold m_free.
  assert (Hin : in_page p x) by (by eapply in_page_entry).
  assert (Hd : forall q, q ∈ free_pages -> ~ in_page q x).
  { intros q Hq. destruct (pages_valid p Hp) as [Hv HF].
    assert (HqF : q ∈ F_demo) by (unfold F_demo; by rewrite elem_of_list_to_set).
    apply (pages_disjoint p q); try done.
    - by apply valid_page_aligned.
    - apply valid_page_aligned, (KallocSingle.ok_valid _ _ _ m_free_ok HqF).
    - by intros ->. }
  rewrite !push_mem_outside; [done| | | | |]; apply Hd; unfold free_pages; set_solver.
Qed.

Lemma tables_ok : pt_ok m_tables UR T_user.
Proof.
  assert (H0' : pt_ok m_free UR {[ [] := UR ]}).
  { apply pt_ok_root; [reflexivity|]. intros i Hi. apply m_free_zero; [set_solver|done]. }
  assert (H1' : pt_ok (link_mem m_free UR 0 U1) UR (<[ [0] := U1 ]> {[ [] := UR ]})).
  { apply (pt_ok_grow _ _ _ [] UR 0 U1); [done|done|cbn; lia|unfold index; lia|lia|done|done|].
    intros (π & [_ E]%lookup_singleton_Some). done. }
  apply (pt_ok_grow _ _ _ [0] U1 0 U0); [done|done|cbn; lia|unfold index; lia|done|done|done|].
  intros (π & [[_ E]|[_ [_ E]%lookup_singleton_Some]]%lookup_insert_Some); done.
Qed.

Lemma tables_leaf va : leaf m_tables T_user va = 0.
Proof.
  assert (H0' : pt_ok m_free UR {[ [] := UR ]}).
  { apply pt_ok_root; [reflexivity|]. intros i Hi. apply m_free_zero; [set_solver|done]. }
  assert (H1' : pt_ok (link_mem m_free UR 0 U1) UR (<[ [0] := U1 ]> {[ [] := UR ]})).
  { apply (pt_ok_grow _ _ _ [] UR 0 U1); [done|done|cbn; lia|unfold index; lia|lia|done|done|].
    intros (π & [_ E]%lookup_singleton_Some). done. }
  unfold m_tables, T_user. change [0; 0] with ([0] ++ [0]).
  rewrite (leaf_grow _ UR _ [0] U1 0 U0); [|done|done|cbn; lia|unfold index; lia|done|done|].
  - change [0] with ([] ++ [0]).
    rewrite (leaf_grow _ UR _ [] UR 0 U1); [|done|done|cbn; lia|unfold index; lia|done|done|].
    + apply leaf_root.
    + intros (π & [_ E]%lookup_singleton_Some). done.
  - intros (π & [[_ E]|[_ [_ E]%lookup_singleton_Some]]%lookup_insert_Some); done.
Qed.

Lemma U0_addr va : user_va va -> 0 / PGSIZE = va / PGSIZE -> leaf_addr T_user va = U0.
Proof.
  intros _ E. unfold leaf_addr. destruct (PX_addr_page 0 va E) as (<- & <- & <-).
  change (PX 2 0) with 0. change (PX 1 0) with 0. change (PX 0 0) with 0.
  unfold T_user. rewrite lookup_insert_eq. done.
Qed.

Lemma demo_data_page p a : tpage T_user p -> in_page p a -> ld8 m_demo a = ld8 m_user a.
Proof.
  intros (π & Hπ) Ha. unfold m_demo.
  assert (Hp : p = UR \/ p = U1 \/ p = U0).
  { unfold T_user in Hπ. apply lookup_insert_Some in Hπ as [[_ <-]|[_ Hπ]]; [auto|].
    apply lookup_insert_Some in Hπ as [[_ <-]|[_ Hπ]]; [auto|].
    apply lookup_singleton_Some in Hπ as [_ <-]. auto. }
  unfold in_page, PGSIZE, UR, U1, U0, UD in *. rewrite !ld8_st8_ne by lia. done.
Qed.

Lemma user_pt : pt_ok m_demo UR T_user.
Proof.
  eapply pt_ok_frame; [|exact demo_data_page].
  replace m_user with (st64 m_tables (leaf_addr T_user 0) (mkpte UD RWXU)).
  - apply pt_ok_store; [apply tables_ok|]. by rewrite U0_addr.
  - by rewrite U0_addr.
Qed.

Lemma user_leaf va :
  user_va va -> leaf m_demo T_user va = if decide (0 / PGSIZE = va / PGSIZE) then mkpte UD RWXU else 0.
Proof.
  intros Hva. rewrite (leaf_frame m_user m_demo T_user va demo_data_page).
  replace m_user with (st64 m_tables (leaf_addr T_user 0) (mkpte UD RWXU)) by (by rewrite U0_addr).
  rewrite (leaf_store _ UR) by (apply tables_ok || (by rewrite U0_addr) || done).
  case_decide; [done|apply tables_leaf].
Qed.

Lemma T_user_page p : tpage T_user p -> p ∈ [UR; U1; U0].
Proof.
  intros (π & Hπ). unfold T_user in Hπ.
  apply lookup_insert_Some in Hπ as [[_ <-]|[_ Hπ]]; [set_solver|].
  apply lookup_insert_Some in Hπ as [[_ <-]|[_ Hπ]]; [set_solver|].
  apply lookup_singleton_Some in Hπ as [_ <-]. set_solver.
Qed.

Lemma user_owned : owned demo F_demo UR T_user.
Proof.
  split; [exact demo_al|exact user_pt|]. intros p Hp%T_user_page.
  apply (pages_valid p). set_solver.
Qed.

Lemma user_page0 va : 0 <= va < 1 * PGSIZE -> leaf m_demo T_user va = mkpte UD RWXU.
Proof.
  intros Hva. rewrite user_leaf by (unfold user_va, PGSIZE in *; change MAXVA with (2 ^ 38); lia).
  rewrite decide_True; [done|]. apply same_page; [done|]. unfold PGSIZE in *. lia.
Qed.

Lemma UD_frame : frames (leaf m_demo T_user) 1 0 = [UD].
Proof. cbn [frames]. rewrite user_page0 by (unfold PGSIZE; lia). by rewrite mkpte_pa. Qed.

Lemma UD_not_table : ~ tpage T_user UD.
Proof. intros Hp%T_user_page. revert Hp. by apply (bool_decide_unpack (UD ∉ [UR; U1; U0])). Qed.

Lemma user_space : space demo F_demo UR T_user 1.
Proof.
  split; [exact user_owned|by apply (bool_decide_unpack _)| | |]; cbn [kmem demo].
  - intros va Hva. rewrite user_page0 by (unfold PGSIZE in *; lia). by vm_compute.
  - rewrite UD_frame. split; [apply NoDup_singleton|]. intros p ->%list_elem_of_singleton.
    destruct (pages_valid UD) as [? ?]; [set_solver|]. split_and!; [done|done|apply UD_not_table].
  - intros va Hva. pose proof TRAPFRAME_user.
    rewrite user_leaf by (unfold user_va, PGSIZE in *; lia).
    rewrite decide_False; [done|]. rewrite same_page by done. unfold PGSIZE in *. lia.
Qed.

Lemma empty_space : space demo F_demo KR T_empty 0.
Proof.
  assert (Hz : forall i, index i -> ld64 m_demo (KR + 8 * i) = 0).
  { intros i Hi. rewrite <- (m_free_zero KR i) by (set_solver || done).
    apply ld64_agree. intros x Hx.
    assert (in_page KR x) by (by eapply in_page_entry).
    apply m_demo_outside; unfold in_page, PGSIZE, UR, U1, U0, UD, KR in *; lia. }
  split; [split| | | |]; cbn [kmem demo].
  - exact demo_al.
  - by apply pt_ok_root.
  - intros p (π & Hπ). unfold T_empty in Hπ. apply lookup_singleton_Some in Hπ as [_ <-].
    apply (pages_valid KR). set_solver.
  - by apply (bool_decide_unpack _).
  - intros va Hva. unfold PGSIZE in *. lia.
  - split; [constructor|]. by intros p ?%elem_of_nil.
  - intros va _. apply leaf_root.
Qed.

Lemma user_parent : parent demo F_demo T_empty UR T_user 1.
Proof.
  assert (HK : forall p, p ∈ [UR; U1; U0; UD] -> ~ tpage T_empty p).
  { intros p Hp (π & Hπ). unfold T_empty in Hπ. apply lookup_singleton_Some in Hπ as [_ <-]. revert Hp.
    by apply (bool_decide_unpack (KR ∉ [UR; U1; U0; UD])). }
  split; cbn [kmem demo].
  - exact user_pt.
  - by apply (bool_decide_unpack _).
  - apply (sp_all _ _ _ _ _ user_space).
  - intros p Hp%T_user_page. split; [apply (pages_valid p); set_solver|apply HK; set_solver].
  - rewrite UD_frame. intros p ->%list_elem_of_singleton.
    destruct (pages_valid UD) as [? ?]; [set_solver|]. split_and!; [done|done|apply HK; set_solver].
Qed.

Lemma data_in : in_page (PTE2PA (leaf (kmem demo) T_user (Z.of_nat 0 * PGSIZE))) UD.
Proof.
  cbn [kmem demo]. change (Z.of_nat 0 * PGSIZE) with 0. rewrite user_page0 by (unfold PGSIZE; lia).
  rewrite mkpte_pa by done. unfold in_page, PGSIZE. lia.
Qed.

Lemma data_apart q : tpage T_user q -> ~ in_page q UD.
Proof.
  intros Hq%T_user_page. unfold in_page, PGSIZE, UD, UR, U1, U0 in *.
  repeat (apply elem_of_cons in Hq as [->|Hq]; [lia|]). by apply elem_of_nil in Hq.
Qed.

(** ** The witnesses *)

Lemma user_above va : PGSIZE <= va < TRAPFRAME -> leaf m_demo T_user va = 0.
Proof. intros Hva. apply (sp_above _ _ _ _ _ user_space). unfold PGSIZE in *. lia. Qed.

Lemma mappages_translates_witness :
  exists r s', mappages UR 0x1000 0x1000 0x10000000 6 demo = Ok (r, s') /\
    (r = 0 -> kvmpa UR 0x1234 s' = Ok (0x10000234, s')).
Proof.
  destruct (wp_elim _ _ _ (mappages_translates demo F_demo UR T_user 0x1000 0x1000 0x10000000 6
    user_owned ltac:(lia) ltac:(lia) ltac:(by apply (bool_decide_unpack _)) ltac:(lia) eq_refl
    ltac:(by apply (bool_decide_unpack _)) ltac:(lia)
    ltac:(intros v Hv; change (first_page 0x1000) with 0x1000 in Hv;
          change (page_count 0x1000 0x1000) with 1 in Hv; cbn [kmem demo];
          rewrite user_above by (rewrite TRAPFRAME_val; unfold PGSIZE in *; lia); reflexivity)))
    as (r & s' & E & F' & T' & _ & _ & Hr & _).
  exists r, s'. split; [exact E|]. intros Er. apply (Hr Er). by apply (bool_decide_unpack _).
Defined.

Lemma uvmalloc_witness :
  exists r s', uvmalloc UR 4096 8192 demo = Ok (r, s') /\ (r = 8192 \/ r = 0).
Proof.
  destruct (wp_elim _ _ _ (uvmalloc_grows_or_restores demo F_demo UR T_user 4096 8192
    user_space ltac:(lia) ltac:(rewrite TRAPFRAME_val; lia))) as (r & s' & E & F' & T' & Hr).
  exists r, s'. split; [exact E|]. destruct Hr as [[-> _]|[-> _]]; auto.
Defined.

Lemma uvmdealloc_witness :
  exists s', uvmdealloc UR 4096 0 demo = Ok (0, s') /\ al_ok s' ({[UD]} ∪ F_demo).
Proof.
  destruct (wp_elim _ _ _ (uvmdealloc_frees_tail demo F_demo UR T_user 4096 0
    user_space ltac:(lia) ltac:(rewrite TRAPFRAME_val; lia))) as (r & s' & E & -> & Hs & _).
  exists s'. split; [exact E|]. pose proof (own_al _ _ _ _ (sp_own _ _ _ _ _ Hs)) as Hal.
  change (npages 4096 - npages 0)%nat with 1%nat in Hal.
  change (Z.of_nat (npages 0) * PGSIZE) with 0 in Hal. cbn [kmem demo] in Hal.
  rewrite UD_frame in Hal. cbn [list_to_set] in Hal. by rewrite (right_id_L ∅ (∪)) in Hal.
Defined.

Lemma lifecycle_witness : exists s', lifecycle 4096 demo = Ok (tt, s') /\ al_ok s' F_demo.
Proof.
  destruct (wp_elim _ _ _ (address_space_lifecycle demo F_demo 4096 demo_al
    ltac:(rewrite TRAPFRAME_val; lia))) as ([] & s' & E & Hal).
  exists s'. split; [exact E|exact Hal].
Defined.

Lemma kvmfree_witness :
  exists s', kvmfree UR demo = Ok (tt, s') /\ ld8 (kmem s') UD = 104.
Proof.
  destruct (wp_elim _ _ _ (kvmfree_keeps_leaves demo F_demo UR T_user user_owned
    ltac:(intros va Hva; cbn [kmem demo]; rewrite user_leaf by exact Hva;
          case_decide; [right; reflexivity|left; reflexivity])))
    as ([] & s' & E & _ & Hm).
  exists s'. split; [exact E|]. rewrite (Hm UD data_apart). vm_compute. reflexivity.
Defined.

Lemma uvmcopy_witness :
  exists r s', uvmcopy UR KR 4096 demo = Ok (r, s') /\ ld8 (kmem s') UD = 104.
Proof.
  destruct (wp_elim _ _ _ (uvmcopy_duplicates demo F_demo UR KR T_empty T_user 4096
    empty_space user_parent ltac:(rewrite TRAPFRAME_val; lia))) as (r & s' & E & F' & T' & Hp & _).
  exists r, s'. split; [exact E|]. rewrite (Hp 0%nat UD ltac:(change (npages 4096) with 1%nat; lia) data_in). vm_compute. reflexivity.
Defined.


(** The same call, for the theorem about its error path. *)
Lemma kvmcopy_failure_witness :
  exists r s', kvmcopy UR KR 0 4096 demo = Ok (r, s').
Proof.
  destruct (wp_elim _ _ _ (kvmcopy_failure_drops_lower_pages demo F_demo UR KR T_empty T_user 0 4096
    (sp_own _ _ _ _ _ empty_space) user_parent ltac:(lia)
    ltac:(by apply (bool_decide_unpack _)) ltac:(by apply (bool_decide_unpack _))
    ltac:(intros va Hva; cbn [kmem demo]; unfold T_empty; rewrite leaf_root; reflexivity)
    ltac:(intros va Hva; cbn [kmem demo]; rewrite user_page0
            by (change (PGROUNDUP 0) with 0 in Hva; change (PGROUNDUP 4096) with 4096 in Hva;
                unfold PGSIZE; lia); reflexivity)
    ltac:(intros va Hva; change (npages 0) with 0%nat in Hva; unfold PGSIZE in Hva; lia)))
    as (r & s' & E & _).
  exists r, s'. exact E.
Defined.

Lemma demo_umapped k : 0 <= k < 3 ->
  umapped (leaf m_demo T_user) k /\ upa (leaf m_demo T_user) k = UD + k /\
  uaddr (leaf m_demo T_user) k = UD.
Proof.
  intros Hk. assert (Eu : uaddr (leaf m_demo T_user) k = UD).
  { unfold uaddr. rewrite user_page0 by (unfold PGSIZE; lia). by vm_compute. }
  unfold umapped, upa. rewrite Eu. rewrite Z.mod_small by (unfold PGSIZE; lia).
  split_and!; [|done|done|done]. change MAXVA with (2 ^ 38). lia.
Qed.

Lemma demo_kbuf : kbuf (leaf m_demo T_user) T_user KB 0 3.
Proof.
  split; [done|]. split; [done|]. split.
  - intros p x Hp%T_user_page Hx. unfold in_page, PGSIZE, UR, U1, U0, KB in *.
    repeat (apply elem_of_cons in Hp as [->|Hp]; [lia|]). by apply elem_of_nil in Hp.
  - intros k Hk _. rewrite Z.add_0_l. destruct (demo_umapped k Hk) as (_ & -> & _).
    unfold UD, KB. lia.
Qed.

Lemma demo_ubuf : ubuf (leaf m_demo T_user) T_user KB 0 3.
Proof.
  split; [done|]. split; [done|]. split.
  - intros k Hk _. rewrite Z.add_0_l. destruct (demo_umapped k Hk) as (_ & -> & _). split.
    + intros p Hp%T_user_page. unfold in_page, PGSIZE, UR, U1, U0, UD in *.
      repeat (apply elem_of_cons in Hp as [->|Hp]; [lia|]). by apply elem_of_nil in Hp.
    + unfold UD, KB. lia.
  - intros k j Hk Hj _ _. rewrite !Z.div_small by (unfold PGSIZE; lia). done.
Qed.

Lemma copyin_witness : exists s', copyin UR KB 0 3 demo = Ok (0, s') /\ ld8 (kmem s') KB = 104.
Proof.
  destruct (wp_elim _ _ _ (copyin_exact demo UR T_user KB 0 3 user_pt ltac:(lia) ltac:(lia) demo_kbuf))
    as (r & s' & E & _ & _ & Hiff & Hc).
  assert (Hr : r = 0).
  { apply Hiff. intros k Hk. rewrite Z.add_0_l. by apply demo_umapped. }
  exists s'. rewrite Hr in E. split; [exact E|]. pose proof (Hc Hr 0 ltac:(lia)) as Hc0.
  rewrite !Z.add_0_r in Hc0. rewrite Hc0. cbn [kmem demo].
  destruct (demo_umapped 0 ltac:(lia)) as (_ & -> & _). by vm_compute.
Defined.

Lemma copyout_witness : exists s', copyout UR 0 KB 3 demo = Ok (0, s').
Proof.
  destruct (wp_elim _ _ _ (copyout_exact demo UR T_user 0 KB 3 user_pt ltac:(lia) ltac:(lia) demo_ubuf))
    as (r & s' & E & _ & _ & Hiff & _).
  assert (Hr : r = 0).
  { apply Hiff. intros k Hk. rewrite Z.add_0_l. by apply demo_umapped. }
  exists s'. by rewrite Hr in E.
Defined.

Lemma copyinstr_witness : exists r s', copyinstr UR KB 0 3 demo = Ok (r, s').
Proof.
  destruct (wp_elim _ _ _ (copyinstr_exact demo UR T_user KB 0 3 user_pt ltac:(lia) ltac:(lia) demo_kbuf))
    as (r & s' & E & _).
  exists r, s'. exact E.
Defined.

Lemma copyout_copyin_witness :
  exists s', (r1 ← copyout UR 0 KB 3; r2 ← copyin UR KB 0 3; mret (r1, r2)) demo = Ok ((0, 0), s').
Proof.
  destruct (wp_elim _ _ _ (copyout_copyin demo UR T_user 0 KB KB 3 user_pt ltac:(lia) ltac:(lia)
    demo_ubuf demo_kbuf ltac:(intros k Hk; rewrite Z.add_0_l; by apply demo_umapped)))
    as (r & s' & E & -> & _).
  exists s'. exact E.
Defined.

(** The string "hi" on the concrete machine. *)
Example copyinstr_demo :
  match copyinstr UR KB 0 3 demo with
  | Ok (r, s') => (r =? 0) && (ld8 (kmem s') KB =? 104) && (ld8 (kmem s') (KB + 1) =? 105)
                  && (ld8 (kmem s') (KB + 2) =? 0)
  | Fail _ => false
  end = true.
Proof. vm_compute. reflexivity. Qed.
End VmWit.
