(* ===== verification/NewfsDisk.v ===== *)
(** * The file system's disk access (fifth experiment, [newfs.c] and [types.h])

    The constants and on-disk structures of [types.h] with their byte encodings,
    and [newfs_driver_read]/[newfs_driver_write], which turn reads and writes of
    any offset and size into transfers of whole device blocks. The device driver
    ([ddriver]) is not part of the repository: it is an interface with the
    behaviour its header documents. *)

From S2P Require Import Prelude.
From S2P Require Import Memory.

(** ** The device *)

(** [ddriver_seek], [ddriver_read] and [ddriver_write] of one I/O unit, and the
    two [ioctl]s the file system uses. *)
Class Ddriver (D : Type) : Type := {
  ddriver_seek : D -> Z -> D;
  ddriver_read : D -> list Z * D;
  ddriver_write : D -> list Z -> D;
  ddriver_size : D -> Z;
  ddriver_io_sz : D -> Z;
}.

(** The header's contract: [seek] moves the head to an aligned offset, [read] and
    [write] transfer one unit at the head and advance it. *)
Class DdriverOk (D : Type) `{!Ddriver D} : Type := {
  dd_byte : D -> Z -> Z;
  dd_head : D -> Z;
  io_sz_pos d : 0 < ddriver_io_sz d;
  dd_byte_range d a : 0 <= dd_byte d a < 256;
  seek_ok d o :
    0 <= o <= ddriver_size d -> o mod ddriver_io_sz d = 0 ->
    let d' := ddriver_seek d o in
    dd_head d' = o /\ (forall a, dd_byte d' a = dd_byte d a) /\
    ddriver_size d' = ddriver_size d /\ ddriver_io_sz d' = ddriver_io_sz d;
  read_ok d :
    0 <= dd_head d -> dd_head d + ddriver_io_sz d <= ddriver_size d ->
    let '(l, d') := ddriver_read d in
    l = map (fun i => dd_byte d (dd_head d + Z.of_nat i)) (seq 0 (Z.to_nat (ddriver_io_sz d))) /\
    dd_head d' = dd_head d + ddriver_io_sz d /\ (forall a, dd_byte d' a = dd_byte d a) /\
    ddriver_size d' = ddriver_size d /\ ddriver_io_sz d' = ddriver_io_sz d;
  write_ok d l :
    0 <= dd_head d -> dd_head d + ddriver_io_sz d <= ddriver_size d ->
    length l = Z.to_nat (ddriver_io_sz d) ->
    let d' := ddriver_write d l in
    dd_head d' = dd_head d + ddriver_io_sz d /\
    (forall a, dd_byte d' a =
       match (if dd_head d <=? a then l !! Z.to_nat (a - dd_head d) else None) with
       | Some b => u8 b
       | None => dd_byte d a
       end) /\
    ddriver_size d' = ddriver_size d /\ ddriver_io_sz d' = ddriver_io_sz d;
}.

(** ** Constants of [types.h] *)
Definition UINT8_BITS : nat := 8.
Definition NEWFS_MAGIC_NUM : Z := 0x20011005.
Definition NEWFS_MAX_FILE_NAME : Z := 128.
Definition NEWFS_MAP_INODE_BLOCKS : Z := 1.
Definition NEWFS_MAP_DATA_BLOCKS : Z := 1.
Definition NEWFS_DATA_PER_FILE : Z := 8.
Definition NEWFS_BLOCK_SIZE : Z := 1024.
Definition NEWFS_SUPER_OFS : Z := 0.
Definition NEWFS_MAP_INODE_OFS : Z := 1024.
Definition NEWFS_MAP_DATA_OFS : Z := 2048.
Definition NEWFS_INODE_OFS : Z := 3072.
Definition NEWFS_INODE_SIZE : Z := 32.
Definition NEWFS_INODE_NUM : Z := 3968.
Definition NEWFS_DATA_OFS : Z := 130048.
Definition NEWFS_DATA_SIZE : Z := 1024.
Definition NEWFS_DATA_NUM : Z := 3968.

(** Linux error numbers behind the [NEWFS_ERROR_*] names. *)
Definition NEWFS_ERROR_NONE : Z := 0.
Definition NEWFS_ERROR_SEEK : Z := 29.
Definition NEWFS_ERROR_ISDIR : Z := 21.
Definition NEWFS_ERROR_NOSPACE : Z := 28.
Definition NEWFS_ERROR_EXISTS : Z := 17.
Definition NEWFS_ERROR_NOTFOUND : Z := 2.
Definition NEWFS_ERROR_UNSUPPORTED : Z := 6.

(** [NEWFS_FILE_TYPE]: an enumeration read back from disk, so any integer. *)
Definition NEWFS_FILE : Z := 0.
Definition NEWFS_DIR : Z := 1.
Definition NEWFS_SYM_LINK : Z := 2.

Definition NEWFS_ROUND_DOWN (value round : Z) : Z :=
  if Z.rem value round =? 0 then value else Z.quot value round * round.
Definition NEWFS_ROUND_UP (value round : Z) : Z :=
  if Z.rem value round =? 0 then value else (Z.quot value round + 1) * round.
Definition NEWFS_BLKS_SZ (sz_io : Z) : Z := NEWFS_ROUND_UP NEWFS_BLOCK_SIZE sz_io.
Definition NEWFS_INO_OFS (ino : Z) : Z := NEWFS_INODE_OFS + ino * NEWFS_INODE_SIZE.
Definition NEWFS_DA_OFS (data : Z) : Z :=
  NEWFS_DATA_OFS + data * NEWFS_DATA_PER_FILE * NEWFS_DATA_SIZE.

(** ** Encodings *)

(** Little-endian bytes of an integer, and the [int] in four bytes. *)
Definition le (n : nat) (x : Z) : list Z := map (fun i => u8 (x / 256 ^ Z.of_nat i)) (seq 0 n).

Fixpoint le_val (l : list Z) : Z :=
  match l with
  | [] => 0
  | b :: l' => b + 256 * le_val l'
  end.

Definition get32 (o : nat) (l : list Z) : Z := s32 (le_val (take 4 (drop o l))).

(** [struct newfs_inode_d]: [ino], [size], [link], [ftype], [dir_cnt], padding and
    the pointer [data]. The members nobody assigns hold whatever the stack
    held: [junk]. *)
Record newfs_inode_d : Type := InodeD {
  id_ino : Z;
  id_size : Z;
  id_ftype : Z;
  id_dir_cnt : Z;
}.

Definition enc_inode_d (junk : Z) (x : newfs_inode_d) : list Z :=
  le 4 (id_ino x) ++ le 4 (id_size x) ++ le 4 junk ++ le 4 (id_ftype x) ++
  le 4 (id_dir_cnt x) ++ le 4 junk ++ le 8 junk.

Definition dec_inode_d (l : list Z) : newfs_inode_d :=
  InodeD (get32 0 l) (get32 4 l) (get32 12 l) (get32 16 l).

(** [struct newfs_dentry_d]: [fname], [ftype], [ino] and the unassigned
    [valid]. *)
Record newfs_dentry_d : Type := DentryD {
  dd_fname : list Z;
  dd_ftype : Z;
  dd_ino : Z;
}.

Definition enc_dentry_d (junk : Z) (x : newfs_dentry_d) : list Z :=
  dd_fname x ++ le 4 (dd_ftype x) ++ le 4 (dd_ino x) ++ le 4 junk.

Definition dec_dentry_d (l : list Z) : newfs_dentry_d :=
  DentryD (take 128 l) (get32 128 l) (get32 132 l).

(** [struct newfs_super_d]. *)
Record newfs_super_d : Type := SuperD {
  sd_magic_num : Z;
  sd_map_inode_blks : Z;
  sd_map_inode_offset : Z;
  sd_map_data_blks : Z;
  sd_map_data_offset : Z;
  sd_inode_offset : Z;
  sd_data_offset : Z;
  sd_sz_usage : Z;
}.

Definition enc_super_d (junk : Z) (x : newfs_super_d) : list Z :=
  le 4 (sd_magic_num x) ++ le 4 junk ++ le 4 junk ++ le 4 junk ++ le 4 junk ++ le 4 junk ++
  le 4 (sd_map_inode_blks x) ++ le 4 (sd_map_inode_offset x) ++
  le 4 (sd_map_data_blks x) ++ le 4 (sd_map_data_offset x) ++
  le 4 (sd_inode_offset x) ++ le 4 (sd_data_offset x) ++ le 4 (sd_sz_usage x).

Definition dec_super_d (l : list Z) : newfs_super_d :=
  SuperD (u32 (get32 0 l)) (get32 24 l) (get32 28 l) (get32 32 l) (get32 36 l)
         (get32 40 l) (get32 44 l) (get32 48 l).

Definition sizeof_inode_d : Z := 32.
Definition sizeof_dentry_d : Z := 140.
Definition sizeof_super_d : Z := 52.

(** ** Driver access *)
Section driver.
Context {D : Type} `{!Ddriver D}.

Fixpoint read_loop (fuel : nat) (sz_io size_aligned : Z) : M D (list Z) :=
  if size_aligned =? 0 then mret [] else
  match fuel with
  | O => fail OutOfFuel
  | S fuel' =>
      d ← get;
      let '(l, d') := ddriver_read d in
      put d';;
      k ← read_loop fuel' sz_io (size_aligned - sz_io);
      mret (l ++ k)
  end.

Fixpoint write_loop (fuel : nat) (sz_io size_aligned : Z) (cur : list Z) : M D unit :=
  if size_aligned =? 0 then mret tt else
  match fuel with
  | O => fail OutOfFuel
  | S fuel' =>
      d ← get;
      put (ddriver_write d (take (Z.to_nat sz_io) cur));;
      write_loop fuel' sz_io (size_aligned - sz_io) (drop (Z.to_nat sz_io) cur)
  end.

(** Returns the bytes copied to [out_content]. A negative size is a request for
    a huge block, and a unit of 0 a division by zero. *)
Definition newfs_driver_read (sz_io offset size : Z) : M D (list Z) :=
  if (sz_io <=? 0) || (size <? 0) then fail (Undefined "newfs_driver_read") else
  let offset_aligned := NEWFS_ROUND_DOWN offset (NEWFS_BLKS_SZ sz_io) in
  let bias := offset - offset_aligned in
  let size_aligned := NEWFS_ROUND_UP (size + bias) (NEWFS_BLKS_SZ sz_io) in
  modify (fun d => ddriver_seek d offset_aligned);;
  temp_content ← read_loop (Z.to_nat (size_aligned / sz_io)) sz_io size_aligned;
  mret (take (Z.to_nat size) (drop (Z.to_nat bias) temp_content)).

(** [in_content] is the source object; reading past its end is undefined. *)
Definition newfs_driver_write (sz_io offset : Z) (in_content : list Z) (size : Z) : M D unit :=
  if (sz_io <=? 0) || (size <? 0) || (Z.of_nat (length in_content) <? size)
  then fail (Undefined "newfs_driver_write") else
  let offset_aligned := NEWFS_ROUND_DOWN offset (NEWFS_BLKS_SZ sz_io) in
  let bias := offset - offset_aligned in
  let size_aligned := NEWFS_ROUND_UP (size + bias) (NEWFS_BLKS_SZ sz_io) in
  temp_content ← newfs_driver_read sz_io offset_aligned size_aligned;
  let b := Z.to_nat bias in
  let temp_content := take b temp_content ++ take (Z.to_nat size) in_content ++
                      drop (b + Z.to_nat size) temp_content in
  modify (fun d => ddriver_seek d offset_aligned);;
  write_loop (Z.to_nat (size_aligned / sz_io)) sz_io size_aligned temp_content.
End driver.
