(* ===== verification/NewfsDiskThms.v ===== *)
(** * Disk access of the file system: theorems

    [newfs_driver_read] returns exactly the requested bytes and
    [newfs_driver_write] changes exactly the requested bytes, at any offset and
    size; decoding undoes encoding. *)

From S2P Require Import Prelude.
From S2P Require Import Memory.
From S2P Require Import NewfsDisk.

Module NewfsDiskThms.

Ltac div_lia := Z.to_euclidean_division_equations; nia.

Lemma round_down_spec v B : 0 <= v -> 0 < B -> NEWFS_ROUND_DOWN v B = v - v mod B.
Proof.
  intros Hv HB. unfold NEWFS_ROUND_DOWN. rewrite Z.rem_mod_nonneg, Z.quot_div_nonneg by lia. pose proof (Z.div_mod v B).
  destruct (Z.eqb_spec (v mod B) 0); lia.
Qed.

Lemma round_up_spec v B :
  0 <= v -> 0 < B -> NEWFS_ROUND_UP v B mod B = 0 /\ v <= NEWFS_ROUND_UP v B < v + B.
Proof.
  intros Hv HB. unfold NEWFS_ROUND_UP. rewrite Z.rem_mod_nonneg, Z.quot_div_nonneg by lia. pose proof (Z.div_mod v B). pose proof (Z.mod_pos_bound v B HB).
  destruct (Z.eqb_spec (v mod B) 0).
  - split; [done|lia].
  - rewrite Z.mod_mul by lia. split; [done|]. nia.
Qed.

Lemma blks_sz_spec io : 0 < io -> 0 < NEWFS_BLKS_SZ io /\ NEWFS_BLKS_SZ io mod io = 0.
Proof.
  intros Hio. destruct (round_up_spec NEWFS_BLOCK_SIZE io) as [Hm Hb]; [done|done|].
  split; [|done]. unfold NEWFS_BLKS_SZ, NEWFS_BLOCK_SIZE in *. lia.
Qed.

Lemma blks_sz_512 : NEWFS_BLKS_SZ 512 = 1024.
Proof. reflexivity. Qed.

(** ** Encodings *)

Lemma length_le n x : length (le n x) = n.
Proof. unfold le. by rewrite length_map, length_seq. Qed.

Lemma le_S n x : le (S n) x = u8 x :: le n (x / 256).
Proof.
  unfold le. cbn [seq map]. rewrite Z.div_1_r. f_equal.
  rewrite <- seq_shift, map_map. apply map_ext. intros i. f_equal.
  rewrite Nat2Z.inj_succ, Z.pow_succ_r, Z.div_div by lia. done.
Qed.

Lemma le_val_le n : forall x, le_val (le n x) = x mod 256 ^ Z.of_nat n.
Proof.
  induction n as [|n IH]; intros x; [by rewrite Z.mod_1_r|].
  rewrite le_S. cbn [le_val]. rewrite IH. unfold u8.
  rewrite Nat2Z.inj_succ, Z.pow_succ_r by lia. change (2 ^ 8) with 256.
  rewrite Z.rem_mul_r by lia. lia.
Qed.

Lemma get32_le o l x r :
  drop o l = le 4 x ++ r -> get32 o l = s32 x.
Proof.
  intros E. unfold get32. rewrite E, take_app_length' by (by rewrite length_le).
  rewrite le_val_le. unfold s32, u32. change (256 ^ Z.of_nat 4) with (2 ^ 32).
  by rewrite Zmod_mod.
Qed.

Lemma drop_le o n x r : (n <= o)%nat -> drop o (le n x ++ r) = drop (o - n) r.
Proof. intros Ho. rewrite drop_app_ge by (by rewrite length_le). by rewrite length_le. Qed.

(** Locates one field in an encoding. *)
Ltac field :=
  eapply get32_le; rewrite ?drop_le by lia; cbn [Nat.sub drop]; reflexivity.

Definition int32 (x : Z) : Prop := - 2 ^ 31 <= x < 2 ^ 31.

Lemma dec_enc_inode_d junk x :
  int32 (id_ino x) -> int32 (id_size x) -> int32 (id_ftype x) -> int32 (id_dir_cnt x) ->
  dec_inode_d (enc_inode_d junk x) = x.
Proof.
  intros Hi Hs Hf Hd. destruct x as [i s f d]. cbn in Hi, Hs, Hf, Hd.
  unfold dec_inode_d, enc_inode_d. cbn [id_ino id_size id_ftype id_dir_cnt].
  rewrite <- (s32_small i Hi) at 5; rewrite <- (s32_small s Hs) at 5;
    rewrite <- (s32_small f Hf) at 5; rewrite <- (s32_small d Hd) at 5.
  f_equal; field.
Qed.

Lemma dec_enc_dentry_d junk x :
  length (dd_fname x) = 128%nat -> int32 (dd_ftype x) -> int32 (dd_ino x) ->
  dec_dentry_d (enc_dentry_d junk x) = x.
Proof.
  intros Hl Hf Hi. destruct x as [n f i]. cbn in Hl, Hf, Hi.
  unfold dec_dentry_d, enc_dentry_d. cbn [dd_fname dd_ftype dd_ino].
  assert (Hd : forall o r, (128 <= o)%nat -> drop o (n ++ r) = drop (o - 128) r)
    by (intros o r Ho; rewrite drop_app_ge by lia; by rewrite Hl).
  f_equal.
  - by apply take_app_length'.
  - transitivity (s32 f); [|by apply s32_small].
    eapply get32_le. rewrite Hd by lia. cbn [Nat.sub drop]. reflexivity.
  - transitivity (s32 i); [|by apply s32_small].
    eapply get32_le. rewrite Hd, drop_le by lia. cbn [Nat.sub drop]. reflexivity.
Qed.

Lemma length_enc_inode_d junk x : length (enc_inode_d junk x) = 32%nat.
Proof. unfold enc_inode_d. by rewrite !length_app, !length_le. Qed.

Lemma length_enc_dentry_d junk x :
  length (dd_fname x) = 128%nat -> length (enc_dentry_d junk x) = 140%nat.
Proof. intros Hl. unfold enc_dentry_d. by rewrite !length_app, !length_le, Hl. Qed.

Lemma length_enc_super_d junk x : length (enc_super_d junk x) = 52%nat.
Proof. unfold enc_super_d. by rewrite !length_app, !length_le. Qed.

(** ** Driver access *)
Section driver.
Context {D : Type} `{!Ddriver D} `{!DdriverOk D}.

(** The device's bytes [o .. o + n - 1]. *)
Definition dbytes (d : D) (o : Z) (n : nat) : list Z :=
  map (fun i => dd_byte d (o + Z.of_nat i)) (seq 0 n).

(** Same bytes and geometry. *)
Definition same_disk (d d' : D) : Prop :=
  (forall a, dd_byte d' a = dd_byte d a) /\
  ddriver_size d' = ddriver_size d /\ ddriver_io_sz d' = ddriver_io_sz d.

Lemma length_dbytes d o n : length (dbytes d o n) = n.
Proof. unfold dbytes. by rewrite length_map, length_seq. Qed.

Lemma dbytes_lookup d o n i :
  (i < n)%nat -> dbytes d o n !! i = Some (dd_byte d (o + Z.of_nat i)).
Proof. intros Hi. unfold dbytes. rewrite list_lookup_fmap, lookup_seq_lt by done. done. Qed.

Lemma dbytes_app d o n k : dbytes d o (n + k) = dbytes d o n ++ dbytes d (o + Z.of_nat n) k.
Proof.
  unfold dbytes. rewrite seq_app, map_app. f_equal. cbn.
  rewrite <- (Nat.add_0_r n) at 1. rewrite <- fmap_add_seq. rewrite map_map.
  apply map_ext. intros i. f_equal. lia.
Qed.

Lemma dbytes_ext d d' o n :
  (forall a, o <= a < o + Z.of_nat n -> dd_byte d' a = dd_byte d a) -> dbytes d' o n = dbytes d o n.
Proof.
  intros He. apply list_eq. intros i. destruct (decide (i < n)%nat).
  - rewrite !dbytes_lookup by done. f_equal. apply He. lia.
  - rewrite !lookup_ge_None_2; [done| |]; rewrite length_dbytes; lia.
Qed.

Lemma read_loop_ok io n : forall fuel d,
  ddriver_io_sz d = io -> 0 < io -> 0 <= dd_head d ->
  dd_head d + Z.of_nat n * io <= ddriver_size d -> (n <= fuel)%nat ->
  wp (read_loop fuel io (Z.of_nat n * io)) d (fun l d' =>
    l = dbytes d (dd_head d) (n * Z.to_nat io) /\ same_disk d d').
Proof.
  induction n as [|n IH]; intros fuel d Hio Hpos Hh Hend Hf.
  { assert (E : read_loop fuel io (Z.of_nat 0 * io) = mret []) by (by destruct fuel).
    rewrite E. apply wp_ret. by split; [|split]. }
  destruct fuel as [|fuel]; [lia|]. cbn [read_loop].
  destruct (Z.eqb_spec (Z.of_nat (S n) * io) 0); [lia|].
  unfold get. apply wp_bind. unfold wp at 1.
  pose proof (read_ok d Hh ltac:(rewrite Hio; lia)) as Hr.
  destruct (ddriver_read d) as [l d1]. destruct Hr as (-> & Hh1 & Hb1 & Hs1 & Hi1).
  wp_pure. replace (Z.of_nat (S n) * io - io) with (Z.of_nat n * io) by lia.
  eapply wp_mono; [apply IH; rewrite ?Hi1, ?Hh1, ?Hs1; lia|]. cbn beta.
  intros k d2 (-> & Hb2 & Hs2 & Hi2). apply wp_ret.
  split; [|split_and!; [intros a; by rewrite Hb2|congruence|congruence]].
  cbn [Nat.mul]. rewrite dbytes_app, Hh1, Hio, Z2Nat.id by lia. f_equal.
  unfold dbytes. apply map_ext. intros i. by rewrite Hb1.
Qed.

Lemma write_loop_ok io n : forall fuel d cur,
  ddriver_io_sz d = io -> 0 < io -> 0 <= dd_head d ->
  dd_head d + Z.of_nat n * io <= ddriver_size d -> (n <= fuel)%nat ->
  length cur = (n * Z.to_nat io)%nat ->
  wp (write_loop fuel io (Z.of_nat n * io) cur) d (fun _ d' =>
    (forall a, dd_byte d' a =
       match (if dd_head d <=? a then cur !! Z.to_nat (a - dd_head d) else None) with
       | Some b => u8 b | None => dd_byte d a end) /\
    ddriver_size d' = ddriver_size d /\ ddriver_io_sz d' = ddriver_io_sz d).
Proof.
  induction n as [|n IH]; intros fuel d cur Hio Hpos Hh Hend Hf Hlen.
  { assert (E : write_loop fuel io (Z.of_nat 0 * io) cur = mret tt) by (by destruct fuel).
    rewrite E. apply wp_ret. apply nil_length_inv in Hlen as ->. split; [|done].
    intros a. by destruct (dd_head d <=? a). }
  destruct fuel as [|fuel]; [lia|]. cbn [write_loop].
  destruct (Z.eqb_spec (Z.of_nat (S n) * io) 0); [lia|].
  set (l := take (Z.to_nat io) cur).
  assert (Hl : length l = Z.to_nat io) by (unfold l; rewrite length_take; lia).
  destruct (write_ok d l Hh ltac:(rewrite Hio; lia) ltac:(by rewrite Hio)) as (Hh1 & Hb1 & Hs1 & Hi1).
  unfold get. apply wp_bind. unfold wp at 1. wp_pure.
  replace (Z.of_nat (S n) * io - io) with (Z.of_nat n * io) by lia.
  eapply wp_mono; [apply IH; rewrite ?Hi1, ?Hh1, ?Hs1, ?length_drop; lia|]. cbn beta.
  intros _ d2 (Hb2 & Hs2 & Hi2). split; [|split; congruence]. intros a. rewrite Hb2, Hh1, Hb1, Hio.
  destruct (Z.leb_spec (dd_head d + io) a), (Z.leb_spec (dd_head d) a); try lia; try done.
  - rewrite lookup_drop.
    replace (Z.to_nat io + Z.to_nat (a - (dd_head d + io)))%nat with (Z.to_nat (a - dd_head d)) by lia.
    destruct (cur !! Z.to_nat (a - dd_head d)); [done|].
    rewrite lookup_ge_None_2; [done|]. lia.
  - unfold l. rewrite lookup_take_lt by lia. done.
Qed.

(** The device is a whole number of logical blocks. *)
Definition whole_blocks (d : D) : Prop :=
  ddriver_size d mod NEWFS_BLKS_SZ (ddriver_io_sz d) = 0.

(** The aligned range that covers a request. *)
Lemma aligned_range d offset size :
  whole_blocks d -> 0 <= offset -> 0 <= size -> offset + size <= ddriver_size d ->
  let B := NEWFS_BLKS_SZ (ddriver_io_sz d) in
  let o := NEWFS_ROUND_DOWN offset B in
  let n := NEWFS_ROUND_UP (size + (offset - o)) B in
  0 < B /\ 0 <= o <= offset /\ o mod B = 0 /\ n mod B = 0 /\
  size + (offset - o) <= n /\ o + n <= ddriver_size d /\
  o mod ddriver_io_sz d = 0 /\ exists k, n = Z.of_nat k * ddriver_io_sz d.
Proof.
  intros Hw Ho Hs He B o n. pose proof (io_sz_pos d) as Hio.
  destruct (blks_sz_spec _ Hio) as [HB HBm]. fold B in HB, HBm.
  assert (Eo : o = offset - offset mod B) by (by apply round_down_spec).
  pose proof (Z.mod_le offset B Ho HB) as Hmle.
  pose proof (Z.mod_pos_bound offset B HB) as Hmb. pose proof (Z.div_mod offset B ltac:(lia)) as Hdm.
  assert (Hom : o mod B = 0).
  { rewrite Eo. replace (offset - offset mod B) with (offset / B * B) by lia. apply Z.mod_mul. lia. }
  destruct (round_up_spec (size + (offset - o)) B ltac:(lia) HB) as [Hnm Hnb]. fold n in Hnm, Hnb.
  assert (Hlast : o + n <= ddriver_size d).
  { unfold whole_blocks in Hw. fold B in Hw.
    apply Z.div_exact in Hw; [|lia]. apply Z.div_exact in Hom; [|lia]. apply Z.div_exact in Hnm; [|lia].
    set (x := ddriver_size d / B) in *. set (y := o / B) in *. set (z := n / B) in *.
    assert (y + z <= x); [|nia]. assert (B * (y + z) < B * (x + 1)) by lia. nia. }
  assert (Hoi : o mod ddriver_io_sz d = 0).
  { apply Z.div_exact in Hom; [|lia]. rewrite Hom. apply Z.div_exact in HBm; [|lia]. rewrite HBm.
    rewrite <- Z.mul_assoc, Z.mul_comm. apply Z.mod_mul. lia. }
  assert (Hex : exists k, n = Z.of_nat k * ddriver_io_sz d).
  { apply Z.div_exact in Hnm; [|lia]. apply Z.div_exact in HBm; [|lia].
    assert (0 <= n / B) by (apply Z.div_pos; lia). assert (0 <= B / ddriver_io_sz d) by (apply Z.div_pos; lia).
    exists (Z.to_nat (B / ddriver_io_sz d * (n / B))). rewrite Z2Nat.id by nia.
    rewrite Hnm at 1. rewrite HBm at 1. lia. }
  split_and!; (done || lia).
Qed.

Lemma newfs_driver_read_ok d io offset size :
  ddriver_io_sz d = io -> whole_blocks d -> 0 <= offset -> 0 <= size ->
  offset + size <= ddriver_size d ->
  wp (newfs_driver_read io offset size) d (fun l d' =>
    l = dbytes d offset (Z.to_nat size) /\ same_disk d d').
Proof.
  intros Hio Hw Ho Hs He. pose proof (io_sz_pos d) as Hpos.
  destruct (aligned_range d offset size Hw Ho Hs He) as (HB & Hoo & Hom & Hnm & Hn & Hend & Hoi & k & Hk).
  rewrite Hio in *. unfold newfs_driver_read.
  destruct (Z.leb_spec io 0); [lia|]. destruct (Z.ltb_spec size 0); [lia|]. cbn [orb]. cbv zeta.
  set (o := NEWFS_ROUND_DOWN offset _) in *. set (n := NEWFS_ROUND_UP _ _) in *.
  apply wp_bind, wp_modify.
  assert (Hro : 0 <= o <= ddriver_size d) by lia.
  destruct (seek_ok d o Hro ltac:(by rewrite Hio)) as (Hh & Hb & Hsz & Hi).
  set (d1 := ddriver_seek d o) in *.
  apply wp_bind. rewrite Hk. eapply wp_mono.
  { apply (read_loop_ok io k _ d1); rewrite ?Hi, ?Hh, ?Hsz; try lia. rewrite Z.div_mul by lia. lia. }
  cbn beta. intros l d2 (-> & Hb2 & Hs2 & Hi2). apply wp_ret.
  split; [|split_and!; [intros a; by rewrite Hb2|congruence|congruence]].
  rewrite Hh. assert (Ek : (k * Z.to_nat io)%nat = Z.to_nat n) by nia.
  rewrite Ek. replace (Z.to_nat n) with (Z.to_nat (offset - o) + (Z.to_nat size + (Z.to_nat n - Z.to_nat (offset - o) - Z.to_nat size)))%nat by lia.
  rewrite dbytes_app, drop_app_length' by (by rewrite length_dbytes).
  rewrite dbytes_app, take_app_length' by (by rewrite length_dbytes).
  rewrite Z2Nat.id by lia. replace (o + (offset - o)) with offset by lia.
  apply dbytes_ext. intros a _. apply Hb.
Qed.

Lemma newfs_driver_write_ok d io offset l size :
  ddriver_io_sz d = io -> whole_blocks d -> 0 <= offset -> 0 <= size ->
  offset + size <= ddriver_size d -> size <= Z.of_nat (length l) ->
  wp (newfs_driver_write io offset l size) d (fun _ d' =>
    (forall a, dd_byte d' a =
       if (offset <=? a) && (a <? offset + size)
       then u8 (nth (Z.to_nat (a - offset)) l 0) else dd_byte d a) /\
    ddriver_size d' = ddriver_size d /\ ddriver_io_sz d' = ddriver_io_sz d).
Proof.
  intros Hio Hw Ho Hs He Hl. pose proof (io_sz_pos d) as Hpos.
  destruct (aligned_range d offset size Hw Ho Hs He) as (HB & Hoo & Hom & Hnm & Hn & Hend & Hoi & k & Hk).
  rewrite Hio in *. unfold newfs_driver_write.
  destruct (Z.leb_spec io 0); [lia|]. destruct (Z.ltb_spec size 0); [lia|].
  destruct (Z.ltb_spec (Z.of_nat (length l)) size); [lia|]. cbn [orb]. cbv zeta.
  set (o := NEWFS_ROUND_DOWN offset _) in *. set (n := NEWFS_ROUND_UP _ _) in *.
  apply wp_bind. eapply wp_mono.
  { apply (newfs_driver_read_ok d io o n Hio); [done|lia|lia|lia]. }
  cbn beta. intros t d1 (-> & Hb1 & Hs1 & Hi1). apply wp_bind, wp_modify.
  assert (Hro : 0 <= o <= ddriver_size d1) by (rewrite Hs1; lia).
  destruct (seek_ok d1 o Hro ltac:(by rewrite Hi1, Hio)) as (Hh & Hb & Hsz & Hi).
  set (d2 := ddriver_seek d1 o) in *. rewrite Hk at 2.
  set (b := Z.to_nat (offset - o)). set (sz := Z.to_nat size).
  set (buf := take b (dbytes d o (Z.to_nat n)) ++ take sz l ++ drop (b + sz) (dbytes d o (Z.to_nat n))).
  assert (Hlb : length buf = Z.to_nat n).
  { unfold buf. rewrite !length_app, !length_take, length_drop, length_dbytes. lia. }
  eapply wp_mono.
  { apply (write_loop_ok io k _ d2 buf); rewrite ?Hi, ?Hh, ?Hsz, ?Hi1, ?Hs1;
      first [lia | rewrite Hlb; nia | rewrite Hk, Z.div_mul by lia; lia]. }
  cbn beta. intros _ d3 (Hb3 & Hs3 & Hi3). split; [|split; congruence]. intros a.
  rewrite Hb3, Hh, Hb, Hb1.
  destruct (Z.leb_spec o a) as [Hoa|Hoa].
  2: { destruct (Z.leb_spec offset a); [lia|done]. }
  destruct (decide (Z.to_nat (a - o) < b)%nat) as [Hlt|Hge].
  { unfold buf. rewrite lookup_app_l by (rewrite length_take, length_dbytes; lia).
    rewrite lookup_take_lt, dbytes_lookup by lia. destruct (Z.leb_spec offset a); [lia|].
    cbn [andb]. replace (o + Z.of_nat (Z.to_nat (a - o))) with a by lia. apply u8_small, dd_byte_range. }
  destruct (Z.leb_spec offset a); [|lia]. cbn [andb]. unfold buf.
  rewrite lookup_app_r by (rewrite length_take, length_dbytes; lia).
  rewrite length_take, length_dbytes, Nat.min_l by lia.
  destruct (Z.ltb_spec a (offset + size)).
  - rewrite lookup_app_l by (rewrite length_take; lia).
    rewrite lookup_take_lt by lia. replace (Z.to_nat (a - o) - b)%nat with (Z.to_nat (a - offset)) by lia.
    destruct (l !! Z.to_nat (a - offset)) as [x|] eqn:E.
    + f_equal. symmetry. by apply nth_lookup_Some.
    + apply lookup_ge_None in E. lia.
  - rewrite lookup_app_r by (rewrite length_take; lia). rewrite length_take, Nat.min_l by lia.
    rewrite lookup_drop. replace (b + sz + (Z.to_nat (a - o) - b - sz))%nat with (Z.to_nat (a - o)) by lia.
    destruct (decide (Z.to_nat (a - o) < Z.to_nat n)%nat).
    + rewrite dbytes_lookup by lia. replace (o + Z.of_nat (Z.to_nat (a - o))) with a by lia.
      apply u8_small, dd_byte_range.
    + rewrite lookup_ge_None_2; [done|]. rewrite length_dbytes. lia.
Qed.
End driver.
End NewfsDiskThms.
