(* ===== verification/Newfs.v ===== *)
(** * The file system (fifth experiment, [newfs.c]): model

    In-memory inodes and directory entries are heap objects that point to each
    other; here they live in two finite maps indexed by addresses, with [None]
    for the null pointer, and every member assignment of the source is an update
    of such a map. Dereferencing a null pointer, reading a variable or a heap
    block nobody wrote, and running over the end of a buffer are [Undefined].
    Contents of fresh [malloc] blocks and of unassigned structure members are
    parameters. Strings are lists of non-zero bytes. *)

From S2P Require Import Prelude.
From S2P Require Import Memory.
From S2P Require Import NewfsDisk.

(** [struct newfs_dentry]. *)
Record newfs_dentry : Type := Dentry {
  de_fname : list Z;
  de_ftype : Z;
  de_parent : option nat;
  de_brother : option nat;
  de_ino : Z;
  de_inode : option nat;
  de_valid : Z;
}.

(** [struct newfs_inode]. [in_data] is [None] while the pointer is unset. *)
Record newfs_inode : Type := Inode {
  in_ino : Z;
  in_size : Z;
  in_dir_cnt : Z;
  in_dentry : option nat;
  in_dentrys : option nat;
  in_data : option (list Z);
}.

(** [struct newfs_super]. *)
Record newfs_super : Type := Super {
  sz_io : Z;
  sz_disk : Z;
  sz_usage : Z;
  max_ino : Z;
  max_data : Z;
  map_inode : list Z;
  map_inode_blks : Z;
  map_inode_offset : Z;
  map_data : list Z;
  map_data_blks : Z;
  map_data_offset : Z;
  inode_offset : Z;
  data_offset : Z;
  is_mounted : bool;
  root_dentry : option nat;
}.

(** The program: the super block, the heap and the device. *)
Record newfs (D : Type) : Type := Newfs {
  super : newfs_super;
  dentries : gmap nat newfs_dentry;
  inodes : gmap nat newfs_inode;
  brk : nat;
  device : D;
}.
Arguments Newfs {D} super dentries inodes brk device.
Arguments super {D} n.
Arguments dentries {D} n.
Arguments inodes {D} n.
Arguments brk {D} n.
Arguments device {D} n.

(** What the C implementation leaves open: the contents of the [n]-th block
    [malloc] returns, the value of unassigned members, and the usable size of
    the block [malloc(sizeof(path))], at least the 8 bytes of a pointer. *)
Class Platform : Type := {
  heap_junk : nat -> Z -> list Z;
  stack_junk : Z;
  path_cap : Z;
}.

Class PlatformOk `{Platform} : Prop := {
  heap_junk_length n k : 0 <= k -> Z.of_nat (length (heap_junk n k)) = k;
  heap_junk_bytes n k : Forall (fun b => 0 <= b < 256) (heap_junk n k);
  path_cap_min : 8 <= path_cap;
}.

(** [sizeof(struct newfs_dentry)] on a 64-bit machine. *)
Definition sizeof_dentry : Z := 176.

(** Member updates. *)
Definition set_brother (b : option nat) (d : newfs_dentry) : newfs_dentry :=
  Dentry (de_fname d) (de_ftype d) (de_parent d) b (de_ino d) (de_inode d) (de_valid d).
Definition set_parent (p : option nat) (d : newfs_dentry) : newfs_dentry :=
  Dentry (de_fname d) (de_ftype d) p (de_brother d) (de_ino d) (de_inode d) (de_valid d).
Definition set_ino (i : Z) (d : newfs_dentry) : newfs_dentry :=
  Dentry (de_fname d) (de_ftype d) (de_parent d) (de_brother d) i (de_inode d) (de_valid d).
Definition set_inode (i : option nat) (d : newfs_dentry) : newfs_dentry :=
  Dentry (de_fname d) (de_ftype d) (de_parent d) (de_brother d) (de_ino d) i (de_valid d).
Definition set_dentrys (p : option nat) (i : newfs_inode) : newfs_inode :=
  Inode (in_ino i) (in_size i) (in_dir_cnt i) (in_dentry i) p (in_data i).
Definition set_sizes (size cnt : Z) (i : newfs_inode) : newfs_inode :=
  Inode (in_ino i) size cnt (in_dentry i) (in_dentrys i) (in_data i).
Definition set_content (size : Z) (b : list Z) (i : newfs_inode) : newfs_inode :=
  Inode (in_ino i) size (in_dir_cnt i) (in_dentry i) (in_dentrys i) (Some b).
Definition set_map_inode (m : list Z) (s : newfs_super) : newfs_super :=
  Super (sz_io s) (sz_disk s) (sz_usage s) (max_ino s) (max_data s) m (map_inode_blks s)
    (map_inode_offset s) (map_data s) (map_data_blks s) (map_data_offset s)
    (inode_offset s) (data_offset s) (is_mounted s) (root_dentry s).
Definition set_map_data (m : list Z) (s : newfs_super) : newfs_super :=
  Super (sz_io s) (sz_disk s) (sz_usage s) (max_ino s) (max_data s) (map_inode s) (map_inode_blks s)
    (map_inode_offset s) m (map_data_blks s) (map_data_offset s)
    (inode_offset s) (data_offset s) (is_mounted s) (root_dentry s).

Definition set_sizes_of_device (io disk : Z) (s : newfs_super) : newfs_super :=
  Super io disk (sz_usage s) (max_ino s) (max_data s) (map_inode s) (map_inode_blks s)
    (map_inode_offset s) (map_data s) (map_data_blks s) (map_data_offset s)
    (inode_offset s) (data_offset s) (is_mounted s) (root_dentry s).
Definition set_max (mi md : Z) (s : newfs_super) : newfs_super :=
  Super (sz_io s) (sz_disk s) (sz_usage s) mi md (map_inode s) (map_inode_blks s)
    (map_inode_offset s) (map_data s) (map_data_blks s) (map_data_offset s)
    (inode_offset s) (data_offset s) (is_mounted s) (root_dentry s).
Definition set_maps (usage : Z) (mi : list Z) (mib mio : Z) (md : list Z) (mdb mdo : Z)
    (s : newfs_super) : newfs_super :=
  Super (sz_io s) (sz_disk s) usage (max_ino s) (max_data s) mi mib mio md mdb mdo
    (inode_offset s) (data_offset s) (is_mounted s) (root_dentry s).
Definition set_root (r : option nat) (s : newfs_super) : newfs_super :=
  Super (sz_io s) (sz_disk s) (sz_usage s) (max_ino s) (max_data s) (map_inode s) (map_inode_blks s)
    (map_inode_offset s) (map_data s) (map_data_blks s) (map_data_offset s)
    (inode_offset s) (data_offset s) true r.

(** [struct stat], the members the file system fills in, and the mode bits of
    the C library. *)
Record stat : Type := Stat {
  st_mode : Z;
  st_nlink : Z;
  st_uid : Z;
  st_gid : Z;
  st_size : Z;
  st_atime : Z;
  st_mtime : Z;
  st_blksize : Z;
  st_blocks : Z;
}.

Definition S_IFDIR : Z := 0x4000.
Definition S_IFREG : Z := 0x8000.
Definition S_IFLNK : Z := 0xa000.
Definition S_ISREG (mode : Z) : bool := Z.land mode 0xf000 =? S_IFREG.
Definition S_ISDIR (mode : Z) : bool := Z.land mode 0xf000 =? S_IFDIR.
Definition NEWFS_DEFAULT_PERM : Z := 511.

(** ** Strings *)
Definition slash : Z := 47.

(** [newfs_calc_lvl] *)
Definition newfs_calc_lvl (path : list Z) : Z :=
  if decide (path = [slash]) then 0
  else Z.of_nat (length (filter (fun c => c = slash) path)).

(** The tokens [strtok(_, "/")] returns one after the other. *)
Fixpoint tokens (cur : list Z) (path : list Z) : list (list Z) :=
  match path with
  | [] => match cur with [] => [] | _ => [cur] end
  | c :: path' =>
      if c =? slash then
        match cur with [] => tokens [] path' | _ => cur :: tokens [] path' end
      else tokens (cur ++ [c]) path'
  end.

(** [newfs_get_fname]: what follows the last slash; [strrchr] finds none in a
    path without one. *)
Fixpoint after_slash (path : list Z) : option (list Z) :=
  match path with
  | [] => None
  | c :: path' =>
      match after_slash path' with
      | Some l => Some l
      | None => if c =? slash then Some path' else None
      end
  end.

(** The C string in a character array: up to its first zero byte. *)
Fixpoint cstr (l : list Z) : option (list Z) :=
  match l with
  | [] => None
  | c :: l' => if c =? 0 then Some [] else
               match cstr l' with Some k => Some (c :: k) | None => None end
  end.

(** ** Bitmaps *)

(** The search for a clear bit: the inner loop over the bits of one byte, the
    outer loop over the bytes. Returns the number of the bit and the new
    bitmap. *)
Fixpoint find_bit (n : nat) (bit : Z) (byte : Z) : option Z :=
  match n with
  | O => None
  | S n' => if Z.land byte (Z.shiftl 1 bit) =? 0 then Some bit else find_bit n' (bit + 1) byte
  end.

Fixpoint find_free (n : nat) (map : list Z) (cursor : Z) : option (Z * list Z) :=
  match n, map with
  | S n', byte :: map' =>
      match find_bit UINT8_BITS 0 byte with
      | Some bit => Some (cursor + bit, Z.lor byte (Z.shiftl 1 bit) :: map')
      | None =>
          match find_free n' map' (cursor + Z.of_nat UINT8_BITS) with
          | Some (k, m) => Some (k, byte :: m)
          | None => None
          end
      end
  | _, _ => None
  end.

Module Newfs.
Section ops.
Context {D : Type} `{!Ddriver D} `{Platform}.

Abbreviation N := (M (newfs D)).

Definition null {A} (what : string) : N A := fail (Undefined what).

Definition dentry_at (p : option nat) : N newfs_dentry :=
  match p with
  | None => null "dentry"
  | Some a => fun s => match dentries s !! a with
                       | Some d => Ok (d, s)
                       | None => Fail (Undefined "dentry")
                       end
  end.
Definition inode_at (p : option nat) : N newfs_inode :=
  match p with
  | None => null "inode"
  | Some a => fun s => match inodes s !! a with
                       | Some i => Ok (i, s)
                       | None => Fail (Undefined "inode")
                       end
  end.
Definition upd_dentry (p : option nat) (f : newfs_dentry -> newfs_dentry) : N unit :=
  d ← dentry_at p;
  match p with
  | None => null "dentry"
  | Some a => modify (fun s => Newfs (super s) (<[a := f d]> (dentries s)) (inodes s) (brk s) (device s))
  end.
Definition upd_inode (p : option nat) (f : newfs_inode -> newfs_inode) : N unit :=
  i ← inode_at p;
  match p with
  | None => null "inode"
  | Some a => modify (fun s => Newfs (super s) (dentries s) (<[a := f i]> (inodes s)) (brk s) (device s))
  end.
Definition upd_super (f : newfs_super -> newfs_super) : N unit :=
  modify (fun s => Newfs (f (super s)) (dentries s) (inodes s) (brk s) (device s)).
Definition get_super : N newfs_super := gets super.

(** [malloc] of one object. *)
Definition malloc_dentry (d : newfs_dentry) : N nat := fun s =>
  Ok (brk s, Newfs (super s) (<[brk s := d]> (dentries s)) (inodes s) (S (brk s)) (device s)).
Definition malloc_inode (i : newfs_inode) : N nat := fun s =>
  Ok (brk s, Newfs (super s) (dentries s) (<[brk s := i]> (inodes s)) (S (brk s)) (device s)).
Definition malloc_bytes (n : Z) : N (list Z) := fun s =>
  Ok (heap_junk (brk s) n, Newfs (super s) (dentries s) (inodes s) (S (brk s)) (device s)).

(** Running a driver access on the device. *)
Definition on_disk {A} (m : M D A) : N A := fun s =>
  match m (device s) with
  | Ok (a, d) => Ok (a, Newfs (super s) (dentries s) (inodes s) (brk s) d)
  | Fail e => Fail e
  end.
Definition driver_read (offset size : Z) : N (list Z) :=
  sb ← get_super; on_disk (newfs_driver_read (sz_io sb) offset size).
Definition driver_write (offset : Z) (l : list Z) (size : Z) : N unit :=
  sb ← get_super; on_disk (newfs_driver_write (sz_io sb) offset l size).

(** [NEWFS_IS_DIR(pinode)] and [NEWFS_IS_REG(pinode)] *)
Definition ftype_of (ip : option nat) : N Z :=
  i ← inode_at ip; d ← dentry_at (in_dentry i); mret (de_ftype d).
Definition IS_DIR (ip : option nat) : N bool := t ← ftype_of ip; mret (t =? NEWFS_DIR).
Definition IS_REG (ip : option nat) : N bool := t ← ftype_of ip; mret (t =? NEWFS_FILE).

(** [new_dentry]: the name is copied without its terminator into the zeroed
    array of 128 bytes. *)
Definition new_dentry (fname : list Z) (ftype : Z) : N (option nat) :=
  if NEWFS_MAX_FILE_NAME <? Z.of_nat (length fname) then null "fname" else
  a ← malloc_dentry
        (Dentry (fname ++ repeat 0 (128 - length fname)) ftype None None (-1) None 0);
  mret (Some a).

Fixpoint get_dentry_loop (fuel : nat) (cursor : option nat) (dir cnt : Z) : N (option nat) :=
  match cursor with
  | None => mret None
  | Some _ =>
      if dir =? cnt then mret cursor else
      match fuel with
      | O => fail OutOfFuel
      | S fuel' => d ← dentry_at cursor; get_dentry_loop fuel' (de_brother d) dir (cnt + 1)
      end
  end.

(** The list is at most as long as the heap. *)
Definition newfs_get_dentry (ip : option nat) (dir : Z) : N (option nat) :=
  i ← inode_at ip;
  n ← gets (fun s => size (dentries s));
  get_dentry_loop n (in_dentrys i) dir 0.

(** The comparison that decides whether a data block is allocated, with the
    macro expanded: its argument [inode->size + sizeof(...)] is not in
    parentheses, so [%] and [/] apply to the [sizeof] alone, in [size_t]. *)
Definition needs_block (size B : Z) : bool :=
  let rhs := if u64 (size + Z.rem sizeof_dentry B) =? 0 then u64 (size + sizeof_dentry)
             else u64 ((size + Z.quot sizeof_dentry B + 1) * B) in
  negb (u64 (NEWFS_ROUND_UP size B) =? rhs).

Definition newfs_alloc_dentry (ip dp : option nat) : N Z :=
  i ← inode_at ip;
  match in_dentrys i with
  | None => upd_inode ip (set_dentrys dp)
  | Some _ => upd_dentry dp (set_brother (in_dentrys i));; upd_inode ip (set_dentrys dp)
  end;;
  sb ← get_super;
  let B := NEWFS_BLKS_SZ (sz_io sb) in
  r ← (if needs_block (in_size i) B then
         match find_free (Z.to_nat (map_data_blks sb * B)) (map_data sb) 0 with
         | Some (data_cursor, m) => upd_super (set_map_data m);; mret (Some data_cursor)
         | None => mret None
         end
       else mret None);
  match r with
  | None => mret (- NEWFS_ERROR_NOSPACE)
  | Some data_cursor =>
      if data_cursor =? max_data sb then mret (- NEWFS_ERROR_NOSPACE) else
      upd_inode ip (fun i => set_sizes (in_size i + sizeof_dentry) (in_dir_cnt i + 1) i);;
      mret (in_dir_cnt i + 1)
  end.

(** Returns [None] for the error value, which the source casts to a pointer. *)
Definition newfs_alloc_inode (dp : option nat) : N (option nat) :=
  sb ← get_super;
  let B := NEWFS_BLKS_SZ (sz_io sb) in
  match find_free (Z.to_nat (map_inode_blks sb * B)) (map_inode sb) 0 with
  | None => mret None
  | Some (ino_cursor, m) =>
      upd_super (set_map_inode m);;
      if ino_cursor =? max_ino sb then mret None else
      a ← malloc_inode (Inode ino_cursor 0 0 dp None None);
      upd_dentry dp (set_inode (Some a));;
      upd_dentry dp (set_ino ino_cursor);;
      reg ← IS_REG (Some a);
      (if (reg : bool) then
         b ← malloc_bytes (NEWFS_DATA_PER_FILE * B);
         upd_inode (Some a) (set_content 0 b)
       else mret tt);;
      mret (Some a)
  end.

(** [newfs_sync_inode] and its loop over the directory entries. [fuel] bounds
    the depth of the recursion plus the length of the lists. *)
Fixpoint newfs_sync_inode (fuel : nat) (ip : option nat) : N unit :=
  match fuel with
  | O => fail OutOfFuel
  | S fuel' =>
      i ← inode_at ip;
      let ino := in_ino i in
      t ← ftype_of ip;
      driver_write (NEWFS_INO_OFS ino)
        (enc_inode_d stack_junk (InodeD ino (in_size i) t (in_dir_cnt i))) sizeof_inode_d;;
      if t =? NEWFS_DIR then sync_dentrys fuel' (in_dentrys i) (NEWFS_DA_OFS ino)
      else if t =? NEWFS_FILE then
        match in_data i with
        | None => null "data"
        | Some b =>
            sb ← get_super;
            driver_write (NEWFS_DA_OFS ino) b (NEWFS_ROUND_UP (in_size i) (NEWFS_BLKS_SZ (sz_io sb)))
        end
      else mret tt
  end
with sync_dentrys (fuel : nat) (cursor : option nat) (offset : Z) : N unit :=
  match cursor with
  | None => mret tt
  | Some _ =>
      match fuel with
      | O => fail OutOfFuel
      | S fuel' =>
          d ← dentry_at cursor;
          driver_write offset
            (enc_dentry_d stack_junk (DentryD (de_fname d) (de_ftype d) (de_ino d))) sizeof_dentry_d;;
          (match de_inode d with
           | None => mret tt
           | Some _ => newfs_sync_inode fuel' (de_inode d)
           end);;
          sync_dentrys fuel' (de_brother d) (offset + sizeof_dentry_d)
      end
  end.

(** Every step of the recursion visits an entry of the heap. *)
Definition sync_fuel : N nat := gets (fun s => S (2 * (size (dentries s) + size (inodes s)))).

(** The loop of [newfs_read_inode] over the entries of a directory. *)
Fixpoint read_dentrys (n : nat) (i ino : Z) (dp ip : option nat) : N unit :=
  match n with
  | O => mret tt
  | S n' =>
      l ← driver_read (NEWFS_DA_OFS ino + i * sizeof_dentry_d) sizeof_dentry_d;
      let x := dec_dentry_d l in
      match cstr (dd_fname x) with
      | None => null "fname"
      | Some fname =>
          sub ← new_dentry fname (dd_ftype x);
          upd_dentry sub (set_parent dp);;
          upd_dentry sub (set_ino (dd_ino x));;
          _ ← newfs_alloc_dentry ip sub;
          read_dentrys n' (i + 1) ino dp ip
      end
  end.

Definition newfs_read_inode (dp : option nat) (ino : Z) : N (option nat) :=
  l ← driver_read (NEWFS_INO_OFS ino) sizeof_inode_d;
  let x := dec_inode_d l in
  a ← malloc_inode (Inode (id_ino x) (id_size x) 0 dp None None);
  t ← ftype_of (Some a);
  (if t =? NEWFS_DIR then
     read_dentrys (Z.to_nat (id_dir_cnt x)) 0 ino dp (Some a)
   else if t =? NEWFS_FILE then
     sb ← get_super;
     let n := NEWFS_DATA_PER_FILE * NEWFS_BLKS_SZ (sz_io sb) in
     _ ← malloc_bytes n;
     b ← driver_read (NEWFS_DA_OFS ino) n;
     upd_inode (Some a) (set_content (id_size x) b)
   else mret tt);;
  mret (Some a).

(** [memcmp(dentry->fname, fname, strlen(fname)) == 0] *)
Definition name_matches (d : newfs_dentry) (fname : list Z) : N bool :=
  if NEWFS_MAX_FILE_NAME <? Z.of_nat (length fname) then null "memcmp" else
  mret (bool_decide (take (length fname) (de_fname d) = fname)).

Fixpoint find_entry (fuel : nat) (cursor : option nat) (fname : list Z) : N (option nat) :=
  match cursor with
  | None => mret None
  | Some _ =>
      match fuel with
      | O => fail OutOfFuel
      | S fuel' =>
          d ← dentry_at cursor;
          b ← name_matches d fname;
          if (b : bool) then mret cursor else find_entry fuel' (de_brother d) fname
      end
  end.

(** The [while (fname)] loop. Returns [dentry_ret] and [*is_find]; [None] as the
    latter means that the caller's variable was not assigned. *)
Fixpoint lookup_loop (toks : list (list Z)) (cursor : option nat) (lvl total_lvl : Z)
    (ret : option nat) (is_find : option bool) : N (option nat * option bool) :=
  match toks with
  | [] => mret (ret, is_find)
  | fname :: toks' =>
      let lvl := lvl + 1 in
      d ← dentry_at cursor;
      (match de_inode d with
       | None => _ ← newfs_read_inode cursor (de_ino d); mret tt
       | Some _ => mret tt
       end);;
      d ← dentry_at cursor;
      reg ← IS_REG (de_inode d);
      i ← inode_at (de_inode d);
      if (reg : bool) && (lvl <? total_lvl) then mret (in_dentry i, is_find) else
      dir ← IS_DIR (de_inode d);
      if (dir : bool) then
        n ← gets (fun s => size (dentries s));
        hit ← find_entry n (in_dentrys i) fname;
        match hit with
        | None => mret (in_dentry i, Some false)
        | Some _ =>
            if lvl =? total_lvl then mret (hit, Some true)
            else lookup_loop toks' hit lvl total_lvl ret is_find
        end
      else lookup_loop toks' cursor lvl total_lvl ret is_find
  end.

(** Returns the entry, [*is_find] and [*is_root]. *)
Definition newfs_lookup (path : list Z) : N (option nat * option bool * bool) :=
  sb ← get_super;
  let total_lvl := newfs_calc_lvl path in
  if path_cap <? Z.of_nat (length path) + 1 then null "strcpy" else
  let is_root := total_lvl =? 0 in
  r ← lookup_loop (tokens [] path) (root_dentry sb) 0 total_lvl
        (if is_root then root_dentry sb else None) (if is_root then Some true else None);
  let '(ret, is_find) := r in
  d ← dentry_at ret;
  (match de_inode d with
   | None => ip ← newfs_read_inode ret (de_ino d); upd_dentry ret (set_inode ip)
   | Some _ => mret tt
   end);;
  mret (ret, is_find, is_root).

(** Reading a local variable that may never have been assigned. *)
Definition read_var (b : option bool) : N bool :=
  match b with
  | None => null "is_find"
  | Some b => mret b
  end.

(** ** The operations registered with FUSE *)

(** [newfs_init]: [driver_fd] is what [ddriver_open] returned. *)
Definition newfs_init (driver_fd : Z) : N Z :=
  if driver_fd <? 0 then mret driver_fd else
  d ← gets device;
  upd_super (set_sizes_of_device (ddriver_io_sz d) (ddriver_size d));;
  root ← new_dentry [slash] NEWFS_DIR;
  l ← driver_read NEWFS_SUPER_OFS sizeof_super_d;
  let x := dec_super_d l in
  let is_init := negb (sd_magic_num x =? NEWFS_MAGIC_NUM) in
  (if is_init then upd_super (set_max NEWFS_INODE_NUM NEWFS_DATA_NUM) else mret tt);;
  let x := if is_init then
             SuperD (sd_magic_num x) NEWFS_MAP_INODE_BLOCKS NEWFS_MAP_INODE_OFS
               NEWFS_MAP_DATA_BLOCKS NEWFS_MAP_DATA_OFS NEWFS_INODE_OFS NEWFS_DATA_OFS 0
           else x in
  sb ← get_super;
  let B := NEWFS_BLKS_SZ (sz_io sb) in
  _ ← malloc_bytes (sd_map_inode_blks x * B);
  _ ← malloc_bytes (sd_map_data_blks x * B);
  mi ← driver_read (sd_map_inode_offset x) (sd_map_inode_blks x * B);
  md ← driver_read (sd_map_data_offset x) (sd_map_data_blks x * B);
  upd_super (set_maps (sd_sz_usage x) mi (sd_map_inode_blks x) (sd_map_inode_offset x)
                      md (sd_map_data_blks x) (sd_map_data_offset x));;
  (if is_init then
     ip ← newfs_alloc_inode root;
     n ← sync_fuel;
     newfs_sync_inode n ip
   else mret tt);;
  ip ← newfs_read_inode root 0;
  upd_dentry root (set_inode ip);;
  upd_super (set_root root);;
  mret 0.

(** [newfs_destroy]: freeing the bitmaps leaves nothing to read behind their
    pointers. *)
Definition newfs_destroy : N unit :=
  sb ← get_super;
  if negb (is_mounted sb) then mret tt else
  r ← dentry_at (root_dentry sb);
  n ← sync_fuel;
  newfs_sync_inode n (de_inode r);;
  let B := NEWFS_BLKS_SZ (sz_io sb) in
  driver_write NEWFS_SUPER_OFS
    (enc_super_d stack_junk
       (SuperD NEWFS_MAGIC_NUM (map_inode_blks sb) (map_inode_offset sb) (map_data_blks sb)
          (map_data_offset sb) (inode_offset sb) (data_offset sb) (sz_usage sb))) sizeof_super_d;;
  driver_write (map_inode_offset sb) (map_inode sb) (map_inode_blks sb * B);;
  driver_write (map_data_offset sb) (map_data sb) (map_data_blks sb * B);;
  upd_super (set_map_inode []);;
  upd_super (set_map_data []).

(** The part [newfs_mkdir] and [newfs_mknod] share: make the entry, its inode,
    and link it into the directory. Their results are not looked at. *)
Definition new_entry (path : list Z) (ftype : Z) (last_dentry : option nat) : N Z :=
  match after_slash path with
  | None => null "strrchr"
  | Some fname =>
      dp ← new_dentry fname ftype;
      upd_dentry dp (set_parent last_dentry);;
      _ ← newfs_alloc_inode dp;
      last ← dentry_at last_dentry;
      _ ← newfs_alloc_dentry (de_inode last) dp;
      mret NEWFS_ERROR_NONE
  end.

Definition newfs_mkdir (path : list Z) : N Z :=
  x ← newfs_lookup path;
  let '(last_dentry, is_find, _) := x in
  b ← read_var is_find;
  if (b : bool) then mret (- NEWFS_ERROR_EXISTS) else
  last ← dentry_at last_dentry;
  reg ← IS_REG (de_inode last);
  if (reg : bool) then mret (- NEWFS_ERROR_UNSUPPORTED) else
  new_entry path NEWFS_DIR last_dentry.

(** A mode that is neither a file nor a directory leaves [dentry] unassigned. *)
Definition newfs_mknod (path : list Z) (mode : Z) : N Z :=
  x ← newfs_lookup path;
  let '(last_dentry, is_find, _) := x in
  b ← read_var is_find;
  if (b : bool) then mret (- NEWFS_ERROR_EXISTS) else
  if S_ISREG mode then new_entry path NEWFS_FILE last_dentry
  else if S_ISDIR mode then new_entry path NEWFS_DIR last_dentry
  else null "dentry".

(** [st] is the structure the caller passes in. *)
Definition newfs_getattr (uid gid atime mtime : Z) (path : list Z) (st : stat) : N (Z * stat) :=
  x ← newfs_lookup path;
  let '(dp, is_find, is_root) := x in
  b ← read_var is_find;
  if negb (b : bool) then mret (- NEWFS_ERROR_NOTFOUND, st) else
  d ← dentry_at dp;
  t ← ftype_of (de_inode d);
  i ← inode_at (de_inode d);
  sb ← get_super;
  let B := NEWFS_BLKS_SZ (sz_io sb) in
  let '(mode, size) :=
    if t =? NEWFS_DIR then
      (Z.lor S_IFDIR NEWFS_DEFAULT_PERM, in_dir_cnt i * sizeof_dentry_d)
    else if t =? NEWFS_FILE then (Z.lor S_IFREG NEWFS_DEFAULT_PERM, in_size i)
    else if t =? NEWFS_SYM_LINK then (Z.lor S_IFLNK NEWFS_DEFAULT_PERM, in_size i)
    else (st_mode st, st_size st) in
  mret (NEWFS_ERROR_NONE,
        if (is_root : bool)
        then Stat mode 2 uid gid (sz_usage sb) atime mtime B (Z.quot (sz_disk sb) B)
        else Stat mode 1 uid gid size atime mtime B (st_blocks st)).

(** Returns the result and the arguments of the call of [filler], if there is
    one: a name and the next offset. *)
Definition newfs_readdir (path : list Z) (offset : Z) : N (Z * option (list Z * Z)) :=
  let cur_dir := s32 offset in
  x ← newfs_lookup path;
  let '(dp, is_find, _) := x in
  b ← read_var is_find;
  if negb (b : bool) then mret (- NEWFS_ERROR_NOTFOUND, None) else
  d ← dentry_at dp;
  sub ← newfs_get_dentry (de_inode d) cur_dir;
  match sub with
  | None => mret (NEWFS_ERROR_NONE, None)
  | Some _ =>
      e ← dentry_at sub;
      match cstr (de_fname e) with
      | None => null "fname"
      | Some name => mret (NEWFS_ERROR_NONE, Some (name, offset + 1))
      end
  end.

Definition newfs_utimens (path : list Z) : N Z := mret 0.

(** The guards [newfs_write] and [newfs_read] start with: an error, or the
    inode's address and contents. *)
Definition open_file (path : list Z) (offset : Z) : N (Z + option nat * newfs_inode) :=
  x ← newfs_lookup path;
  let '(dp, is_find, _) := x in
  b ← read_var is_find;
  if negb (b : bool) then mret (inl (- NEWFS_ERROR_NOTFOUND)) else
  d ← dentry_at dp;
  dir ← IS_DIR (de_inode d);
  if (dir : bool) then mret (inl (- NEWFS_ERROR_ISDIR)) else
  i ← inode_at (de_inode d);
  if in_size i <? offset then mret (inl (- NEWFS_ERROR_SEEK)) else
  mret (inr (de_inode d, i)).

(** [newfs_write]: [buf] holds the [size] bytes. Copying past the end of the
    inode's block is undefined. *)
Definition newfs_write (path : list Z) (buf : list Z) (offset : Z) : N Z :=
  x ← open_file path offset;
  match x with
  | inl e => mret e
  | inr (ip, i) =>
      let size := Z.of_nat (length buf) in
      match in_data i with
      | None => null "data"
      | Some data =>
          if (offset <? 0) || (Z.of_nat (length data) <? offset + size) then null "memcpy" else
          let o := Z.to_nat offset in
          let data' := take o data ++ map u8 buf ++ drop (o + length buf) data in
          upd_inode ip
            (set_content (if in_size i <? offset + size then offset + size else in_size i) data');;
          mret (s32 size)
      end
  end.

(** [newfs_read]: returns the result and the bytes copied to [buf]. *)
Definition newfs_read (path : list Z) (size offset : Z) : N (Z * list Z) :=
  x ← open_file path offset;
  match x with
  | inl e => mret (e, [])
  | inr (ip, i) =>
      match in_data i with
      | None => null "data"
      | Some data =>
          if (offset <? 0) || (Z.of_nat (length data) <? offset + size) then null "memcpy" else
          mret (s32 size, take (Z.to_nat size) (drop (Z.to_nat offset) data))
      end
  end.
End ops.
End Newfs.
