(* ===== verification/NewfsLookup.v ===== *)
(** * The file system: directories and path lookup

    The reference view of the heap: a directory is an entry whose inode is
    cached and whose children form a finite list; a path resolves by looking up
    its names one after the other. [newfs_lookup] on the textual path computes
    exactly this. *)

From S2P Require Import Prelude.
From S2P Require Import Memory.
From S2P Require Import NewfsDisk.
From S2P Require Import Newfs.

Module NewfsLookup.
Import Newfs.

(** ** Path names *)

(** The path of a list of names. *)
Definition pathname (names : list (list Z)) : list Z := concat (map (cons slash) names).

(** A name that can be a component: not empty, no slash, fits the array. *)
Definition name_ok (n : list Z) : Prop :=
  n <> [] /\ slash ∉ n /\ Z.of_nat (length n) <= NEWFS_MAX_FILE_NAME.

Lemma tokens_name n : slash ∉ n -> forall cur rest,
  tokens cur (n ++ rest) = tokens (cur ++ n) rest.
Proof.
  induction n as [|c n IH]; intros Hn cur rest; cbn; [by rewrite app_nil_r|].
  destruct (Z.eqb_spec c slash) as [->|]; [set_solver|].
  rewrite IH by set_solver. by rewrite <- app_assoc.
Qed.

Lemma tokens_cut cur rest : cur <> [] -> tokens cur (slash :: rest) = cur :: tokens [] rest.
Proof. by destruct cur. Qed.

Lemma tokens_pathname ns : Forall name_ok ns -> forall cur,
  tokens cur (pathname ns) = match cur with [] => ns | _ => cur :: ns end.
Proof.
  induction 1 as [|n ns (Hne & Hs & _) _ IH]; intros cur; [by destruct cur|].
  unfold pathname in *. cbn [map concat].
  assert (E : tokens [] (n ++ concat (map (cons slash) ns)) = n :: ns).
  { rewrite tokens_name by done. rewrite IH. by destruct n. }
  change ((slash :: n) ++ concat (map (cons slash) ns))
    with (slash :: (n ++ concat (map (cons slash) ns))).
  destruct cur as [|c cur]; [exact E|].
  rewrite tokens_cut by done. by rewrite E.
Qed.

Lemma slashes_name n : slash ∉ n -> filter (fun c => c = slash) n = [].
Proof.
  induction n as [|c n IH]; intros Hn; [done|].
  rewrite filter_cons_False by set_solver. apply IH. set_solver.
Qed.

Lemma slashes_pathname ns :
  Forall name_ok ns -> length (filter (fun c => c = slash) (pathname ns)) = length ns.
Proof.
  induction 1 as [|n ns (Hne & Hs & _) _ IH]; [done|].
  unfold pathname in *. cbn [map concat]. cbn [app].
  rewrite filter_cons_True by done. rewrite filter_app, slashes_name by done. cbn. by rewrite IH.
Qed.

Lemma newfs_calc_lvl_pathname ns :
  Forall name_ok ns -> ns <> [] -> newfs_calc_lvl (pathname ns) = Z.of_nat (length ns).
Proof.
  intros Hok Hne. unfold newfs_calc_lvl. rewrite slashes_pathname by done.
  destruct (decide _) as [E|]; [|done]. exfalso.
  destruct Hok as [|n ns (Hn & _) _]; [done|]. unfold pathname in E. cbn in E.
  destruct n; [done|]. cbn in E. congruence.
Qed.

Lemma after_slash_none l : slash ∉ l -> after_slash l = None.
Proof.
  induction l as [|c l IH]; intros Hn; [done|]. cbn. rewrite IH by set_solver.
  destruct (Z.eqb_spec c slash) as [->|]; [set_solver|done].
Qed.

Lemma after_slash_app k n : after_slash n = None -> after_slash (k ++ slash :: n) = Some n.
Proof. intros Hn. induction k as [|c k IH]; cbn; [by rewrite Hn|]. by rewrite IH. Qed.

Lemma pathname_snoc ns n : pathname (ns ++ [n]) = pathname ns ++ slash :: n.
Proof. unfold pathname. rewrite map_app, concat_app. cbn. by rewrite app_nil_r. Qed.

Lemma newfs_get_fname_pathname ns n :
  name_ok n -> after_slash (pathname (ns ++ [n])) = Some n.
Proof. intros (_ & Hs & _). rewrite pathname_snoc. apply after_slash_app, after_slash_none, Hs. Qed.

(** ** Directories *)

(** The entries reached from [p] through [brother]. *)
Fixpoint chain (h : gmap nat newfs_dentry) (p : option nat) (l : list nat) : Prop :=
  match l with
  | [] => p = None
  | a :: l' => p = Some a /\ a ∉ l' /\ exists d, h !! a = Some d /\ chain h (de_brother d) l'
  end.

Lemma chain_elem h l : forall p a, chain h p l -> a ∈ l -> is_Some (h !! a).
Proof.
  induction l as [|b l IH]; intros p a Hc Ha; [set_solver|].
  destruct Hc as (_ & _ & d & Hd & Hc). apply elem_of_cons in Ha as [->|Ha]; [eauto|].
  by apply (IH (de_brother d)).
Qed.

Lemma chain_NoDup h l : forall p, chain h p l -> NoDup l.
Proof.
  induction l as [|b l IH]; intros p Hc; [constructor|].
  destruct Hc as (_ & Hb & d & Hd & Hc). constructor; eauto.
Qed.

Lemma chain_ext h h' l : (forall a, a ∈ l -> h' !! a = h !! a) -> forall p, chain h p l -> chain h' p l.
Proof.
  induction l as [|b l IH]; intros Heq p Hc; [done|].
  destruct Hc as (Hp & Hb & d & Hd & Hc). split_and!; [done..|]. exists d.
  rewrite Heq by set_solver. split; [done|]. apply IH; [|done]. intros. apply Heq. set_solver.
Qed.

(** A list of entries is no longer than the heap: the bound of the loops is
    enough. *)
Lemma chain_length h p l : chain h p l -> (length l <= size h)%nat.
Proof.
  intros Hc. rewrite <- (size_list_to_set (C:=gset nat) l) by (by eapply chain_NoDup).
  rewrite <- (size_dom (D:=gset nat) h). apply subseteq_size. intros a Ha.
  apply elem_of_list_to_set in Ha. apply elem_of_dom. by eapply chain_elem.
Qed.

(** The first entry of the list that the comparison of the source accepts: one
    whose name starts with [n]. *)
Definition starts_with (h : gmap nat newfs_dentry) (n : list Z) (a : nat) : bool :=
  match h !! a with
  | Some d => bool_decide (take (length n) (de_fname d) = n)
  | None => false
  end.

Fixpoint first_match (h : gmap nat newfs_dentry) (l : list nat) (n : list Z) : option nat :=
  match l with
  | [] => None
  | a :: l' => if starts_with h n a then Some a else first_match h l' n
  end.

Lemma first_match_ext h h' l n :
  (forall a, a ∈ l -> h' !! a = h !! a) -> first_match h' l n = first_match h l n.
Proof.
  induction l as [|a l IH]; intros Heq; [done|]. cbn. unfold starts_with.
  rewrite Heq by set_solver. by rewrite IH by set_solver.
Qed.

Section views.
Context {D : Type}.
Implicit Types s : newfs D.

(** The entry [p] is a directory in memory with children [l]. *)
Definition dir_at s (p : nat) (l : list nat) : Prop :=
  exists d a i, dentries s !! p = Some d /\ de_ftype d = NEWFS_DIR /\ de_inode d = Some a /\
    inodes s !! a = Some i /\ in_dentry i = Some p /\ chain (dentries s) (in_dentrys i) l.

(** [names] leads from the entry [p] to the entry [q] through the directories
    [ds]. *)
Inductive resolves s : nat -> list (list Z) -> list nat -> nat -> Prop :=
| resolves_here p : resolves s p [] [] p
| resolves_step p l n q ns ds r :
    dir_at s p l -> first_match (dentries s) l n = Some q ->
    resolves s q ns ds r -> resolves s p (n :: ns) (p :: ds) r.

(** The entry [p] has its inode in memory. *)
Definition cached s (p : nat) : Prop :=
  exists d a, dentries s !! p = Some d /\ de_inode d = Some a.

Lemma dir_cached s p l : dir_at s p l -> cached s p.
Proof. intros (d & a & i & Hd & _ & Ha & _). by exists d, a. Qed.
End views.

(** ** Lookup computes resolution *)
Section lookup.
Context {D : Type} `{!Ddriver D} `{Platform}.
Implicit Types s : newfs D.

Lemma dentry_at_Some s a d : dentries s !! a = Some d -> dentry_at (Some a) s = Ok (d, s).
Proof. intros Hd. cbn. by rewrite Hd. Qed.
Lemma inode_at_Some s a i : inodes s !! a = Some i -> inode_at (Some a) s = Ok (i, s).
Proof. intros Hd. cbn. by rewrite Hd. Qed.

Lemma ftype_of_ok s a i p d :
  inodes s !! a = Some i -> in_dentry i = Some p -> dentries s !! p = Some d ->
  ftype_of (Some a) s = Ok (de_ftype d, s).
Proof.
  intros Hi Hp Hd. unfold ftype_of. erewrite bind_step by (by apply inode_at_Some).
  rewrite Hp. by erewrite bind_step by (by apply dentry_at_Some).
Qed.

Lemma IS_REG_ok s a i p d :
  inodes s !! a = Some i -> in_dentry i = Some p -> dentries s !! p = Some d ->
  IS_REG (Some a) s = Ok (de_ftype d =? NEWFS_FILE, s).
Proof. intros. unfold IS_REG. by erewrite bind_step by (by eapply ftype_of_ok). Qed.

Lemma IS_DIR_ok s a i p d :
  inodes s !! a = Some i -> in_dentry i = Some p -> dentries s !! p = Some d ->
  IS_DIR (Some a) s = Ok (de_ftype d =? NEWFS_DIR, s).
Proof. intros. unfold IS_DIR. by erewrite bind_step by (by eapply ftype_of_ok). Qed.

Lemma find_entry_ok s n l : Z.of_nat (length n) <= NEWFS_MAX_FILE_NAME ->
  forall fuel p, (length l <= fuel)%nat -> chain (dentries s) p l ->
  find_entry fuel p n s = Ok (first_match (dentries s) l n, s).
Proof.
  intros Hn. induction l as [|a l IH]; intros fuel p Hf Hc.
  { cbn in Hc. subst p. by destruct fuel. }
  destruct Hc as (-> & _ & d & Hd & Hc). destruct fuel as [|fuel]; [cbn in Hf; lia|].
  cbn [find_entry first_match]. erewrite bind_step by (by apply dentry_at_Some).
  unfold name_matches, starts_with. rewrite Hd.
  destruct (Z.ltb_spec NEWFS_MAX_FILE_NAME (Z.of_nat (length n))); [lia|]. rewrite bind_ret.
  case_match; [done|]. apply IH; [cbn in Hf; lia|done].
Qed.

(** One iteration in a directory that is in memory. *)
Lemma lookup_loop_step s p l n toks lvl total ret fnd :
  dir_at s p l -> Z.of_nat (length n) <= NEWFS_MAX_FILE_NAME ->
  lookup_loop (n :: toks) (Some p) lvl total ret fnd s =
  match first_match (dentries s) l n with
  | None => Ok ((Some p, Some false), s)
  | Some q => if lvl + 1 =? total then Ok ((Some q, Some true), s)
              else lookup_loop toks (Some q) (lvl + 1) total ret fnd s
  end.
Proof.
  intros (d & a & i & Hd & Ht & Ha & Hi & Hp & Hc) Hn. cbn [lookup_loop].
  erewrite bind_step by (by apply dentry_at_Some). rewrite Ha, bind_ret.
  erewrite bind_step by (by apply dentry_at_Some). rewrite Ha.
  erewrite bind_step by (by eapply IS_REG_ok). rewrite Ht. change (NEWFS_DIR =? NEWFS_FILE) with false.
  erewrite bind_step by (by apply inode_at_Some). cbn [andb].
  erewrite bind_step by (by eapply IS_DIR_ok). rewrite Ht. change (NEWFS_DIR =? NEWFS_DIR) with true. cbn match.
  rewrite bind_gets. erewrite bind_step.
  2: { apply find_entry_ok; [done| |exact Hc]. by eapply chain_length. }
  destruct (first_match (dentries s) l n) as [q|]; [|by rewrite Hp]. by case_match.
Qed.

Lemma lookup_loop_found s p ns ds q :
  resolves s p ns ds q -> Forall name_ok ns -> ns <> [] ->
  forall lvl total ret fnd, lvl + Z.of_nat (length ns) = total ->
  lookup_loop ns (Some p) lvl total ret fnd s = Ok ((Some q, Some true), s).
Proof.
  induction 1 as [|p l n q ns ds r Hdir Hm Hr IH]; intros Hok Hne lvl total ret fnd El; [done|].
  apply Forall_cons in Hok as [(_ & _ & Hn) Hok].
  erewrite lookup_loop_step by eauto. rewrite Hm.
  destruct ns as [|n' ns'].
  - cbn in El. destruct (Z.eqb_spec (lvl + 1) total); [|lia]. by inversion Hr.
  - cbn [length] in El. destruct (Z.eqb_spec (lvl + 1) total); [lia|].
    apply IH; [done|done|cbn [length]; lia].
Qed.

Lemma lookup_loop_absent s p ns ds q l n :
  resolves s p ns ds q -> Forall name_ok ns -> name_ok n -> dir_at s q l ->
  first_match (dentries s) l n = None ->
  forall lvl total ret fnd, lvl + Z.of_nat (length ns) < total ->
  lookup_loop (ns ++ [n]) (Some p) lvl total ret fnd s = Ok ((Some q, Some false), s).
Proof.
  induction 1 as [p|p k m q ns ds r Hdir Hm Hr IH]; intros Hok Hn Hq Hnone lvl total ret fnd El.
  - cbn [app]. erewrite lookup_loop_step by (eauto; apply Hn). by rewrite Hnone.
  - apply Forall_cons in Hok as [(_ & _ & Hl) Hok]. cbn [app].
    erewrite lookup_loop_step by eauto. rewrite Hm. cbn [length] in El.
    destruct (Z.eqb_spec (lvl + 1) total); [lia|]. apply IH; try done. lia.
Qed.

(** What is left of [newfs_lookup] once the loop has found an entry with its
    inode in memory. *)
Lemma newfs_lookup_loop s r ns q fnd :
  root_dentry (super s) = Some r -> Forall name_ok ns -> ns <> [] ->
  Z.of_nat (length (pathname ns)) < path_cap -> cached s q ->
  lookup_loop ns (Some r) 0 (Z.of_nat (length ns)) None None s = Ok ((Some q, fnd), s) ->
  newfs_lookup (pathname ns) s = Ok ((Some q, fnd, false), s).
Proof.
  intros Hr Hok Hne Hcap (d & a & Hd & Ha) Hl. unfold newfs_lookup, get_super. rewrite bind_gets. cbv zeta.
  destruct (Z.ltb_spec path_cap (Z.of_nat (length (pathname ns)) + 1)); [lia|].
  rewrite newfs_calc_lvl_pathname by done. rewrite (tokens_pathname ns Hok []). cbn match.
  destruct (Z.eqb_spec (Z.of_nat (length ns)) 0) as [E0|]; [by destruct ns|].
  rewrite Hr. erewrite bind_step by exact Hl. cbn beta iota.
  erewrite bind_step by (by apply dentry_at_Some). by rewrite Ha.
Qed.

(** A path that resolves to an entry in memory is found. *)
Lemma newfs_lookup_found s r ns ds q :
  root_dentry (super s) = Some r -> resolves s r ns ds q -> cached s q ->
  Forall name_ok ns -> ns <> [] -> Z.of_nat (length (pathname ns)) < path_cap ->
  newfs_lookup (pathname ns) s = Ok ((Some q, Some true, false), s).
Proof. intros Hr Hres Hq Hok Hne Hcap. eapply newfs_lookup_loop; eauto. by eapply lookup_loop_found. Qed.

(** A last name that no entry of its directory answers to is reported absent,
    with that directory. *)
Lemma newfs_lookup_absent s r ns ds q l n :
  root_dentry (super s) = Some r -> resolves s r ns ds q -> dir_at s q l ->
  first_match (dentries s) l n = None ->
  Forall name_ok ns -> name_ok n -> Z.of_nat (length (pathname (ns ++ [n]))) < path_cap ->
  newfs_lookup (pathname (ns ++ [n])) s = Ok ((Some q, Some false, false), s).
Proof.
  intros Hr Hres Hq Hnone Hok Hn Hcap.
  eapply newfs_lookup_loop; eauto using dir_cached; [apply Forall_app; auto|by destruct ns|].
  eapply lookup_loop_absent; eauto. rewrite length_app. cbn. lia.
Qed.

(** The root itself. *)
Lemma newfs_lookup_root `{!PlatformOk} s r :
  root_dentry (super s) = Some r -> cached s r ->
  newfs_lookup [slash] s = Ok ((Some r, Some true, true), s).
Proof.
  intros Hr (d & a & Hd & Ha). unfold newfs_lookup, get_super. rewrite bind_gets. cbv zeta.
  pose proof path_cap_min as Hcap.
  destruct (Z.ltb_spec path_cap (Z.of_nat (length [slash]) + 1)) as [Hlt|_]; [cbn in Hlt; lia|].
  rewrite Hr. assert (El : newfs_calc_lvl [slash] = 0) by done. rewrite El.
  change (0 =? 0) with true. cbn match. change (tokens [] [slash]) with (@nil (list Z)).
  cbn [lookup_loop]. rewrite bind_ret.
  erewrite bind_step by (by apply dentry_at_Some). by rewrite Ha.
Qed.
End lookup.
End NewfsLookup.
