(* ===== verification/NewfsAlloc.v ===== *)
(** * The file system: bitmaps and the creation of entries

    The bitmap search returns the least number that is not in use and marks
    exactly that one; a new entry gets that inode number and becomes the first
    child of its directory. *)

From S2P Require Import Prelude.
From S2P Require Import Memory.
From S2P Require Import NewfsDisk.
From S2P Require Import Newfs.
From S2P Require Import NewfsLookup.

Module NewfsAlloc.
Import Newfs NewfsLookup.

(** ** Bitmaps *)

(** Number [k] is marked. *)
Definition used (map : list Z) (k : Z) : bool :=
  Z.testbit (nth (Z.to_nat (k / 8)) map 0) (k mod 8).

Lemma used_cons byte map k :
  0 <= k -> used (byte :: map) k = if k <? 8 then Z.testbit byte k else used map (k - 8).
Proof.
  intros Hk. unfold used. destruct (Z.ltb_spec k 8).
  - rewrite Z.div_small, Z.mod_small by lia. done.
  - replace (Z.to_nat (k / 8)) with (S (Z.to_nat ((k - 8) / 8)));
      [|Z.to_euclidean_division_equations; lia].
    cbn [nth]. f_equal. Z.to_euclidean_division_equations; lia.
Qed.

Lemma land_bit byte bit :
  0 <= bit -> (Z.land byte (Z.shiftl 1 bit) =? 0) = negb (Z.testbit byte bit).
Proof.
  intros Hb. rewrite Z.shiftl_mul_pow2, Z.mul_1_l by done.
  destruct (Z.testbit byte bit) eqn:E; cbn.
  - apply Z.eqb_neq. intros Hz. apply (f_equal (fun x => Z.testbit x bit)) in Hz.
    rewrite Z.land_spec, Z.pow2_bits_true, E, Z.testbit_0_l in Hz by done. done.
  - apply Z.eqb_eq. apply Z.bits_inj'. intros j Hj. rewrite Z.land_spec, Z.testbit_0_l, Z.pow2_bits_eqb by done.
    destruct (Z.eqb_spec bit j) as [<-|]; [by rewrite E|by rewrite andb_false_r].
Qed.

Lemma set_bit_spec byte bit j :
  0 <= bit -> Z.testbit (Z.lor byte (Z.shiftl 1 bit)) j = (j =? bit) || Z.testbit byte j.
Proof.
  intros Hb. rewrite Z.lor_spec, Z.shiftl_mul_pow2, Z.mul_1_l, Z.pow2_bits_eqb by done.
  rewrite (Z.eqb_sym bit j), orb_comm. done.
Qed.

Lemma find_bit_spec n byte : forall bit, 0 <= bit ->
  match find_bit n bit byte with
  | Some b => bit <= b < bit + Z.of_nat n /\ Z.testbit byte b = false /\
              (forall j, bit <= j < b -> Z.testbit byte j = true)
  | None => forall j, bit <= j < bit + Z.of_nat n -> Z.testbit byte j = true
  end.
Proof.
  induction n as [|n IH]; intros bit Hb; cbn [find_bit]; [intros; lia|].
  rewrite land_bit by done. destruct (Z.testbit byte bit) eqn:E; cbn [negb].
  - specialize (IH (bit + 1) ltac:(lia)). destruct (find_bit n (bit + 1) byte) as [b|].
    + destruct IH as (Hr & Hb0 & Hlow). split_and!; [lia|lia|done|].
      intros j Hj. destruct (decide (j = bit)) as [->|]; [done|]. apply Hlow. lia.
    + intros j Hj. destruct (decide (j = bit)) as [->|]; [done|]. apply IH. lia.
  - split_and!; [lia|lia|done|]. intros; lia.
Qed.

(** The search: the least unmarked number, which alone becomes marked. *)
Lemma find_free_spec n : forall map c, (n <= length map)%nat ->
  match find_free n map c with
  | Some (k, m) =>
      0 <= k - c < 8 * Z.of_nat n /\ length m = length map /\ used map (k - c) = false /\
      (forall j, 0 <= j < k - c -> used map j = true) /\
      (forall j, 0 <= j -> used m j = (j =? k - c) || used map j)
  | None => forall j, 0 <= j < 8 * Z.of_nat n -> used map j = true
  end.
Proof.
  induction n as [|n IH]; intros map c Hn; cbn [find_free]; [intros; lia|].
  destruct map as [|byte map]; [cbn in Hn; lia|].
  pose proof (find_bit_spec UINT8_BITS byte 0 ltac:(lia)) as Hbit. change (0 + Z.of_nat UINT8_BITS) with 8 in Hbit.
  destruct (find_bit UINT8_BITS 0 byte) as [b|].
  - destruct Hbit as (Hr & Hb0 & Hlow). replace (c + b - c) with b by lia. split_and!; [lia|lia|done| | |].
    + rewrite used_cons by lia. destruct (Z.ltb_spec b 8); [done|lia].
    + intros j Hj. rewrite used_cons by lia. destruct (Z.ltb_spec j 8); [apply Hlow|]; lia.
    + intros j Hj. rewrite !used_cons by done. destruct (Z.ltb_spec j 8); [apply set_bit_spec; lia|].
      destruct (Z.eqb_spec j b); [lia|done].
  - cbn in Hn. specialize (IH map (c + Z.of_nat UINT8_BITS) ltac:(lia)). change (Z.of_nat UINT8_BITS) with 8 in *.
    destruct (find_free n map (c + 8)) as [[k m]|].
    + destruct IH as (Hr & Hlen & Hf & Hlow & Hset). replace (k - (c + 8)) with (k - c - 8) in * by lia.
      split_and!; [lia|lia|cbn; lia| | |].
      * rewrite used_cons by lia. by destruct (Z.ltb_spec (k - c) 8); [lia|].
      * intros j Hj. rewrite used_cons by lia. destruct (Z.ltb_spec j 8); [apply Hbit|apply Hlow]; lia.
      * intros j Hj. rewrite !used_cons by done. destruct (Z.ltb_spec j 8).
        { destruct (Z.eqb_spec j (k - c)); [lia|done]. }
        rewrite Hset by lia. f_equal. destruct (Z.eqb_spec (j - 8) (k - c - 8)), (Z.eqb_spec j (k - c)); lia || done.
    + intros j Hj. rewrite used_cons by lia. destruct (Z.ltb_spec j 8); [apply Hbit|apply IH]; lia.
Qed.

(** With the macro as written a block is taken for every entry. *)
Lemma needs_block_always size B : 176 < B < 2 ^ 20 -> 0 <= size < 2 ^ 31 -> needs_block size B = true.
Proof.
  intros HB Hs. unfold needs_block, sizeof_dentry, NEWFS_ROUND_UP.
  rewrite (Z.rem_small 176 B), (Z.quot_small 176 B) by lia.
  rewrite !u64_small; [|nia..|].
  2: { pose proof (Z.quot_le_upper_bound size B size). destruct (_ =? 0); [lia|].
       rewrite Z.quot_div_nonneg by lia. pose proof (Z.div_pos size B). pose proof (Z.mul_div_le size B). nia. }
  destruct (Z.eqb_spec (size + 176) 0); [lia|]. apply negb_true_iff, Z.eqb_neq.
  rewrite Z.rem_mod_nonneg, Z.quot_div_nonneg by lia.
  pose proof (Z.div_mod size B). pose proof (Z.mod_pos_bound size B). pose proof (Z.div_le_upper_bound size B size).
  destruct (Z.eqb_spec (size mod B) 0); nia.
Qed.

(** ** Creation *)
Section create.
Context {D : Type} `{!Ddriver D} `{Platform}.
Implicit Types s : newfs D.

(** Objects live below the address [malloc] hands out next. *)
Definition heap_ok s : Prop :=
  (forall a, is_Some (dentries s !! a) -> (a < brk s)%nat) /\
  (forall a, is_Some (inodes s !! a) -> (a < brk s)%nat).

Lemma upd_dentry_ok s a d f :
  dentries s !! a = Some d ->
  upd_dentry (Some a) f s =
  Ok (tt, Newfs (super s) (<[a := f d]> (dentries s)) (inodes s) (brk s) (device s)).
Proof. intros Hd. unfold upd_dentry. by erewrite bind_step by (by apply dentry_at_Some). Qed.

Lemma upd_inode_ok s a i f :
  inodes s !! a = Some i ->
  upd_inode (Some a) f s =
  Ok (tt, Newfs (super s) (dentries s) (<[a := f i]> (inodes s)) (brk s) (device s)).
Proof. intros Hd. unfold upd_inode. by erewrite bind_step by (by apply inode_at_Some). Qed.

(** The data pointer of a new inode. *)
Definition fresh_data (t B : Z) (junk : list Z) : option (list Z) :=
  if t =? NEWFS_FILE then Some junk else None.

Lemma newfs_alloc_inode_ok s p d k m :
  let sb := super s in
  let B := NEWFS_BLKS_SZ (sz_io sb) in
  let a := brk s in
  dentries s !! p = Some d ->
  find_free (Z.to_nat (map_inode_blks sb * B)) (map_inode sb) 0 = Some (k, m) -> k <> max_ino sb ->
  exists brk',
  (S a <= brk')%nat /\
  newfs_alloc_inode (Some p) s =
  Ok (Some a, Newfs (set_map_inode m sb) (<[p := set_ino k (set_inode (Some a) d)]> (dentries s))
    (<[a := Inode k 0 0 (Some p) None
              (fresh_data (de_ftype d) B (heap_junk (S a) (NEWFS_DATA_PER_FILE * B)))]> (inodes s))
    brk' (device s)).
Proof.
  intros sb B a Hd Hff Hk. exists (if de_ftype d =? NEWFS_FILE then S (S a) else S a).
  split; [destruct (_ =? _); lia|]. unfold newfs_alloc_inode, get_super. rewrite bind_gets.
  cbv zeta. fold sb B. rewrite Hff. unfold upd_super. rewrite bind_modify.
  destruct (Z.eqb_spec k (max_ino sb)); [done|]. unfold malloc_inode.
  erewrite bind_step by reflexivity. cbn [super dentries inodes brk device].
  erewrite bind_step by (by apply upd_dentry_ok). cbn [super dentries inodes brk device].
  erewrite bind_step by (apply upd_dentry_ok, lookup_insert_eq). cbn [super dentries inodes brk device].
  rewrite insert_insert_eq.
  erewrite bind_step.
  2: { eapply IS_REG_ok; cbn [dentries inodes]; [apply lookup_insert_eq|done|apply lookup_insert_eq]. }
  cbn [de_ftype set_ino set_inode]. unfold fresh_data.
  destruct (de_ftype d =? NEWFS_FILE); [|done]. rewrite bind_assoc.
  erewrite bind_step by reflexivity. cbn [super dentries inodes brk device].
  erewrite bind_step by (apply upd_inode_ok; cbn [inodes]; apply lookup_insert_eq).
  cbn [super dentries inodes brk device]. rewrite insert_insert_eq. done.
Qed.

Lemma newfs_alloc_dentry_ok s ia i p d k m :
  let sb := super s in
  let B := NEWFS_BLKS_SZ (sz_io sb) in
  inodes s !! ia = Some i -> dentries s !! p = Some d -> de_brother d = None ->
  176 < B < 2 ^ 20 -> 0 <= in_size i < 2 ^ 31 ->
  find_free (Z.to_nat (map_data_blks sb * B)) (map_data sb) 0 = Some (k, m) -> k <> max_data sb ->
  newfs_alloc_dentry (Some ia) (Some p) s =
  Ok (in_dir_cnt i + 1,
      Newfs (set_map_data m sb) (<[p := set_brother (in_dentrys i) d]> (dentries s))
        (<[ia := set_sizes (in_size i + sizeof_dentry) (in_dir_cnt i + 1) (set_dentrys (Some p) i)]>
           (inodes s)) (brk s) (device s)).
Proof.
  intros sb B Hi Hd Hb HB Hs Hff Hk. unfold newfs_alloc_dentry.
  erewrite bind_step by (by apply inode_at_Some).
  erewrite (bind_step _ _ s tt).
  2: { instantiate (1 := Newfs (super s) (<[p := set_brother (in_dentrys i) d]> (dentries s))
         (<[ia := set_dentrys (Some p) i]> (inodes s)) (brk s) (device s)).
       destruct (in_dentrys i) as [h|] eqn:E.
       - erewrite bind_step by (by apply upd_dentry_ok). cbn [super dentries inodes brk device].
         by erewrite upd_inode_ok by done.
       - erewrite upd_inode_ok by done. rewrite (insert_id (dentries s)); [reflexivity|].
         rewrite Hd. destruct d. cbn in *. by subst. }
  unfold get_super, upd_super. rewrite bind_gets. cbn [super]. cbv zeta. fold sb B.
  rewrite needs_block_always, Hff by done. rewrite bind_assoc, bind_modify.
  cbn [super dentries inodes brk device]. rewrite bind_ret.
  destruct (Z.eqb_spec k (max_data sb)); [done|].
  erewrite bind_step by (apply upd_inode_ok; cbn [inodes]; apply lookup_insert_eq).
  cbn [super dentries inodes brk device]. rewrite insert_insert_eq. done.
Qed.

(** The effect of creating an entry [n] of type [t] as address [a] in the
    directory [p] with children [l]: its inode number is [k], nothing else moves. *)
Record created (s s' : newfs D) (p : nat) (l : list nat) (a : nat) (n : list Z) (t k : Z)
    (mi md : list Z) : Prop := {
  cr_dir : dir_at s' p (a :: l);
  cr_new : exists ia, dentries s' !! a =
     Some (Dentry (n ++ repeat 0 (128 - length n)) t (Some p) (head l) k (Some ia) 0) /\
     inodes s !! ia = None /\
     exists junk, inodes s' !! ia =
       Some (Inode k 0 0 (Some a) None (fresh_data t (NEWFS_BLKS_SZ (sz_io (super s))) junk));
  cr_fresh : dentries s !! a = None;
  cr_others x : x <> a -> dentries s' !! x = dentries s !! x;
  cr_dirs q l' : q <> p -> dir_at s q l' -> dir_at s' q l';
  cr_super : super s' = set_map_data md (set_map_inode mi (super s));
  cr_device : device s' = device s;
}.

Lemma chain_head h p l : chain h p l -> p = head l.
Proof. destruct l as [|a l]; cbn; [done|]. by intros [-> _]. Qed.

(** What creation needs: a consistent heap, a free inode and a free data bit. *)
Record can_create s (p : nat) (l : list nat) (k : Z) (mi md : list Z) : Prop := {
  cc_heap : heap_ok s;
  cc_dir : dir_at s p l;
  cc_B : 176 < NEWFS_BLKS_SZ (sz_io (super s)) < 2 ^ 20;
  cc_size : forall a i, inodes s !! a = Some i -> 0 <= in_size i < 2 ^ 31;
  cc_inode : find_free (Z.to_nat (map_inode_blks (super s) * NEWFS_BLKS_SZ (sz_io (super s))))
               (map_inode (super s)) 0 = Some (k, mi) /\ k <> max_ino (super s);
  cc_data : exists b, find_free (Z.to_nat (map_data_blks (super s) * NEWFS_BLKS_SZ (sz_io (super s))))
               (map_data (super s)) 0 = Some (b, md) /\ b <> max_data (super s);
}.

(** The state after a creation, in full. *)
Lemma new_entry_eq s p dp ip i k mi b md ns n t :
  let sb := super s in
  let B := NEWFS_BLKS_SZ (sz_io sb) in
  let a := brk s in
  heap_ok s -> dentries s !! p = Some dp -> de_inode dp = Some ip -> inodes s !! ip = Some i ->
  176 < B < 2 ^ 20 -> 0 <= in_size i < 2 ^ 31 ->
  find_free (Z.to_nat (map_inode_blks sb * B)) (map_inode sb) 0 = Some (k, mi) -> k <> max_ino sb ->
  find_free (Z.to_nat (map_data_blks sb * B)) (map_data sb) 0 = Some (b, md) -> b <> max_data sb ->
  name_ok n ->
  exists brk' junk, (S (S a) <= brk')%nat /\ junk = heap_junk (S (S a)) (NEWFS_DATA_PER_FILE * B) /\
  new_entry (pathname (ns ++ [n])) t (Some p) s =
  Ok (NEWFS_ERROR_NONE, Newfs (set_map_data md (set_map_inode mi sb))
    (<[a := Dentry (n ++ repeat 0 (128 - length n)) t (Some p) (in_dentrys i) k (Some (S a)) 0]> (dentries s))
    (<[ip := set_sizes (in_size i + sizeof_dentry) (in_dir_cnt i + 1) (set_dentrys (Some a) i)]>
       (<[S a := Inode k 0 0 (Some a) None (fresh_data t B junk)]> (inodes s))) brk' (device s)).
Proof.
  intros sb B a [Hhd Hhi] Hdp Hip Hi HB Hsz Hfi Hki Hfd Hkb Hn. pose proof Hn as (_ & _ & Hlen).
  assert (Hpa : p <> a) by (intros ->; assert (a < a)%nat by (apply Hhd; eauto); lia).
  assert (Hne : ip <> S a) by (intros ->; assert (S a < a)%nat by (apply Hhi; eauto); lia).
  unfold new_entry. rewrite newfs_get_fname_pathname by done.
  unfold new_dentry. destruct (Z.ltb_spec NEWFS_MAX_FILE_NAME (Z.of_nat (length n))); [lia|].
  rewrite bind_assoc. unfold malloc_dentry. erewrite bind_step by reflexivity. rewrite bind_ret.
  fold a. erewrite bind_step by (apply upd_dentry_ok; cbn [dentries]; apply lookup_insert_eq).
  cbn [super dentries inodes brk device]. rewrite insert_insert_eq.
  set (d1 := set_parent _ _).
  destruct (newfs_alloc_inode_ok
    (Newfs (super s) (<[a := d1]> (dentries s)) (inodes s) (S a) (device s)) a d1 k mi)
    as (brk' & Hbrk & E); [apply lookup_insert_eq|done..|].
  exists brk', (heap_junk (S (S a)) (NEWFS_DATA_PER_FILE * B)). split; [exact Hbrk|]. split; [done|].
  erewrite bind_step by exact E. clear E. cbn [super dentries inodes brk device]. rewrite insert_insert_eq.
  erewrite bind_step by (apply dentry_at_Some; cbn [dentries]; rewrite lookup_insert_ne by done; exact Hdp).
  rewrite Hip.
  erewrite bind_step.
  2: { eapply newfs_alloc_dentry_ok; cbn [super dentries inodes brk device];
       [rewrite lookup_insert_ne by done; exact Hi|apply lookup_insert_eq|done|done
       |exact Hsz|exact Hfd|exact Hkb]. }
  cbn [super dentries inodes brk device]. by rewrite insert_insert_eq.
Qed.

(** A list of entries does not see a new one. *)
Lemma chain_new h a d q l : h !! a = None -> chain h q l -> chain (<[a := d]> h) q l /\ a ∉ l.
Proof.
  intros Ha Hc. assert (Hl : a ∉ l) by (intros Hin; destruct (chain_elem _ _ _ _ Hc Hin) as [x Hx]; congruence).
  split; [|done]. eapply chain_ext; [|exact Hc]. intros x Hx. rewrite lookup_insert_ne; [done|]. by intros ->.
Qed.

Lemma new_entry_ok s p l k mi md ns n t :
  can_create s p l k mi md -> name_ok n ->
  exists s', new_entry (pathname (ns ++ [n])) t (Some p) s = Ok (NEWFS_ERROR_NONE, s') /\
    created s s' p l (brk s) n t k mi md.
Proof.
  intros [Hheap (dp & ip & i & Hdp & Htp & Hip & Hi & Hpi & Hc) HB Hsz [Hfi Hki] (b & Hfd & Hkb)] Hn.
  set (a := brk s) in *. pose proof Hheap as [Hhd Hhi].
  assert (Ha : dentries s !! a = None) by (apply eq_None_not_Some; intros Hs; apply Hhd in Hs; lia).
  assert (Hpa : p <> a) by (intros ->; congruence).
  assert (Hia : inodes s !! S a = None) by (apply eq_None_not_Some; intros Hs; apply Hhi in Hs; lia).
  assert (Hne : ip <> S a) by (intros ->; congruence).
  destruct (new_entry_eq s p dp ip i k mi b md ns n t) as (brk' & junk & Hbrk & _ & E); try done; [by eapply Hsz|].
  eexists. split; [exact E|]. fold a.
  split; cbn [super dentries inodes brk device].
  - eexists dp, ip, _. cbn [super dentries inodes brk device]. rewrite lookup_insert_eq, lookup_insert_ne by done.
    split_and!; [done..|]. cbn. split_and!; [done|by eapply (chain_new _ _ dp)|]. eexists. rewrite lookup_insert_eq.
    split; [done|]. by apply chain_new.
  - exists (S a). rewrite lookup_insert_eq. split_and!; [|done|].
    { rewrite (chain_head _ _ _ Hc). done. }
    eexists. rewrite lookup_insert_ne by done. rewrite lookup_insert_eq. done.
  - done.
  - intros x Hx. by rewrite lookup_insert_ne.
  - intros q l' Hq (dq & iq & i' & Hdq & Htq & Hiq & Hi' & Hqi & Hcq). exists dq, iq, i'.
    cbn [super dentries inodes brk device].
    rewrite !lookup_insert_ne; [split_and!; auto; by apply chain_new|..]; congruence.
  - done.
  - done.
Qed.
End create.
End NewfsAlloc.
