(* ===== verification/NewfsThms.v ===== *)
(** * The file system: what its operations do

    Creating, finding, listing, writing, reading and saving files, stated over
    the directory view of [NewfsLookup] and the bytes of the device. *)

From S2P Require Import Prelude.
From S2P Require Import Memory.
From S2P Require Import NewfsDisk.
From S2P Require Import NewfsDiskThms.
From S2P Require Import Newfs.
From S2P Require Import NewfsLookup.
From S2P Require Import NewfsAlloc.

Module NewfsThms.
Import NewfsDiskThms Newfs NewfsLookup NewfsAlloc.

Section ops.
Context {D : Type} `{!Ddriver D} `{Platform}.
Implicit Types s : newfs D.

(** ** Creation *)

Lemma resolves_snoc s r ns ds p l n q :
  resolves s r ns ds p -> dir_at s p l -> first_match (dentries s) l n = Some q ->
  resolves s r (ns ++ [n]) (ds ++ [p]) q.
Proof.
  induction 1; intros Hd Hm; cbn; econstructor; eauto. constructor.
Qed.

Lemma resolves_created s s' p l a n t k mi md r ns ds q :
  created s s' p l a n t k mi md -> resolves s r ns ds q -> p ∉ ds -> resolves s' r ns ds q.
Proof.
  intros Hcr. induction 1 as [|x l' m y ns ds z Hd Hm Hr IH]; intros Hp; [constructor|].
  apply not_elem_of_cons in Hp as [Hxp Hp]. econstructor; [eapply cr_dirs; eauto| |by apply IH].
  rewrite <- Hm. apply first_match_ext. intros b Hb. eapply cr_others; [exact Hcr|].
  intros ->. pose proof (cr_fresh _ _ _ _ _ _ _ _ _ _ Hcr).
  destruct Hd as (? & ? & ? & _ & _ & _ & _ & _ & Hc).
  destruct (chain_elem _ _ _ _ Hc Hb). congruence.
Qed.

(** The new entry is found under its path. *)
Lemma created_lookup s s' p l a n t k mi md r ns ds :
  created s s' p l a n t k mi md -> resolves s r ns ds p -> p ∉ ds ->
  root_dentry (super s) = Some r -> Forall name_ok ns -> name_ok n ->
  Z.of_nat (length (pathname (ns ++ [n]))) < path_cap ->
  resolves s' r (ns ++ [n]) (ds ++ [p]) a /\
  newfs_lookup (pathname (ns ++ [n])) s' = Ok ((Some a, Some true, false), s').
Proof.
  intros Hcr Hres Hp Hr Hok Hn Hcap.
  destruct (cr_new _ _ _ _ _ _ _ _ _ _ Hcr) as (ia & Ha & _).
  assert (Hres' : resolves s' r (ns ++ [n]) (ds ++ [p]) a).
  { eapply resolves_snoc; [by eapply resolves_created|by eapply cr_dir|].
    cbn. unfold starts_with. rewrite Ha. cbn [de_fname].
    rewrite bool_decide_true; [done|]. apply take_app_length. }
  split; [done|].
  eapply newfs_lookup_found; [|exact Hres'|by exists (Dentry (n ++ repeat 0 (128 - length n)) t (Some p) (head l) k (Some ia) 0), ia
    |apply Forall_app; auto|by destruct ns|done].
  by rewrite (cr_super _ _ _ _ _ _ _ _ _ _ Hcr).
Qed.

(** The preconditions of a creation, as one hypothesis: the directories of the
    path are in memory, the parent is none of its own ancestors, and no entry
    of the parent answers to the name. *)
Record creatable s (ns : list (list Z)) (n : list Z) (p : nat) (l : list nat) (k : Z)
    (mi md : list Z) : Prop := {
  ct_res : exists r ds, root_dentry (super s) = Some r /\ resolves s r ns ds p /\ p ∉ ds;
  ct_can : can_create s p l k mi md;
  ct_new : first_match (dentries s) l n = None;
  ct_names : Forall name_ok ns /\ name_ok n;
  ct_cap : Z.of_nat (length (pathname (ns ++ [n]))) < path_cap;
  ct_map : (Z.to_nat (map_inode_blks (super s) * NEWFS_BLKS_SZ (sz_io (super s)))
            <= length (map_inode (super s)))%nat;
}.

Lemma creatable_lookup s ns n p l k mi md :
  creatable s ns n p l k mi md ->
  newfs_lookup (pathname (ns ++ [n])) s = Ok ((Some p, Some false, false), s).
Proof.
  intros [(r & ds & Hr & Hres & Hp) Hcan Hnew [Hok Hn] Hcap _].
  eapply newfs_lookup_absent; eauto. by eapply cc_dir.
Qed.

(** What a creation that returned 0 has achieved. *)
Definition entry_made s s' (ns : list (list Z)) (n : list Z) (p : nat) (l : list nat) (t k : Z) : Prop :=
  exists a d,
    newfs_lookup (pathname (ns ++ [n])) s' = Ok ((Some a, Some true, false), s') /\
    dir_at s' p (a :: l) /\ a ∉ l /\
    dentries s' !! a = Some d /\ de_ftype d = t /\ de_parent d = Some p /\ de_ino d = k /\
    (t = NEWFS_DIR -> dir_at s' a []) /\
    (forall x, x <> a -> dentries s' !! x = dentries s !! x) /\
    used (map_inode (super s)) k = false /\
    (forall j, 0 <= j < k -> used (map_inode (super s)) j = true) /\
    (forall j, 0 <= j -> used (map_inode (super s')) j = (j =? k) || used (map_inode (super s)) j) /\
    device s' = device s.

Lemma new_entry_made s ns n p l k mi md t :
  creatable s ns n p l k mi md ->
  exists s', new_entry (pathname (ns ++ [n])) t (Some p) s = Ok (NEWFS_ERROR_NONE, s') /\
    entry_made s s' ns n p l t k.
Proof.
  intros [(r & ds & Hr & Hres & Hp) Hcan Hnew [Hok Hn] Hcap Hmap].
  destruct (new_entry_ok s p l k mi md ns n t Hcan Hn) as (s' & E & Hcr).
  exists s'. split; [done|].
  destruct (created_lookup _ _ _ _ _ _ _ _ _ _ _ _ _ Hcr Hres Hp Hr Hok Hn Hcap) as [_ Hl].
  pose proof (cr_dir _ _ _ _ _ _ _ _ _ _ Hcr) as Hdir.
  pose proof (cr_new _ _ _ _ _ _ _ _ _ _ Hcr) as (ia & Ha & _ & junk & Hia).
  pose proof (find_free_spec _ (map_inode (super s)) 0 Hmap) as Hff.
  destruct (cc_inode _ _ _ _ _ _ Hcan) as [Ef _]. rewrite Ef in Hff.
  rewrite Z.sub_0_r in Hff. destruct Hff as (_ & _ & Hfree & Hleast & Hset).
  assert (Hal : brk s ∉ l).
  { destruct Hdir as (? & ? & ? & _ & _ & _ & _ & _ & Hc). apply Hc. }
  exists (brk s), (Dentry (n ++ repeat 0 (128 - length n)) t (Some p) (head l) k (Some ia) 0).
  rewrite (cr_super _ _ _ _ _ _ _ _ _ _ Hcr). split_and!; try done; [| |eapply cr_device; eauto].
  - intros ->. by eexists _, ia, _.
  - intros x Hx. by eapply cr_others.
Qed.

(** [newfs_mkdir] on a path whose parent directory is in memory, whose last
    name is new and for which there is a free inode returns 0, and afterwards the
    path is found; the new entry is an empty directory, the first child of its
    parent, with the least inode number that was not in use, which alone gets
    marked; no other entry changes. *)
Theorem newfs_mkdir_creates s ns n p l k mi md :
  creatable s ns n p l k mi md ->
  exists s', newfs_mkdir (pathname (ns ++ [n])) s = Ok (NEWFS_ERROR_NONE, s') /\
    entry_made s s' ns n p l NEWFS_DIR k.
Proof.
  intros Hct. destruct (new_entry_made s ns n p l k mi md NEWFS_DIR Hct) as (s' & E & Hpost).
  exists s'. split; [|done]. unfold newfs_mkdir.
  erewrite bind_step by (by eapply creatable_lookup). cbn beta iota.
  cbn [read_var]. rewrite bind_ret. cbn match.
  destruct (cc_dir _ _ _ _ _ _ (ct_can _ _ _ _ _ _ _ _ Hct)) as (dp & ip & i & Hdp & Htp & Hip & Hi & Hpi & _).
  erewrite bind_step by (by apply dentry_at_Some). rewrite Hip.
  erewrite bind_step by (by eapply IS_REG_ok). by rewrite Htp.
Qed.

(** [newfs_mknod] with a regular file's mode, under the same conditions,
    returns 0 and the path is then found as a file with the least free inode
    number. *)
Theorem newfs_mknod_creates s ns n p l k mi md mode :
  creatable s ns n p l k mi md -> S_ISREG mode = true ->
  exists s', newfs_mknod (pathname (ns ++ [n])) mode s = Ok (NEWFS_ERROR_NONE, s') /\
    entry_made s s' ns n p l NEWFS_FILE k.
Proof.
  intros Hct Hm. destruct (new_entry_made s ns n p l k mi md NEWFS_FILE Hct) as (s' & E & Hpost).
  exists s'. split; [|done]. unfold newfs_mknod.
  erewrite bind_step by (by eapply creatable_lookup). cbn beta iota.
  cbn [read_var]. rewrite bind_ret. cbn match. by rewrite Hm.
Qed.

(** ** Reading and writing files *)

(** The entry [q] is a file in memory, with inode [i] at [a] and contents [b]. *)
Definition file_at s (q a : nat) (i : newfs_inode) (b : list Z) : Prop :=
  exists d, dentries s !! q = Some d /\ de_ftype d = NEWFS_FILE /\ de_inode d = Some a /\
    inodes s !! a = Some i /\ in_dentry i = Some q /\ in_data i = Some b.

(** The path names the file. *)
Record names_file s (ns : list (list Z)) (q a : nat) (i : newfs_inode) (b : list Z) : Prop := {
  nf_res : exists r ds, root_dentry (super s) = Some r /\ resolves s r ns ds q;
  nf_file : file_at s q a i b;
  nf_names : Forall name_ok ns /\ ns <> [];
  nf_cap : Z.of_nat (length (pathname ns)) < path_cap;
}.

Lemma open_file_ok s ns q a i b offset :
  names_file s ns q a i b -> offset <= in_size i ->
  open_file (pathname ns) offset s = Ok (inr (Some a, i), s).
Proof.
  intros [(r & ds & Hr & Hres) (d & Hd & Ht & Ha & Hi & Hq & Hb) [Hok Hne] Hcap] Ho.
  unfold open_file. erewrite bind_step.
  2: { eapply newfs_lookup_found; eauto. by exists d, a. }
  cbn beta iota. cbn [read_var]. rewrite bind_ret. cbn [negb].
  erewrite bind_step by (by apply dentry_at_Some). rewrite Ha.
  erewrite bind_step by (by eapply IS_DIR_ok). rewrite Ht. change (NEWFS_FILE =? NEWFS_DIR) with false. cbn match.
  erewrite bind_step by (by apply inode_at_Some).
  destruct (Z.ltb_spec (in_size i) offset); [lia|done].
Qed.

(** Changing the contents of an inode moves no entry. *)
Definition with_content s (a : nat) (i : newfs_inode) (size : Z) (b : list Z) : newfs D :=
  Newfs (super s) (dentries s) (<[a := set_content size b i]> (inodes s)) (brk s) (device s).

Lemma names_file_content s ns q a i b size b' :
  names_file s ns q a i b ->
  names_file (with_content s a i size b') ns q a (set_content size b' i) b'.
Proof.
  intros [(r & ds & Hr & Hres) (d & Hd & Ht & Ha & Hi & Hq & Hb) Hns Hcap]. split; [|..|done|done].
  - exists r, ds. split; [done|]. clear - Hres Hi.
    induction Hres as [|p l n x ns ds y (dp & ip & j & Hdp & Htp & Hip & Hj & Hpj & Hc) Hm Hr IH]; [constructor|].
    econstructor; [|exact Hm|exact IH].
    destruct (decide (ip = a)) as [->|Hn].
    + exists dp, a, (set_content size b' i). unfold with_content. cbn [dentries inodes].
      rewrite lookup_insert_eq. assert (j = i) as -> by congruence. by split_and!.
    + exists dp, ip, j. unfold with_content. cbn [dentries inodes].
      rewrite lookup_insert_ne by done. by split_and!.
  - exists d. unfold with_content. cbn [dentries inodes]. rewrite lookup_insert_eq. by split_and!.
Qed.

(** Writing [buf] at an offset inside the file (at most its size, and within
    the eight blocks of its buffer) returns the number of bytes; reading the same
    range then returns exactly them, the bytes outside the range are as before,
    and the size grows to the end of the write and never shrinks. *)
Theorem newfs_write_then_read s ns q a i b offset buf :
  names_file s ns q a i b -> 0 <= offset <= in_size i ->
  offset + Z.of_nat (length buf) <= Z.of_nat (length b) -> Z.of_nat (length buf) < 2 ^ 31 ->
  exists s' i' b',
    newfs_write (pathname ns) buf offset s = Ok (Z.of_nat (length buf), s') /\
    newfs_read (pathname ns) (Z.of_nat (length buf)) offset s' =
      Ok ((Z.of_nat (length buf), map u8 buf), s') /\
    names_file s' ns q a i' b' /\ in_size i' = Z.max (in_size i) (offset + Z.of_nat (length buf)) /\
    length b' = length b /\
    (forall j, (j < Z.to_nat offset \/ Z.to_nat offset + length buf <= j)%nat -> b' !! j = b !! j).
Proof.
  intros Hnf Ho Hfit Hmax. pose proof (nf_file _ _ _ _ _ _ Hnf) as (d & _ & _ & _ & Hi & _ & Hb).
  set (size := if in_size i <? offset + Z.of_nat (length buf) then offset + Z.of_nat (length buf) else in_size i).
  set (o := Z.to_nat offset) in *.
  set (b' := take o b ++ map u8 buf ++ drop (o + length buf) b).
  assert (Hlen : length b' = length b).
  { unfold b'. rewrite !length_app, length_map, length_take, length_drop. lia. }
  assert (Hto : length (take o b) = o) by (rewrite length_take; lia).
  assert (Hnf' := names_file_content _ _ _ _ _ _ size b' Hnf).
  assert (Hsize : size = Z.max (in_size i) (offset + Z.of_nat (length buf))).
  { unfold size. destruct (Z.ltb_spec (in_size i) (offset + Z.of_nat (length buf))); lia. }
  eexists (with_content s a i size b'), (set_content size b' i), b'. split_and!.
  - unfold newfs_write. erewrite bind_step by (eapply open_file_ok; [exact Hnf|lia]). cbn beta iota.
    rewrite Hb. destruct (Z.ltb_spec offset 0); [lia|].
    destruct (Z.ltb_spec (Z.of_nat (length b)) (offset + Z.of_nat (length buf))); [lia|]. cbn [orb].
    erewrite bind_step by (by apply upd_inode_ok). by rewrite s32_small by lia.
  - unfold newfs_read. erewrite bind_step by (eapply open_file_ok; [exact Hnf'|cbn; lia]). cbn beta iota.
    cbn [in_data set_content]. destruct (Z.ltb_spec offset 0); [lia|]. rewrite Hlen.
    destruct (Z.ltb_spec (Z.of_nat (length b)) (offset + Z.of_nat (length buf))); [lia|]. cbn [orb].
    rewrite s32_small, Nat2Z.id by lia. fold o. unfold b'. rewrite drop_app_length' by done.
    by rewrite take_app_length' by (by rewrite length_map).
  - exact Hnf'.
  - exact Hsize.
  - exact Hlen.
  - intros j [Hj|Hj]; unfold b'.
    + rewrite lookup_app_l by lia. by rewrite lookup_take_lt.
    + rewrite lookup_app_r, Hto by lia. rewrite lookup_app_r by (rewrite length_map; lia).
      rewrite length_map, lookup_drop. f_equal. lia.
Qed.

(** The path names the directory [p] with children [l]. *)
Record names_dir s (ns : list (list Z)) (p : nat) (l : list nat) : Prop := {
  nd_res : exists r ds, root_dentry (super s) = Some r /\ resolves s r ns ds p;
  nd_dir : dir_at s p l;
  nd_names : Forall name_ok ns /\ ns <> [];
  nd_cap : Z.of_nat (length (pathname ns)) < path_cap;
}.

Lemma names_dir_lookup s ns p l :
  names_dir s ns p l -> newfs_lookup (pathname ns) s = Ok ((Some p, Some true, false), s).
Proof.
  intros [(r & ds & Hr & Hres) Hdir [Hok Hne] Hcap].
  eapply newfs_lookup_found; eauto using dir_cached.
Qed.

Lemma open_file_dir s ns p l offset :
  names_dir s ns p l -> open_file (pathname ns) offset s = Ok (inl (- NEWFS_ERROR_ISDIR), s).
Proof.
  intros Hnd. unfold open_file. erewrite bind_step by (by eapply names_dir_lookup).
  cbn beta iota. cbn [read_var]. rewrite bind_ret. cbn [negb].
  destruct (nd_dir _ _ _ _ Hnd) as (d & a & i & Hd & Ht & Ha & Hi & Hq & _).
  erewrite bind_step by (by apply dentry_at_Some). rewrite Ha.
  erewrite bind_step by (by eapply IS_DIR_ok). by rewrite Ht.
Qed.

(** On the path of a directory, creating again fails with [-EEXIST] and
    reading or writing it with [-EISDIR]; a name its children do not answer to
    gives [-ENOENT] for [getattr], [readdir], [read] and [write]. None of them
    changes anything. *)
Theorem newfs_error_results s ns p l n mode uid gid at' mt st buf size offset :
  names_dir s ns p l -> name_ok n -> first_match (dentries s) l n = None ->
  Z.of_nat (length (pathname (ns ++ [n]))) < path_cap ->
  newfs_mkdir (pathname ns) s = Ok (- NEWFS_ERROR_EXISTS, s) /\
  newfs_mknod (pathname ns) mode s = Ok (- NEWFS_ERROR_EXISTS, s) /\
  newfs_write (pathname ns) buf offset s = Ok (- NEWFS_ERROR_ISDIR, s) /\
  newfs_read (pathname ns) size offset s = Ok ((- NEWFS_ERROR_ISDIR, []), s) /\
  newfs_getattr uid gid at' mt (pathname (ns ++ [n])) st s = Ok ((- NEWFS_ERROR_NOTFOUND, st), s) /\
  newfs_readdir (pathname (ns ++ [n])) offset s = Ok ((- NEWFS_ERROR_NOTFOUND, None), s) /\
  newfs_write (pathname (ns ++ [n])) buf offset s = Ok (- NEWFS_ERROR_NOTFOUND, s) /\
  newfs_read (pathname (ns ++ [n])) size offset s = Ok ((- NEWFS_ERROR_NOTFOUND, []), s).
Proof.
  intros Hnd Hn Hnone Hcap. pose proof (names_dir_lookup _ _ _ _ Hnd) as Hl.
  pose proof (open_file_dir _ _ _ _ offset Hnd) as Hopen.
  assert (Habs : newfs_lookup (pathname (ns ++ [n])) s = Ok ((Some p, Some false, false), s)).
  { destruct Hnd as [(r & ds & Hr & Hres) Hdir [Hok Hne] _]. by eapply newfs_lookup_absent. }
  assert (Hopen' : open_file (pathname (ns ++ [n])) offset s = Ok (inl (- NEWFS_ERROR_NOTFOUND), s)).
  { unfold open_file. by erewrite bind_step by exact Habs. }
  unfold newfs_mkdir, newfs_mknod, newfs_write, newfs_read, newfs_getattr, newfs_readdir.
  by split_and!; erewrite bind_step by eassumption.
Qed.

(** ** Listing *)
Lemma get_dentry_loop_ok s l : forall fuel p k c,
  (length l <= fuel)%nat -> chain (dentries s) p l -> c <= k ->
  get_dentry_loop fuel p k c s = Ok (l !! Z.to_nat (k - c), s).
Proof.
  induction l as [|a l IH]; intros fuel p k c Hf Hc Hk.
  { cbn in Hc. subst p. by destruct fuel. }
  destruct Hc as (-> & _ & d & Hd & Hc). destruct fuel as [|fuel]; [cbn in Hf; lia|].
  cbn [get_dentry_loop]. destruct (Z.eqb_spec k c) as [->|].
  { by rewrite Z.sub_diag. }
  erewrite bind_step by (by apply dentry_at_Some). rewrite (IH fuel); [|cbn in Hf; lia|done|lia].
  replace (Z.to_nat (k - c)) with (S (Z.to_nat (k - (c + 1)))) by lia. done.
Qed.

(** [newfs_readdir] at offset [k] passes the name of the [k]-th child of the
    directory to [filler], with [k + 1] as the next offset, and passes nothing
    once [k] is past the last child: calling it from 0 on lists every child
    once. *)
Theorem newfs_readdir_lists s ns p l k :
  names_dir s ns p l -> Z.of_nat k < 2 ^ 31 ->
  newfs_readdir (pathname ns) (Z.of_nat k) s =
  match l !! k with
  | None => Ok ((NEWFS_ERROR_NONE, None), s)
  | Some a =>
      match dentries s !! a with
      | None => Fail (Undefined "dentry")
      | Some d => match cstr (de_fname d) with
                  | None => Fail (Undefined "fname")
                  | Some name => Ok ((NEWFS_ERROR_NONE, Some (name, Z.of_nat k + 1)), s)
                  end
      end
  end.
Proof.
  intros Hnd Hk. unfold newfs_readdir. cbv zeta.
  erewrite bind_step by (by eapply names_dir_lookup). cbn beta iota. cbn [read_var]. rewrite bind_ret.
  cbn [negb]. destruct (nd_dir _ _ _ _ Hnd) as (d & a & i & Hd & Ht & Ha & Hi & Hq & Hc).
  erewrite bind_step by (by apply dentry_at_Some). rewrite Ha.
  erewrite bind_step.
  2: { unfold newfs_get_dentry. erewrite bind_step by (by apply inode_at_Some). rewrite bind_gets.
       rewrite s32_small by lia. apply get_dentry_loop_ok; [by eapply chain_length|exact Hc|lia]. }
  rewrite Z.sub_0_r, Nat2Z.id. destruct (l !! k) as [x|] eqn:El; [|done].
  destruct (chain_elem _ _ _ _ Hc (list_elem_of_lookup_2 _ _ _ El)) as [dx Hx]. rewrite Hx.
  erewrite bind_step by (by apply dentry_at_Some). by destruct (cstr (de_fname dx)).
Qed.
End ops.

(** ** Saving files *)
Section disk.
Context {D : Type} `{!Ddriver D} `{!DdriverOk D} `{Platform}.
Implicit Types s : newfs D.

Definition with_device s (d : D) : newfs D := Newfs (super s) (dentries s) (inodes s) (brk s) d.

(** The super block knows the device's transfer unit. *)
Definition geometry s : Prop :=
  sz_io (super s) = ddriver_io_sz (device s) /\ whole_blocks (device s).

Lemma driver_read_ok s offset size :
  geometry s -> 0 <= offset -> 0 <= size -> offset + size <= ddriver_size (device s) ->
  wp (driver_read offset size) s (fun l s' =>
    l = dbytes (device s) offset (Z.to_nat size) /\
    exists d', s' = with_device s d' /\ same_disk (device s) d').
Proof.
  intros [Hio Hw] Ho Hs He. unfold driver_read, get_super, wp. rewrite bind_gets. unfold on_disk.
  pose proof (newfs_driver_read_ok (device s) (sz_io (super s)) offset size (eq_sym Hio) Hw Ho Hs He) as Hwp.
  apply wp_elim in Hwp as (l & d' & -> & -> & Hd). split; [done|]. by exists d'.
Qed.

Lemma driver_write_ok s offset l size :
  geometry s -> 0 <= offset -> 0 <= size -> offset + size <= ddriver_size (device s) ->
  size <= Z.of_nat (length l) ->
  wp (driver_write offset l size) s (fun _ s' =>
    exists d', s' = with_device s d' /\
    (forall a, dd_byte d' a = if (offset <=? a) && (a <? offset + size)
       then u8 (nth (Z.to_nat (a - offset)) l 0) else dd_byte (device s) a) /\
    ddriver_size d' = ddriver_size (device s) /\ ddriver_io_sz d' = ddriver_io_sz (device s)).
Proof.
  intros [Hio Hw] Ho Hs He Hl. unfold driver_write, get_super, wp. rewrite bind_gets. unfold on_disk.
  pose proof (newfs_driver_write_ok (device s) (sz_io (super s)) offset l size (eq_sym Hio) Hw Ho Hs He Hl) as Hwp.
  apply wp_elim in Hwp as (u & d' & -> & Hd). by exists d'.
Qed.

(** Bytes written are read back. *)
Lemma dbytes_written (d' : D) offset l n :
  (n <= length l)%nat -> Forall (fun b => 0 <= b < 256) l ->
  (forall a, offset <= a < offset + Z.of_nat n -> dd_byte d' a = u8 (nth (Z.to_nat (a - offset)) l 0)) ->
  dbytes d' offset n = take n l.
Proof.
  intros Hn Hl Hd. apply list_eq. intros j. destruct (decide (j < n)%nat).
  - rewrite dbytes_lookup, lookup_take_lt, Hd by lia.
    replace (Z.to_nat (offset + Z.of_nat j - offset)) with j by lia.
    destruct (lookup_lt_is_Some_2 l j ltac:(lia)) as [x Hx]. rewrite (nth_lookup_Some _ _ _ _ Hx), Hx.
    f_equal. apply u8_small. by apply (Forall_lookup_1 _ _ _ _ Hl Hx).
  - rewrite !lookup_ge_None_2; [done| |]; rewrite ?length_take, ?length_dbytes; lia.
Qed.

Lemma le_bytes n x : Forall (fun b => 0 <= b < 256) (le n x).
Proof. apply Forall_forall. intros y. unfold le. intros Hy%list_elem_of_fmap. destruct Hy as (i & -> & _). apply u8_range. Qed.

Lemma enc_inode_d_bytes junk x : Forall (fun b => 0 <= b < 256) (enc_inode_d junk x).
Proof. unfold enc_inode_d. rewrite !Forall_app. split_and!; apply le_bytes. Qed.

Lemma newfs_round_up_bounds v B : 0 <= v -> 0 < B -> v <= NEWFS_ROUND_UP v B < v + B.
Proof. intros Hv HB. destruct (round_up_spec v B Hv HB) as [_ ?]. lia. Qed.

(** The file fits on the disk: its inode lies below the data area, its eight
    blocks below the end. *)
Record on_disk_ok s (i : newfs_inode) (b : list Z) : Prop := {
  od_geometry : geometry s;
  od_block : NEWFS_BLKS_SZ (sz_io (super s)) = NEWFS_DATA_SIZE;
  od_ino : 0 <= in_ino i < NEWFS_INODE_NUM;
  od_end : NEWFS_DA_OFS (in_ino i + 1) <= ddriver_size (device s);
  od_data : Z.of_nat (length b) = NEWFS_DATA_PER_FILE * NEWFS_DATA_SIZE;
  od_bytes : Forall (fun x => 0 <= x < 256) b;
  od_size : 0 <= in_size i <= Z.of_nat (length b);
  od_cnt : int32 (in_dir_cnt i);
}.

Lemma od_offsets s i b : on_disk_ok s i b ->
  NEWFS_INODE_OFS <= NEWFS_INO_OFS (in_ino i) /\
  NEWFS_INO_OFS (in_ino i) + sizeof_inode_d <= NEWFS_DATA_OFS <= NEWFS_DA_OFS (in_ino i) /\
  NEWFS_DA_OFS (in_ino i + 1) = NEWFS_DA_OFS (in_ino i) + NEWFS_DATA_PER_FILE * NEWFS_DATA_SIZE.
Proof.
  intros [_ _ Hino _ _ _ _ _]. unfold NEWFS_INO_OFS, NEWFS_DA_OFS, NEWFS_INODE_OFS, NEWFS_DATA_OFS,
    NEWFS_INODE_SIZE, NEWFS_INODE_NUM, sizeof_inode_d, NEWFS_DATA_PER_FILE, NEWFS_DATA_SIZE in *. lia.
Qed.

(** A multiple of the block size below eight blocks and a bit is at most eight
    blocks. *)
Lemma od_rounded s i b : on_disk_ok s i b ->
  NEWFS_ROUND_UP (in_size i) NEWFS_DATA_SIZE <= NEWFS_DATA_PER_FILE * NEWFS_DATA_SIZE.
Proof.
  intros [_ _ _ _ Hlen _ Hsize _]. rewrite Hlen in Hsize.
  destruct (round_up_spec (in_size i) NEWFS_DATA_SIZE ltac:(lia) ltac:(done)) as [Hm Hb].
  apply Z.div_exact in Hm; [|done]. change NEWFS_DATA_SIZE with 1024 in *. change NEWFS_DATA_PER_FILE with 8 in *. lia.
Qed.

(** What saving a file writes: the inode's record and the rounded contents. *)
Lemma sync_file_ok s fuel q a i b :
  file_at s q a i b -> on_disk_ok s i b ->
  wp (newfs_sync_inode (S fuel) (Some a)) s (fun _ s1 =>
    exists d', s1 = with_device s d' /\
    (forall x, dd_byte d' x =
       let n := NEWFS_ROUND_UP (in_size i) NEWFS_DATA_SIZE in
       let o := NEWFS_DA_OFS (in_ino i) in
       let oi := NEWFS_INO_OFS (in_ino i) in
       if (o <=? x) && (x <? o + n) then u8 (nth (Z.to_nat (x - o)) b 0)
       else if (oi <=? x) && (x <? oi + sizeof_inode_d)
       then u8 (nth (Z.to_nat (x - oi))
                 (enc_inode_d stack_junk (InodeD (in_ino i) (in_size i) NEWFS_FILE (in_dir_cnt i))) 0)
       else dd_byte (device s) x) /\
    ddriver_size d' = ddriver_size (device s) /\ ddriver_io_sz d' = ddriver_io_sz (device s)).
Proof.
  intros (d & Hd & Ht & Ha & Hi & Hq & Hb) Ho. pose proof (od_offsets _ _ _ Ho) as (Ho1 & Ho2 & Ho3).
  pose proof (od_rounded _ _ _ Ho) as Hround. destruct Ho as [Hg HB Hino Hend Hlen Hbytes Hsize Hcnt].
  destruct (newfs_round_up_bounds (in_size i) NEWFS_DATA_SIZE ltac:(lia) ltac:(done)) as [Hr1 Hr2].
  assert (0 <= NEWFS_INODE_OFS) by done. assert (0 <= sizeof_inode_d) by done.
  assert (0 <= NEWFS_DATA_PER_FILE * NEWFS_DATA_SIZE) by done.
  cbn [newfs_sync_inode]. eapply wp_bind_Ok; [by apply inode_at_Some|]. cbv zeta.
  eapply wp_bind_Ok; [by eapply ftype_of_ok|]. rewrite Ht. apply wp_bind. eapply wp_mono.
  { apply driver_write_ok; [done|lia|done|lia|by rewrite length_enc_inode_d]. }
  cbn beta. intros _ s1 (d1 & -> & Hb1 & Hs1 & Hi1).
  change (NEWFS_FILE =? NEWFS_DIR) with false. change (NEWFS_FILE =? NEWFS_FILE) with true. cbn match. rewrite Hb.
  unfold get_super. apply wp_bind, wp_gets. cbn [super with_device]. rewrite HB. eapply wp_mono.
  { apply driver_write_ok; cbn [device with_device]; rewrite ?Hs1; [|lia..].
    unfold geometry, whole_blocks in *. cbn [super device with_device]. by rewrite Hi1, Hs1. }
  cbn beta. intros _ s2 (d2 & -> & Hb2 & Hs2 & Hi2). exists d2. cbn [super dentries inodes brk device with_device] in *.
  split_and!; [done| |congruence|congruence]. intros x. rewrite Hb2, Hb1. done.
Qed.

(** Reading the inode of a file: the record and the eight blocks on disk. *)
Lemma read_file_ok s q ino :
  (exists d, dentries s !! q = Some d /\ de_ftype d = NEWFS_FILE) -> geometry s ->
  NEWFS_BLKS_SZ (sz_io (super s)) = NEWFS_DATA_SIZE -> 0 <= ino < NEWFS_INODE_NUM ->
  NEWFS_DA_OFS (ino + 1) <= ddriver_size (device s) ->
  wp (newfs_read_inode (Some q) ino) s (fun r s' =>
    r = Some (brk s) /\ exists d',
    let x := dec_inode_d (dbytes (device s) (NEWFS_INO_OFS ino) 32) in
    s' = Newfs (super s) (dentries s)
           (<[brk s := Inode (id_ino x) (id_size x) 0 (Some q) None
                (Some (dbytes (device s) (NEWFS_DA_OFS ino)
                        (Z.to_nat (NEWFS_DATA_PER_FILE * NEWFS_DATA_SIZE))))]> (inodes s))
           (S (S (brk s))) d').
Proof.
  intros (d & Hd & Ht) Hg HB Hino Hend.
  assert (Hofs : NEWFS_INO_OFS ino + sizeof_inode_d <= NEWFS_DA_OFS ino /\ 0 <= NEWFS_INO_OFS ino /\
    NEWFS_DA_OFS (ino + 1) = NEWFS_DA_OFS ino + NEWFS_DATA_PER_FILE * NEWFS_DATA_SIZE).
  { unfold NEWFS_INO_OFS, NEWFS_DA_OFS, NEWFS_INODE_OFS, NEWFS_DATA_OFS,
    NEWFS_INODE_SIZE, NEWFS_INODE_NUM, sizeof_inode_d, NEWFS_DATA_PER_FILE, NEWFS_DATA_SIZE in *. lia. }
  assert (Hpos : 0 <= NEWFS_DATA_PER_FILE * NEWFS_DATA_SIZE) by done.
  assert (Hpos' : 0 <= sizeof_inode_d) by done.
  unfold newfs_read_inode. apply wp_bind. eapply wp_mono.
  { apply driver_read_ok; [done|lia|done|lia]. }
  cbn beta. intros l s1 (-> & d1 & -> & Hb1 & Hs1 & Hi1).
  change (Z.to_nat sizeof_inode_d) with 32%nat. set (x := dec_inode_d _). cbv zeta.
  eapply wp_bind_Ok; [reflexivity|]. cbn [super dentries inodes brk device with_device].
  eapply wp_bind_Ok.
  { eapply ftype_of_ok; cbn [dentries inodes]; [apply lookup_insert_eq|reflexivity|exact Hd]. }
  rewrite Ht. change (NEWFS_FILE =? NEWFS_DIR) with false. change (NEWFS_FILE =? NEWFS_FILE) with true. cbn match.
  apply wp_bind. unfold get_super. apply wp_bind, wp_gets. cbn [super]. cbv zeta.
  eapply wp_bind_Ok; [reflexivity|]. cbn [super dentries inodes brk device]. rewrite HB.
  apply wp_bind. eapply wp_mono.
  { apply driver_read_ok; cbn [device]; rewrite ?Hs1; [|lia..].
    unfold geometry, whole_blocks in *. cbn [super device]. by rewrite Hi1, Hs1. }
  cbn beta. intros l s2 (-> & d2 & -> & _). cbn [super dentries inodes brk device with_device].
  eapply wp_Ok; [apply upd_inode_ok; cbn [inodes]; apply lookup_insert_eq|].
  apply wp_ret. split; [done|]. exists d2. cbv zeta. cbn [super dentries inodes brk device with_device].
  fold x. rewrite insert_insert_eq. unfold set_content. cbn [in_ino in_size in_dir_cnt in_dentry in_dentrys].
  do 4 f_equal. apply dbytes_ext. intros; apply Hb1.
Qed.

(** Saving a file's inode with [newfs_sync_inode] and reading it back with
    [newfs_read_inode] gives an inode with the same number and size and the same
    contents up to that size; saving does not touch the data of other inodes. *)
Theorem newfs_sync_read_file s fuel q a i b :
  file_at s q a i b -> on_disk_ok s i b -> heap_ok s ->
  wp (newfs_sync_inode (S fuel) (Some a)) s (fun _ s1 =>
    (forall x, x < NEWFS_INODE_OFS \/ NEWFS_DATA_OFS <= x < NEWFS_DA_OFS (in_ino i) \/
               NEWFS_DA_OFS (in_ino i + 1) <= x -> dd_byte (device s1) x = dd_byte (device s) x) /\
    wp (newfs_read_inode (Some q) (in_ino i)) s1 (fun r s2 =>
      exists a' i' b', r = Some a' /\ inodes s !! a' = None /\ file_at s2 q a i b /\
        inodes s2 !! a' = Some i' /\ in_ino i' = in_ino i /\ in_size i' = in_size i /\
        in_dentry i' = Some q /\ in_data i' = Some b' /\
        take (Z.to_nat (in_size i)) b' = take (Z.to_nat (in_size i)) b)).
Proof.
  intros Hf Ho Hh. eapply wp_mono; [by eapply sync_file_ok|]. cbn beta.
  intros _ s1 (d1 & -> & Hb & Hsz & Hio). pose proof Ho as [[Hg1 Hg2] HB Hino Hend Hlen Hbytes Hsize Hcnt].
  destruct (newfs_round_up_bounds (in_size i) NEWFS_DATA_SIZE ltac:(lia) ltac:(done)) as [Hr1 Hr2].
  destruct (round_up_spec (in_size i) NEWFS_DATA_SIZE ltac:(lia) ltac:(done)) as [Hr3 _].
  pose proof (od_offsets _ _ _ Ho) as (Ho1 & Ho2 & Ho3). pose proof (od_rounded _ _ _ Ho) as Hround.
  assert (0 <= sizeof_inode_d) by done.
  split.
  { intros x Hx. cbn [device with_device]. rewrite Hb. cbv zeta.
    repeat case_bool; lia || done. }
  assert (Hgeo : geometry (with_device s d1)).
  { unfold geometry, whole_blocks. cbn [super device with_device]. by rewrite Hio, Hsz. }
  eapply wp_mono; [apply (read_file_ok (with_device s d1) q (in_ino i)); try done|].
  - destruct Hf as (d & Hd & Ht & _). by exists d.
  - cbn [device with_device]. rewrite Hsz. lia.
  - cbn beta. cbn [device with_device inodes brk]. intros r s2 (-> & d2 & Hs2).
    set (x := dec_inode_d _) in Hs2.
    assert (Hx : x = InodeD (in_ino i) (in_size i) NEWFS_FILE (in_dir_cnt i)).
    { unfold x. rewrite (dbytes_written d1 (NEWFS_INO_OFS (in_ino i))
        (enc_inode_d stack_junk (InodeD (in_ino i) (in_size i) NEWFS_FILE (in_dir_cnt i))) 32);
        [|by rewrite length_enc_inode_d|apply enc_inode_d_bytes|].
      - rewrite take_ge by (by rewrite length_enc_inode_d). apply dec_enc_inode_d; cbn; unfold int32 in *;
          change NEWFS_FILE with 0; change NEWFS_INODE_NUM with 3968 in *;
          change NEWFS_DATA_PER_FILE with 8 in *; change NEWFS_DATA_SIZE with 1024 in *; lia.
      - intros y Hy. rewrite Hb. cbv zeta. change sizeof_inode_d with 32 in *. repeat case_bool; lia || done. }
    assert (Hfresh : inodes s !! brk s = None).
    { apply eq_None_not_Some. intros Hs. apply Hh in Hs. lia. }
    eexists (brk s), _, _. subst s2. cbn [inodes dentries]. rewrite lookup_insert_eq.
    split_and!; try reflexivity; [done| | | |].
    + destruct Hf as (d & Hd & Ht & Ha & Hi & Hq & Hdat). exists d. cbn [inodes dentries with_device].
      rewrite lookup_insert_ne by congruence. by split_and!.
    + by rewrite Hx.
    + by rewrite Hx.
    + set (n := Z.to_nat (NEWFS_DATA_PER_FILE * NEWFS_DATA_SIZE)).
      replace n with (Z.to_nat (in_size i) + (n - Z.to_nat (in_size i)))%nat by lia.
      rewrite dbytes_app, take_app_length' by (by rewrite length_dbytes).
      apply dbytes_written; [lia|done|]. intros y Hy. rewrite Hb. cbv zeta.
      destruct (Z.leb_spec (NEWFS_DA_OFS (in_ino i)) y); [|lia]. case_bool; [done|].
      apply andb_false_iff in E as [E|E]; bool_to_prop; lia.
Qed.


(** [newfs_driver_write] then [newfs_driver_read] of the same range, at any
    offset and size within a device of whole blocks, returns the bytes written,
    and the write changes no byte outside the range although both transfer whole
    blocks. *)
Theorem newfs_driver_roundtrip (d : D) io offset l :
  ddriver_io_sz d = io -> whole_blocks d -> 0 <= offset ->
  offset + Z.of_nat (length l) <= ddriver_size d -> Forall (fun b => 0 <= b < 256) l ->
  wp (newfs_driver_write io offset l (Z.of_nat (length l))) d (fun _ d1 =>
    (forall a, a < offset \/ offset + Z.of_nat (length l) <= a -> dd_byte d1 a = dd_byte d a) /\
    wp (newfs_driver_read io offset (Z.of_nat (length l))) d1 (fun k d2 => k = l /\ same_disk d1 d2)).
Proof.
  intros Hio Hw Ho He Hl. eapply wp_mono; [apply newfs_driver_write_ok; auto; lia|]. cbn beta.
  intros _ d1 (Hb & Hs & Hi). split.
  { intros a Ha. rewrite Hb. case_bool; [lia|done]. }
  eapply wp_mono.
  { apply newfs_driver_read_ok; [congruence|by unfold whole_blocks in *; rewrite Hi, Hs|done|lia|by rewrite Hs]. }
  cbn beta. intros k d2 [-> Hsame]. split; [|done]. rewrite Nat2Z.id.
  rewrite (dbytes_written d1 offset l (length l)); [by apply take_ge|done|done|].
  intros a Ha. rewrite Hb. destruct (Z.leb_spec offset a); [|lia].
  by destruct (Z.ltb_spec a (offset + Z.of_nat (length l))); [|lia].
Qed.
End disk.
End NewfsThms.
