(* ===== verification/NewfsTree.v ===== *)
(** * The file system: saving a whole tree

    A directory tree as data, what it means that the heap holds it and that the
    device holds it, and that [newfs_sync_inode] takes the one to the other and
    touches nothing else of the device. *)

From S2P Require Import Prelude.
From S2P Require Import Memory.
From S2P Require Import NewfsDisk.
From S2P Require Import NewfsDiskThms.
From S2P Require Import Newfs.
From S2P Require Import NewfsLookup.
From S2P Require Import NewfsAlloc.
From S2P Require Import NewfsThms.

Module NewfsTree.
Import NewfsDiskThms Newfs NewfsLookup NewfsAlloc NewfsThms.

(** A file with its inode number, size, link count and contents; a directory with its
    inode number, size and named entries, in the order of the list in memory. *)
Inductive node : Type :=
| File (ino size cnt : Z) (b : list Z)
| Dir (ino size : Z) (es : list (list Z * node)).

Section node_ind.
Variable P : node -> Prop.
Hypothesis HFile : forall ino size cnt b, P (File ino size cnt b).
Hypothesis HDir : forall ino size es, Forall (fun e => P (snd e)) es -> P (Dir ino size es).
Fixpoint node_tree_ind (n : node) : P n :=
  match n with
  | File ino size cnt b => HFile ino size cnt b
  | Dir ino size es => HDir ino size es
      ((fix go es : Forall (fun e => P (snd e)) es :=
          match es with
          | [] => Forall_nil_2 _
          | e :: es' => Forall_cons_2 _ _ _ (node_tree_ind (snd e)) (go es')
          end) es)
  end.
End node_ind.

Definition node_ino (n : node) : Z := match n with File ino _ _ _ => ino | Dir ino _ _ => ino end.
Definition node_type (n : node) : Z := match n with File _ _ _ _ => NEWFS_FILE | Dir _ _ _ => NEWFS_DIR end.

(** All inode numbers of a tree. *)
Fixpoint inos (n : node) : list Z :=
  match n with
  | File ino _ _ _ => [ino]
  | Dir ino _ es => ino :: concat (map (fun e => inos (snd e)) es)
  end.
Definition inos_of (es : list (list Z * node)) : list Z := concat (map (fun e => inos (snd e)) es).

Lemma node_ino_in n : node_ino n ∈ inos n.
Proof. destruct n; cbn; set_solver. Qed.

(** The array of a name. *)
Definition padded (name : list Z) : list Z := name ++ repeat 0 (128 - length name).

(** ** In memory *)
Fixpoint in_heap (h : gmap nat newfs_dentry) (im : gmap nat newfs_inode) (q a : nat) (n : node) : Prop :=
  exists d i, h !! q = Some d /\ de_ftype d = node_type n /\ de_inode d = Some a /\
    im !! a = Some i /\ in_dentry i = Some q /\ in_ino i = node_ino n /\
    match n with
    | File _ size cnt b => in_size i = size /\ in_dir_cnt i = cnt /\ in_data i = Some b
    | Dir _ size es =>
        in_size i = size /\ in_dir_cnt i = Z.of_nat (length es) /\
        (fix go (p : option nat) (es : list (list Z * node)) : Prop :=
           match es with
           | [] => p = None
           | e :: es' => exists x ax d, p = Some x /\ h !! x = Some d /\ de_fname d = padded (fst e) /\ de_ino d = node_ino (snd e) /\
               in_heap h im x ax (snd e) /\ go (de_brother d) es'
           end) (in_dentrys i) es
    end.

Fixpoint heap_list (h : gmap nat newfs_dentry) (im : gmap nat newfs_inode) (p : option nat) (es : list (list Z * node)) : Prop :=
  match es with
  | [] => p = None
  | e :: es' => exists x ax d, p = Some x /\ h !! x = Some d /\ de_fname d = padded (fst e) /\ de_ino d = node_ino (snd e) /\
      in_heap h im x ax (snd e) /\ heap_list h im (de_brother d) es'
  end.

Lemma in_heap_dir h im q a ino size es : in_heap h im q a (Dir ino size es) ->
  exists d i, h !! q = Some d /\ de_ftype d = NEWFS_DIR /\ de_inode d = Some a /\ im !! a = Some i /\
    in_dentry i = Some q /\ in_ino i = ino /\ in_size i = size /\ in_dir_cnt i = Z.of_nat (length es) /\
    heap_list h im (in_dentrys i) es.
Proof.
  intros (d & i & Hd & Ht & Ha & Hi & Hq & Hino & Hsz & Hcnt & Hl). exists d, i. split_and!; try done.
  clear Hcnt. revert Hl. generalize (in_dentrys i). clear. induction es as [|e es IH]; intros p Hl; [done|].
  destruct Hl as (x & ax & d & -> & Hx & Hf & Hdi & Hh & Hl). exists x, ax, d. split_and!; auto.
Qed.

(** Sizes and numbers are those of the format. *)
Definition name_fits (name : list Z) : Prop := 0 ∉ name /\ (length name < 128)%nat /\ Forall (fun c => 0 <= c < 256) name.
Definition MAX_ENTRIES : Z := 58.

Fixpoint good (n : node) : Prop :=
  match n with
  | File ino size cnt b =>
      0 <= ino < NEWFS_INODE_NUM /\ Z.of_nat (length b) = NEWFS_DATA_PER_FILE * NEWFS_DATA_SIZE /\
      Forall (fun x => 0 <= x < 256) b /\ 0 <= size <= Z.of_nat (length b) /\ int32 cnt
  | Dir ino size es =>
      0 <= ino < NEWFS_INODE_NUM /\ int32 size /\ Z.of_nat (length es) <= MAX_ENTRIES /\
      foldr and True (map (fun e => name_fits (fst e) /\ good (snd e)) es)
  end.

Lemma good_ino n : good n -> 0 <= node_ino n < NEWFS_INODE_NUM.
Proof. destruct n; cbn; tauto. Qed.
Lemma good_inos n : good n -> Forall (fun i => 0 <= i < NEWFS_INODE_NUM) (inos n).
Proof.
  induction n as [|ino size es IH] using node_tree_ind; cbn; [intros (? & _); constructor; [done|constructor]|].
  intros (Hino & _ & _ & Hg). constructor; [done|]. induction IH as [|e es He _ IHes]; [constructor|].
  destruct Hg as [[_ Hge] Hg]. cbn. apply Forall_app. auto.
Qed.

Lemma inos_of_range es i : foldr and True (map (fun e => name_fits (fst e) /\ good (snd e)) es) -> i ∈ inos_of es ->
  0 <= i < NEWFS_INODE_NUM.
Proof.
  induction es as [|e es IH]; intros Hg Hi; [by apply not_elem_of_nil in Hi|]. destruct Hg as [[_ Hge] Hg].
  apply elem_of_app in Hi as [Hi|Hi]; [|by apply IH]. apply good_inos in Hge. by apply (proj1 (Forall_forall _ _) Hge).
Qed.
Lemma inos_range n i : good n -> i ∈ inos n -> 0 <= i < NEWFS_INODE_NUM.
Proof. intros Hg. apply (proj1 (Forall_forall _ _) (good_inos _ Hg)). Qed.

(** ** On the device *)

(** The bytes that belong to an inode number. *)
Definition touches (ino x : Z) : Prop :=
  NEWFS_INO_OFS ino <= x < NEWFS_INO_OFS ino + sizeof_inode_d \/ NEWFS_DA_OFS ino <= x < NEWFS_DA_OFS (ino + 1).

Lemma touches_apart i j x : 0 <= i < NEWFS_INODE_NUM -> 0 <= j < NEWFS_INODE_NUM -> i <> j -> touches i x -> ~ touches j x.
Proof.
  unfold touches, NEWFS_INO_OFS, NEWFS_DA_OFS, sizeof_inode_d, NEWFS_INODE_OFS, NEWFS_INODE_SIZE, NEWFS_DATA_OFS,
    NEWFS_DATA_PER_FILE, NEWFS_DATA_SIZE, NEWFS_INODE_NUM. lia.
Qed.

Lemma touches_above ino x : 0 <= ino < NEWFS_INODE_NUM -> touches ino x -> NEWFS_INODE_OFS <= x.
Proof.
  unfold touches, NEWFS_INO_OFS, NEWFS_DA_OFS, sizeof_inode_d, NEWFS_INODE_OFS, NEWFS_INODE_SIZE, NEWFS_DATA_OFS,
    NEWFS_DATA_PER_FILE, NEWFS_DATA_SIZE, NEWFS_INODE_NUM. lia.
Qed.

Section device.
Context {D : Type} `{!Ddriver D} `{!DdriverOk D}.

Fixpoint on_dev (d : D) (n : node) : Prop :=
  match n with
  | File ino size cnt b =>
      dec_inode_d (dbytes d (NEWFS_INO_OFS ino) 32) = InodeD ino size NEWFS_FILE cnt /\
      take (Z.to_nat size) (dbytes d (NEWFS_DA_OFS ino) (Z.to_nat (NEWFS_DATA_PER_FILE * NEWFS_DATA_SIZE))) = take (Z.to_nat size) b
  | Dir ino size es =>
      dec_inode_d (dbytes d (NEWFS_INO_OFS ino) 32) = InodeD ino size NEWFS_DIR (Z.of_nat (length es)) /\
      (fix go (k : Z) (es : list (list Z * node)) : Prop :=
         match es with
         | [] => True
         | e :: es' =>
             dec_dentry_d (dbytes d (NEWFS_DA_OFS ino + k * sizeof_dentry_d) 140) =
               DentryD (padded (fst e)) (node_type (snd e)) (node_ino (snd e)) /\
             on_dev d (snd e) /\ go (k + 1) es'
         end) 0 es
  end.

Fixpoint dev_list (d : D) (ino k : Z) (es : list (list Z * node)) : Prop :=
  match es with
  | [] => True
  | e :: es' =>
      dec_dentry_d (dbytes d (NEWFS_DA_OFS ino + k * sizeof_dentry_d) 140) =
        DentryD (padded (fst e)) (node_type (snd e)) (node_ino (snd e)) /\
      on_dev d (snd e) /\ dev_list d ino (k + 1) es'
  end.

Lemma on_dev_dir d ino size es : on_dev d (Dir ino size es) <->
  dec_inode_d (dbytes d (NEWFS_INO_OFS ino) 32) = InodeD ino size NEWFS_DIR (Z.of_nat (length es)) /\ dev_list d ino 0 es.
Proof.
  cbn. split; intros [Hr Hl]; (split; [done|]); revert Hl; clear Hr; generalize 0; induction es as [|e es IH]; cbn; try done;
    intros k (H1 & H2 & H3); (split; [done|]; split; [done|by apply IH]).
Qed.

(** What is saved stays saved when its bytes stay. *)
Lemma dev_list_ext d d' ino es : forall k, 0 <= k -> k + Z.of_nat (length es) <= MAX_ENTRIES ->
  (forall x, NEWFS_DA_OFS ino + k * sizeof_dentry_d <= x < NEWFS_DA_OFS ino + (k + Z.of_nat (length es)) * sizeof_dentry_d ->
     dd_byte d' x = dd_byte d x) ->
  Forall (fun e => on_dev d (snd e) -> on_dev d' (snd e)) es ->
  dev_list d ino k es -> dev_list d' ino k es.
Proof.
  unfold sizeof_dentry_d. induction es as [|e es IH]; intros k Hk Hm Hx He Hl; [done|]. cbn [length] in *.
  apply Forall_cons in He as [He Hes]. destruct Hl as (Hr & Hn & Hl). split; [|split; [by apply He|]].
  - rewrite <- Hr. f_equal. apply dbytes_ext. intros a Ha. apply Hx. unfold sizeof_dentry_d in *. lia.
  - apply IH; [lia|lia| |done|done]. intros x Hx'. apply Hx. lia.
Qed.

Lemma on_dev_ext d d' n : good n -> (forall ino x, ino ∈ inos n -> touches ino x -> dd_byte d' x = dd_byte d x) ->
  on_dev d n -> on_dev d' n.
Proof.
  induction n as [ino size cnt b|ino size es IH] using node_tree_ind; intros Hg Hx Hd.
  - destruct Hd as [Hr Hb]. destruct Hg as (Hino & _). split.
    + rewrite <- Hr. f_equal. apply dbytes_ext. intros a Ha. apply (Hx ino); [cbn; set_solver|left; exact Ha].
    + rewrite <- Hb. f_equal. apply dbytes_ext. intros a Ha. apply (Hx ino); [cbn; set_solver|right].
      unfold NEWFS_DA_OFS, NEWFS_DATA_PER_FILE, NEWFS_DATA_SIZE in *. lia.
  - apply on_dev_dir in Hd as [Hr Hl]. destruct Hg as (Hino & _ & Hlen & Hg). apply on_dev_dir. split.
    + rewrite <- Hr. f_equal. apply dbytes_ext. intros a Ha. apply (Hx ino); [cbn; set_solver|left; exact Ha].
    + eapply (dev_list_ext d); [lia|lia| | |done].
      * intros x Hr'. apply (Hx ino); [cbn; set_solver|right]. unfold NEWFS_DA_OFS, NEWFS_DATA_PER_FILE, NEWFS_DATA_SIZE,
          sizeof_dentry_d, MAX_ENTRIES in *. lia.
      * clear Hl Hr Hlen. assert (Hsub : forall i x, i ∈ inos_of es -> touches i x -> dd_byte d' x = dd_byte d x).
        { intros i x Hi. apply Hx. cbn. by right. }
        clear Hx. induction IH as [|e es He _ IHes]; [constructor|]. destruct Hg as [[_ Hge] Hg]. unfold inos_of in *. cbn in Hsub. constructor.
        { apply He; [done|]. intros i x Hi. apply Hsub, elem_of_app. by left. }
        apply IHes; [done|]. intros i x Hi. apply Hsub, elem_of_app. by right.
Qed.

(** ** Saving *)
Definition same_geo (d d' : D) : Prop := ddriver_size d' = ddriver_size d /\ ddriver_io_sz d' = ddriver_io_sz d.

Definition fits_dev (d : D) (l : list Z) : Prop := Forall (fun ino => NEWFS_DA_OFS (ino + 1) <= ddriver_size d) l.

(** The device holds [n], and nothing else has changed. *)
Definition synced (d d' : D) (n : node) : Prop :=
  same_geo d d' /\ on_dev d' n /\ forall x, (forall ino, ino ∈ inos n -> ~ touches ino x) -> dd_byte d' x = dd_byte d x.

(** The recursion depth that saving takes. *)
Fixpoint need (n : node) : nat :=
  match n with
  | File _ _ _ _ => 1
  | Dir _ _ es => S (foldr (fun k m => S (Nat.max k m)) 0%nat (map (fun e => need (snd e)) es))
  end.
Definition need_list (es : list (list Z * node)) : nat := foldr (fun k m => S (Nat.max k m)) 0%nat (map (fun e => need (snd e)) es).

Context `{Platform}.
Implicit Types s : newfs D.

Lemma geometry_with s d' : geometry s -> same_geo (device s) d' -> geometry (with_device s d').
Proof. intros [Hio Hw] [Hs Hi]. split; unfold whole_blocks in *; cbn; by rewrite ?Hi, ?Hs. Qed.

Lemma same_geo_trans d1 d2 d3 : same_geo d1 d2 -> same_geo d2 d3 -> same_geo d1 d3.
Proof. intros [A B] [A' B']. split; congruence. Qed.

Lemma fits_dev_geo d d' l : same_geo d d' -> fits_dev d l -> fits_dev d' l.
Proof. intros [Hs _]. unfold fits_dev. by rewrite Hs. Qed.

Lemma sync_file s fuel q a ino size cnt b :
  in_heap (dentries s) (inodes s) q a (File ino size cnt b) -> good (File ino size cnt b) -> geometry s ->
  NEWFS_BLKS_SZ (sz_io (super s)) = NEWFS_DATA_SIZE -> fits_dev (device s) [ino] ->
  wp (newfs_sync_inode (S fuel) (Some a)) s (fun _ s1 => exists d', s1 = with_device s d' /\ synced (device s) d' (File ino size cnt b)).
Proof.
  intros (d & i & Hd & Ht & Ha & Hi & Hq & Hino & Hsz & Hcnt & Hb) (Hr & Hlen & Hbytes & Hsize & Hint) Hg HB Hf.
  cbn [node_type node_ino] in *. subst ino size cnt.
  apply Forall_cons in Hf as [Hend _]. assert (Ho : on_disk_ok s i b) by (by split).
  pose proof (od_offsets _ _ _ Ho) as (Ho1 & Ho2 & Ho3). pose proof (od_rounded _ _ _ Ho) as Hround.
  destruct (newfs_round_up_bounds (in_size i) NEWFS_DATA_SIZE ltac:(lia) ltac:(done)) as [Hr1 Hr2].
  eapply wp_mono; [eapply (sync_file_ok s fuel q a i b); [by exists d|done]|]. cbn beta zeta.
  intros _ s1 (d' & -> & Hby & Hs & Hio). exists d'. split; [done|]. split; [done|].
  assert (0 <= NEWFS_DATA_PER_FILE * NEWFS_DATA_SIZE) by done. split.
  - split.
    + rewrite (dbytes_written d' (NEWFS_INO_OFS (in_ino i)) (enc_inode_d stack_junk (InodeD (in_ino i) (in_size i) NEWFS_FILE (in_dir_cnt i))) 32);
        [|by rewrite length_enc_inode_d|apply enc_inode_d_bytes|].
      * rewrite take_ge by (by rewrite length_enc_inode_d). apply dec_enc_inode_d; cbn; unfold int32 in *;
          change NEWFS_FILE with 0; change NEWFS_INODE_NUM with 3968 in *;
          change NEWFS_DATA_PER_FILE with 8 in *; change NEWFS_DATA_SIZE with 1024 in *; lia.
      * intros y Hy. rewrite Hby. change sizeof_inode_d with 32 in *. repeat case_bool; lia || done.
    + set (n := Z.to_nat (NEWFS_DATA_PER_FILE * NEWFS_DATA_SIZE)).
      replace n with (Z.to_nat (in_size i) + (n - Z.to_nat (in_size i)))%nat by lia.
      rewrite dbytes_app, take_app_length' by (by rewrite length_dbytes).
      apply dbytes_written; [lia|done|]. intros y Hy. rewrite Hby.
      destruct (Z.leb_spec (NEWFS_DA_OFS (in_ino i)) y); [|lia]. case_bool; [done|].
      apply andb_false_iff in E as [E|E]; bool_to_prop; lia.
  - intros x Hx. specialize (Hx (in_ino i) ltac:(cbn; set_solver)). rewrite Hby. unfold touches in Hx.
    repeat case_bool; lia || done.
Qed.

Definition saves (n : node) : Prop := forall fuel s q a,
  in_heap (dentries s) (inodes s) q a n -> good n -> NoDup (inos n) -> geometry s ->
  NEWFS_BLKS_SZ (sz_io (super s)) = NEWFS_DATA_SIZE -> fits_dev (device s) (inos n) -> (need n <= fuel)%nat ->
  wp (newfs_sync_inode fuel (Some a)) s (fun _ s1 => exists d', s1 = with_device s d' /\ synced (device s) d' n).

(** The bytes of the entries [k] to [k + n - 1] of a directory. *)
Definition slots (ino k n x : Z) : Prop :=
  NEWFS_DA_OFS ino + k * sizeof_dentry_d <= x < NEWFS_DA_OFS ino + (k + n) * sizeof_dentry_d.

Lemma slots_touch ino k n x : 0 <= k -> k + n <= MAX_ENTRIES -> slots ino k n x -> touches ino x.
Proof.
  unfold slots, touches, NEWFS_DA_OFS, NEWFS_DATA_PER_FILE, NEWFS_DATA_SIZE, sizeof_dentry_d, MAX_ENTRIES. lia.
Qed.

(** A record of the directory is written. *)
Lemma write_slot s ino k nm t i :
  geometry s -> NEWFS_DA_OFS (ino + 1) <= ddriver_size (device s) -> 0 <= ino -> 0 <= k < MAX_ENTRIES ->
  name_fits nm -> int32 t -> int32 i ->
  wp (driver_write (NEWFS_DA_OFS ino + k * sizeof_dentry_d) (enc_dentry_d stack_junk (DentryD (padded nm) t i)) sizeof_dentry_d) s
    (fun _ s1 => exists d', s1 = with_device s d' /\ same_geo (device s) d' /\
       dec_dentry_d (dbytes d' (NEWFS_DA_OFS ino + k * sizeof_dentry_d) 140) = DentryD (padded nm) t i /\
       forall x, ~ slots ino k 1 x -> dd_byte d' x = dd_byte (device s) x).
Proof.
  intros Hg Hend Hino Hk (Hnz & Hlen & Hby) Ht Hi.
  assert (Hpl : length (padded nm) = 128%nat) by (unfold padded; rewrite length_app, repeat_length; lia).
  assert (Hpos : 0 <= NEWFS_DA_OFS ino /\ NEWFS_DA_OFS ino + (k + 1) * sizeof_dentry_d <= NEWFS_DA_OFS (ino + 1)).
  { unfold NEWFS_DA_OFS, NEWFS_DATA_OFS, NEWFS_DATA_PER_FILE, NEWFS_DATA_SIZE, sizeof_dentry_d, MAX_ENTRIES in *. lia. }
  assert (Henc : length (enc_dentry_d stack_junk (DentryD (padded nm) t i)) = 140%nat) by (by apply length_enc_dentry_d).
  unfold sizeof_dentry_d in *. eapply wp_mono.
  { apply driver_write_ok; [done|lia|done|lia|by rewrite Henc]. }
  cbn beta. intros _ s1 (d' & -> & Hb & Hs & Hio). exists d'. split; [done|]. split; [done|]. split.
  - rewrite (dbytes_written d' _ (enc_dentry_d stack_junk (DentryD (padded nm) t i)) 140); [|by rewrite Henc| |].
    + rewrite take_ge by (by rewrite Henc). by apply dec_enc_dentry_d.
    + unfold enc_dentry_d. cbn [dd_fname dd_ftype dd_ino]. rewrite !Forall_app. split_and!; try apply le_bytes.
      unfold padded. apply Forall_app. split; [done|]. apply Forall_forall. intros y Hy. apply list_elem_of_In, repeat_spec in Hy. lia.
    + intros a Ha. rewrite Hb. case_bool; [done|]. apply andb_false_iff in E as [E|E]; bool_to_prop; lia.
  - intros x Hx. rewrite Hb. unfold slots, sizeof_dentry_d in Hx. case_bool; [lia|done].
Qed.

Lemma node_numbers n : good n -> int32 (node_type n) /\ int32 (node_ino n).
Proof.
  intros Hg. apply good_ino in Hg. unfold int32, NEWFS_INODE_NUM in *. split; [|lia]. destruct n; cbn; unfold NEWFS_FILE, NEWFS_DIR; lia.
Qed.

(** The loop over the entries: from entry [k] of the directory [ino] on. *)
Lemma sync_list ino es : Forall (fun e => saves (snd e)) es -> 0 <= ino < NEWFS_INODE_NUM ->
  forall fuel s p k, heap_list (dentries s) (inodes s) p es -> foldr and True (map (fun e => name_fits (fst e) /\ good (snd e)) es) ->
  NoDup (inos_of es) -> ino ∉ inos_of es -> 0 <= k -> k + Z.of_nat (length es) <= MAX_ENTRIES -> geometry s ->
  NEWFS_BLKS_SZ (sz_io (super s)) = NEWFS_DATA_SIZE -> fits_dev (device s) (ino :: inos_of es) -> (need_list es <= fuel)%nat ->
  wp (sync_dentrys fuel p (NEWFS_DA_OFS ino + k * sizeof_dentry_d)) s (fun _ s1 => exists d', s1 = with_device s d' /\
    same_geo (device s) d' /\ dev_list d' ino k es /\
    forall x, ~ slots ino k (Z.of_nat (length es)) x -> (forall i, i ∈ inos_of es -> ~ touches i x) -> dd_byte d' x = dd_byte (device s) x).
Proof.
  intros Hsaves Hino. induction Hsaves as [|e es He Hes IH]; intros fuel s p k Hh Hg Hnd Hnin Hk Hlen Hgeo HB Hf Hn.
  { cbn in Hh. subst p. destruct fuel; (apply wp_ret; exists (device s); split; [by destruct s|done]). }
  destruct Hh as (x & ax & d & -> & Hx & Hfn & Hi & Hhe & Hh). destruct Hg as [[Hname Hge] Hg].
  destruct fuel as [|fuel]; [cbn in Hn; lia|]. cbn [sync_dentrys]. cbn [need_list map foldr] in Hn. fold (need_list es) in Hn.
  unfold inos_of in Hnd, Hnin, Hf. cbn [map concat] in Hnd, Hnin, Hf. fold (inos_of es) in Hnd, Hnin, Hf.
  apply NoDup_app in Hnd as (Hnde & Hdisj & Hnd). apply not_elem_of_app in Hnin as [Hnine Hnin].
  apply Forall_cons in Hf as [Hfi Hf]. apply Forall_app in Hf as [Hfe Hf]. cbn [length] in Hlen.
  assert (Hfacts : de_ftype d = node_type (snd e) /\ de_inode d = Some ax).
  { destruct (snd e); destruct Hhe as (d' & i & Hd' & Ht & Ha & _); assert (d' = d) as -> by congruence; done. }
  destruct Hfacts as (Ht & Ha). destruct (node_numbers _ Hge) as [Hti Hii].
  eapply wp_bind_Ok; [by apply dentry_at_Some|]. rewrite Hfn, Ht, Hi, Ha.
  apply wp_bind. eapply wp_mono; [apply write_slot; [done|done|lia|lia|done|done|done]|]. cbn beta.
  intros _ s1 (d1 & -> & Hgeo1 & Hrec & Hby1). apply wp_bind. eapply wp_mono.
  { apply (He fuel (with_device s d1) x ax); [done|done|done|by apply geometry_with|done| |lia]. by eapply fits_dev_geo. }
  cbn beta. intros _ s2 (d2 & -> & Hgeo2 & Hon & Hby2). cbn [device with_device] in Hgeo2, Hby2.
  replace (NEWFS_DA_OFS ino + k * sizeof_dentry_d + sizeof_dentry_d) with (NEWFS_DA_OFS ino + (k + 1) * sizeof_dentry_d) by lia.
  assert (Hgeo12 : same_geo (device s) d2) by (by eapply same_geo_trans).
  eapply wp_mono.
  { apply (IH fuel (with_device (with_device s d1) d2) (de_brother d) (k + 1)); try done; try lia.
    - by apply (geometry_with s).
    - cbn. constructor; [by rewrite (proj1 Hgeo12)|by eapply fits_dev_geo]. }
  cbn beta. intros _ s3 (d3 & -> & Hgeo3 & Hl & Hby3). cbn [device with_device] in Hgeo3, Hby3.
  exists d3. split; [done|]. split; [by eapply same_geo_trans|].
  assert (Hown : forall y, touches ino y -> forall i, i ∈ inos (snd e) ++ inos_of es -> ~ touches i y).
  { intros y Hy i Hi' Ht'. assert (i <> ino) by (intros ->; apply elem_of_app in Hi' as [|]; done).
    assert (0 <= i < NEWFS_INODE_NUM) by (apply elem_of_app in Hi' as [Hi'|Hi']; [by eapply inos_range|by eapply inos_of_range]).
    by apply (touches_apart i ino y). }
  split; [split; [|split; [|done]]|].
  - rewrite <- Hrec. f_equal. apply dbytes_ext. intros y Hy.
    assert (Hsl : slots ino k 1 y) by (unfold slots, sizeof_dentry_d in *; lia).
    assert (Hty : touches ino y) by (eapply slots_touch; [| |exact Hsl]; lia).
    rewrite Hby3, Hby2; [done| |unfold slots, sizeof_dentry_d in *; lia|]; intros i Hi'; apply Hown; try done; apply elem_of_app; auto.
  - apply (on_dev_ext d2); [done| |done]. intros i y Hi' Hty. apply Hby3.
    + intros Hsl. apply (Hown y) with (i := i); [eapply slots_touch; [| |exact Hsl]; lia|apply elem_of_app; auto|done].
    + intros j Hj Htj. assert (i <> j) by (intros ->; by apply (Hdisj j)).
      assert (0 <= j < NEWFS_INODE_NUM) by (by eapply inos_of_range). assert (0 <= i < NEWFS_INODE_NUM) by (by eapply inos_range).
      by apply (touches_apart i j y).
  - intros y Hsl Hall. unfold inos_of in Hall. cbn [map concat length] in Hsl, Hall. fold (inos_of es) in Hall. unfold slots, sizeof_dentry_d in *.
    rewrite Hby3, Hby2, Hby1; [done| | |unfold slots, sizeof_dentry_d; lia|]; unfold slots, sizeof_dentry_d; try lia;
      intros i Hi'; apply Hall, elem_of_app; auto.
Qed.

(** The record of an inode is written. *)
Lemma write_inode s ino size t cnt :
  geometry s -> NEWFS_DA_OFS (ino + 1) <= ddriver_size (device s) -> 0 <= ino < NEWFS_INODE_NUM ->
  int32 size -> int32 t -> int32 cnt ->
  wp (driver_write (NEWFS_INO_OFS ino) (enc_inode_d stack_junk (InodeD ino size t cnt)) sizeof_inode_d) s
    (fun _ s1 => exists d', s1 = with_device s d' /\ same_geo (device s) d' /\
       dec_inode_d (dbytes d' (NEWFS_INO_OFS ino) 32) = InodeD ino size t cnt /\
       forall x, ~ (NEWFS_INO_OFS ino <= x < NEWFS_INO_OFS ino + sizeof_inode_d) -> dd_byte d' x = dd_byte (device s) x).
Proof.
  intros Hg Hend Hino Hs Ht Hc.
  assert (Hpos : 0 <= NEWFS_INO_OFS ino /\ NEWFS_INO_OFS ino + sizeof_inode_d <= NEWFS_DA_OFS (ino + 1)).
  { unfold NEWFS_INO_OFS, NEWFS_DA_OFS, sizeof_inode_d, NEWFS_INODE_OFS, NEWFS_INODE_SIZE, NEWFS_DATA_OFS,
      NEWFS_DATA_PER_FILE, NEWFS_DATA_SIZE, NEWFS_INODE_NUM in *. lia. }
  assert (Hi : int32 ino) by (unfold int32, NEWFS_INODE_NUM in *; lia).
  eapply wp_mono; [apply driver_write_ok; [done|lia|done|lia|by rewrite length_enc_inode_d]|]. cbn beta.
  intros _ s1 (d' & -> & Hb & Hsz & Hio). exists d'. split; [done|]. split; [done|]. split.
  - rewrite (dbytes_written d' _ (enc_inode_d stack_junk (InodeD ino size t cnt)) 32);
      [|by rewrite length_enc_inode_d|apply enc_inode_d_bytes|].
    + rewrite take_ge by (by rewrite length_enc_inode_d). by apply dec_enc_inode_d.
    + intros y Hy. rewrite Hb. change sizeof_inode_d with 32 in *. case_bool; [done|]. apply andb_false_iff in E as [E|E]; bool_to_prop; lia.
  - intros x Hx. rewrite Hb. case_bool; [lia|done].
Qed.

(** Saving the inode of a tree saves the tree. *)
Lemma sync_tree n : saves n.
Proof.
  induction n as [ino size cnt b|ino size es IH] using node_tree_ind; intros fuel s q a Hh Hg Hnd Hgeo HB Hf Hn.
  - destruct fuel as [|fuel]; [cbn in Hn; lia|]. by eapply sync_file.
  - destruct fuel as [|fuel]; [cbn in Hn; lia|]. cbn [need] in Hn. fold (need_list es) in Hn.
    apply in_heap_dir in Hh as (d & i & Hd & Ht & Ha & Hi & Hq & Hino & Hsz & Hcnt & Hl). pose proof Hg as (Hr & Hint & Hlen & Hges).
    cbn [inos] in Hnd, Hf. apply list.NoDup_cons in Hnd as [Hnin Hnd]. pose proof (proj1 (Forall_cons _ _ _) Hf) as [Hend _].
    cbn [newfs_sync_inode]. eapply wp_bind_Ok; [by apply inode_at_Some|]. cbv zeta.
    eapply wp_bind_Ok; [by eapply ftype_of_ok|]. rewrite Ht, Hino, Hsz, Hcnt. apply wp_bind.
    eapply wp_mono; [apply write_inode; try done; unfold int32, NEWFS_DIR, MAX_ENTRIES in *; lia|]. cbn beta.
    intros _ s1 (d1 & -> & Hgeo1 & Hrec & Hby1). change (NEWFS_DIR =? NEWFS_DIR) with true. cbn match.
    replace (NEWFS_DA_OFS ino) with (NEWFS_DA_OFS ino + 0 * sizeof_dentry_d) by lia. eapply wp_mono.
    { apply (sync_list ino es IH Hr fuel (with_device s d1) (in_dentrys i) 0); try done; try lia; [by apply geometry_with|by eapply fits_dev_geo]. }
    cbn beta. intros _ s2 (d2 & -> & Hgeo2 & Hdl & Hby2). cbn [device with_device] in Hgeo2, Hby2.
    exists d2. split; [done|]. split; [by eapply same_geo_trans|].
    assert (Hslot : forall x, slots ino 0 (Z.of_nat (length es)) x -> NEWFS_DA_OFS ino <= x < NEWFS_DA_OFS (ino + 1)).
    { intros x. unfold slots, NEWFS_DA_OFS, NEWFS_DATA_PER_FILE, NEWFS_DATA_SIZE, sizeof_dentry_d, MAX_ENTRIES in *. lia. }
    assert (Habove : NEWFS_INO_OFS ino + sizeof_inode_d <= NEWFS_DA_OFS ino).
    { unfold NEWFS_INO_OFS, NEWFS_DA_OFS, sizeof_inode_d, NEWFS_INODE_OFS, NEWFS_INODE_SIZE, NEWFS_DATA_OFS,
        NEWFS_DATA_PER_FILE, NEWFS_DATA_SIZE, NEWFS_INODE_NUM in *. lia. }
    split.
    + apply on_dev_dir. split; [|done]. rewrite <- Hrec. f_equal. apply dbytes_ext. intros y Hy.
      change sizeof_inode_d with 32 in *. apply Hby2; [intros Hs; apply Hslot in Hs; lia|].
      intros j Hj. apply (touches_apart ino j); [done|by eapply inos_of_range|intros ->; done|left; change sizeof_inode_d with 32; lia].
    + intros x Hx. rewrite Hby2, Hby1; [done| | |].
      * intros Hs. apply (Hx ino); [cbn; set_solver|by left].
      * intros Hs. apply (Hx ino); [cbn; set_solver|right; by apply Hslot].
      * intros j Hj. apply Hx. cbn. by right.
Qed.
End device.
End NewfsTree.
