(* ===== verification/NewfsRemount.v ===== *)
(** * The file system: unmounting and mounting again

    [newfs_destroy] puts the super block, the bitmaps and the whole tree on the
    device; [newfs_init] on that device lists the root directory again, and a file
    of the root reads as it was. *)

From S2P Require Import Prelude.
From S2P Require Import Memory.
From S2P Require Import NewfsDisk.
From S2P Require Import NewfsDiskThms.
From S2P Require Import Newfs.
From S2P Require Import NewfsLookup.
From S2P Require Import NewfsAlloc.
From S2P Require Import NewfsThms.
From S2P Require Import NewfsTree.

Module NewfsRemount.
Import NewfsDiskThms Newfs NewfsLookup NewfsAlloc NewfsThms NewfsTree.

Lemma cstr_padded nm : name_fits nm -> cstr (padded nm) = Some nm.
Proof.
  intros (Hz & Hl & _). unfold padded. replace (128 - length nm)%nat with (S (127 - length nm)) by lia. cbn [repeat].
  generalize (repeat 0 (127 - length nm)). intros rest. clear Hl. induction nm as [|c nm IH]; [done|]. cbn.
  apply not_elem_of_cons in Hz as [Hc Hz]. destruct (Z.eqb_spec c 0); [lia|]. by rewrite IH.
Qed.

(** The bound on the recursion is enough. *)
Lemma need_bound n : (S (need n) <= 2 * length (inos n))%nat.
Proof.
  induction n as [|ino size es IH] using node_tree_ind; [cbn; lia|]. cbn [need inos length].
  assert (Hl : (need_list es <= 2 * length (inos_of es))%nat).
  { induction IH as [|e es He _ IHes]; [cbn; lia|]. unfold need_list, inos_of in *. cbn [map foldr concat] in *.
    rewrite length_app. lia. }
  unfold need_list, inos_of in Hl. lia.
Qed.

Lemma inos_in_heap h im n : forall q a, in_heap h im q a n ->
  forall i, i ∈ inos n -> exists b j, im !! b = Some j /\ in_ino j = i.
Proof.
  induction n as [ino size cnt b|ino size es IH] using node_tree_ind; intros q a Hh i Hi.
  - destruct Hh as (d & j & _ & _ & _ & Hj & _ & Hino & _). cbn in Hi. apply list_elem_of_singleton in Hi as ->. by exists a, j.
  - apply in_heap_dir in Hh as (d & j & _ & _ & _ & Hj & _ & Hino & _ & _ & Hl). cbn [inos] in Hi. apply elem_of_cons in Hi as [->|Hi].
    { by exists a, j. }
    revert Hl Hi. generalize (in_dentrys j). clear Hj Hino. induction IH as [|e es He _ IHes]; intros p Hl Hi; [by apply not_elem_of_nil in Hi|].
    destruct Hl as (x & ax & dx & _ & _ & _ & _ & Hhe & Hl). cbn in Hi. apply elem_of_app in Hi as [Hi|Hi]; [by eapply He|by eapply IHes].
Qed.

Lemma dec_enc_super_d junk x :
  0 <= sd_magic_num x < 2 ^ 31 -> int32 (sd_map_inode_blks x) -> int32 (sd_map_inode_offset x) ->
  int32 (sd_map_data_blks x) -> int32 (sd_map_data_offset x) -> int32 (sd_inode_offset x) ->
  int32 (sd_data_offset x) -> int32 (sd_sz_usage x) -> dec_super_d (enc_super_d junk x) = x.
Proof.
  intros Hm H1 H2 H3 H4 H5 H6 H7. destruct x as [m a b c d e f g].
  cbn [sd_magic_num sd_map_inode_blks sd_map_inode_offset sd_map_data_blks sd_map_data_offset sd_inode_offset sd_data_offset sd_sz_usage] in *.
  unfold dec_super_d, enc_super_d.
  cbn [sd_magic_num sd_map_inode_blks sd_map_inode_offset sd_map_data_blks sd_map_data_offset sd_inode_offset sd_data_offset sd_sz_usage].
  f_equal.
  - transitivity (u32 (s32 m)); [f_equal; field|]. rewrite s32_small by (unfold int32; lia). apply u32_small. lia.
  - transitivity (s32 a); [field|by apply s32_small].
  - transitivity (s32 b); [field|by apply s32_small].
  - transitivity (s32 c); [field|by apply s32_small].
  - transitivity (s32 d); [field|by apply s32_small].
  - transitivity (s32 e); [field|by apply s32_small].
  - transitivity (s32 f); [field|by apply s32_small].
  - transitivity (s32 g); [|by apply s32_small]. eapply (get32_le _ _ _ []). rewrite ?drop_le by lia. cbn [Nat.sub drop]. by rewrite app_nil_r.
Qed.

Lemma enc_super_d_bytes junk x : Forall (fun b => 0 <= b < 256) (enc_super_d junk x).
Proof. unfold enc_super_d. rewrite !Forall_app. split_and!; apply le_bytes. Qed.

Section ops.
Context {D : Type} `{!Ddriver D} `{!DdriverOk D} `{Platform}.
Implicit Types s : newfs D.

Lemma sync_fuel_enough s q a n : in_heap (dentries s) (inodes s) q a n -> NoDup (inos n) ->
  (need n <= S (2 * (size (dentries s) + size (inodes s))))%nat.
Proof.
  intros Hh Hnd. pose proof (need_bound n).
  assert (Hlen : (length (inos n) <= size (inodes s))%nat).
  { replace (size (inodes s)) with (length (map (fun x => in_ino (snd x)) (map_to_list (inodes s)))) by (rewrite length_map; apply length_map_to_list).
    apply submseteq_length, NoDup_submseteq; [done|]. intros i Hi.
    destruct (inos_in_heap _ _ _ _ _ Hh i Hi) as (b & j & Hb & <-).
    apply list_elem_of_fmap. exists (b, j). split; [done|]. by apply elem_of_map_to_list. }
  lia.
Qed.

(** ** Reading a directory *)

(** A new entry is linked in front, whether a block was left for it or not. *)
Lemma alloc_dentry_links s ia i p d :
  inodes s !! ia = Some i -> dentries s !! p = Some d -> de_brother d = None ->
  exists r md size cnt, newfs_alloc_dentry (Some ia) (Some p) s =
    Ok (r, Newfs (set_map_data md (super s)) (<[p := set_brother (in_dentrys i) d]> (dentries s))
             (<[ia := set_sizes size cnt (set_dentrys (Some p) i)]> (inodes s)) (brk s) (device s)).
Proof.
  intros Hi Hd Hb. unfold newfs_alloc_dentry. erewrite bind_step by (by apply inode_at_Some).
  set (s1 := Newfs (super s) (<[p := set_brother (in_dentrys i) d]> (dentries s)) (<[ia := set_dentrys (Some p) i]> (inodes s)) (brk s) (device s)).
  erewrite (bind_step _ _ s tt s1).
  2: { destruct (in_dentrys i) as [h|] eqn:E.
       - erewrite bind_step by (by apply upd_dentry_ok). cbn [super dentries inodes brk device]. by erewrite upd_inode_ok by done.
       - erewrite upd_inode_ok by done. unfold s1. rewrite (insert_id (dentries s)); [reflexivity|]. rewrite Hd. destruct d. cbn in *. by subst. }
  unfold get_super, upd_super. rewrite bind_gets. cbv zeta.
  assert (Hi1 : inodes s1 !! ia = Some (set_dentrys (Some p) i)) by apply lookup_insert_eq.
  assert (Hstop : forall md e, exists r md' size cnt, Ok (e : Z, Newfs (set_map_data md (super s1)) (dentries s1) (inodes s1) (brk s1) (device s1)) =
    Ok (r, Newfs (set_map_data md' (super s)) (<[p := set_brother (in_dentrys i) d]> (dentries s))
             (<[ia := set_sizes size cnt (set_dentrys (Some p) i)]> (inodes s)) (brk s) (device s))).
  { intros md e. exists e, md, (in_size i), (in_dir_cnt i). unfold s1. cbn. by destruct i. }
  assert (Hsame : Newfs (set_map_data (map_data (super s1)) (super s1)) (dentries s1) (inodes s1) (brk s1) (device s1) = s1).
  { unfold s1. cbn. by destruct (super s). }
  destruct (needs_block _ _).
  2: { rewrite bind_ret. specialize (Hstop (map_data (super s1)) (- NEWFS_ERROR_NOSPACE)). by rewrite Hsame in Hstop. }
  destruct (find_free _ _ _) as [[k md]|].
  2: { rewrite bind_ret. specialize (Hstop (map_data (super s1)) (- NEWFS_ERROR_NOSPACE)). by rewrite Hsame in Hstop. }
  rewrite bind_assoc, bind_modify, bind_ret. case_match; [apply Hstop|].
  erewrite bind_step by (apply upd_inode_ok; cbn [inodes]; exact Hi1). cbn [super dentries inodes brk device].
  unfold s1. cbn [super dentries inodes brk device]. rewrite insert_insert_eq. by eexists _, md, _, _.
Qed.

(** The entry [x] of the directory [q] is the saved entry [e], not yet opened. *)
Definition child_entry s (q x : nat) (e : list Z * node) : Prop :=
  exists b, dentries s !! x = Some (Dentry (padded (fst e)) (node_type (snd e)) (Some q) b (node_ino (snd e)) None 0).

(** Entries that were there stay. *)
Definition keeps_entries s s' : Prop := forall x, is_Some (dentries s !! x) -> dentries s' !! x = dentries s !! x.

Lemma child_entry_kept s s' q x e : keeps_entries s s' -> child_entry s q x e -> child_entry s' q x e.
Proof. intros Hk [b Hb]. exists b. rewrite Hk; [done|by eexists]. Qed.

Lemma dev_list_same d d' ino es k : same_disk d d' -> dev_list d ino k es -> dev_list d' ino k es.
Proof.
  intros (Hb & _ & _). assert (He : forall o m, dbytes d' o m = dbytes d o m) by (intros; apply dbytes_ext; intros; apply Hb).
  assert (Hon : forall n, on_dev d n -> on_dev d' n).
  { induction n as [ino' size cnt b|ino' size es' IH] using node_tree_ind; [intros [HA HB]; split; by rewrite He|].
    rewrite !on_dev_dir, !He. intros [Hr Hl]. split; [done|]. revert Hl. generalize 0. clear Hr.
    induction IH as [|e es' Hn _ IHes]; [done|]. intros j (H1 & H2 & H3). split; [by rewrite He|]. split; [by apply Hn|by apply IHes]. }
  revert k. induction es as [|e es IH]; [done|]. intros k (H1 & H2 & H3).
  split; [by rewrite He|split; [by apply Hon|by apply IH]].
Qed.

(** What has to be on the device for the directory [ino] to be read. *)
Record readable s (ino k : Z) (es : list (list Z * node)) : Prop := {
  rd_geometry : geometry s;
  rd_list : dev_list (device s) ino k es;
  rd_good : foldr and True (map (fun e => name_fits (fst e) /\ good (snd e)) es);
  rd_from : 0 <= k;
  rd_to : k + Z.of_nat (length es) <= MAX_ENTRIES;
  rd_ino : 0 <= ino < NEWFS_INODE_NUM;
  rd_end : NEWFS_DA_OFS (ino + 1) <= ddriver_size (device s);
}.

Lemma readable_tail s s' ino k e es : readable s ino k (e :: es) -> same_disk (device s) (device s') ->
  sz_io (super s') = sz_io (super s) -> readable s' ino (k + 1) es.
Proof.
  intros [[Hio Hw] (_ & _ & Hl) [_ Hg] Hk Hm Hi He] Hsame Hsz. pose proof Hsame as (_ & Hs & Hi').
  cbn [length] in Hm. split; try done; try lia.
  - unfold geometry, whole_blocks in *. by rewrite Hsz, Hs, Hi'.
  - by eapply dev_list_same.
Qed.

(** One entry: read, allocate, link. *)
Lemma read_dentry_step s ino k e es ia i q l :
  readable s ino k (e :: es) -> heap_ok s -> inodes s !! ia = Some i -> chain (dentries s) (in_dentrys i) l ->
  exists s' i', (forall n, read_dentrys (S n) k ino (Some q) (Some ia) s = read_dentrys n (k + 1) ino (Some q) (Some ia) s') /\
    inodes s' = <[ia := i']> (inodes s) /\ in_dentry i' = in_dentry i /\ in_ino i' = in_ino i /\
    chain (dentries s') (in_dentrys i') (brk s :: l) /\ child_entry s' q (brk s) e /\ keeps_entries s s' /\ heap_ok s' /\
    (exists md, super s' = set_map_data md (super s)) /\ same_disk (device s) (device s').
Proof.
  intros Hr [Hhd Hhi] Hi Hc. destruct Hr as [Hg (Hrec & _ & _) [[Hnm Hge] _] Hk Hm Hino Hend]. cbn [length] in Hm.
  assert (Hofs : 0 <= NEWFS_DA_OFS ino + k * sizeof_dentry_d /\ NEWFS_DA_OFS ino + k * sizeof_dentry_d + sizeof_dentry_d <= NEWFS_DA_OFS (ino + 1)).
  { unfold NEWFS_DA_OFS, NEWFS_DATA_OFS, NEWFS_DATA_PER_FILE, NEWFS_DATA_SIZE, sizeof_dentry_d, MAX_ENTRIES in *. lia. }
  destruct (wp_elim _ _ _ (driver_read_ok s (NEWFS_DA_OFS ino + k * sizeof_dentry_d) sizeof_dentry_d Hg (proj1 Hofs) ltac:(done) ltac:(lia)))
    as (bs & s1 & E1 & -> & d1 & -> & Hd1).
  set (a := brk s). assert (Ha : dentries s !! a = None) by (apply eq_None_not_Some; intros Hs; apply Hhd in Hs; lia).
  set (d0 := set_ino (node_ino (snd e)) (set_parent (Some q) (Dentry (padded (fst e)) (node_type (snd e)) None None (-1) None 0))).
  set (s2 := Newfs (super s) (<[a := d0]> (dentries s)) (inodes s) (S a) d1).
  destruct (alloc_dentry_links s2 ia i a d0) as (r & md & size & cnt & E2); [done|apply lookup_insert_eq|done|].
  eexists _, _. split.
  { intros n. cbn [read_dentrys]. rewrite (bind_step _ _ _ _ _ E1). change (Z.to_nat sizeof_dentry_d) with 140%nat. cbv zeta.
    rewrite Hrec. cbn [dd_fname dd_ftype dd_ino]. rewrite cstr_padded by done.
    unfold new_dentry. destruct Hnm as (_ & Hlen & _). destruct (Z.ltb_spec NEWFS_MAX_FILE_NAME (Z.of_nat (length (fst e)))) as [Hgt|_]; [unfold NEWFS_MAX_FILE_NAME in Hgt; lia|].
    rewrite bind_assoc. unfold malloc_dentry. erewrite bind_step by reflexivity. rewrite bind_ret. cbn [super dentries inodes brk device with_device].
    erewrite bind_step by (apply upd_dentry_ok; cbn [dentries]; apply lookup_insert_eq). cbn [super dentries inodes brk device].
    rewrite insert_insert_eq. erewrite bind_step by (apply upd_dentry_ok; cbn [dentries]; apply lookup_insert_eq).
    cbn [super dentries inodes brk device]. rewrite insert_insert_eq. fold a. change (Newfs _ _ _ _ _) with s2.
    rewrite (bind_step _ _ _ _ _ E2). reflexivity. }
  unfold s2. cbn [super dentries inodes brk device]. rewrite insert_insert_eq.
  assert (Hal : a ∉ l) by (intros Hin; destruct (chain_elem _ _ _ _ Hc Hin) as [x Hx]; congruence).
  split; [reflexivity|]. split; [done|]. split; [done|]. split.
  { cbn. split; [done|]. split; [done|]. eexists. rewrite lookup_insert_eq. split; [done|]. cbn [de_brother set_brother].
    eapply chain_ext; [|exact Hc]. intros x Hx. rewrite lookup_insert_ne; [done|]. by intros ->. }
  split; [eexists; cbn [dentries]; rewrite lookup_insert_eq; reflexivity|].
  split; [intros x [y Hy]; cbn [dentries]; rewrite lookup_insert_ne; [done|congruence]|].
  split; [|split; [by exists md|done]].
  split; cbn [dentries inodes brk]; intros x Hx.
  - destruct (decide (x = a)) as [->|Hne]; [lia|]. rewrite lookup_insert_ne in Hx by done. apply Hhd in Hx. lia.
  - destruct (decide (x = ia)) as [->|Hne]; [apply (Nat.lt_trans _ a); [by apply Hhi; eexists|lia]|].
    rewrite lookup_insert_ne in Hx by done. apply Hhi in Hx. lia.
Qed.

Lemma same_disk_trans (d1 d2 d3 : D) : same_disk d1 d2 -> same_disk d2 d3 -> same_disk d1 d3.
Proof. intros (A & B & C) (A' & B' & C'). split; [intros a; by rewrite A', A|split; congruence]. Qed.

Lemma read_dentrys_ok ino q ia es : forall k s i l,
  readable s ino k es -> heap_ok s -> inodes s !! ia = Some i -> chain (dentries s) (in_dentrys i) l ->
  wp (read_dentrys (length es) k ino (Some q) (Some ia)) s (fun _ s' => exists i' l',
    inodes s' = <[ia := i']> (inodes s) /\ in_dentry i' = in_dentry i /\ in_ino i' = in_ino i /\
    chain (dentries s') (in_dentrys i') (l' ++ l) /\ Forall2 (child_entry s' q) l' (rev es) /\
    keeps_entries s s' /\ heap_ok s' /\ (exists md, super s' = set_map_data md (super s)) /\ same_disk (device s) (device s')).
Proof.
  induction es as [|e es IH]; intros k s i l Hr Hh Hi Hc.
  { apply wp_ret. exists i, []. rewrite insert_id by done. do 4 (split; [done|]). split; [constructor|]. split; [done|]. split; [done|].
    split; [exists (map_data (super s)); by destruct s as [[] ? ? ? ?]|done]. }
  destruct (read_dentry_step s ino k e es ia i q l Hr Hh Hi Hc)
    as (s1 & i1 & Estep & Hi1 & Hd1 & Hn1 & Hc1 & He1 & Hk1 & Hh1 & (md & Hs1) & Hdisk1).
  unfold wp. cbn [length]. rewrite Estep.
  assert (Hr1 : readable s1 ino (k + 1) es) by (eapply readable_tail; [exact Hr|done|by rewrite Hs1]).
  eapply wp_mono; [apply (IH (k + 1) s1 i1 (brk s :: l) Hr1 Hh1); [by rewrite Hi1, lookup_insert_eq|done]|]. cbn beta.
  intros _ s2 (i2 & l2 & Hi2 & Hd2 & Hn2 & Hc2 & He2 & Hk2 & Hh2 & (md2 & Hs2) & Hdisk2).
  exists i2, (l2 ++ [brk s]). rewrite <- (assoc_L (++)). cbn [app rev].
  split; [by rewrite Hi2, Hi1, insert_insert_eq|]. split; [congruence|]. split; [congruence|]. split; [done|].
  split; [apply Forall2_app; [done|]; constructor; [by eapply child_entry_kept|constructor]|].
  split; [intros x Hx; rewrite Hk2; [by apply Hk1|by rewrite Hk1]|]. split; [done|].
  split; [exists md2; by rewrite Hs2, Hs1|by eapply same_disk_trans].
Qed.

(** Reading the inode of a saved directory makes its list of entries, the last one
    first. *)
Lemma read_dir_ok s q d ino size es :
  dentries s !! q = Some d -> de_ftype d = NEWFS_DIR -> heap_ok s -> geometry s ->
  on_dev (device s) (Dir ino size es) -> good (Dir ino size es) -> NEWFS_DA_OFS (ino + 1) <= ddriver_size (device s) ->
  wp (newfs_read_inode (Some q) ino) s (fun r s' => exists a i l,
    r = Some a /\ inodes s' !! a = Some i /\ in_dentry i = Some q /\ in_ino i = ino /\
    chain (dentries s') (in_dentrys i) l /\ Forall2 (child_entry s' q) l (rev es) /\
    keeps_entries s s' /\ heap_ok s' /\ (exists md, super s' = set_map_data md (super s)) /\ same_disk (device s) (device s')).
Proof.
  intros Hd Ht [Hhd Hhi] Hg Hon Hgood Hend. apply on_dev_dir in Hon as [Hrec Hl]. destruct Hgood as (Hino & _ & Hlen & Hges).
  assert (Hofs : 0 <= NEWFS_INO_OFS ino /\ NEWFS_INO_OFS ino + sizeof_inode_d <= NEWFS_DA_OFS (ino + 1)).
  { unfold NEWFS_INO_OFS, NEWFS_DA_OFS, sizeof_inode_d, NEWFS_INODE_OFS, NEWFS_INODE_SIZE, NEWFS_DATA_OFS,
      NEWFS_DATA_PER_FILE, NEWFS_DATA_SIZE, NEWFS_INODE_NUM in *. lia. }
  unfold newfs_read_inode. apply wp_bind. eapply wp_mono; [apply driver_read_ok; [done|lia|done|lia]|]. cbn beta.
  intros bs s1 (-> & d1 & -> & Hd1). change (Z.to_nat sizeof_inode_d) with 32%nat. cbv zeta. rewrite Hrec. cbn [id_ino id_size id_dir_cnt].
  set (a := brk s). assert (Ha : inodes s !! a = None) by (apply eq_None_not_Some; intros Hs; apply Hhi in Hs; lia).
  set (i0 := Inode ino size 0 (Some q) None None).
  set (s2 := Newfs (super s) (dentries s) (<[a := i0]> (inodes s)) (S a) d1).
  eapply (wp_bind_Ok _ _ _ a s2); [reflexivity|].
  eapply wp_bind_Ok; [eapply (ftype_of_ok s2 a i0 q d); [apply lookup_insert_eq|done|done]|]. rewrite Ht.
  change (NEWFS_DIR =? NEWFS_DIR) with true. cbn match. apply wp_bind. rewrite Nat2Z.id. eapply wp_mono.
  { apply (read_dentrys_ok ino q a es 0 s2 i0 []); [|split|apply lookup_insert_eq|done].
    - split; try done.
      + destruct Hg as [Hio Hw], Hd1 as (_ & Hs & Hi). unfold geometry, whole_blocks, s2 in *. cbn. by rewrite Hs, Hi.
      + by eapply dev_list_same.
      + destruct Hd1 as (_ & Hs & _). unfold s2. cbn [device]. by rewrite Hs.
    - intros x Hx. cbn [dentries brk s2] in *. apply Hhd in Hx. unfold a. lia.
    - intros x Hx. cbn [inodes brk s2] in *. destruct (decide (x = a)) as [->|Hne]; [lia|]. rewrite lookup_insert_ne in Hx by done. apply Hhi in Hx. unfold a. lia. }
  cbn beta. intros _ s3 (i3 & l3 & Hi3 & Hdd & Hn & Hc & He & Hk & Hh & Hs & Hdisk). rewrite app_nil_r in Hc.
  apply wp_ret. exists a, i3, l3. split; [done|]. split; [by rewrite Hi3, lookup_insert_eq|]. do 7 (split; [done|]). by eapply same_disk_trans.
Qed.

(** ** Unmounting *)

(** The program has the tree of the root in memory, in the layout of the format. *)
Record mounted s (r a : nat) (size : Z) (es : list (list Z * node)) : Prop := {
  mt_mounted : is_mounted (super s) = true;
  mt_root : root_dentry (super s) = Some r;
  mt_heap : in_heap (dentries s) (inodes s) r a (Dir 0 size es);
  mt_good : good (Dir 0 size es);
  mt_distinct : NoDup (inos (Dir 0 size es));
  mt_geometry : geometry s;
  mt_block : NEWFS_BLKS_SZ (sz_io (super s)) = NEWFS_DATA_SIZE;
  mt_fits : fits_dev (device s) (inos (Dir 0 size es));
  mt_inode_map : map_inode_blks (super s) = NEWFS_MAP_INODE_BLOCKS /\ map_inode_offset (super s) = NEWFS_MAP_INODE_OFS /\
    Z.of_nat (length (map_inode (super s))) = NEWFS_DATA_SIZE /\ Forall (fun b => 0 <= b < 256) (map_inode (super s));
  mt_data_map : map_data_blks (super s) = NEWFS_MAP_DATA_BLOCKS /\ map_data_offset (super s) = NEWFS_MAP_DATA_OFS /\
    Z.of_nat (length (map_data (super s))) = NEWFS_DATA_SIZE /\ Forall (fun b => 0 <= b < 256) (map_data (super s));
  mt_ints : int32 (inode_offset (super s)) /\ int32 (data_offset (super s)) /\ int32 (sz_usage (super s));
}.

(** The device of an unmounted file system. *)
Record saved (d : D) (sb : newfs_super) (size : Z) (es : list (list Z * node)) : Prop := {
  sv_super : dec_super_d (dbytes d NEWFS_SUPER_OFS 52) =
    SuperD NEWFS_MAGIC_NUM NEWFS_MAP_INODE_BLOCKS NEWFS_MAP_INODE_OFS NEWFS_MAP_DATA_BLOCKS NEWFS_MAP_DATA_OFS
      (inode_offset sb) (data_offset sb) (sz_usage sb);
  sv_inode_map : dbytes d NEWFS_MAP_INODE_OFS (Z.to_nat NEWFS_DATA_SIZE) = map_inode sb;
  sv_data_map : dbytes d NEWFS_MAP_DATA_OFS (Z.to_nat NEWFS_DATA_SIZE) = map_data sb;
  sv_tree : on_dev d (Dir 0 size es);
}.

(** A range is written exactly. *)
Lemma write_exact s offset l size :
  geometry s -> 0 <= offset -> offset + size <= ddriver_size (device s) -> Z.of_nat (length l) = size ->
  Forall (fun b => 0 <= b < 256) l ->
  wp (driver_write offset l size) s (fun _ s1 => exists d', s1 = with_device s d' /\ same_geo (device s) d' /\
    dbytes d' offset (Z.to_nat size) = l /\
    forall x, ~ (offset <= x < offset + size) -> dd_byte d' x = dd_byte (device s) x).
Proof.
  intros Hg Ho He Hl Hb. eapply wp_mono; [apply driver_write_ok; [done|done|lia|done|lia]|]. cbn beta.
  intros _ s1 (d' & -> & Hby & Hs & Hi). exists d'. split; [done|]. split; [done|]. split.
  - rewrite (dbytes_written d' offset l (Z.to_nat size)); [apply take_ge; lia|lia|done|].
    intros y Hy. rewrite Hby. case_bool; [done|]. apply andb_false_iff in E as [E|E]; bool_to_prop; lia.
  - intros x Hx. rewrite Hby. case_bool; [lia|done].
Qed.

Lemma dbytes_kept (d d' : D) o n lo hi : (forall x, ~ (lo <= x < hi) -> dd_byte d' x = dd_byte d x) ->
  o + Z.of_nat n <= lo \/ hi <= o -> dbytes d' o n = dbytes d o n.
Proof. intros Hx Ho. apply dbytes_ext. intros y Hy. apply Hx. lia. Qed.

Lemma destroy_saves s r a size es : mounted s r a size es ->
  wp newfs_destroy s (fun _ s1 => same_geo (device s) (device s1) /\ saved (device s1) (super s) size es).
Proof.
  intros [Hm Hroot Hh Hgood Hnd Hg HB Hf (Hib & Hio & Hil & Hiby) (Hdb & Hdo & Hdl & Hdby) (Hi1 & Hi2 & Hi3)].
  pose proof (proj1 (Forall_cons _ _ _) Hf) as [Hend _]. change (0 + 1) with 1 in Hend. change (NEWFS_DA_OFS 1) with 138240 in Hend.
  pose proof Hh as (d & i & Hd & _ & Ha & _). unfold newfs_destroy, get_super. apply wp_bind, wp_gets. rewrite Hm. cbn [negb].
  rewrite Hroot. eapply wp_bind_Ok; [by apply dentry_at_Some|]. rewrite Ha. unfold sync_fuel. apply wp_bind, wp_gets.
  apply wp_bind. eapply wp_mono.
  { eapply (sync_tree _ _ s r a Hh Hgood Hnd Hg HB Hf). by eapply sync_fuel_enough. }
  cbn beta. intros _ s1 (d1 & -> & Hgeo1 & Hon1 & _). rewrite HB. cbv zeta.
  rewrite Hib, Hio, Hdb, Hdo. change (NEWFS_MAP_INODE_BLOCKS * NEWFS_DATA_SIZE) with 1024. change (NEWFS_MAP_DATA_BLOCKS * NEWFS_DATA_SIZE) with 1024.
  set (x := SuperD _ _ _ _ _ _ _ _).
  assert (Hg1 : geometry (with_device s d1)) by (by apply geometry_with).
  assert (Hsz1 : ddriver_size d1 = ddriver_size (device s)) by apply Hgeo1.
  apply wp_bind. eapply wp_mono.
  { apply (write_exact _ NEWFS_SUPER_OFS (enc_super_d stack_junk x) sizeof_super_d); [done|done| |by rewrite length_enc_super_d|apply enc_super_d_bytes].
    cbn [device with_device]. rewrite Hsz1. change (NEWFS_SUPER_OFS + sizeof_super_d) with 52. lia. }
  cbn beta. intros _ s2 (d2 & -> & Hgeo2 & Hb2 & Hk2). cbn [device with_device] in Hgeo2, Hk2.
  assert (Hsz2 : ddriver_size d2 = ddriver_size (device s)) by (destruct Hgeo2; congruence).
  assert (Hg2 : geometry (with_device (with_device s d1) d2)) by (by apply geometry_with).
  apply wp_bind. eapply wp_mono.
  { apply (write_exact _ NEWFS_MAP_INODE_OFS (map_inode (super s)) 1024); [done|done| |done|done].
    cbn [device with_device]. rewrite Hsz2. change (NEWFS_MAP_INODE_OFS + 1024) with 2048. lia. }
  cbn beta. intros _ s3 (d3 & -> & Hgeo3 & Hb3 & Hk3). cbn [device with_device] in Hgeo3, Hk3.
  assert (Hsz3 : ddriver_size d3 = ddriver_size (device s)) by (destruct Hgeo3; congruence).
  apply wp_bind. eapply wp_mono.
  { apply (write_exact _ NEWFS_MAP_DATA_OFS (map_data (super s)) 1024); [by apply (geometry_with (with_device (with_device s d1) d2))|done| |done|done].
    cbn [device with_device]. rewrite Hsz3. change (NEWFS_MAP_DATA_OFS + 1024) with 3072. lia. }
  cbn beta. intros _ s4 (d4 & -> & Hgeo4 & Hb4 & Hk4). cbn [device with_device] in Hgeo4, Hk4.
  unfold upd_super. apply wp_bind, wp_modify, wp_modify. cbn [device with_device super]. split.
  { by eapply same_geo_trans; [|eapply same_geo_trans; [|eapply same_geo_trans]]. }
  change NEWFS_SUPER_OFS with 0 in *. change NEWFS_MAP_INODE_OFS with 1024 in *. change NEWFS_MAP_DATA_OFS with 2048 in *.
  change (0 + sizeof_super_d) with 52 in *. split.
  - change NEWFS_SUPER_OFS with 0. rewrite (dbytes_kept d3 d4 0 52 2048 3072), (dbytes_kept d2 d3 0 52 1024 2048) by (done || lia).
    change (Z.to_nat sizeof_super_d) with 52%nat in Hb2. rewrite Hb2. by apply dec_enc_super_d.
  - change NEWFS_MAP_INODE_OFS with 1024. change (Z.to_nat NEWFS_DATA_SIZE) with (Z.to_nat 1024).
    rewrite (dbytes_kept d3 d4 1024 _ 2048 3072) by (done || lia). exact Hb3.
  - exact Hb4.
  - apply (on_dev_ext d1); [done| |done]. intros j y Hj Hy.
    assert (NEWFS_INODE_OFS <= y) by (by eapply touches_above; [eapply inos_range|]). change NEWFS_INODE_OFS with 3072 in *.
    rewrite Hk4, Hk3, Hk2 by lia. done.
Qed.

(** ** Mounting *)

(** The file system after mounting: the root lists the saved entries, last one first. *)
Definition loaded (d : D) (sb : newfs_super) (es : list (list Z * node)) s : Prop :=
  is_mounted (super s) = true /\ map_inode (super s) = map_inode sb /\ heap_ok s /\ geometry s /\ same_disk d (device s) /\
  NEWFS_BLKS_SZ (sz_io (super s)) = NEWFS_DATA_SIZE /\
  exists root l, root_dentry (super s) = Some root /\ dir_at s root l /\ Forall2 (child_entry s root) l (rev es).

Lemma init_loads s0 sb size es fd :
  saved (device s0) sb size es -> good (Dir 0 size es) -> heap_ok s0 -> 0 <= fd -> whole_blocks (device s0) ->
  NEWFS_BLKS_SZ (ddriver_io_sz (device s0)) = NEWFS_DATA_SIZE -> NEWFS_DA_OFS 1 <= ddriver_size (device s0) ->
  wp (newfs_init fd) s0 (fun rc s => rc = 0 /\ loaded (device s0) sb es s).
Proof.
  intros [Hsup Hmi Hmd Htree] Hgood [Hhd Hhi] Hfd Hw HB Hend. change (NEWFS_DA_OFS 1) with 138240 in Hend.
  unfold newfs_init. destruct (Z.ltb_spec fd 0); [lia|]. apply wp_bind, wp_gets. unfold upd_super at 1. apply wp_bind, wp_modify.
  set (d := device s0) in *. set (sb1 := set_sizes_of_device _ _ _). unfold new_dentry. change (NEWFS_MAX_FILE_NAME <? Z.of_nat (length [slash])) with false. cbn match.
  set (root := brk s0). set (droot := Dentry ([slash] ++ repeat 0 (128 - length [slash])) NEWFS_DIR None None (-1) None 0).
  set (s1 := Newfs sb1 (<[root := droot]> (dentries s0)) (inodes s0) (S root) d).
  eapply (wp_bind_Ok _ _ _ (Some root) s1); [reflexivity|].
  assert (Hg1 : geometry s1) by (split; [done|exact Hw]).
  assert (Hok1 : heap_ok s1).
  { split; intros x Hx; cbn [dentries inodes brk s1] in *; [|apply Hhi in Hx; unfold root; lia].
    destruct (decide (x = root)) as [->|Hne]; [lia|]. rewrite lookup_insert_ne in Hx by done. apply Hhd in Hx. unfold root. lia. }
  assert (Hroot1 : dentries s1 !! root = Some droot) by apply lookup_insert_eq.
  assert (Hdr : de_ftype droot = NEWFS_DIR /\ de_parent droot = None) by done. clearbody droot. clear Hhd Hhi.
  apply wp_bind. eapply wp_mono; [apply driver_read_ok; [done|done|done|change (NEWFS_SUPER_OFS + sizeof_super_d) with 52; cbn [device s1]; lia]|].
  cbn beta. intros bs s2 (-> & d2 & -> & Hd2). cbn [device s1] in Hd2. change (Z.to_nat sizeof_super_d) with 52%nat.
  cbn [device s1]. rewrite Hsup. cbn [sd_magic_num]. change (negb (NEWFS_MAGIC_NUM =? NEWFS_MAGIC_NUM)) with false. cbn match zeta.
  apply wp_bind, wp_ret. unfold get_super. apply wp_bind, wp_gets.
  cbn [sd_map_inode_blks sd_map_inode_offset sd_map_data_blks sd_map_data_offset sd_sz_usage].
  change (sz_io (super (with_device s1 d2))) with (ddriver_io_sz d). rewrite HB. cbv zeta.
  change (NEWFS_MAP_INODE_BLOCKS * NEWFS_DATA_SIZE) with 1024. change (NEWFS_MAP_DATA_BLOCKS * NEWFS_DATA_SIZE) with 1024.
  pose proof Hd2 as (Hby2 & Hsz2 & Hio2).
  set (s3 := Newfs sb1 (dentries s1) (inodes s1) (S (S (S root))) d2).
  eapply wp_bind_Ok; [reflexivity|]. eapply (wp_bind_Ok _ _ _ _ s3); [reflexivity|].
  assert (Hg3 : geometry s3) by (split; unfold whole_blocks; cbn [super device s3]; rewrite ?Hio2, ?Hsz2; [done|exact Hw]).
  apply wp_bind. eapply wp_mono; [apply driver_read_ok; [done|done|done|change (NEWFS_MAP_INODE_OFS + 1024) with 2048; cbn [device s3]; lia]|].
  cbn beta. intros mi s4 (-> & d4 & -> & Hd4). cbn [device s3] in Hd4. pose proof Hd4 as (Hby4 & Hsz4 & Hio4).
  assert (Hg4 : geometry (with_device s3 d4)) by (apply geometry_with; done).
  apply wp_bind. eapply wp_mono; [apply driver_read_ok; [done|done|done|change (NEWFS_MAP_DATA_OFS + 1024) with 3072; cbn [device with_device]; lia]|].
  cbn beta. intros md s5 (-> & d5 & -> & Hd5). cbn [device with_device] in Hd5. pose proof Hd5 as (Hby5 & Hsz5 & Hio5).
  unfold upd_super at 1. apply wp_bind, wp_modify. cbn [super dentries inodes brk device with_device s3].
  apply wp_bind, wp_ret. set (sb5 := set_maps _ _ _ _ _ _ _ _).
  set (s5 := Newfs sb5 (dentries s1) (inodes s1) (S (S (S root))) d5).
  assert (Hd05 : same_disk d d5) by (eapply same_disk_trans; [exact Hd2|eapply same_disk_trans; [exact Hd4|exact Hd5]]).
  assert (Hg5 : geometry s5) by (destruct Hd05 as (_ & Hs & Hi); split; unfold whole_blocks; cbn [super device s5]; rewrite ?Hi, ?Hs; [done|exact Hw]).
  apply wp_bind. eapply wp_mono.
  { apply (read_dir_ok s5 root droot 0 size es); [done| | |done| |done|].
    - apply Hdr.
    - destruct Hok1 as [H1 H2]. split; intros x Hx; cbn [dentries inodes brk s5] in *; [apply H1 in Hx|apply H2 in Hx]; cbn [brk s1] in Hx; lia.
    - apply on_dev_dir. apply on_dev_dir in Htree as [Hr Hl]. pose proof Hd05 as (Hby & _ & _). split.
      + rewrite <- Hr. f_equal. apply dbytes_ext. intros; apply Hby.
      + eapply dev_list_same; [|exact Hl]. done.
    - destruct Hd05 as (_ & Hs & _). cbn [device s5]. rewrite Hs. change (NEWFS_DA_OFS (0 + 1)) with 138240. lia. }
  cbn beta. intros ip s6 (a & i & l & -> & Hi & Hq & Hino & Hc & He & Hk & Hok & (mdx & Hs6) & Hd6).
  assert (Hroot6 : dentries s6 !! root = Some droot) by (rewrite Hk; [done|by eexists]).
  eapply wp_bind_Ok; [by apply upd_dentry_ok|]. unfold upd_super. apply wp_bind, wp_modify, wp_ret. split; [done|].
  cbn [super dentries inodes brk device]. rewrite Hs6. cbn [super s5].
  assert (Hnl : forall x e, child_entry s6 root x e -> x <> root).
  { intros x e [b Hx] ->. rewrite Hroot6 in Hx. injection Hx as ->. by destruct Hdr. }
  assert (Hdisk : same_disk d (device s6)) by (by eapply same_disk_trans).
  split; [done|]. split.
  { cbn. rewrite <- Hmi. apply dbytes_ext. intros; by apply Hby2. }
  split.
  { destruct Hok as [H1 H2]. split; intros x Hx; cbn [dentries inodes brk] in *; [|by apply H2].
    destruct (decide (x = root)) as [->|Hne]; [apply H1; by eexists|]. rewrite lookup_insert_ne in Hx by done. by apply H1. }
  split.
  { destruct Hdisk as (_ & Hs & Hio). split; unfold whole_blocks; cbn [super device]; rewrite ?Hio, ?Hs; [done|exact Hw]. }
  split; [done|]. split; [exact HB|]. exists root, l. split; [done|]. split.
  - exists (set_inode (Some a) droot), a, i. cbn [dentries inodes]. rewrite lookup_insert_eq.
    split; [done|]. split; [apply Hdr|]. do 3 (split; [done|]).
    eapply chain_ext; [|exact Hc]. intros x Hx. rewrite lookup_insert_ne; [done|].
    apply list_elem_of_lookup in Hx as [j Hj]. destruct (Forall2_lookup_l _ _ _ _ _ He Hj) as (e & _ & Hxe). intros <-. by apply (Hnl root e).
  - eapply Forall2_impl; [exact He|]. intros x e Hxe. pose proof (Hnl x e Hxe). destruct Hxe as [b Hb]. exists b.
    cbn [dentries]. by rewrite lookup_insert_ne.
Qed.

(** ** Reading a file after mounting *)

(** [e] is the only entry whose name starts with [nm]. *)
Definition only_match (nm : list Z) (es : list (list Z * node)) (e : list Z * node) : Prop :=
  forall e', e' ∈ es -> take (length nm) (padded (fst e')) = nm -> e' = e.

Lemma first_match_saved s root nm e l es :
  Forall2 (child_entry s root) l es -> e ∈ es -> fst e = nm -> only_match nm es e ->
  exists q, first_match (dentries s) l nm = Some q /\ child_entry s root q e.
Proof.
  induction 1 as [|x e' l es Hx Hl IH]; intros Hin Hn Hu; [by apply not_elem_of_nil in Hin|]. cbn [first_match].
  destruct Hx as [b Hb]. unfold starts_with at 1. rewrite Hb. cbn [de_fname]. case_bool_decide as Hm.
  - exists x. split; [done|]. rewrite <- (Hu e'); [by exists b|by left|done].
  - apply IH; [|done|intros e'' He''; apply Hu; by right]. apply elem_of_cons in Hin as [->|Hin]; [|done].
    exfalso. apply Hm. subst nm. apply take_app_length.
Qed.

Lemma read_saved_file s sb d size es nm ino sz cnt b n off :
  loaded d sb es s -> on_dev d (Dir 0 size es) -> good (Dir 0 size es) -> (nm, File ino sz cnt b) ∈ es ->
  name_ok nm -> only_match nm es (nm, File ino sz cnt b) -> Z.of_nat (length nm) + 1 < path_cap ->
  NEWFS_DA_OFS (ino + 1) <= ddriver_size d -> 0 <= off -> 0 <= n < 2 ^ 31 -> off + n <= sz ->
  wp (newfs_read (pathname [nm]) n off) s (fun r _ => r = (n, take (Z.to_nat n) (drop (Z.to_nat off) b))).
Proof.
  intros (_ & _ & Hok & Hg & Hdisk & HB & root & l & Hroot & Hdir & Hl) Hon Hgood Hin Hname Hu Hcap Hend Ho Hn Hfit.
  apply on_dev_dir in Hon as [_ Hon]. destruct Hgood as (_ & _ & _ & Hges).
  assert (Hfile : on_dev d (File ino sz cnt b) /\ good (File ino sz cnt b)).
  { clear -Hon Hges Hin. revert Hon. generalize 0 at 2. induction es as [|e es IH]; intros k Hon; [by apply not_elem_of_nil in Hin|].
    destruct Hon as (_ & He & Hon), Hges as [[_ Hge] Hges]. apply elem_of_cons in Hin as [<-|Hin]; [done|]. exact (IH Hges Hin _ Hon). }
  destruct Hfile as [[Hrec Hdat] (Hino & Hlen & _ & Hsz & _)].
  destruct (first_match_saved s root nm (nm, File ino sz cnt b) l (rev es) Hl) as (q & Hm & [br Hq]); [|done| |].
  { apply list_elem_of_In, in_rev. rewrite rev_involutive. by apply list_elem_of_In. }
  { intros e' He'. apply Hu. apply list_elem_of_In, in_rev. by apply list_elem_of_In in He'. }
  cbn [fst snd node_type node_ino] in Hq. set (dq := Dentry _ _ _ _ _ _ _) in Hq.
  assert (Hp : pathname [nm] = slash :: nm) by (unfold pathname; cbn; by rewrite app_nil_r).
  assert (Hlk : lookup_loop [nm] (Some root) 0 1 None None s = Ok ((Some q, Some true), s)).
  { destruct Hname as (_ & _ & Hnl). erewrite lookup_loop_step by done. by rewrite Hm. }
  unfold newfs_read, open_file, newfs_lookup, get_super. do 3 apply wp_bind. apply wp_gets. cbv zeta.
  assert (Hnms : Forall name_ok [nm]) by (constructor; [done|constructor]).
  rewrite newfs_calc_lvl_pathname by done. change (Z.of_nat (length [nm])) with 1.
  rewrite (tokens_pathname [nm]) by done. cbn match.
  destruct (Z.ltb_spec path_cap (Z.of_nat (length (pathname [nm])) + 1)) as [Hgt|_]; [rewrite Hp in Hgt; cbn [length] in Hgt; lia|].
  change (1 =? 0) with false. cbn match. rewrite Hroot. eapply wp_bind_Ok; [exact Hlk|]. cbn match.
  eapply wp_bind_Ok; [by apply dentry_at_Some|]. cbn [de_inode dq de_ino].
  pose proof Hdisk as (Hby & Hs & Hi). apply wp_bind, wp_bind. eapply wp_mono.
  { apply (read_file_ok s q ino); [by exists dq|done|done|done|by rewrite Hs]. }
  cbn beta zeta. intros ip s1 (-> & d1 & ->).
  assert (He : forall o m, dbytes (device s) o m = dbytes d o m) by (intros; apply dbytes_ext; intros; apply Hby).
  rewrite !He, Hrec. cbn [id_ino id_size].
  eapply wp_Ok; [by apply upd_dentry_ok|]. cbn [super dentries inodes brk device].
  assert (Hq1 : (<[q := set_inode (Some (brk s)) dq]> (dentries s)) !! q = Some (set_inode (Some (brk s)) dq)) by apply lookup_insert_eq.
  apply wp_ret. cbn match. cbn [read_var]. apply wp_bind, wp_ret. cbn [negb].
  eapply wp_bind_Ok; [by apply dentry_at_Some|]. cbn [de_inode set_inode dq].
  eapply wp_bind_Ok; [eapply IS_DIR_ok; cbn [inodes dentries]; [apply lookup_insert_eq|reflexivity|exact Hq1]|].
  change (de_ftype (set_inode (Some (brk s)) dq) =? NEWFS_DIR) with false. cbn match.
  eapply wp_bind_Ok; [apply inode_at_Some; cbn [inodes]; apply lookup_insert_eq|]. cbn [in_size].
  destruct (Z.ltb_spec sz off); [lia|]. apply wp_ret. cbn match. cbn [in_data].
  destruct (Z.ltb_spec off 0); [lia|]. rewrite length_dbytes. change (NEWFS_DATA_PER_FILE * NEWFS_DATA_SIZE) with 8192 in *.
  destruct (Z.ltb_spec (Z.of_nat (Z.to_nat 8192)) (off + n)); [lia|]. cbn [orb]. apply wp_ret. rewrite s32_small by lia. f_equal.
  assert (Htd : forall (k : list Z), take (Z.to_nat n) (drop (Z.to_nat off) (take (Z.to_nat sz) k)) = take (Z.to_nat n) (drop (Z.to_nat off) k)).
  { intros k. apply list_eq. intros j. destruct (decide (j < Z.to_nat n)%nat).
    - rewrite !lookup_take_lt, !lookup_drop, lookup_take_lt by lia. done.
    - rewrite !lookup_take_ge by lia. done. }
  rewrite <- Htd, Hdat. apply Htd.
Qed.

(** The file [nm] of the root of [es] reads as [b]. *)
Definition reads_back s (es : list (list Z * node)) : Prop := forall nm ino sz cnt b n off,
  (nm, File ino sz cnt b) ∈ es -> name_ok nm -> only_match nm es (nm, File ino sz cnt b) ->
  Z.of_nat (length nm) + 1 < path_cap -> 0 <= off -> 0 <= n < 2 ^ 31 -> off + n <= sz ->
  wp (newfs_read (pathname [nm]) n off) s (fun r _ => r = (n, take (Z.to_nat n) (drop (Z.to_nat off) b))).

Lemma file_number nm ino sz cnt b es : (nm, File ino sz cnt b) ∈ es -> ino ∈ inos_of es.
Proof.
  induction es as [|e es IH]; intros Hin; [by apply not_elem_of_nil in Hin|]. unfold inos_of in *. cbn.
  apply elem_of_cons in Hin as [<-|Hin]; apply elem_of_app; [left; by left|right; by apply IH].
Qed.

Lemma remount_ok s r a size es fd : mounted s r a size es -> 0 <= fd ->
  wp newfs_destroy s (fun _ s1 => forall s0, device s0 = device s1 -> heap_ok s0 ->
    wp (newfs_init fd) s0 (fun rc s2 => rc = 0 /\ loaded (device s1) (super s) es s2 /\ reads_back s2 es)).
Proof.
  intros Hm Hfd. eapply wp_mono; [by eapply destroy_saves|]. cbn beta. intros _ s1 [Hgeo Hsaved] s0 Hdev Hok.
  assert (Hfits : fits_dev (device s1) (inos (Dir 0 size es))) by (eapply fits_dev_geo; [done|by destruct Hm]).
  assert (Hgood : good (Dir 0 size es)) by (by destruct Hm).
  assert (Hg1 : whole_blocks (device s1) /\ NEWFS_BLKS_SZ (ddriver_io_sz (device s1)) = NEWFS_DATA_SIZE).
  { destruct (mt_geometry _ _ _ _ _ Hm) as [Hio Hw], Hgeo as [Hs Hi]. pose proof (mt_block _ _ _ _ _ Hm) as HB.
    unfold whole_blocks in *. split; [by rewrite Hi, Hs|congruence]. }
  eapply wp_mono.
  { apply (init_loads s0 (super s) size es fd); rewrite ?Hdev; try done; try apply Hg1.
    by apply Forall_cons in Hfits as [? _]. }
  cbn beta. intros rc s2 [-> Hl]. rewrite Hdev in Hl. split; [done|]. split; [done|].
  intros nm ino sz cnt b n off Hin Hname Hu Hcap Ho Hn Hfit.
  eapply (read_saved_file s2 (super s) (device s1)); try done; [apply Hsaved|].
  apply (proj1 (Forall_forall _ _) Hfits). right. by eapply file_number.
Qed.

(** Unmounting and mounting again keeps the files. From a mounted file system whose
    tree is in memory, [newfs_destroy] succeeds, and [newfs_init] on the device it
    leaves, in any heap, returns 0 with the same inode bitmap, the root directory lists
    the same entries with their types and inode numbers (the last one first), and each
    file of the root with a name of its own is read back by [newfs_read] byte by byte,
    at every offset. *)
Theorem newfs_remount s r a size es fd : mounted s r a size es -> 0 <= fd ->
  wp newfs_destroy s (fun _ s1 => forall s0, device s0 = device s1 -> heap_ok s0 ->
    wp (newfs_init fd) s0 (fun rc s2 => rc = 0 /\ loaded (device s1) (super s) es s2 /\ reads_back s2 es)).
Proof. apply remount_ok. Qed.
End ops.
End NewfsRemount.
