(* ===== verification/NewfsFuse.v ===== *)
(** * The file system: its entry points for FUSE

    The table [operations] that [newfs.c] hands to FUSE, the optional operations
    that are not in it, and [main]. FUSE turns a system call on the mount point
    into a [request]; [handle] calls the table's function on the path. An operation
    that is not set is answered by FUSE itself. *)

From S2P Require Import Prelude.
From S2P Require Import Memory.
From S2P Require Import NewfsDisk.
From S2P Require Import Newfs.
From S2P Require Import NewfsLookup.

(** Who calls, and the two calls of [time]. *)
Record caller : Type := Caller { c_uid : Z; c_gid : Z; c_atime : Z; c_mtime : Z }.

(** [struct custom_options] *)
Record custom_options : Type := CustomOptions { opt_device : string }.

Module NewfsFuse.
Import Newfs NewfsLookup.

Section table.
Context {D : Type} `{!Ddriver D} `{Platform}.
Abbreviation N := (M (newfs D)).

(** ** The optional operations *)
Definition newfs_unlink (path : list Z) : N Z := mret 0.
Definition newfs_rmdir (path : list Z) : N Z := mret 0.
Definition newfs_rename (from to : list Z) : N Z := mret 0.
Definition newfs_open (path : list Z) : N Z := mret 0.
Definition newfs_opendir (path : list Z) : N Z := mret 0.
Definition newfs_truncate (path : list Z) (offset : Z) : N Z := mret 0.
Definition newfs_access (path : list Z) (type : Z) : N Z := mret 0.

(** ** [static struct fuse_operations operations] *)
Record fuse_operations : Type := FuseOperations {
  op_init : option (Z -> N Z);
  op_destroy : option (N unit);
  op_mkdir : option (list Z -> N Z);
  op_getattr : option (caller -> list Z -> stat -> N (Z * stat));
  op_readdir : option (list Z -> Z -> N (Z * option (list Z * Z)));
  op_mknod : option (list Z -> Z -> N Z);
  op_write : option (list Z -> list Z -> Z -> N Z);
  op_read : option (list Z -> Z -> Z -> N (Z * list Z));
  op_utimens : option (list Z -> N Z);
  op_truncate : option (list Z -> Z -> N Z);
  op_unlink : option (list Z -> N Z);
  op_rmdir : option (list Z -> N Z);
  op_rename : option (list Z -> list Z -> N Z);
  op_open : option (list Z -> N Z);
  op_opendir : option (list Z -> N Z);
  op_access : option (list Z -> Z -> N Z);
}.

Definition operations : fuse_operations := {|
  op_init := Some newfs_init;
  op_destroy := Some newfs_destroy;
  op_mkdir := Some newfs_mkdir;
  op_getattr := Some (fun c => newfs_getattr (c_uid c) (c_gid c) (c_atime c) (c_mtime c));
  op_readdir := Some newfs_readdir;
  op_mknod := Some newfs_mknod;
  op_write := Some newfs_write;
  op_read := Some newfs_read;
  op_utimens := Some newfs_utimens;
  op_truncate := None;
  op_unlink := None;
  op_rmdir := None;
  op_rename := None;
  op_open := None;
  op_opendir := None;
  op_access := None;
|}.
End table.
Arguments fuse_operations D : clear implicits.

(** [option_spec]: the templates FUSE matches against the arguments, each with the
    member of the options it sets. *)
Definition option_spec : list (string * (string -> custom_options -> custom_options)) :=
  [ ("--device=%s", fun device _ => CustomOptions device) ]%string.

(** The device of the options until the arguments set it. *)
Definition default_device : string := "TODO: 这里填写你的ddriver设备路径".

(** [main]. The functions of the FUSE library are arguments; the result is what
    [main] returns and the options [newfs_init] finds. *)
Section main.
Context {D : Type} `{!Ddriver D} `{Platform} {args : Type}.
Variable fuse_opt_parse :
  args -> custom_options -> list (string * (string -> custom_options -> custom_options)) ->
  Z * args * custom_options.
Variable fuse_main : args -> fuse_operations D -> Z.

Definition main (a : args) : Z * custom_options :=
  let '(r, a, options) := fuse_opt_parse a (CustomOptions default_device) option_spec in
  if r =? -1 then (-1, options) else (fuse_main a operations, options).
End main.

(** ** Requests *)

(** What FUSE asks for, on the path of a list of names. *)
Inductive request : Type :=
| Mkdir (names : list (list Z))
| Mknod (names : list (list Z)) (mode : Z)
| Getattr (c : caller) (names : list (list Z)) (st : stat)
| Readdir (names : list (list Z)) (offset : Z)
| Write (names : list (list Z)) (buf : list Z) (offset : Z)
| Read (names : list (list Z)) (size offset : Z)
| Utimens (names : list (list Z))
| Truncate (names : list (list Z)) (offset : Z)
| Unlink (names : list (list Z))
| Rmdir (names : list (list Z))
| Rename (from to : list (list Z))
| Open (names : list (list Z))
| Opendir (names : list (list Z))
| Access (names : list (list Z)) (type : Z).

Inductive reply : Type :=
| RInt (r : Z)
| RStat (r : Z) (st : stat)
| RFill (r : Z) (entry : option (list Z * Z))
| RData (r : Z) (bytes : list Z)
| RUnset.

(** The path FUSE passes: the root is [/]. *)
Definition path_of (names : list (list Z)) : list Z :=
  match names with [] => [slash] | _ => pathname names end.

Section handle.
Context {D : Type} `{!Ddriver D} `{Platform}.
Abbreviation N := (M (newfs D)).

(** Calling an operation if it is set. *)
Definition call {F A} (op : option F) (k : F -> N A) (wrap : A -> reply) : N reply :=
  match op with
  | None => mret RUnset
  | Some f => x ← k f; mret (wrap x)
  end.

Definition handle (r : request) : N reply :=
  let p := path_of in
  match r with
  | Mkdir ns => call (op_mkdir operations) (fun f => f (p ns)) RInt
  | Mknod ns mode => call (op_mknod operations) (fun f => f (p ns) mode) RInt
  | Getattr c ns st => call (op_getattr operations) (fun f => f c (p ns) st) (fun x => RStat (fst x) (snd x))
  | Readdir ns off => call (op_readdir operations) (fun f => f (p ns) off) (fun x => RFill (fst x) (snd x))
  | Write ns buf off => call (op_write operations) (fun f => f (p ns) buf off) RInt
  | Read ns size off => call (op_read operations) (fun f => f (p ns) size off) (fun x => RData (fst x) (snd x))
  | Utimens ns => call (op_utimens operations) (fun f => f (p ns)) RInt
  | Truncate ns off => call (op_truncate operations) (fun f => f (p ns) off) RInt
  | Unlink ns => call (op_unlink operations) (fun f => f (p ns)) RInt
  | Rmdir ns => call (op_rmdir operations) (fun f => f (p ns)) RInt
  | Rename from to => call (op_rename operations) (fun f => f (p from) (p to)) RInt
  | Open ns => call (op_open operations) (fun f => f (p ns)) RInt
  | Opendir ns => call (op_opendir operations) (fun f => f (p ns)) RInt
  | Access ns t => call (op_access operations) (fun f => f (p ns) t) RInt
  end.

Fixpoint handle_all (l : list request) : N (list reply) :=
  match l with
  | [] => mret []
  | r :: l' => x ← handle r; xs ← handle_all l'; mret (x :: xs)
  end.
End handle.
End NewfsFuse.
