(* ===== verification/NewfsSpec.v ===== *)
(** * The file system: specification

    What the requests of FUSE mean, without a heap, addresses, bitmaps or a disk:
    a finite map from inode numbers to files and directories. A file is its bytes,
    a directory the list of its entries, the newest first. As in the source a name
    finds the first entry whose name starts with it. *)

From S2P Require Import Prelude.
From S2P Require Import Memory.
From S2P Require Import NewfsDisk.
From S2P Require Import Newfs.
From S2P Require Import NewfsLookup.
From S2P Require Import NewfsTree.
From S2P Require Import NewfsFuse.

Module NewfsSpec.
Import Newfs NewfsLookup NewfsFuse NewfsTree.

Inductive obj : Type :=
| AFile (content : list Z)
| ADir (es : list (list Z * Z)).

(** [disk] is the size of the device, which [getattr] of the root reports. *)
Record fs : Type := Fs { objs : gmap Z obj; next_ino : Z; disk : Z }.

Definition NEWFS_ROOT_INO : Z := 0.
Definition FILE_MAX : Z := NEWFS_DATA_PER_FILE * NEWFS_DATA_SIZE.

(** How many inodes there are whose blocks lie on the device. *)
Definition max_files (disk : Z) : Z := Z.min NEWFS_INODE_NUM ((disk - NEWFS_DATA_OFS) / FILE_MAX).

(** The file system after formatting. *)
Definition fresh_fs (disk : Z) : fs := Fs {[ NEWFS_ROOT_INO := ADir [] ]} 1 disk.

(** ** Paths *)

Fixpoint find_name (n : list Z) (es : list (list Z * Z)) : option Z :=
  match es with
  | [] => None
  | e :: es' => if bool_decide (take (length n) (fst e) = n) then Some (snd e) else find_name n es'
  end.

Inductive found : Type := Found (ino : Z) | Missing (dir : Z) | NotDir.
#[export] Instance found_eq_dec : EqDecision found.
Proof. solve_decision. Defined.

Fixpoint walk (A : fs) (cur : Z) (ns : list (list Z)) : found :=
  match ns with
  | [] => Found cur
  | n :: ns' =>
      match objs A !! cur with
      | Some (ADir es) =>
          match find_name n es with
          | None => Missing cur
          | Some j => walk A j ns'
          end
      | _ => NotDir
      end
  end.
Definition resolve (A : fs) (ns : list (list Z)) : found := walk A NEWFS_ROOT_INO ns.

(** ** Requests *)

(** A new object becomes the first entry of the directory [d]. *)
Definition add_entry (d : Z) (n : list Z) (o : obj) (A : fs) : fs :=
  match objs A !! d with
  | Some (ADir es) =>
      Fs (<[next_ino A := o]> (<[d := ADir ((n, next_ino A) :: es)]> (objs A))) (next_ino A + 1) (disk A)
  | _ => A
  end.
Definition create (ns : list (list Z)) (o : obj) (A : fs) : reply * fs :=
  match resolve A ns with
  | Found _ => (RInt (- NEWFS_ERROR_EXISTS), A)
  | Missing d => (RInt NEWFS_ERROR_NONE, add_entry d (List.last ns []) o A)
  | NotDir => (RUnset, A)
  end.

(** [stat] of an object. *)
Definition stat_of (A : fs) (c : caller) (st : stat) (root : bool) (o : obj) : stat :=
  let '(mode, size) :=
    match o with
    | ADir es => (Z.lor S_IFDIR NEWFS_DEFAULT_PERM, Z.of_nat (length es) * sizeof_dentry_d)
    | AFile b => (Z.lor S_IFREG NEWFS_DEFAULT_PERM, Z.of_nat (length b))
    end in
  let B := NEWFS_DATA_SIZE in
  if root then Stat mode 2 (c_uid c) (c_gid c) 0 (c_atime c) (c_mtime c) B (Z.quot (disk A) B)
  else Stat mode 1 (c_uid c) (c_gid c) size (c_atime c) (c_mtime c) B (st_blocks st).

(** The bytes of a file after [buf] was written at [o]. *)
Definition overwrite (o : nat) (buf content : list Z) : list Z :=
  take o content ++ map u8 buf ++ drop (o + length buf) content.

Definition is_root (ns : list (list Z)) : bool := match ns with [] => true | _ => false end.

(** The reply and the file system afterwards. *)
Definition spec_handle (r : request) (A : fs) : reply * fs :=
  match r with
  | Mkdir ns => create ns (ADir []) A
  | Mknod ns mode => create ns (if S_ISREG mode then AFile [] else ADir []) A
  | Getattr c ns st =>
      match resolve A ns with
      | Found i => match objs A !! i with
                   | Some o => (RStat NEWFS_ERROR_NONE (stat_of A c st (is_root ns) o), A)
                   | None => (RUnset, A)
                   end
      | _ => (RStat (- NEWFS_ERROR_NOTFOUND) st, A)
      end
  | Readdir ns off =>
      match resolve A ns with
      | Found i => match objs A !! i with
                   | Some (ADir es) =>
                       match es !! Z.to_nat off with
                       | Some e => (RFill NEWFS_ERROR_NONE (Some (fst e, off + 1)), A)
                       | None => (RFill NEWFS_ERROR_NONE None, A)
                       end
                   | _ => (RFill NEWFS_ERROR_NONE None, A)
                   end
      | _ => (RFill (- NEWFS_ERROR_NOTFOUND) None, A)
      end
  | Write ns buf off =>
      match resolve A ns with
      | Found i => match objs A !! i with
                   | Some (AFile b) =>
                       if Z.of_nat (length b) <? off then (RInt (- NEWFS_ERROR_SEEK), A) else
                       (RInt (Z.of_nat (length buf)),
                        Fs (<[i := AFile (overwrite (Z.to_nat off) buf b)]> (objs A)) (next_ino A) (disk A))
                   | _ => (RInt (- NEWFS_ERROR_ISDIR), A)
                   end
      | _ => (RInt (- NEWFS_ERROR_NOTFOUND), A)
      end
  | Read ns size off =>
      match resolve A ns with
      | Found i => match objs A !! i with
                   | Some (AFile b) =>
                       if Z.of_nat (length b) <? off then (RData (- NEWFS_ERROR_SEEK) [], A) else
                       (RData size (take (Z.to_nat size) (drop (Z.to_nat off) b)), A)
                   | _ => (RData (- NEWFS_ERROR_ISDIR) [], A)
                   end
      | _ => (RData (- NEWFS_ERROR_NOTFOUND) [], A)
      end
  | Utimens _ => (RInt 0, A)
  | _ => (RUnset, A)
  end.

Fixpoint spec_all (l : list request) (A : fs) : list reply * fs :=
  match l with
  | [] => ([], A)
  | r :: l' =>
      let '(x, A1) := spec_handle r A in
      let '(xs, A2) := spec_all l' A1 in
      (x :: xs, A2)
  end.

(** A reply of the program against the one specified. [newfs_read] does not stop at
    the end of the file: behind it the bytes are not specified. *)
Definition agrees (x y : reply) : Prop :=
  match x, y with
  | RData r l, RData r' l' => r = r' /\ l' `prefix_of` l
  | _, _ => x = y
  end.

(** ** What FUSE may ask *)

Definition name_good (n : list Z) : bool :=
  bool_decide (n <> []) && (length n <? 128)%nat && forallb (fun c => (0 <? c) && (c <? 256) && negb (c =? slash)) n.

Section allowed.
Context `{Platform}.

(** The names are names, the block for the copy of the path is large enough, and
    the path does not lead through a file. *)
Definition path_good (A : fs) (ns : list (list Z)) : bool :=
  forallb name_good ns && (Z.of_nat (length (path_of ns)) <? path_cap) && bool_decide (resolve A ns <> NotDir).

(** For a new entry: the rest of the path names a directory with a free record,
    and there are inodes left, as the layout counts them and as the device has room
    for their blocks. *)
Definition room (A : fs) (ns : list (list Z)) : bool :=
  match resolve A ns with
  | Missing d =>
      bool_decide (resolve A (removelast ns) = Found d) && (next_ino A <? max_files (disk A)) &&
      match objs A !! d with
      | Some (ADir es) => Z.of_nat (length es) <? MAX_ENTRIES
      | _ => false
      end
  | _ => true
  end.

(** Writes and reads stay inside the eight blocks of a file. *)
Definition inside (A : fs) (ns : list (list Z)) (size off : Z) : bool :=
  match resolve A ns with
  | Found i =>
      match objs A !! i with
      | Some (AFile b) => (Z.of_nat (length b) <? off) || ((0 <=? off) && (0 <=? size) && (off + size <=? FILE_MAX))
      | _ => true
      end
  | _ => true
  end.

Definition allowed (r : request) (A : fs) : bool :=
  match r with
  | Mkdir ns => path_good A ns && room A ns
  | Mknod ns mode => path_good A ns && room A ns && (S_ISREG mode || S_ISDIR mode)
  | Getattr _ ns _ => path_good A ns
  | Readdir ns off => path_good A ns && (0 <=? off) && (off <? 2 ^ 31)
  | Write ns buf off => path_good A ns && inside A ns (Z.of_nat (length buf)) off
  | Read ns size off => path_good A ns && inside A ns size off
  | _ => true
  end.

Fixpoint allowed_all (l : list request) (A : fs) : bool :=
  match l with
  | [] => true
  | r :: l' => allowed r A && allowed_all l' (snd (spec_handle r A))
  end.
End allowed.

(** ** Well-formed file systems *)

(** Numbers are in use below [next_ino]; the root is a directory; entries have
    names of the format and lead from smaller to larger numbers; every number is
    the target of at most one entry; files and directories fit the format. *)
Record fs_ok (A : fs) : Prop := {
  ok_root : exists es, objs A !! NEWFS_ROOT_INO = Some (ADir es);
  ok_range : forall i, is_Some (objs A !! i) <-> 0 <= i < next_ino A;
  ok_next : 1 <= next_ino A <= max_files (disk A);
  ok_entry : forall i es e, objs A !! i = Some (ADir es) -> e ∈ es ->
    name_fits (fst e) /\ i < snd e < next_ino A;
  ok_name : forall i es e, objs A !! i = Some (ADir es) -> e ∈ es -> name_ok (fst e);
  ok_distinct : forall i es, objs A !! i = Some (ADir es) -> NoDup (map snd es);
  ok_parent : forall i i' es es' j, objs A !! i = Some (ADir es) -> objs A !! i' = Some (ADir es') ->
    j ∈ map snd es -> j ∈ map snd es' -> i = i';
  ok_dir : forall i es, objs A !! i = Some (ADir es) -> Z.of_nat (length es) <= MAX_ENTRIES;
  ok_file : forall i b, objs A !! i = Some (AFile b) ->
    Z.of_nat (length b) <= FILE_MAX /\ Forall (fun c => 0 <= c < 256) b;
}.

Lemma name_good_spec n : name_good n = true ->
  name_ok n /\ name_fits n.
Proof.
  unfold name_good. intros [[H1%bool_decide_eq_true H2%Nat.ltb_lt]%andb_true_iff H0]%andb_true_iff.
  assert (Hc : forall c, c ∈ n -> 0 < c < 256 /\ c <> slash).
  { intros c Hin. rewrite forallb_forall in H0. specialize (H0 c (proj1 (list_elem_of_In _ _) Hin)). bool_to_prop. lia. }
  split; [split_and!; [done|by intros [_ Hs]%Hc|unfold NEWFS_MAX_FILE_NAME; lia]|].
  split_and!; [intros Hz%Hc; lia|done|]. apply Forall_forall. intros c Hin%Hc. lia.
Qed.

Lemma fresh_fs_ok disk : NEWFS_DA_OFS 1 <= disk -> fs_ok (fresh_fs disk).
Proof.
  intros Hd. assert (Hmax : 1 <= max_files disk).
  { unfold max_files. apply Z.min_glb; [done|]. apply Z.div_le_lower_bound; [done|].
    unfold NEWFS_DA_OFS, FILE_MAX in *. lia. }
  assert (Hone : forall i o, objs (fresh_fs disk) !! i = Some o -> i = NEWFS_ROOT_INO /\ o = ADir []).
  { intros i o Ho. cbn [objs fresh_fs] in Ho. by apply lookup_singleton_Some in Ho as [<- <-]. }
  split.
  - exists []. cbn [objs fresh_fs]. by rewrite lookup_singleton_eq.
  - intros i. cbn [objs fresh_fs next_ino]. split.
    + intros [o Ho]. apply Hone in Ho as [-> _]. done.
    + intros Hi. assert (i = 0) as -> by lia. by rewrite lookup_singleton_eq.
  - done.
  - intros i es e Ho He. apply Hone in Ho as [_ [= ->]]. by apply not_elem_of_nil in He.
  - intros i es e Ho He. apply Hone in Ho as [_ [= ->]]. by apply not_elem_of_nil in He.
  - intros i es Ho. apply Hone in Ho as [_ [= ->]]. constructor.
  - intros i i' es es' j Ho _ Hj. apply Hone in Ho as [_ [= ->]]. by apply not_elem_of_nil in Hj.
  - intros i es Ho. by apply Hone in Ho as [_ [= ->]].
  - intros i b Ho. by apply Hone in Ho as [_ ?].
Qed.
End NewfsSpec.

Module NewfsSpecThms.
Import Newfs NewfsLookup NewfsFuse NewfsTree NewfsSpec.

(** ** Paths *)

Lemma find_name_elem n es j : find_name n es = Some j -> j ∈ map snd es.
Proof.
  induction es as [|e es IH]; [done|]. cbn. case_match; [intros [= <-]; by left|]. intros Hf. right. by apply IH.
Qed.

Lemma entry_used A i es j : fs_ok A -> objs A !! i = Some (ADir es) -> j ∈ map snd es -> is_Some (objs A !! j).
Proof.
  intros Hok Hi (e & -> & He)%list_elem_of_fmap. apply (ok_range A Hok).
  destruct (ok_entry A Hok i es e Hi He) as [_ He2]. assert (0 <= i < next_ino A) by (apply (ok_range A Hok); eauto). lia.
Qed.

(** A path leads to an object, or stops at a directory. *)
Lemma walk_spec A ns : fs_ok A -> forall cur, is_Some (objs A !! cur) ->
  match walk A cur ns with
  | Found i => is_Some (objs A !! i)
  | Missing d => exists es, objs A !! d = Some (ADir es)
  | NotDir => True
  end.
Proof.
  intros Hok. induction ns as [|n ns IH]; intros cur Hcur; [done|]. cbn [walk].
  destruct (objs A !! cur) as [[b|es]|] eqn:E; [done| |done].
  destruct (find_name n es) as [j|] eqn:Ef; [|by exists es]. apply IH. eapply entry_used; [done|exact E|by eapply find_name_elem].
Qed.

Lemma root_used A : fs_ok A -> is_Some (objs A !! NEWFS_ROOT_INO).
Proof. intros Hok. destruct (ok_root A Hok) as [es ->]. by eexists. Qed.

Lemma resolve_spec A ns : fs_ok A ->
  match resolve A ns with
  | Found i => is_Some (objs A !! i)
  | Missing d => exists es, objs A !! d = Some (ADir es)
  | NotDir => True
  end.
Proof. intros Hok. by apply walk_spec, root_used. Qed.

(** The numbers in use are numbers of inodes, and their blocks lie on the device. *)
Lemma max_files_fit disk i : i < max_files disk -> i < NEWFS_INODE_NUM /\ NEWFS_DA_OFS (i + 1) <= disk.
Proof.
  unfold max_files. intros [Hi Hd]%Z.min_glb_lt_iff. split; [done|].
  assert (Hm : FILE_MAX * ((disk - NEWFS_DATA_OFS) / FILE_MAX) <= disk - NEWFS_DATA_OFS) by (by apply Z.mul_div_le).
  unfold NEWFS_DA_OFS. change FILE_MAX with 8192 in *. change NEWFS_DATA_PER_FILE with 8. change NEWFS_DATA_SIZE with 1024. lia.
Qed.

Lemma next_limit A : fs_ok A -> 1 <= next_ino A <= NEWFS_INODE_NUM.
Proof.
  intros Hok. destruct (ok_next A Hok) as [H1 H2]. pose proof (max_files_fit (disk A) (next_ino A - 1) ltac:(lia)). lia.
Qed.

Lemma last_snoc (ns : list (list Z)) n : List.last (ns ++ [n]) [] = n.
Proof. apply last_last. Qed.

(** ** Changes *)

(** The objects after an entry was added. *)
Lemma add_entry_eq d n o A es : objs A !! d = Some (ADir es) ->
  add_entry d n o A = Fs (<[next_ino A := o]> (<[d := ADir ((n, next_ino A) :: es)]> (objs A))) (next_ino A + 1) (disk A).
Proof. intros Hd. unfold add_entry. by rewrite Hd. Qed.

Definition new_obj (o : obj) : Prop := o = AFile [] \/ o = ADir [].

Lemma add_entry_ok d n o A es : fs_ok A -> objs A !! d = Some (ADir es) -> new_obj o ->
  name_ok n -> name_fits n -> next_ino A < max_files (disk A) -> Z.of_nat (length es) < MAX_ENTRIES ->
  fs_ok (add_entry d n o A).
Proof.
  intros Hok Hd Ho Hname Hn Hnext Hlen. rewrite (add_entry_eq d n o A es Hd).
  assert (Hdr : 0 <= d < next_ino A) by (apply (ok_range A Hok); eauto).
  assert (Hroot : NEWFS_ROOT_INO < next_ino A) by (pose proof (ok_next A Hok); unfold NEWFS_ROOT_INO; lia).
  (* a directory afterwards is the new one, the changed one or an old one *)
  assert (Hcase : forall i es', <[next_ino A := o]> (<[d := ADir ((n, next_ino A) :: es)]> (objs A)) !! i = Some (ADir es') ->
    (i = next_ino A /\ es' = []) \/ (i = d /\ es' = (n, next_ino A) :: es) \/ (i <> d /\ objs A !! i = Some (ADir es'))).
  { intros i es' Hi. apply lookup_insert_Some in Hi as [[<- Hi]|[Hne Hi]].
    - left. destruct Ho as [-> | ->]; by simplify_eq.
    - right. apply lookup_insert_Some in Hi as [[<- Hi]|[Hne' Hi]]; [left; by simplify_eq|by right]. }
  assert (Hold : forall i es' j, objs A !! i = Some (ADir es') -> j ∈ map snd es' -> j < next_ino A).
  { intros i es' j Hi (e & -> & He)%list_elem_of_fmap. destruct (ok_entry A Hok i es' e Hi He) as [_ ?]. lia. }
  split; cbn [objs next_ino disk].
  - rewrite lookup_insert_ne by lia. destruct (decide (d = NEWFS_ROOT_INO)) as [->|Hne].
    + rewrite lookup_insert_eq. by eexists.
    + rewrite lookup_insert_ne by done. apply (ok_root A Hok).
  - intros i. destruct (decide (i = next_ino A)) as [->|Hne]; [rewrite lookup_insert_eq; split; [lia|by eexists]|].
    rewrite lookup_insert_ne by done. destruct (decide (i = d)) as [->|Hne']; [rewrite lookup_insert_eq; split; [lia|by eexists]|].
    rewrite lookup_insert_ne, (ok_range A Hok) by done. lia.
  - pose proof (ok_next A Hok). lia.
  - intros i es' e Hi He. destruct (Hcase i es' Hi) as [[-> ->]|[[-> ->]|[_ Hi']]]; [by apply not_elem_of_nil in He| |].
    + apply elem_of_cons in He as [->|He]; [cbn; split; [done|lia]|].
      destruct (ok_entry A Hok d es e Hd He). split; [done|lia].
    + destruct (ok_entry A Hok i es' e Hi' He). split; [done|lia].
  - intros i es' e Hi He. destruct (Hcase i es' Hi) as [[-> ->]|[[-> ->]|[_ Hi']]]; [by apply not_elem_of_nil in He| |].
    + apply elem_of_cons in He as [->|He]; [done|by apply (ok_name A Hok d es)].
    + by apply (ok_name A Hok i es').
  - intros i es' Hi. destruct (Hcase i es' Hi) as [[-> ->]|[[-> ->]|[_ Hi']]]; [constructor| |by eapply ok_distinct].
    cbn. constructor; [|by eapply ok_distinct]. intros Hin%(Hold d es); [lia|done].
  - intros i i' es1 es2 j Hi Hi' Hj Hj'.
    assert (Hpar : forall i es' j, <[next_ino A := o]> (<[d := ADir ((n, next_ino A) :: es)]> (objs A)) !! i = Some (ADir es') ->
      j ∈ map snd es' -> (j = next_ino A /\ i = d) \/ exists es0, objs A !! i = Some (ADir es0) /\ j ∈ map snd es0).
    { intros x ex y Hx Hy. destruct (Hcase x ex Hx) as [[-> ->]|[[-> ->]|[_ Hx']]]; [by apply not_elem_of_nil in Hy| |by eauto].
      cbn in Hy. apply elem_of_cons in Hy as [->|Hy]; [by left|eauto]. }
    destruct (Hpar i es1 j Hi Hj) as [[E1 E2]|(e1 & H1 & H2)], (Hpar i' es2 j Hi' Hj') as [[E3 E4]|(e2 & H3 & H4)].
    + congruence.
    + pose proof (Hold _ _ _ H3 H4). lia.
    + pose proof (Hold _ _ _ H1 H2). lia.
    + by eapply (ok_parent A Hok).
  - intros i es' Hi. destruct (Hcase i es' Hi) as [[-> ->]|[[-> ->]|[_ Hi']]]; [done|cbn [length]; lia|by eapply ok_dir].
  - intros i b Hi. apply lookup_insert_Some in Hi as [[<- Hi]|[Hne Hi]].
    + destruct Ho as [-> | ->]; simplify_eq. done.
    + apply lookup_insert_Some in Hi as [[<- Hi]|[Hne' Hi]]; [done|by eapply ok_file].
Qed.

Lemma Forall_u8 l : Forall (fun c => 0 <= c < 256) (map u8 l).
Proof. apply Forall_forall. intros c (x & -> & _)%list_elem_of_fmap. apply u8_range. Qed.

Lemma length_overwrite o buf b : (o <= length b)%nat ->
  length (overwrite o buf b) = Nat.max (length b) (o + length buf).
Proof. intros Ho. unfold overwrite. rewrite !length_app, length_map, length_take, length_drop. lia. Qed.

Lemma overwrite_bytes o buf b : Forall (fun c => 0 <= c < 256) b -> Forall (fun c => 0 <= c < 256) (overwrite o buf b).
Proof.
  intros Hb. unfold overwrite. rewrite !Forall_app. split; [by apply Forall_take|]. split; [apply Forall_u8|by apply Forall_drop].
Qed.

(** The contents of a file change. *)
Lemma set_file_ok A i b b' : fs_ok A -> objs A !! i = Some (AFile b) ->
  Z.of_nat (length b') <= FILE_MAX -> Forall (fun c => 0 <= c < 256) b' ->
  fs_ok (Fs (<[i := AFile b']> (objs A)) (next_ino A) (disk A)).
Proof.
  intros Hok Hi Hl Hb.
  assert (Hdir : forall j es, <[i := AFile b']> (objs A) !! j = Some (ADir es) -> objs A !! j = Some (ADir es)).
  { intros j es Hj. apply lookup_insert_Some in Hj as [[_ ?]|[_ ?]]; done. }
  split; cbn [objs next_ino disk].
  - destruct (ok_root A Hok) as [es Hr]. exists es. rewrite lookup_insert_ne; [done|]. intros ->. congruence.
  - intros j. rewrite lookup_insert_is_Some. rewrite (ok_range A Hok). split; [|intros Hj; destruct (decide (i = j)); auto].
    intros [<-|[_ Hj]]; [|done]. apply (ok_range A Hok). eauto.
  - apply (ok_next A Hok).
  - intros j es e Hj%Hdir. by apply (ok_entry A Hok).
  - intros j es e Hj%Hdir. by apply (ok_name A Hok j es).
  - intros j es Hj%Hdir. by apply (ok_distinct A Hok j).
  - intros j j' es es' k Hj%Hdir Hj'%Hdir. by apply (ok_parent A Hok j j' es es').
  - intros j es Hj%Hdir. by apply (ok_dir A Hok j).
  - intros j c Hj. apply lookup_insert_Some in Hj as [[<- Hj]|[_ Hj]]; [by simplify_eq|by apply (ok_file A Hok j)].
Qed.

Section allowed.
Context `{Platform}.

(** What [room] gives for a missing path. *)
Lemma room_missing A ns d : fs_ok A -> path_good A ns = true -> room A ns = true -> resolve A ns = Missing d ->
  exists ns' n es, ns = ns' ++ [n] /\ name_ok n /\ name_fits n /\ resolve A ns' = Found d /\
    objs A !! d = Some (ADir es) /\ next_ino A < max_files (disk A) /\ Z.of_nat (length es) < MAX_ENTRIES.
Proof.
  intros Hok Hp Hr Hd. unfold room in Hr. rewrite Hd in Hr.
  apply andb_true_iff in Hr as [[Hr1%bool_decide_eq_true Hr2%Z.ltb_lt]%andb_true_iff Hr3].
  destruct ns as [|n0 ns0]; [by cbn in Hd|]. destruct (exists_last (l := n0 :: ns0)) as (ns' & n & E); [done|].
  rewrite E in *. rewrite removelast_last in Hr1.
  destruct (objs A !! d) as [[|es]|] eqn:Ed; [done| |done]. exists ns', n, es.
  unfold path_good in Hp. apply andb_true_iff in Hp as [[Hp _]%andb_true_iff _]. rewrite forallb_app in Hp.
  apply andb_true_iff in Hp as [_ Hp]. cbn in Hp. rewrite andb_true_r in Hp. apply name_good_spec in Hp as [? ?].
  apply Z.ltb_lt in Hr3. done.
Qed.

Lemma create_ok A ns o : fs_ok A -> path_good A ns = true -> room A ns = true -> new_obj o -> fs_ok (snd (create ns o A)).
Proof.
  intros Hok Hp Hr Ho. unfold create. destruct (resolve A ns) as [i|d|] eqn:E; [done| |done]. cbn [snd].
  destruct (room_missing A ns d Hok Hp Hr E) as (ns' & n & es & -> & Hname & Hn & _ & Hd & Hx & Hl).
  rewrite last_snoc. by eapply add_entry_ok.
Qed.

Lemma spec_handle_ok r A : fs_ok A -> allowed r A = true -> fs_ok (snd (spec_handle r A)).
Proof.
  intros Hok Hal. destruct r; cbn [spec_handle allowed] in *; repeat (case_match; try done); try exact Hok.
  - apply andb_true_iff in Hal as [Hp Hr]. apply create_ok; auto. by right.
  - apply andb_true_iff in Hal as [[Hp Hr]%andb_true_iff _]. apply create_ok; auto. by left.
  - apply andb_true_iff in Hal as [[Hp Hr]%andb_true_iff _]. apply create_ok; auto. by right.
  - apply andb_true_iff in Hal as [_ Hin]. unfold inside in Hin.
    match goal with H1 : resolve A _ = Found _, H2 : objs A !! _ = Some (AFile _), H3 : (_ <? _) = false |- _ =>
      rewrite H1, H2, H3 in Hin; cbn [orb] in Hin; bool_to_prop;
      destruct (ok_file A Hok _ _ H2) as [Hl Hb]; apply (set_file_ok _ _ _ _ Hok H2) end.
    + rewrite length_overwrite by lia. lia.
    + by apply overwrite_bytes.
Qed.
End allowed.
End NewfsSpecThms.
