(* ===== verification/NewfsRefine.v ===== *)
(** * The file system refines its specification

    The heap of entries and inodes represents the specified file system: every
    inode number has an entry and an inode that point to each other, the list of a
    directory is its chain of entries, and the bitmaps mark the numbers in use.
    Every allowed request returns the specified reply and keeps the two in step. *)

From S2P Require Import Prelude.
From S2P Require Import Memory.
From S2P Require Import NewfsDisk.
From S2P Require Import Newfs.
From S2P Require Import NewfsLookup.
From S2P Require Import NewfsAlloc.
From S2P Require Import NewfsFuse.
From S2P Require Import NewfsTree.
From S2P Require Import NewfsSpec.

Module NewfsRefine.
Import Newfs NewfsLookup NewfsAlloc NewfsFuse NewfsTree NewfsSpec NewfsSpecThms.

(** ** Names and bitmaps *)

(** A name without zero bytes matches the padded array as it matches the name. *)
Lemma take_padded n m : 0 ∉ n -> (length n <= 128)%nat -> (length m < 128)%nat ->
  take (length n) (padded m) = n <-> take (length n) m = n.
Proof.
  intros Hz Hn Hm. unfold padded. destruct (decide (length n <= length m)%nat) as [Hle|Hgt]; [by rewrite take_app_le by done|].
  split; intros Heq.
  - exfalso. apply Hz. apply list_elem_of_lookup. exists (length m). rewrite <- Heq.
    rewrite lookup_take_lt, lookup_app_r, Nat.sub_diag by lia. replace (128 - length m)%nat with (S (127 - length m)) by lia. done.
  - apply (f_equal length) in Heq. rewrite length_take in Heq. lia.
Qed.

Lemma lor_bit_byte b bit : 0 <= b < 256 -> 0 <= bit < 8 -> 0 <= Z.lor b (Z.shiftl 1 bit) < 256.
Proof.
  intros Hb Hbit. split; [apply Z.lor_nonneg; split; [lia|]; rewrite Z.shiftl_mul_pow2 by lia; lia|].
  destruct (decide (Z.lor b (Z.shiftl 1 bit) = 0)) as [->|Hne]; [lia|].
  apply Z.log2_lt_cancel. change (Z.log2 256) with 8. rewrite Z.log2_lor; [|lia|apply Z.shiftl_nonneg; lia].
  apply Z.max_lub_lt.
  - destruct (decide (b = 0)) as [->|]; [done|]. apply Z.log2_lt_pow2; lia.
  - rewrite Z.shiftl_mul_pow2, Z.mul_1_l, Z.log2_pow2 by lia. lia.
Qed.

Lemma find_free_bytes n : forall map c k m, find_free n map c = Some (k, m) ->
  Forall (fun b => 0 <= b < 256) map -> Forall (fun b => 0 <= b < 256) m.
Proof.
  induction n as [|n IH]; intros [|byte map] c k m; cbn [find_free]; try done. intros Hf Hb.
  apply Forall_cons in Hb as [Hbyte Hb]. pose proof (find_bit_spec UINT8_BITS byte 0 ltac:(lia)) as Hbit. change (0 + Z.of_nat UINT8_BITS) with 8 in Hbit.
  destruct (find_bit UINT8_BITS 0 byte) as [bit|].
  - injection Hf as <- <-. constructor; [apply lor_bit_byte; [done|lia]|done].
  - destruct (find_free n map _) as [[k' m']|] eqn:E; [|done]. injection Hf as <- <-. constructor; [done|by eapply IH].
Qed.

(** With the numbers below [n] marked, [n] is the one that is found. *)
Definition marks (map : list Z) (n : Z) : Prop :=
  Z.of_nat (length map) = NEWFS_DATA_SIZE /\ Forall (fun b => 0 <= b < 256) map /\
  forall j, 0 <= j -> used map j = (j <? n).

Lemma find_free_marks map n : marks map n -> 0 <= n < 8 * NEWFS_DATA_SIZE ->
  exists m, find_free (Z.to_nat (1 * NEWFS_DATA_SIZE)) map 0 = Some (n, m) /\ marks m (n + 1).
Proof.
  intros (Hl & Hb & Hu) Hn.
  pose proof (find_free_spec (Z.to_nat (1 * NEWFS_DATA_SIZE)) map 0 ltac:(lia)) as Hs.
  destruct (find_free _ map 0) as [[k m]|] eqn:E.
  - rewrite Z.sub_0_r in Hs. destruct Hs as (Hr & Hlen & Hf & Hlow & Hset).
    assert (k = n) as ->.
    { rewrite Hu in Hf by lia. bool_to_prop. destruct (Z.lt_trichotomy k n) as [|[|Hgt]]; [lia|done|].
      specialize (Hlow n ltac:(lia)). rewrite Hu in Hlow by lia. bool_to_prop. lia. }
    exists m. split; [done|]. split; [lia|]. split; [by eapply find_free_bytes|].
    intros j Hj. rewrite Hset, Hu by done. destruct (Z.eqb_spec j n), (Z.ltb_spec j n), (Z.ltb_spec j (n + 1)); cbn; lia || done.
  - specialize (Hs n). rewrite Hu in Hs by lia. assert (n <? n = true) by (apply Hs; lia). bool_to_prop. lia.
Qed.

Section relation.
Context {D : Type}.
Implicit Types s : newfs D.

(** ** The relation *)

(** [x] is the entry for [e] in a directory; [m] gives the entry of each number. *)
Definition entry_at (h : gmap nat newfs_dentry) (m : gmap Z nat) (x : nat) (e : list Z * Z) : Prop :=
  m !! snd e = Some x /\ exists d, h !! x = Some d /\ de_fname d = padded (fst e).

Definition type_of (o : obj) : Z := match o with AFile _ => NEWFS_FILE | ADir _ => NEWFS_DIR end.

(** The inode [nd] holds the object. *)
Definition body_ok (h : gmap nat newfs_dentry) (m : gmap Z nat) (nd : newfs_inode) (o : obj) : Prop :=
  match o with
  | AFile c =>
      in_dentrys nd = None /\ in_dir_cnt nd = 0 /\ in_size nd = Z.of_nat (length c) /\
      exists b, in_data nd = Some b /\ take (length c) b = c /\ Z.of_nat (length b) = FILE_MAX /\ Forall (fun x => 0 <= x < 256) b
  | ADir es =>
      in_dir_cnt nd = Z.of_nat (length es) /\ in_size nd = Z.of_nat (length es) * sizeof_dentry /\
      exists l, chain h (in_dentrys nd) l /\ Forall2 (entry_at h m) l es
  end.

(** The entry and the inode of the number [i]. *)
Record obj_at s (m : gmap Z nat) (i : Z) (o : obj) (p a : nat) (d : newfs_dentry) (nd : newfs_inode) : Prop := {
  oa_map : m !! i = Some p;
  oa_dentry : dentries s !! p = Some d;
  oa_type : de_ftype d = type_of o;
  oa_inode : de_inode d = Some a;
  oa_ino : de_ino d = i;
  oa_at : inodes s !! a = Some nd;
  oa_back : in_dentry nd = Some p;
  oa_num : in_ino nd = i;
  oa_body : body_ok (dentries s) m nd o;
}.

Record linked (m : gmap Z nat) s (A : fs) : Prop := {
  lk_mounted : is_mounted (super s) = true;
  lk_root : root_dentry (super s) = m !! NEWFS_ROOT_INO;
  lk_heap : heap_ok s;
  lk_block : NEWFS_BLKS_SZ (sz_io (super s)) = NEWFS_DATA_SIZE;
  lk_max : max_ino (super s) = NEWFS_INODE_NUM /\ max_data (super s) = NEWFS_DATA_NUM;
  lk_disk : sz_disk (super s) = disk A /\ sz_usage (super s) = 0;
  lk_imap : map_inode_blks (super s) = NEWFS_MAP_INODE_BLOCKS /\ marks (map_inode (super s)) (next_ino A);
  lk_dmap : map_data_blks (super s) = NEWFS_MAP_DATA_BLOCKS /\ marks (map_data (super s)) (next_ino A - 1);
  lk_objs : forall i o, objs A !! i = Some o -> exists p a d nd, obj_at s m i o p a d nd;
}.

Definition refines s (A : fs) : Prop := fs_ok A /\ exists m, linked m s A.

(** What no request changes. *)
Definition frame s : D * (Z * Z * Z * Z * (Z * Z)) :=
  (device s, (sz_io (super s), sz_disk (super s), map_inode_offset (super s), map_data_offset (super s), (inode_offset (super s), data_offset (super s)))).

Lemma obj_dir_at s m i es p a d nd : obj_at s m i (ADir es) p a d nd ->
  exists l, dir_at s p l /\ Forall2 (entry_at (dentries s) m) l es.
Proof.
  intros [_ Hd Ht Ha _ Hi Hq _ (_ & _ & l & Hc & He)]. exists l. split; [|done]. by exists d, a, nd.
Qed.

Lemma obj_cached s m i o p a d nd : obj_at s m i o p a d nd -> cached s p.
Proof. intros [_ Hd _ Ha _ _ _ _ _]. by exists d, a. Qed.
End relation.

(** ** Lookup *)

Lemma first_match_find h m l es n : 0 ∉ n -> (length n <= 128)%nat -> Forall (fun e => name_fits (fst e)) es ->
  Forall2 (entry_at h m) l es ->
  match find_name n es with
  | None => first_match h l n = None
  | Some j => exists x, first_match h l n = Some x /\ m !! j = Some x
  end.
Proof.
  intros Hz Hn Hes Hl. induction Hl as [|x e l es [Hm (d & Hd & Hf)] Hl IH]; [done|].
  apply Forall_cons in Hes as [(_ & Hlen & _) Hes]. cbn [find_name first_match].
  assert (Hs : starts_with h n x = bool_decide (take (length n) (fst e) = n)).
  { unfold starts_with. rewrite Hd, Hf. by apply bool_decide_ext, take_padded. }
  rewrite Hs. destruct (bool_decide _); [by exists x|by apply IH].
Qed.

Section ops.
Context {D : Type} `{!Ddriver D} `{Platform}.
Implicit Types s : newfs D.

Lemma entries_fit A i es : fs_ok A -> objs A !! i = Some (ADir es) -> Forall (fun e => name_fits (fst e)) es.
Proof. intros Hok Hi. apply Forall_forall. intros e He. by apply (ok_entry A Hok i es). Qed.

Definition good_name (n : list Z) : Prop := name_ok n /\ name_fits n.

Lemma path_good_spec A ns : path_good A ns = true ->
  Forall good_name ns /\ Z.of_nat (length (path_of ns)) < path_cap /\ resolve A ns <> NotDir.
Proof.
  intros [[Hn Hl%Z.ltb_lt]%andb_true_iff Hd%bool_decide_eq_true]%andb_true_iff. split; [|done].
  apply Forall_forall. intros n Hin. apply name_good_spec. rewrite forallb_forall in Hn. by apply Hn, list_elem_of_In.
Qed.

Lemma good_names_ok ns : Forall good_name ns -> Forall name_ok ns.
Proof. intros Hg. eapply Forall_impl; [exact Hg|]. by intros n [? _]. Qed.

Lemma walk_lookup m s A ns : fs_ok A -> linked m s A -> Forall good_name ns -> ns <> [] ->
  forall cur p lvl total ret fnd, m !! cur = Some p -> is_Some (objs A !! cur) -> lvl + Z.of_nat (length ns) = total ->
  match walk A cur ns with
  | Found i => exists q, m !! i = Some q /\ lookup_loop ns (Some p) lvl total ret fnd s = Ok ((Some q, Some true), s)
  | Missing d => exists q, m !! d = Some q /\ lookup_loop ns (Some p) lvl total ret fnd s = Ok ((Some q, Some false), s)
  | NotDir => True
  end.
Proof.
  intros Hok Hlk Hns Hne. induction Hns as [|n ns [(_ & _ & Hlen) (Hz & _ & _)] Hns IH]; [done|].
  intros cur p lvl total ret fnd Hm [o Ho] Htot. cbn [walk]. rewrite Ho. destruct o as [b|es]; [done|].
  destruct (lk_objs _ _ _ Hlk _ _ Ho) as (p' & a & d & nd & Hobj). pose proof (oa_map _ _ _ _ _ _ _ _ Hobj) as Hp.
  assert (p' = p) as -> by congruence. destruct (obj_dir_at _ _ _ _ _ _ _ _ Hobj) as (l & Hdir & Hl).
  erewrite lookup_loop_step by done.
  pose proof (first_match_find _ _ _ _ n Hz ltac:(unfold NEWFS_MAX_FILE_NAME in *; lia) (entries_fit A cur es Hok Ho) Hl) as Hf.
  destruct (find_name n es) as [j|] eqn:Ef; [|rewrite Hf; by exists p]. destruct Hf as (x & -> & Hx).
  destruct ns as [|n' ns'].
  - cbn [walk length] in *. destruct (Z.eqb_spec (lvl + 1) total); [|lia]. by exists x.
  - cbn [length] in Htot. destruct (Z.eqb_spec (lvl + 1) total); [lia|]. apply IH; [done|done| |cbn [length]; lia].
    eapply entry_used; [done|exact Ho|by eapply find_name_elem].
Qed.

(** [newfs_lookup] finds what the specification resolves. *)
Lemma lookup_refines `{!PlatformOk} m s A ns : fs_ok A -> linked m s A -> path_good A ns = true ->
  match resolve A ns with
  | Found i => exists q o a d nd, objs A !! i = Some o /\ obj_at s m i o q a d nd /\
      newfs_lookup (path_of ns) s = Ok ((Some q, Some true, is_root ns), s)
  | Missing j => exists q es a d nd, objs A !! j = Some (ADir es) /\ obj_at s m j (ADir es) q a d nd /\
      newfs_lookup (path_of ns) s = Ok ((Some q, Some false, false), s)
  | NotDir => False
  end.
Proof.
  intros Hok Hlk Hp. apply path_good_spec in Hp as (Hns & Hcap & Hnd). destruct (root_used A Hok) as [o Ho].
  destruct (lk_objs _ _ _ Hlk _ _ Ho) as (r & ar & dr & nr & Hroot). pose proof (oa_map _ _ _ _ _ _ _ _ Hroot) as Hr.
  assert (Hrd : root_dentry (super s) = Some r) by (by rewrite (lk_root _ _ _ Hlk)).
  destruct ns as [|n0 ns0].
  { cbn. exists r, o, ar, dr, nr. split; [done|]. split; [done|]. apply newfs_lookup_root; [done|by eapply obj_cached]. }
  set (ns := n0 :: ns0) in *. assert (Hne : ns <> []) by done.
  pose proof (walk_lookup m s A ns Hok Hlk Hns Hne NEWFS_ROOT_INO r 0 (Z.of_nat (length ns)) None None Hr (root_used A Hok) eq_refl) as Hw.
  pose proof (resolve_spec A ns Hok) as Hres. unfold resolve in *.
  assert (Hl : forall q fnd, cached s q -> lookup_loop ns (Some r) 0 (Z.of_nat (length ns)) None None s = Ok ((Some q, fnd), s) ->
    newfs_lookup (path_of ns) s = Ok ((Some q, fnd, false), s)).
  { intros q fnd Hc Hq. change (path_of ns) with (pathname ns). eapply newfs_lookup_loop; try done. by apply good_names_ok. }
  destruct (walk A NEWFS_ROOT_INO ns) as [i|j|]; [| |done].
  - destruct Hres as [oi Hi], Hw as (q & Hq & Hw). destruct (lk_objs _ _ _ Hlk _ _ Hi) as (q' & a & d & nd & Hobj).
    assert (q' = q) as -> by (pose proof (oa_map _ _ _ _ _ _ _ _ Hobj); congruence). exists q, oi, a, d, nd.
    split; [done|]. split; [done|]. apply Hl; [by eapply obj_cached|done].
  - destruct Hres as [es Hi], Hw as (q & Hq & Hw). destruct (lk_objs _ _ _ Hlk _ _ Hi) as (q' & a & d & nd & Hobj).
    assert (q' = q) as -> by (pose proof (oa_map _ _ _ _ _ _ _ _ Hobj); congruence). exists q, es, a, d, nd.
    split; [done|]. split; [done|]. apply Hl; [by eapply obj_cached|done].
Qed.
End ops.
End NewfsRefine.
