(* ===== verification/NewfsRefineOps.v ===== *)
(** * The file system refines its specification: the operations

    Creation, attributes, listing, writing and reading against [NewfsSpec], one by
    one, and then every sequence of requests. *)

From S2P Require Import Prelude.
From S2P Require Import Memory.
From S2P Require Import NewfsDisk.
From S2P Require Import Newfs.
From S2P Require Import NewfsLookup.
From S2P Require Import NewfsAlloc.
From S2P Require Import NewfsThms.
From S2P Require Import NewfsFuse.
From S2P Require Import NewfsTree.
From S2P Require Import NewfsSpec.
From S2P Require Import NewfsRefine.

Module NewfsRefineOps.
Import Newfs NewfsLookup NewfsAlloc NewfsThms NewfsFuse NewfsTree NewfsSpec NewfsSpecThms NewfsRefine.

Lemma agrees_refl x : agrees x x.
Proof. by destruct x. Qed.

Section ops.
Context {D : Type} `{!Ddriver D} `{Platform} `{!PlatformOk}.
Implicit Types s : newfs D.

(** ** A new entry *)

(** Directories do not see a new entry. *)
Lemma entries_new h m l es a d k : h !! a = None -> (forall e, e ∈ es -> snd e <> k) ->
  Forall2 (entry_at h m) l es -> Forall2 (entry_at (<[a := d]> h) (<[k := a]> m)) l es.
Proof.
  intros Ha Hk Hl. induction Hl as [|x e l es [Hm (dx & Hx & Hf)] _ IH]; constructor.
  - split; [rewrite lookup_insert_ne; [done|]; intros ->; by apply (Hk e); [left|]|]. exists dx. rewrite lookup_insert_ne; [done|congruence].
  - apply IH. intros e' He'. apply Hk. by right.
Qed.

Lemma body_new h m nd o a d k : h !! a = None ->
  match o with ADir es => forall e, e ∈ es -> snd e <> k | AFile _ => True end ->
  body_ok h m nd o -> body_ok (<[a := d]> h) (<[k := a]> m) nd o.
Proof.
  intros Ha Hk. destruct o as [c|es]; [done|]. intros (Hcnt & Hsz & l & Hc & Hl). split; [done|]. split; [done|].
  exists l. split; [by apply chain_new|by apply entries_new].
Qed.

Lemma entries_below A i es e : fs_ok A -> objs A !! i = Some (ADir es) -> e ∈ es -> snd e <> next_ino A.
Proof. intros Hok Hi He. pose proof (proj2 (ok_entry A Hok i es e Hi He)). lia. Qed.

(** The inode of a number is that of no other. *)
Lemma obj_at_inj s m i i' o o' p p' a d d' nd nd' :
  obj_at s m i o p a d nd -> obj_at s m i' o' p' a d' nd' -> i = i'.
Proof. intros [? ? ? ? ? ? ? ? ?] [? ? ? ? ? ? ? ? ?]. congruence. Qed.

(** The state after a creation represents the file system with the new entry. *)
Lemma linked_create m s A j es n o p a d nd mi md brk' junk : fs_ok A -> linked m s A -> new_obj o ->
  objs A !! j = Some (ADir es) -> obj_at s m j (ADir es) p a d nd ->
  marks mi (next_ino A + 1) -> marks md (next_ino A) -> (S (S (brk s)) <= brk')%nat ->
  Z.of_nat (length junk) = FILE_MAX -> Forall (fun x => 0 <= x < 256) junk ->
  linked (<[next_ino A := brk s]> m)
    (Newfs (set_map_data md (set_map_inode mi (super s)))
       (<[brk s := Dentry (padded n) (type_of o) (Some p) (in_dentrys nd) (next_ino A) (Some (S (brk s))) 0]> (dentries s))
       (<[a := set_sizes (in_size nd + sizeof_dentry) (in_dir_cnt nd + 1) (set_dentrys (Some (brk s)) nd)]>
          (<[S (brk s) := Inode (next_ino A) 0 0 (Some (brk s)) None (fresh_data (type_of o) NEWFS_DATA_SIZE junk)]> (inodes s)))
       brk' (device s))
    (add_entry j n o A).
Proof.
  intros Hok Hlk Ho Hj Hobj Hmi Hmd Hbrk Hjl Hjb. rewrite (add_entry_eq j n o A es Hj).
  destruct (lk_heap _ _ _ Hlk) as [Hhd Hhi]. pose proof Hobj as [Hm Hd Ht Ha Hi Hat Hq Hn Hbody].
  assert (Hnew : dentries s !! brk s = None) by (apply eq_None_not_Some; intros Hs; apply Hhd in Hs; lia).
  assert (Hjr : 0 <= j < next_ino A) by (apply (ok_range A Hok); eauto).
  assert (Hap : (a < brk s)%nat) by (apply Hhi; eauto). assert (Hpp : (p < brk s)%nat) by (apply Hhd; eauto).
  split; cbn [super dentries inodes brk device objs next_ino disk].
  - apply (lk_mounted _ _ _ Hlk).
  - cbn. rewrite (lk_root _ _ _ Hlk), lookup_insert_ne; [done|]. pose proof (ok_next A Hok). unfold NEWFS_ROOT_INO. lia.
  - split; intros x Hx; cbn [dentries inodes brk] in *.
    + destruct (decide (x = brk s)) as [->|]; [lia|]. rewrite lookup_insert_ne in Hx by done. apply Hhd in Hx. lia.
    + destruct (decide (x = a)) as [->|]; [lia|]. rewrite lookup_insert_ne in Hx by done.
      destruct (decide (x = S (brk s))) as [->|]; [lia|]. rewrite lookup_insert_ne in Hx by done. apply Hhi in Hx. lia.
  - apply (lk_block _ _ _ Hlk).
  - apply (lk_max _ _ _ Hlk).
  - apply (lk_disk _ _ _ Hlk).
  - split; [apply (lk_imap _ _ _ Hlk)|done].
  - split; [apply (lk_dmap _ _ _ Hlk)|]. by replace (next_ino A + 1 - 1) with (next_ino A) by lia.
  - intros i oi Hoi. destruct (decide (i = next_ino A)) as [->|Hne].
    { rewrite lookup_insert_eq in Hoi. injection Hoi as <-.
      exists (brk s), (S (brk s)), (Dentry (padded n) (type_of o) (Some p) (in_dentrys nd) (next_ino A) (Some (S (brk s))) 0),
        (Inode (next_ino A) 0 0 (Some (brk s)) None (fresh_data (type_of o) NEWFS_DATA_SIZE junk)).
      split; cbn [dentries inodes]; rewrite ?lookup_insert_eq; try done; [rewrite lookup_insert_ne by lia; by rewrite lookup_insert_eq|].
      destruct Ho as [-> | ->]; cbn -[lookup]; split_and!; try done; [by exists junk|]. exists []. split; [done|constructor]. }
    rewrite lookup_insert_ne in Hoi by done. destruct (decide (i = j)) as [->|Hij].
    { rewrite lookup_insert_eq in Hoi. injection Hoi as <-. eexists p, a, d, _.
      split; cbn [dentries inodes]; rewrite ?lookup_insert_eq, ?lookup_insert_ne by lia; try done.
      destruct Hbody as (Hcnt & Hsz & l & Hc & Hl).
      split; [cbn [in_dir_cnt set_sizes length]; rewrite Hcnt; lia|]. split; [cbn [in_size set_sizes length]; rewrite Hsz; lia|].
      destruct (chain_new _ (brk s) (Dentry (padded n) (type_of o) (Some p) (in_dentrys nd) (next_ino A) (Some (S (brk s))) 0) _ _ Hnew Hc) as [Hc' Hnl].
      exists (brk s :: l). split.
      - cbn. split; [done|]. split; [done|]. eexists. rewrite lookup_insert_eq. split; [done|exact Hc'].
      - constructor; [split; [by rewrite lookup_insert_eq|]; eexists; by rewrite lookup_insert_eq|].
        apply entries_new; [done| |done]. intros e He. by eapply entries_below. }
    rewrite lookup_insert_ne in Hoi by done. destruct (lk_objs _ _ _ Hlk _ _ Hoi) as (p' & a' & d' & nd' & Hobj').
    exists p', a', d', nd'. pose proof Hobj' as [Hm' Hd' Ht' Ha' Hi' Hat' Hq' Hn' Hbody'].
    assert (a' <> a) by (intros ->; apply Hij; by eapply obj_at_inj).
    assert (p' < brk s)%nat by (apply Hhd; eauto). assert (a' < brk s)%nat by (apply Hhi; eauto).
    split; cbn [dentries inodes]; rewrite ?lookup_insert_ne by (done || lia); try done.
    apply body_new; [done| |done]. destruct oi; [done|]. intros e He. by eapply entries_below.
Qed.
(** A missing path below a directory is created there. *)
Lemma new_entry_refines m s A ns o j : fs_ok A -> linked m s A -> path_good A ns = true -> room A ns = true ->
  new_obj o -> resolve A ns = Missing j ->
  exists q es a d nd s', objs A !! j = Some (ADir es) /\ obj_at s m j (ADir es) q a d nd /\
    newfs_lookup (path_of ns) s = Ok ((Some q, Some false, false), s) /\
    new_entry (path_of ns) (type_of o) (Some q) s = Ok (NEWFS_ERROR_NONE, s') /\
    refines s' (snd (create ns o A)) /\ frame s' = frame s.
Proof.
  intros Hok Hlk Hp Hr Ho Hres. pose proof (lookup_refines m s A ns Hok Hlk Hp) as Hl. rewrite Hres in Hl.
  destruct Hl as (q & es & a & d & nd & Hj & Hobj & Hlook).
  destruct (room_missing A ns j Hok Hp Hr Hres) as (ns' & n & es' & Ens & Hn & Hfit & _ & Hj' & Hnext & Hlen).
  assert (es' = es) as -> by congruence. pose proof Hobj as [Hm Hd Ht Ha Hi Hat Hq Hnum (Hcnt & Hsz & _)].
  destruct (lk_imap _ _ _ Hlk) as [Hib Him]. destruct (lk_dmap _ _ _ Hlk) as [Hdb Hdm].
  destruct (lk_max _ _ _ Hlk) as [Hmi Hmd]. pose proof (next_limit A Hok) as Hpos.
  destruct (max_files_fit _ _ Hnext) as [Hnum' _].
  destruct (find_free_marks _ _ Him) as (mi & Efi & Hmi'); [unfold NEWFS_INODE_NUM, NEWFS_DATA_SIZE in *; lia|].
  destruct (find_free_marks _ _ Hdm) as (md & Efd & Hmd'); [unfold NEWFS_INODE_NUM, NEWFS_DATA_SIZE in *; lia|].
  replace (next_ino A - 1 + 1) with (next_ino A) in Hmd' by lia.
  assert (Hpath : path_of ns = pathname (ns' ++ [n])) by (rewrite Ens; by destruct ns').
  destruct (new_entry_eq s q d a nd (next_ino A) mi (next_ino A - 1) md ns' n (type_of o))
    as (brk' & junk & Hbrk & Hjunk & E); rewrite ?(lk_block _ _ _ Hlk), ?Hib, ?Hdb, ?Hmi, ?Hmd; try done.
  { apply (lk_heap _ _ _ Hlk). }
  { rewrite Hsz. unfold MAX_ENTRIES, sizeof_dentry in *. lia. }
  { lia. }
  { unfold NEWFS_INODE_NUM, NEWFS_DATA_NUM in *. lia. }
  rewrite (lk_block _ _ _ Hlk) in Hjunk, E.
  exists q, es, a, d, nd. eexists. split; [done|]. split; [done|]. split; [done|]. split; [rewrite Hpath; exact E|]. split; [|done].
  unfold create. rewrite Hres. cbn [snd]. rewrite Ens, last_snoc. split; [by eapply add_entry_ok|].
  exists (<[next_ino A := brk s]> m). eapply linked_create; try done; rewrite Hjunk; [|apply heap_junk_bytes].
  by rewrite heap_junk_length.
Qed.

Definition step_ok s (A : fs) (r : request) : Prop :=
  exists x s', handle r s = Ok (x, s') /\ agrees x (fst (spec_handle r A)) /\
    refines s' (snd (spec_handle r A)) /\ frame s' = frame s.

Lemma mkdir_refines s A ns : refines s A -> allowed (Mkdir ns) A = true -> step_ok s A (Mkdir ns).
Proof.
  intros [Hok [m Hlk]] [Hp Hr]%andb_true_iff. pose proof (lookup_refines m s A ns Hok Hlk Hp) as Hl.
  unfold step_ok. cbn [handle spec_handle call operations op_mkdir]. unfold newfs_mkdir.
  destruct (resolve A ns) as [i|j|] eqn:Hres; [| |done].
  - destruct Hl as (q & o & a & d & nd & _ & _ & Hlook). exists (RInt (- NEWFS_ERROR_EXISTS)), s.
    unfold create. rewrite Hres. rewrite bind_assoc. erewrite bind_step by exact Hlook. split; [done|]. split; [done|]. split; [by split; [|exists m]|done].
  - clear Hl. destruct (new_entry_refines m s A ns (ADir []) j Hok Hlk Hp Hr ltac:(by right) Hres)
      as (q & es & a & d & nd & s' & _ & Hobj & Hlook & E & Href & Hf). destruct Hobj as [_ Hd Ht Ha _ Hi Hq _ _].
    exists (RInt NEWFS_ERROR_NONE), s'. split; [|split; [unfold create; by rewrite Hres|done]].
    rewrite bind_assoc. erewrite bind_step by exact Hlook. cbn beta iota. rewrite bind_assoc. cbn [read_var]. rewrite bind_ret. cbn match.
    rewrite bind_assoc. erewrite bind_step by (by apply dentry_at_Some). rewrite Ha.
    rewrite bind_assoc. erewrite bind_step by (by eapply IS_REG_ok). rewrite Ht. by erewrite bind_step by exact E.
Qed.

Lemma mknod_refines s A ns mode : refines s A -> allowed (Mknod ns mode) A = true -> step_ok s A (Mknod ns mode).
Proof.
  intros [Hok [m Hlk]] [[Hp Hr]%andb_true_iff Hmode]%andb_true_iff. pose proof (lookup_refines m s A ns Hok Hlk Hp) as Hl.
  unfold step_ok. cbn [handle spec_handle call operations op_mknod]. unfold newfs_mknod. set (o := if S_ISREG mode then _ else _).
  destruct (resolve A ns) as [i|j|] eqn:Hres; [| |done].
  - destruct Hl as (q & o' & a & d & nd & _ & _ & Hlook). exists (RInt (- NEWFS_ERROR_EXISTS)), s.
    unfold create. rewrite Hres. rewrite bind_assoc. erewrite bind_step by exact Hlook. split; [done|]. split; [done|]. split; [by split; [|exists m]|done].
  - clear Hl. assert (Ho : new_obj o) by (unfold o; destruct (S_ISREG mode); [by left|by right]).
    destruct (new_entry_refines m s A ns o j Hok Hlk Hp Hr Ho Hres)
      as (q & es & a & d & nd & s' & _ & Hobj & Hlook & E & Href & Hf).
    exists (RInt NEWFS_ERROR_NONE), s'. split; [|split; [unfold create; by rewrite Hres|done]].
    rewrite bind_assoc. erewrite bind_step by exact Hlook. cbn beta iota. rewrite bind_assoc. cbn [read_var]. rewrite bind_ret. cbn match.
    unfold o in E. destruct (S_ISREG mode); [by erewrite bind_step by exact E|]. cbn in Hmode. rewrite Hmode.
    by erewrite bind_step by exact E.
Qed.

(** ** Looking at an object *)

(** A request that changes nothing. *)
Lemma step_same s A r x : refines s A -> handle r s = Ok (x, s) -> agrees x (fst (spec_handle r A)) ->
  snd (spec_handle r A) = A -> step_ok s A r.
Proof. intros Href E Ha Hs. exists x, s. rewrite Hs. done. Qed.

Lemma step_eq s A r x : refines s A -> spec_handle r A = (x, A) -> handle r s = Ok (x, s) -> step_ok s A r.
Proof. intros Href Hs E. eapply step_same; [done|exact E|rewrite Hs; apply agrees_refl|by rewrite Hs]. Qed.

Lemma getattr_refines s A c ns st : refines s A -> allowed (Getattr c ns st) A = true -> step_ok s A (Getattr c ns st).
Proof.
  intros Href Hp. pose proof Href as [Hok [m Hlk]]. cbn [allowed] in Hp. pose proof (lookup_refines m s A ns Hok Hlk Hp) as Hl.
  destruct (resolve A ns) as [i|j|] eqn:Hres; [| |done].
  - destruct Hl as (q & o & a & d & nd & Ho & [_ Hd Ht Ha _ Hi Hq _ Hb] & Hlook).
    eapply step_eq; [done|cbn [spec_handle]; by rewrite Hres, Ho|].
    cbn [handle call operations op_getattr fst]. unfold newfs_getattr. rewrite bind_assoc. erewrite bind_step by exact Hlook.
    cbn beta iota. rewrite bind_assoc. cbn [read_var]. rewrite bind_ret. cbn [negb].
    rewrite bind_assoc. erewrite bind_step by (by apply dentry_at_Some). rewrite Ha.
    rewrite bind_assoc. erewrite bind_step by (by eapply ftype_of_ok). rewrite Ht.
    rewrite bind_assoc. erewrite bind_step by (by apply inode_at_Some). unfold get_super. rewrite bind_assoc, bind_gets. cbv zeta.
    rewrite (lk_block _ _ _ Hlk). destruct (lk_disk _ _ _ Hlk) as [-> ->]. unfold stat_of.
    destruct o as [b|es]; cbn [type_of body_ok] in *.
    + change (NEWFS_FILE =? NEWFS_DIR) with false. change (NEWFS_FILE =? NEWFS_FILE) with true. cbn match.
      destruct Hb as (_ & _ & -> & _). by destruct (is_root ns).
    + change (NEWFS_DIR =? NEWFS_DIR) with true. cbn match. destruct Hb as (-> & _). by destruct (is_root ns).
  - destruct Hl as (q & es & a & d & nd & _ & _ & Hlook). eapply step_eq; [done|cbn [spec_handle]; by rewrite Hres|].
    cbn [handle call operations op_getattr fst]. unfold newfs_getattr. rewrite bind_assoc. by erewrite bind_step by exact Hlook.
Qed.

Lemma cstr_name n : name_fits n -> cstr (padded n) = Some n.
Proof.
  intros (Hz & Hl & _). unfold padded. replace (128 - length n)%nat with (S (127 - length n)) by lia. cbn [repeat].
  generalize (repeat 0 (127 - length n)). intros rest. clear Hl. induction n as [|c n IH]; [done|]. cbn.
  apply not_elem_of_cons in Hz as [Hc Hz]. destruct (Z.eqb_spec c 0); [lia|]. by rewrite IH.
Qed.

Lemma readdir_refines s A ns off : refines s A -> allowed (Readdir ns off) A = true -> step_ok s A (Readdir ns off).
Proof.
  intros Href [[Hp Ho1%Z.leb_le]%andb_true_iff Ho2%Z.ltb_lt]%andb_true_iff. pose proof Href as [Hok [m Hlk]].
  pose proof (lookup_refines m s A ns Hok Hlk Hp) as Hl.
  destruct (resolve A ns) as [i|j|] eqn:Hres; [| |done].
  - destruct Hl as (q & o & a & d & nd & Ho & [_ Hd Ht Ha _ Hi Hq _ Hb] & Hlook).
    assert (Hrun : forall p l, in_dentrys nd = p -> chain (dentries s) p l ->
      handle (Readdir ns off) s = (sub ← (fun s => Ok (l !! Z.to_nat off, s));
        match sub with
        | None => mret (NEWFS_ERROR_NONE, None)
        | Some _ => e ← dentry_at sub;
            match cstr (de_fname e) with None => null "fname" | Some name => mret (NEWFS_ERROR_NONE, Some (name, off + 1)) end
        end ≫= fun x => mret (RFill (fst x) (snd x))) s).
    { intros p l <- Hc. cbn [handle call operations op_readdir]. unfold newfs_readdir. cbv zeta. rewrite bind_assoc.
      erewrite bind_step by exact Hlook. cbn beta iota. rewrite bind_assoc. cbn [read_var]. rewrite bind_ret. cbn [negb].
      rewrite bind_assoc. erewrite bind_step by (by apply dentry_at_Some). rewrite Ha. rewrite bind_assoc.
      erewrite (bind_step _ _ s (l !! Z.to_nat off) s); [done|].
      unfold newfs_get_dentry. erewrite bind_step by (by apply inode_at_Some). rewrite bind_gets. rewrite s32_small by lia.
      rewrite (get_dentry_loop_ok s l _ _ off 0); [by rewrite Z.sub_0_r|by eapply chain_length|exact Hc|lia]. }
    destruct o as [b|es].
    + destruct Hb as (Hnone & _). eapply step_eq; [done|cbn [spec_handle]; by rewrite Hres, Ho|].
      rewrite (Hrun None []); [|done|done]. reflexivity.
    + destruct Hb as (_ & _ & l & Hc & Hl). assert (Hfits := entries_fit A i es Hok Ho).
      pose proof (Hrun _ l eq_refl Hc) as E. destruct (l !! Z.to_nat off) as [x|] eqn:Ex.
      * destruct (Forall2_lookup_l _ _ _ _ _ Hl Ex) as (e & He & _ & dx & Hx & Hfx).
        eapply step_eq; [done|cbn [spec_handle]; by rewrite Hres, Ho, He|]. rewrite E.
        cbn -[dentry_at]. erewrite bind_step by reflexivity. cbn match. rewrite bind_assoc. erewrite bind_step by (by apply dentry_at_Some). rewrite Hfx, cstr_name; [done|].
        by apply (Forall_lookup_1 _ _ _ _ Hfits He).
      * assert (He : es !! Z.to_nat off = None) by (apply lookup_ge_None; rewrite <- (Forall2_length _ _ _ Hl); by apply lookup_ge_None).
        eapply step_eq; [done|cbn [spec_handle]; by rewrite Hres, Ho, He|]. by rewrite E.
  - destruct Hl as (q & es & a & d & nd & _ & _ & Hlook). eapply step_eq; [done|cbn [spec_handle]; by rewrite Hres|].
    cbn [handle call operations op_readdir]. unfold newfs_readdir. cbv zeta. rewrite bind_assoc. by erewrite bind_step by exact Hlook.
Qed.
(** ** Reading and writing *)

(** The guards of [newfs_write] and [newfs_read]. *)
Lemma open_refines m s A ns off : fs_ok A -> linked m s A -> path_good A ns = true ->
  match resolve A ns with
  | Found i =>
      match objs A !! i with
      | Some (AFile b) => exists q a d nd, obj_at s m i (AFile b) q a d nd /\
          open_file (path_of ns) off s =
            Ok (if Z.of_nat (length b) <? off then inl (- NEWFS_ERROR_SEEK) else inr (Some a, nd), s)
      | _ => open_file (path_of ns) off s = Ok (inl (- NEWFS_ERROR_ISDIR), s)
      end
  | _ => open_file (path_of ns) off s = Ok (inl (- NEWFS_ERROR_NOTFOUND), s)
  end.
Proof.
  intros Hok Hlk Hp. pose proof (lookup_refines m s A ns Hok Hlk Hp) as Hl.
  destruct (resolve A ns) as [i|j|]; [| |done].
  - destruct Hl as (q & o & a & d & nd & Ho & Hobj & Hlook). rewrite Ho. pose proof Hobj as [_ Hd Ht Ha _ Hi Hq _ Hb].
    assert (E : open_file (path_of ns) off s =
      Ok (if de_ftype d =? NEWFS_DIR then inl (- NEWFS_ERROR_ISDIR) else if in_size nd <? off then inl (- NEWFS_ERROR_SEEK) else inr (Some a, nd), s)).
    { unfold open_file. erewrite bind_step by exact Hlook. cbn beta iota. cbn [read_var]. rewrite bind_ret. cbn [negb].
      erewrite bind_step by (by apply dentry_at_Some). rewrite Ha. erewrite bind_step by (by eapply IS_DIR_ok).
      destruct (de_ftype d =? NEWFS_DIR); [done|]. erewrite bind_step by (by apply inode_at_Some). by destruct (in_size nd <? off). }
    rewrite E, Ht. clear E. destruct o as [b|es]; [|done]. exists q, a, d, nd. split; [done|].
    destruct Hb as (_ & _ & -> & _). done.
  - destruct Hl as (q & es & a & d & nd & _ & _ & Hlook). unfold open_file. by erewrite bind_step by exact Hlook.
Qed.

Lemma take_overwrite o buf c b : take (length c) b = c -> (o <= length c)%nat -> (length c <= length b)%nat ->
  (o + length buf <= length b)%nat -> take (length (overwrite o buf c)) (overwrite o buf b) = overwrite o buf c.
Proof.
  intros Hc Ho Hl Hf. rewrite length_overwrite by done. rewrite <- Hc at 2. unfold overwrite. rewrite take_take, Nat.min_l by done.
  assert (Ht : length (take o b) = o) by (rewrite length_take; lia).
  rewrite take_app, Ht, (take_ge (take o b)) by lia. f_equal.
  rewrite take_app, length_map, (take_ge (map u8 buf)) by (rewrite length_map; lia). f_equal.
  rewrite skipn_firstn_comm. f_equal. lia.
Qed.

(** New contents of a file. *)
Lemma linked_write m s A i c b c' b' p a d nd : linked m s A -> objs A !! i = Some (AFile c) ->
  obj_at s m i (AFile c) p a d nd -> in_data nd = Some b ->
  take (length c') b' = c' -> Z.of_nat (length b') = FILE_MAX -> Forall (fun x => 0 <= x < 256) b' ->
  linked m (with_content s a nd (Z.of_nat (length c')) b') (Fs (<[i := AFile c']> (objs A)) (next_ino A) (disk A)).
Proof.
  intros Hlk Ho Hobj Hb Hc' Hl' Hb'. destruct (lk_heap _ _ _ Hlk) as [Hhd Hhi]. pose proof Hobj as [Hm Hd Ht Ha Hi Hat Hq Hn Hbody].
  unfold with_content. split; cbn [super dentries inodes brk device objs next_ino disk]; try apply Hlk.
  - split; [done|]. intros x Hx. cbn [inodes brk] in *. destruct (decide (x = a)) as [->|]; [apply Hhi; eauto|].
    rewrite lookup_insert_ne in Hx by done. by apply Hhi.
  - intros j o Hj. apply lookup_insert_Some in Hj as [[<- <-]|[Hne Hj]].
    + exists p, a, d, (set_content (Z.of_nat (length c')) b' nd). split; cbn [dentries inodes]; try done; [by rewrite lookup_insert_eq|].
      destruct Hbody as (? & ? & _). cbn. split_and!; try done. by exists b'.
    + destruct (lk_objs _ _ _ Hlk _ _ Hj) as (p' & a' & d' & nd' & Hobj'). exists p', a', d', nd'.
      assert (a' <> a) by (intros ->; apply Hne; symmetry; by eapply obj_at_inj).
      destruct Hobj'. split; try done. cbn [inodes]. by rewrite lookup_insert_ne.
Qed.

Lemma write_refines s A ns buf off : refines s A -> allowed (Write ns buf off) A = true -> step_ok s A (Write ns buf off).
Proof.
  intros Href Hal. pose proof (spec_handle_ok _ _ (proj1 Href) Hal) as Hok'.
  apply andb_true_iff in Hal as [Hp Hin]. pose proof Href as [Hok [m Hlk]].
  pose proof (open_refines m s A ns off Hok Hlk Hp) as Hopen. unfold inside in Hin. cbn [spec_handle] in Hok'.
  assert (Herr : forall e, open_file (path_of ns) off s = Ok (inl e, s) -> handle (Write ns buf off) s = Ok (RInt e, s)).
  { intros e E. cbn [handle call operations op_write]. unfold newfs_write. rewrite bind_assoc. by erewrite bind_step by exact E. }
  destruct (resolve A ns) as [i|j|] eqn:Hres; [|eapply step_eq; [done|cbn [spec_handle]; by rewrite Hres|by apply Herr]..].
  destruct (objs A !! i) as [[c|es]|] eqn:Ho; [|eapply step_eq; [done|cbn [spec_handle]; by rewrite Hres, Ho|by apply Herr]..].
  destruct Hopen as (q & a & d & nd & Hobj & E). destruct (Z.ltb_spec (Z.of_nat (length c)) off) as [Hlt|Hge].
  { eapply step_eq; [done|cbn [spec_handle]; rewrite Hres, Ho; by destruct (Z.ltb_spec (Z.of_nat (length c)) off); [|lia]|by apply Herr]. }
  cbn [orb] in Hin. bool_to_prop. pose proof (oa_body _ _ _ _ _ _ _ _ Hobj) as (_ & _ & Hsz & b & Hb & Hc & Hl & Hby).
  destruct (ok_file A Hok i c Ho) as [Hlc _]. set (o := Z.to_nat off) in *.
  assert (Hcl : (length c <= length b)%nat) by lia.
  assert (Hlen : length (overwrite o buf c) = Nat.max (length c) (o + length buf)) by (apply length_overwrite; lia).
  set (s' := with_content s a nd (Z.of_nat (length (overwrite o buf c))) (overwrite o buf b)).
  exists (RInt (Z.of_nat (length buf))), s'. cbn [spec_handle]. rewrite Hres, Ho. destruct (Z.ltb_spec (Z.of_nat (length c)) off); [lia|].
  split; [|split; [done|split; [split; [done|]; exists m; eapply linked_write; try done|done]]].
  - cbn [handle call operations op_write]. unfold newfs_write. rewrite bind_assoc. erewrite bind_step by exact E. cbn beta iota.
    rewrite Hb. destruct (Z.ltb_spec off 0); [lia|]. destruct (Z.ltb_spec (Z.of_nat (length b)) (off + Z.of_nat (length buf))); [lia|]. cbn [orb].
    rewrite bind_assoc. erewrite bind_step by (apply upd_inode_ok, (oa_at _ _ _ _ _ _ _ _ Hobj)). rewrite bind_ret.
    rewrite s32_small by (unfold FILE_MAX, NEWFS_DATA_PER_FILE, NEWFS_DATA_SIZE in *; lia). 
    assert (Hmax : (if in_size nd <? off + Z.of_nat (length buf) then off + Z.of_nat (length buf) else in_size nd) =
      Z.of_nat (length (overwrite o buf c))) by (rewrite Hsz, Hlen; destruct (Z.ltb_spec (Z.of_nat (length c)) (off + Z.of_nat (length buf))); lia).
    by rewrite Hmax.
  - apply take_overwrite; lia || done.
  - rewrite length_overwrite by lia. lia.
  - by apply overwrite_bytes.
Qed.

Lemma read_refines s A ns size off : refines s A -> allowed (Read ns size off) A = true -> step_ok s A (Read ns size off).
Proof.
  intros Href [Hp Hin]%andb_true_iff. pose proof Href as [Hok [m Hlk]].
  pose proof (open_refines m s A ns off Hok Hlk Hp) as Hopen. unfold inside in Hin.
  assert (Herr : forall e, open_file (path_of ns) off s = Ok (inl e, s) -> handle (Read ns size off) s = Ok (RData e [], s)).
  { intros e E. cbn [handle call operations op_read]. unfold newfs_read. rewrite bind_assoc. by erewrite bind_step by exact E. }
  destruct (resolve A ns) as [i|j|] eqn:Hres; [|eapply step_eq; [done|cbn [spec_handle]; by rewrite Hres|by apply Herr]..].
  destruct (objs A !! i) as [[c|es]|] eqn:Ho; [|eapply step_eq; [done|cbn [spec_handle]; by rewrite Hres, Ho|by apply Herr]..].
  destruct Hopen as (q & a & d & nd & Hobj & E). destruct (Z.ltb_spec (Z.of_nat (length c)) off) as [Hlt|Hge].
  { eapply step_eq; [done|cbn [spec_handle]; rewrite Hres, Ho; by destruct (Z.ltb_spec (Z.of_nat (length c)) off); [|lia]|by apply Herr]. }
  cbn [orb] in Hin. bool_to_prop. pose proof (oa_body _ _ _ _ _ _ _ _ Hobj) as (_ & _ & Hsz & b & Hb & Hc & Hl & Hby).
  eapply (step_same _ _ _ (RData size (take (Z.to_nat size) (drop (Z.to_nat off) b)))); [done| | |].
  - cbn [handle call operations op_read]. unfold newfs_read. rewrite bind_assoc. erewrite bind_step by exact E. cbn beta iota.
    rewrite Hb. destruct (Z.ltb_spec off 0); [lia|]. destruct (Z.ltb_spec (Z.of_nat (length b)) (off + size)); [lia|]. cbn [orb].
    rewrite bind_ret. rewrite s32_small by (unfold FILE_MAX, NEWFS_DATA_PER_FILE, NEWFS_DATA_SIZE in *; lia). done.
  - cbn [spec_handle]. rewrite Hres, Ho. destruct (Z.ltb_spec (Z.of_nat (length c)) off); [lia|]. split; [done|].
    rewrite <- Hc. rewrite skipn_firstn_comm, take_take. destruct (decide (Z.to_nat size <= length c - Z.to_nat off)%nat).
    + by rewrite Nat.min_l by done.
    + rewrite Nat.min_r by lia. rewrite <- (take_drop (length c - Z.to_nat off) (take (Z.to_nat size) _)), take_take, Nat.min_l by lia.
      by apply prefix_app_r.
  - cbn [spec_handle]. rewrite Hres, Ho. by destruct (_ <? _).
Qed.

(** ** Every sequence of requests *)

Lemma handle_refines s A r : refines s A -> allowed r A = true -> step_ok s A r.
Proof.
  intros Href Hal. destruct r; try (by eapply step_eq; [done|reflexivity|reflexivity]).
  - by apply mkdir_refines.
  - by apply mknod_refines.
  - by apply getattr_refines.
  - by apply readdir_refines.
  - by apply write_refines.
  - by apply read_refines.
Qed.

Lemma handle_all_refines l : forall s A, refines s A -> allowed_all l A = true ->
  exists xs s', handle_all l s = Ok (xs, s') /\ Forall2 agrees xs (fst (spec_all l A)) /\
    refines s' (snd (spec_all l A)) /\ frame s' = frame s.
Proof.
  induction l as [|r l IH]; intros s A Href Hal; [by exists [], s|]. cbn [allowed_all] in Hal. apply andb_true_iff in Hal as [Hr Hl].
  destruct (handle_refines s A r Href Hr) as (x & s1 & E1 & Ha & Href1 & Hf1).
  destruct (IH _ _ Href1 Hl) as (xs & s2 & E2 & Hxs & Href2 & Hf2). exists (x :: xs), s2. cbn [handle_all spec_all].
  rewrite (bind_step _ _ _ _ _ E1), (bind_step _ _ _ _ _ E2). destruct (spec_handle r A) as [y A1]. cbn [fst snd] in *.
  destruct (spec_all l A1) as [ys A2]. cbn [fst snd] in *. split; [done|]. split; [by constructor|]. split; [done|congruence].
Qed.
End ops.
End NewfsRefineOps.
