(* ===== verification/NewfsSession.v ===== *)
(** * The file system: sessions

    Formatting: on a blank device [newfs_init] leaves a heap that represents the empty
    file system. Every represented state of a session is a tree that
    [newfs_destroy] can save. *)

From S2P Require Import Prelude.
From S2P Require Import Memory.
From S2P Require Import NewfsDisk.
From S2P Require Import NewfsDiskThms.
From S2P Require Import Newfs.
From S2P Require Import NewfsLookup.
From S2P Require Import NewfsAlloc.
From S2P Require Import NewfsThms.
From S2P Require Import NewfsTree.
From S2P Require Import NewfsRemount.
From S2P Require Import NewfsFuse.
From S2P Require Import NewfsSpec.
From S2P Require Import NewfsRefine.
From S2P Require Import NewfsRefineOps.

Module NewfsFormat.
Import NewfsDiskThms Newfs NewfsLookup NewfsAlloc NewfsThms NewfsTree NewfsFuse NewfsSpec NewfsSpecThms NewfsRefine.

(** Nothing is marked in a bitmap of zeros. *)
Lemma marks_zeros : marks (repeat 0 (Z.to_nat NEWFS_DATA_SIZE)) 0.
Proof.
  split; [by rewrite repeat_length|]. split.
  - apply Forall_forall. intros x Hx%list_elem_of_In%repeat_spec. lia.
  - intros j Hj. destruct (Z.ltb_spec j 0); [lia|]. unfold used.
    assert (Hn : nth (Z.to_nat (j / 8)) (repeat 0 (Z.to_nat NEWFS_DATA_SIZE)) 0 = 0) by apply nth_repeat.
    by rewrite Hn, Z.testbit_0_l.
Qed.

(** The program when it starts: its globals are zero and nothing is allocated. *)
Definition boot {D} (d : D) : newfs D :=
  Newfs (Super 0 0 0 0 0 [] 0 0 [] 0 0 0 0 false None) ∅ ∅ 0 d.

Section format.
Context {D : Type} `{!Ddriver D} `{!DdriverOk D} `{Platform}.
Implicit Types s : newfs D.

(** A device that can hold a file system and has none, with clear bitmaps. *)
Record blank (d : D) : Prop := {
  bl_magic : sd_magic_num (dec_super_d (dbytes d NEWFS_SUPER_OFS 52)) <> NEWFS_MAGIC_NUM;
  bl_imap : dbytes d NEWFS_MAP_INODE_OFS (Z.to_nat NEWFS_DATA_SIZE) = repeat 0 (Z.to_nat NEWFS_DATA_SIZE);
  bl_dmap : dbytes d NEWFS_MAP_DATA_OFS (Z.to_nat NEWFS_DATA_SIZE) = repeat 0 (Z.to_nat NEWFS_DATA_SIZE);
  bl_whole : whole_blocks d;
  bl_block : NEWFS_BLKS_SZ (ddriver_io_sz d) = NEWFS_DATA_SIZE;
  bl_size : NEWFS_DA_OFS 1 <= ddriver_size d;
}.

(** Reading the inode of an empty directory. *)
Lemma read_empty_dir s q d ino size :
  dentries s !! q = Some d -> de_ftype d = NEWFS_DIR -> geometry s -> 0 <= ino < NEWFS_INODE_NUM ->
  dec_inode_d (dbytes (device s) (NEWFS_INO_OFS ino) 32) = InodeD ino size NEWFS_DIR 0 ->
  NEWFS_DA_OFS (ino + 1) <= ddriver_size (device s) ->
  wp (newfs_read_inode (Some q) ino) s (fun r s' => r = Some (brk s) /\ exists d', same_disk (device s) d' /\
    s' = Newfs (super s) (dentries s) (<[brk s := Inode ino size 0 (Some q) None None]> (inodes s)) (S (brk s)) d').
Proof.
  intros Hd Ht Hg Hino Hrec Hend.
  assert (Hofs : 0 <= NEWFS_INO_OFS ino /\ NEWFS_INO_OFS ino + sizeof_inode_d <= NEWFS_DA_OFS (ino + 1)).
  { unfold NEWFS_INO_OFS, NEWFS_DA_OFS, sizeof_inode_d, NEWFS_INODE_OFS, NEWFS_INODE_SIZE, NEWFS_DATA_OFS,
      NEWFS_DATA_PER_FILE, NEWFS_DATA_SIZE, NEWFS_INODE_NUM in *. lia. }
  unfold newfs_read_inode. apply wp_bind. eapply wp_mono; [apply driver_read_ok; [done|lia|done|lia]|]. cbn beta.
  intros bs s1 (-> & d1 & -> & Hd1). change (Z.to_nat sizeof_inode_d) with 32%nat. cbv zeta. rewrite Hrec. cbn [id_ino id_size id_dir_cnt].
  eapply wp_bind_Ok; [reflexivity|]. cbn [super dentries inodes brk device with_device].
  eapply wp_bind_Ok; [eapply ftype_of_ok; cbn [dentries inodes]; [apply lookup_insert_eq|reflexivity|exact Hd]|]. rewrite Ht.
  change (NEWFS_DIR =? NEWFS_DIR) with true. cbn match. change (Z.to_nat 0) with 0%nat. cbn [read_dentrys].
  apply wp_bind, wp_ret, wp_ret. split; [done|]. by exists d1.
Qed.

(** What [newfs_init] does before it makes the root: the bitmaps are read. *)
Lemma init_reads d fd : blank d -> 0 <= fd ->
  exists s d', same_disk d d' /\ geometry s /\ device s = d' /\
    s = Newfs (Super (ddriver_io_sz d) (ddriver_size d) 0 NEWFS_INODE_NUM NEWFS_DATA_NUM
                (repeat 0 (Z.to_nat NEWFS_DATA_SIZE)) NEWFS_MAP_INODE_BLOCKS NEWFS_MAP_INODE_OFS
                (repeat 0 (Z.to_nat NEWFS_DATA_SIZE)) NEWFS_MAP_DATA_BLOCKS NEWFS_MAP_DATA_OFS 0 0 false None)
          {[ 0%nat := Dentry (padded [slash]) NEWFS_DIR None None (-1) None 0 ]} ∅ 3 d' /\
    forall (Q : Z -> newfs D -> Prop),
      wp ((newfs_alloc_inode (Some 0%nat) ≫= fun ip => sync_fuel ≫= fun n => newfs_sync_inode n ip) ≫= fun _ =>
          newfs_read_inode (Some 0%nat) 0 ≫= fun ip => upd_dentry (Some 0%nat) (set_inode ip) ≫= fun _ =>
          upd_super (set_root (Some 0%nat)) ≫= fun _ => mret 0) s Q ->
      wp (newfs_init fd) (boot d) Q.
Proof.
  intros [Hmagic Hmi Hmd Hw HB Hsize] Hfd. change (NEWFS_DA_OFS 1) with 138240 in Hsize.
  set (root := Dentry (padded [slash]) NEWFS_DIR None None (-1) None 0).
  set (sb0 := Super (ddriver_io_sz d) (ddriver_size d) 0 0 0 [] 0 0 [] 0 0 0 0 false None).
  set (s1 := Newfs sb0 {[ 0%nat := root ]} ∅ 1 d).
  assert (Hg1 : geometry s1) by (split; [done|exact Hw]).
  destruct (wp_elim _ _ _ (driver_read_ok s1 NEWFS_SUPER_OFS sizeof_super_d Hg1 ltac:(done) ltac:(done)
    ltac:(change (NEWFS_SUPER_OFS + sizeof_super_d) with 52; cbn [device s1]; lia))) as (bs & s2 & E2 & -> & d2 & -> & Hd2).
  cbn [device s1] in Hd2, E2. pose proof Hd2 as (Hby2 & Hs2 & Hio2). change (Z.to_nat sizeof_super_d) with 52%nat in E2.
  set (sb3 := set_max NEWFS_INODE_NUM NEWFS_DATA_NUM sb0).
  set (s3 := Newfs sb3 {[ 0%nat := root ]} ∅ 3 d2).
  assert (Hg3 : geometry s3) by (split; unfold whole_blocks; cbn [super device s3]; rewrite ?Hio2, ?Hs2; [done|exact Hw]).
  destruct (wp_elim _ _ _ (driver_read_ok s3 NEWFS_MAP_INODE_OFS 1024 Hg3 ltac:(done) ltac:(done)
    ltac:(change (NEWFS_MAP_INODE_OFS + 1024) with 2048; cbn [device s3]; lia))) as (mi & s4 & E4 & -> & d4 & -> & Hd4).
  cbn [device s3] in Hd4, E4. pose proof Hd4 as (Hby4 & Hs4 & Hio4).
  assert (Hg4 : geometry (with_device s3 d4)) by (apply geometry_with; done).
  destruct (wp_elim _ _ _ (driver_read_ok (with_device s3 d4) NEWFS_MAP_DATA_OFS 1024 Hg4 ltac:(done) ltac:(done)
    ltac:(change (NEWFS_MAP_DATA_OFS + 1024) with 3072; cbn [device with_device]; lia))) as (md & s5 & E5 & -> & d5 & -> & Hd5).
  cbn [device with_device] in Hd5, E5. pose proof Hd5 as (Hby5 & Hs5 & Hio5).
  eexists _, d5. split; [|split; [|split; [|split; [reflexivity|]]]].
  - split; [intros a; by rewrite Hby5, Hby4, Hby2|split; congruence].
  - split; unfold whole_blocks; cbn [super device]; rewrite ?Hio5, ?Hs5, ?Hio4, ?Hs4, ?Hio2, ?Hs2; [done|exact Hw].
  - done.
  - intros Q HQ. unfold newfs_init. destruct (Z.ltb_spec fd 0); [lia|]. apply wp_bind, wp_gets. unfold upd_super at 1. apply wp_bind, wp_modify.
    unfold new_dentry. change (NEWFS_MAX_FILE_NAME <? Z.of_nat (length [slash])) with false. cbn match.
    eapply (wp_bind_Ok _ _ _ (Some 0%nat) s1); [reflexivity|]. eapply wp_bind_Ok; [exact E2|]. cbv zeta.
    destruct (Z.eqb_spec (sd_magic_num (dec_super_d (dbytes d NEWFS_SUPER_OFS 52))) NEWFS_MAGIC_NUM) as [|_]; [done|].
    cbn [negb]. eapply wp_bind_Ok; [reflexivity|]. unfold get_super. apply wp_bind, wp_gets.
    cbn [sd_map_inode_blks sd_map_inode_offset sd_map_data_blks sd_map_data_offset sd_sz_usage].
    cbn [super sz_io with_device s1 sb0 set_max]. rewrite HB.
    change (NEWFS_MAP_INODE_BLOCKS * NEWFS_DATA_SIZE) with 1024. change (NEWFS_MAP_DATA_BLOCKS * NEWFS_DATA_SIZE) with 1024.
    eapply wp_bind_Ok; [reflexivity|]. eapply (wp_bind_Ok _ _ _ _ s3); [reflexivity|].
    eapply wp_bind_Ok; [exact E4|]. eapply wp_bind_Ok; [exact E5|]. unfold upd_super at 1. apply wp_bind, wp_modify.
    cbn [super dentries inodes brk device with_device s3].
    assert (Hmi' : dbytes d2 NEWFS_MAP_INODE_OFS (Z.to_nat 1024) = repeat 0 (Z.to_nat NEWFS_DATA_SIZE)).
    { rewrite <- Hmi. apply dbytes_ext. intros; apply Hby2. }
    assert (Hmd' : dbytes d4 NEWFS_MAP_DATA_OFS (Z.to_nat 1024) = repeat 0 (Z.to_nat NEWFS_DATA_SIZE)).
    { rewrite <- Hmd. apply dbytes_ext. intros; by rewrite Hby4, Hby2. }
    rewrite Hmi', Hmd'. exact HQ.
Qed.
(** The state of a program that has formatted the device. *)
Record formatted (d : D) s : Prop := {
  fm_refines : refines s (fresh_fs (ddriver_size d));
  fm_geometry : geometry s;
  fm_geo : same_geo d (device s);
  fm_super : map_inode_offset (super s) = NEWFS_MAP_INODE_OFS /\ map_data_offset (super s) = NEWFS_MAP_DATA_OFS /\
    inode_offset (super s) = 0 /\ data_offset (super s) = 0 /\ sz_disk (super s) = ddriver_size d;
}.

Lemma same_disk_geo (d d' : D) : same_disk d d' -> same_geo d d'.
Proof. by intros (_ & ? & ?). Qed.

(** The root with a single inode, as formatting leaves it. *)
Lemma linked_fresh d s a dr i : ddriver_size d = sz_disk (super s) -> NEWFS_BLKS_SZ (sz_io (super s)) = NEWFS_DATA_SIZE ->
  is_mounted (super s) = true -> root_dentry (super s) = Some 0%nat -> heap_ok s ->
  max_ino (super s) = NEWFS_INODE_NUM /\ max_data (super s) = NEWFS_DATA_NUM -> sz_usage (super s) = 0 ->
  map_inode_blks (super s) = NEWFS_MAP_INODE_BLOCKS /\ map_data_blks (super s) = NEWFS_MAP_DATA_BLOCKS ->
  marks (map_inode (super s)) 1 -> marks (map_data (super s)) 0 ->
  dentries s !! 0%nat = Some dr -> de_ftype dr = NEWFS_DIR -> de_inode dr = Some a -> de_ino dr = NEWFS_ROOT_INO ->
  inodes s !! a = Some i -> i = Inode NEWFS_ROOT_INO 0 0 (Some 0%nat) None None ->
  linked {[ NEWFS_ROOT_INO := 0%nat ]} s (fresh_fs (ddriver_size d)).
Proof.
  intros Hsz HB Hm Hr Hh Hmax Hu [Hib Hdb] Hmi Hmd Hd Ht Ha Hi Hat ->. split; try done.
  intros i o Ho. cbn [objs fresh_fs] in Ho. apply lookup_singleton_Some in Ho as [<- <-].
  exists 0%nat, a, dr, (Inode NEWFS_ROOT_INO 0 0 (Some 0%nat) None None). split; try done.
  split; [done|]. split; [done|]. exists []. split; [done|constructor].
Qed.

Lemma init_formats d fd : blank d -> 0 <= fd ->
  wp (newfs_init fd) (boot d) (fun rc s => rc = 0 /\ formatted d s).
Proof.
  intros Hbl Hfd. destruct (init_reads d fd Hbl Hfd) as (s & d' & Hd' & Hg & Hdev & Hs & Hinit). apply Hinit. clear Hinit.
  pose proof Hbl as [_ _ _ _ HB Hsize]. change (NEWFS_DA_OFS 1) with 138240 in Hsize. pose proof Hd' as (_ & Hsz' & _).
  destruct (find_free_marks _ _ marks_zeros) as (mi & Efi & Hmi); [done|]. change (0 + 1) with 1 in Hmi.
  set (root := Dentry (padded [slash]) NEWFS_DIR None None (-1) None 0) in *.
  destruct (newfs_alloc_inode_ok s 0%nat root 0 mi) as (brk1 & Hbrk1 & E1).
  { by rewrite Hs. } { rewrite Hs. cbn [super map_inode_blks sz_io map_inode]. by rewrite HB. } { by rewrite Hs. }
  apply wp_bind. eapply wp_bind_Ok; [exact E1|]. rewrite Hs. cbn [super dentries inodes brk device sz_io].
  change (fresh_data (de_ftype root) _ _) with (@None (list Z)). rewrite Hs in Hbrk1. cbn [brk] in Hbrk1.
  set (dr := set_ino 0 (set_inode (Some 3%nat) root)). rewrite insert_singleton_eq, insert_empty.
  set (s1 := Newfs _ _ _ brk1 d').
  assert (Hg1 : geometry s1) by (by rewrite Hs in Hg).
  unfold sync_fuel. apply wp_bind, wp_gets. eapply wp_mono.
  { apply (sync_tree (Dir 0 0 []) _ s1 0%nat 3%nat).
    - exists dr, (Inode 0 0 0 (Some 0%nat) None None). cbn [dentries inodes s1]. by rewrite !lookup_singleton_eq.
    - done.
    - cbn. constructor; [by apply not_elem_of_nil|constructor].
    - done.
    - exact HB.
    - constructor; [|constructor]. cbn [device s1]. rewrite Hsz'. change (NEWFS_DA_OFS (0 + 1)) with 138240. lia.
    - cbn. lia. }
  cbn beta. intros _ s2 (d2 & -> & Hgeo2 & Hon2 & _). cbn [device s1 with_device] in Hgeo2. apply on_dev_dir in Hon2 as [Hrec _].
  assert (Hg2 : geometry (with_device s1 d2)) by (by apply geometry_with).
  apply wp_bind. eapply wp_mono.
  { apply (read_empty_dir (with_device s1 d2) 0%nat dr 0 0); try done.
    cbn [device with_device s1]. rewrite (proj1 Hgeo2), Hsz'. change (NEWFS_DA_OFS (0 + 1)) with 138240. lia. }
  cbn beta. intros r s3 (-> & d3 & Hd3 & ->). cbn [super dentries inodes brk device with_device s1] in *.
  eapply wp_bind_Ok; [apply upd_dentry_ok; cbn [dentries]; apply lookup_singleton_eq|]. cbn [super dentries inodes brk device].
  rewrite insert_singleton_eq. unfold upd_super. apply wp_bind, wp_modify, wp_ret. split; [done|].
  cbn [super dentries inodes brk device].
  assert (Hgeo3 : same_geo d d3).
  { eapply same_geo_trans; [by apply same_disk_geo|]. eapply same_geo_trans; [exact Hgeo2|by apply same_disk_geo]. }
  split; cbn [super dentries inodes brk device].
  - split; [by apply fresh_fs_ok, bl_size|]. exists {[ NEWFS_ROOT_INO := 0%nat ]}.
    eapply (linked_fresh d _ brk1); cbn [super dentries inodes brk device]; try done.
    + split; intros x Hx; cbn [dentries inodes brk] in *.
      * destruct Hx as [y Hy]. apply lookup_singleton_Some in Hy as [<- _]. lia.
      * destruct (decide (x = brk1)) as [->|]; [lia|]. rewrite lookup_insert_ne in Hx by done.
        destruct Hx as [y Hy]. apply lookup_singleton_Some in Hy as [<- _]. lia.
    + exact marks_zeros.
    + by rewrite lookup_insert_eq.
  - destruct Hgeo3 as [Hs3 Hi3]. split; unfold whole_blocks; cbn [super device]; rewrite ?Hi3, ?Hs3; [done|apply Hbl].
  - done.
  - done.
Qed.
End format.
End NewfsFormat.

Module NewfsSession.
Import NewfsDiskThms Newfs NewfsLookup NewfsAlloc NewfsThms NewfsTree NewfsRemount NewfsFuse NewfsSpec NewfsSpecThms
  NewfsRefine NewfsRefineOps NewfsFormat.

(** ** The tree of a file system *)

(** The tree below the number [i]; [data] gives the blocks of the files. *)
Fixpoint tree_of (fuel : nat) (A : fs) (data : Z -> list Z) (i : Z) : node :=
  match fuel, objs A !! i with
  | S f, Some (AFile c) => File i (Z.of_nat (length c)) 0 (data i)
  | S f, Some (ADir es) =>
      Dir i (Z.of_nat (length es) * sizeof_dentry) (map (fun e => (fst e, tree_of f A data (snd e))) es)
  | _, _ => Dir i 0 []
  end.
Definition subtrees (fuel : nat) (A : fs) (data : Z -> list Z) (es : list (list Z * Z)) : list (list Z * node) :=
  map (fun e => (fst e, tree_of fuel A data (snd e))) es.

Lemma node_ino_tree fuel A data i : node_ino (tree_of fuel A data i) = i.
Proof. destruct fuel; [done|]. cbn. by destruct (objs A !! i) as [[]|]. Qed.

Lemma in_heap_dir_intro h im q a ino size es d i : h !! q = Some d -> de_ftype d = NEWFS_DIR -> de_inode d = Some a ->
  im !! a = Some i -> in_dentry i = Some q -> in_ino i = ino -> in_size i = size -> in_dir_cnt i = Z.of_nat (length es) ->
  heap_list h im (in_dentrys i) es -> in_heap h im q a (Dir ino size es).
Proof.
  intros Hd Ht Ha Hi Hq Hino Hsz Hcnt Hl. exists d, i. do 8 (split; [done|]). clear Hcnt. revert Hl. generalize (in_dentrys i).
  clear. induction es as [|e es IH]; intros p Hl; [done|]. destruct Hl as (x & ax & d & -> & Hx & Hf & Hdi & Hh & Hl).
  exists x, ax, d. do 5 (split; [done|]). by apply IH.
Qed.

(** Numbers grow downwards, so the fuel that is left is enough for the children. *)
Definition enough (fuel : nat) (A : fs) (i : Z) : Prop := next_ino A - i <= Z.of_nat fuel.

Lemma enough_child fuel A i es e : fs_ok A -> objs A !! i = Some (ADir es) -> e ∈ es ->
  enough (S fuel) A i -> enough fuel A (snd e).
Proof. intros Hok Hi He. pose proof (proj2 (ok_entry A Hok i es e Hi He)). unfold enough. lia. Qed.

Lemma enough_pos fuel A i : fs_ok A -> is_Some (objs A !! i) -> enough fuel A i -> exists f, fuel = S f.
Proof. intros Hok Hi%(ok_range A Hok) He. unfold enough in He. destruct fuel; [lia|by eexists]. Qed.

(** ** Distinct numbers *)

(** [j] is [i] or below it. *)
Inductive below (A : fs) (i : Z) : Z -> Prop :=
| below_self : below A i i
| below_child p es j : below A i p -> objs A !! p = Some (ADir es) -> j ∈ map snd es -> below A i j.

Lemma below_le A i j : fs_ok A -> below A i j -> i <= j.
Proof.
  intros Hok. induction 1 as [|p es j _ IH Hp Hj]; [lia|]. apply list_elem_of_fmap in Hj as (e & -> & He).
  pose proof (proj2 (ok_entry A Hok p es e Hp He)). lia.
Qed.

Lemma below_comparable A i i' j : fs_ok A -> below A i j -> below A i' j -> below A i i' \/ below A i' i.
Proof.
  intros Hok Hi. revert i'. induction Hi as [|p es j Hi IH Hp Hj]; intros i' Hi'; [by right|].
  inversion Hi' as [|p' es' j' Hi'' Hp' Hj']; subst; [left; by eapply below_child|].
  assert (p' = p) as -> by (by eapply (ok_parent A Hok)). by apply IH.
Qed.

(** Two entries of a directory have nothing below them in common. *)
Lemma siblings_apart A i es c c' j : fs_ok A -> objs A !! i = Some (ADir es) -> c ∈ map snd es -> c' ∈ map snd es ->
  below A c j -> below A c' j -> c = c'.
Proof.
  intros Hok Hi Hc Hc' Hj Hj'.
  assert (Hlt : forall x, x ∈ map snd es -> i < x).
  { intros x (e & -> & He)%list_elem_of_fmap. pose proof (proj2 (ok_entry A Hok i es e Hi He)). lia. }
  assert (Hone : forall x y, x ∈ map snd es -> y ∈ map snd es -> below A x y -> x = y).
  { intros x y Hx Hy Hb. inversion Hb as [|p es' y' Hp Hes' Hy']; subst; [done|].
    assert (p = i) as -> by (by eapply (ok_parent A Hok)). apply below_le in Hp; [|done]. specialize (Hlt x Hx). lia. }
  destruct (below_comparable A c c' j Hok Hj Hj') as [Hb|Hb]; [by apply Hone|symmetry; by apply Hone].
Qed.

Lemma below_used A i j : fs_ok A -> below A i j -> is_Some (objs A !! i) -> is_Some (objs A !! j).
Proof.
  intros Hok. induction 1 as [|p es j _ IH Hp Hj]; [done|]. intros _. by eapply entry_used.
Qed.

Lemma tree_below A data fuel : fs_ok A -> forall i j, j ∈ inos (tree_of fuel A data i) -> below A i j.
Proof.
  intros Hok. induction fuel as [|fuel IH]; intros i j Hj; [cbn in Hj; apply list_elem_of_singleton in Hj as ->; constructor|].
  cbn [tree_of] in Hj. destruct (objs A !! i) as [[c|es]|] eqn:Hi; cbn [inos] in Hj.
  - apply list_elem_of_singleton in Hj as ->. constructor.
  - apply elem_of_cons in Hj as [->|Hj]; [constructor|]. rewrite map_map in Hj.
    apply elem_of_concat in Hj as (l & Hl & Hj). apply list_elem_of_fmap in Hl as (e & -> & He). cbn [snd] in Hj. apply IH in Hj.
    clear IH. induction Hj as [|p es' j _ IHj Hp Hj]; [|by eapply below_child].
    eapply below_child; [constructor|exact Hi|]. apply list_elem_of_fmap. by exists e.
  - apply list_elem_of_singleton in Hj as ->. constructor.
Qed.

Lemma NoDup_concat {X} (ls : list (list X)) : (forall l, l ∈ ls -> NoDup l) ->
  (forall n n' l l' x, ls !! n = Some l -> ls !! n' = Some l' -> x ∈ l -> x ∈ l' -> n = n') -> NoDup (concat ls).
Proof.
  induction ls as [|l ls IH]; intros Hnd Hap; [constructor|]. cbn. apply list.NoDup_app. split; [apply Hnd; by left|]. split.
  - intros x Hx Hx'. apply elem_of_concat in Hx' as (l' & Hl' & Hx'). apply list_elem_of_lookup in Hl' as [n Hn].
    by specialize (Hap 0%nat (S n) l l' x eq_refl Hn Hx Hx').
  - apply IH; [intros l' Hl'; apply Hnd; by right|]. intros n n' l1 l2 x H1 H2 Hx1 Hx2.
    by specialize (Hap (S n) (S n') l1 l2 x H1 H2 Hx1 Hx2) as [= ->].
Qed.

Lemma tree_distinct A data fuel : fs_ok A -> forall i, NoDup (inos (tree_of fuel A data i)).
Proof.
  intros Hok. induction fuel as [|fuel IH]; intros i; [apply list.NoDup_singleton|].
  cbn [tree_of]. destruct (objs A !! i) as [[c|es]|] eqn:Hi; [apply list.NoDup_singleton| |apply list.NoDup_singleton].
  cbn [inos]. rewrite map_map. constructor.
  - intros Hin. apply elem_of_concat in Hin as (l & Hl & Hin). apply list_elem_of_fmap in Hl as (e & -> & He). cbn [snd] in Hin.
    apply tree_below, below_le in Hin; try done. pose proof (proj2 (ok_entry A Hok i es e Hi He)). lia.
  - apply NoDup_concat; [intros l (e & -> & He)%list_elem_of_fmap; apply IH|].
    intros n n' l l' x Hn Hn' Hx Hx'. rewrite list_lookup_fmap in Hn, Hn'.
    apply fmap_Some in Hn as (e & He & ->). apply fmap_Some in Hn' as (e' & He' & ->). cbn [snd] in Hx, Hx'.
    apply tree_below in Hx, Hx'; [|done..].
    assert (Hsn : forall k f, es !! k = Some f -> map snd es !! k = Some (snd f)) by (intros k f Hf; by rewrite list_lookup_fmap, Hf).
    assert (Heq : snd e = snd e').
    { eapply siblings_apart; [done|exact Hi| | |exact Hx|exact Hx']; eapply list_elem_of_lookup_2, Hsn; done. }
    eapply NoDup_lookup; [exact (ok_distinct A Hok i es Hi)|by apply Hsn|]. rewrite Heq. by apply Hsn.
Qed.
Section session.
Context {D : Type} `{!Ddriver D} `{!DdriverOk D} `{Platform}.
Implicit Types s : newfs D.

(** ** The tree in the heap *)

(** The blocks of the file [i]. *)
Definition data_of s (m : gmap Z nat) (i : Z) : list Z :=
  default [] (p ← m !! i; d ← dentries s !! p; a ← de_inode d; nd ← inodes s !! a; in_data nd).

Lemma data_of_eq s m i o p a d nd b : obj_at s m i o p a d nd -> in_data nd = Some b -> data_of s m i = b.
Proof.
  intros [Hm Hd _ Ha _ Hi _ _ _] Hb. unfold data_of. rewrite Hm. cbn. rewrite Hd. cbn. rewrite Ha. cbn. rewrite Hi. cbn. by rewrite Hb.
Qed.

Definition tree s m fuel A i : node := tree_of fuel A (data_of s m) i.

(** The chain of a directory holds the trees of its entries. *)
Lemma heap_list_chain s m A fuel es : linked m s A -> (forall e, e ∈ es -> is_Some (objs A !! snd e)) ->
  (forall e o p a d nd, e ∈ es -> objs A !! snd e = Some o -> obj_at s m (snd e) o p a d nd ->
     in_heap (dentries s) (inodes s) p a (tree s m fuel A (snd e))) ->
  forall p l, chain (dentries s) p l -> Forall2 (entry_at (dentries s) m) l es ->
  heap_list (dentries s) (inodes s) p (subtrees fuel A (data_of s m) es).
Proof.
  intros Hlk. induction es as [|e es IH]; intros Hused Hsub p l Hc Hl; inversion Hl as [|x e' l' es' [Hm (dx & Hdx & Hf)] Hl']; subst; [done|].
  destruct Hc as (-> & _ & d0 & Hd0 & Hc). assert (d0 = dx) as -> by congruence.
  destruct (Hused e) as [o Ho]; [by left|]. destruct (lk_objs _ _ _ Hlk _ _ Ho) as (px & ax & d & nd & Hobj).
  pose proof Hobj as [Hmx Hd _ _ Hino _ _ _ _]. assert (px = x) as -> by congruence. assert (d = dx) as -> by congruence.
  cbn [subtrees map heap_list fst snd]. exists x, ax, dx. split; [done|]. split; [done|]. split; [done|].
  split; [by rewrite node_ino_tree|]. split; [eapply Hsub; [by left|done|done]|].
  eapply IH; [intros e' He'; apply Hused; by right|intros e' o' p' a' d' nd' He'; apply Hsub; by right|exact Hc|done].
Qed.

Lemma tree_in_heap s m A fuel : fs_ok A -> linked m s A -> forall i o p a d nd, objs A !! i = Some o ->
  obj_at s m i o p a d nd -> enough fuel A i -> in_heap (dentries s) (inodes s) p a (tree s m fuel A i).
Proof.
  intros Hok Hlk. induction fuel as [|fuel IH]; intros i o p a d nd Ho Hobj Hen.
  { destruct (enough_pos 0 A i Hok ltac:(eauto) Hen) as [f [=]]. }
  unfold tree. cbn [tree_of]. rewrite Ho. pose proof Hobj as [Hm Hd Ht Ha Hi Hat Hq Hn Hb]. destruct o as [c|es].
  - destruct Hb as (_ & Hcnt & Hsz & b & Hb & _). rewrite (data_of_eq _ _ _ _ _ _ _ _ _ Hobj Hb). exists d, nd. done.
  - destruct Hb as (Hcnt & Hsz & l & Hc & Hl). eapply in_heap_dir_intro; try done; [by rewrite length_map|].
    eapply heap_list_chain; [done| | |exact Hc|exact Hl].
    + intros e He. eapply entry_used; [done|exact Ho|]. by apply list_elem_of_fmap_2.
    + intros e o' p' a' d' nd' He Ho' Hobj'. eapply IH; [done|done|]. by eapply enough_child.
Qed.

Lemma tree_good s m A fuel : fs_ok A -> linked m s A -> forall i, is_Some (objs A !! i) -> enough fuel A i ->
  good (tree s m fuel A i).
Proof.
  intros Hok Hlk. induction fuel as [|fuel IH]; intros i [o Ho] Hen.
  { destruct (enough_pos 0 A i Hok ltac:(eauto) Hen) as [f [=]]. }
  assert (Hi : 0 <= i < NEWFS_INODE_NUM).
  { pose proof (next_limit A Hok). assert (0 <= i < next_ino A) by (apply (ok_range A Hok); eauto). lia. }
  unfold tree. cbn [tree_of]. rewrite Ho. destruct o as [c|es].
  - destruct (lk_objs _ _ _ Hlk _ _ Ho) as (p & a & d & nd & Hobj). pose proof (oa_body _ _ _ _ _ _ _ _ Hobj) as (_ & _ & _ & b & Hb & _ & Hl & Hby).
    rewrite (data_of_eq _ _ _ _ _ _ _ _ _ Hobj Hb). destruct (ok_file A Hok i c Ho) as [Hc _].
    cbn [good]. split; [done|]. split; [done|]. split; [done|]. split; [lia|]. unfold int32. lia.
  - pose proof (ok_dir A Hok i es Ho) as Hlen. cbn [good]. split; [done|].
    split; [unfold int32, MAX_ENTRIES, sizeof_dentry in *; lia|]. split; [by rewrite length_map|].
    assert (Hsub : forall e, e ∈ es -> name_fits (fst e) /\ good (tree s m fuel A (snd e))).
    { intros e He. split; [apply (ok_entry A Hok i es e Ho He)|]. apply IH; [|by eapply enough_child].
      eapply entry_used; [done|exact Ho|]. by apply list_elem_of_fmap_2. }
    clear Ho Hlen. induction es as [|e es IHes]; [done|]. cbn [map foldr fst snd]. split; [apply Hsub; by left|].
    apply IHes. intros e' He'. apply Hsub. by right.
Qed.

(** ** The state during a session *)
Record in_session (d : D) s (A : fs) : Prop := {
  is_refines : refines s A;
  is_geometry : geometry s;
  is_geo : same_geo d (device s);
  is_super : map_inode_offset (super s) = NEWFS_MAP_INODE_OFS /\ map_data_offset (super s) = NEWFS_MAP_DATA_OFS /\
    inode_offset (super s) = 0 /\ data_offset (super s) = 0 /\ sz_disk (super s) = ddriver_size d;
}.

Lemma session_start d s : formatted d s -> in_session d s (fresh_fs (ddriver_size d)).
Proof. by intros []. Qed.

Lemma session_frame d s s' A A' : in_session d s A -> refines s' A' -> frame s' = frame s -> in_session d s' A'.
Proof.
  intros [_ [Hio Hw] Hgeo (H1 & H2 & H3 & H4 & H5)] Href [= Hdev Hsz Hdk Hm Hmd Hi Hd].
  split; [done|split; unfold whole_blocks in *; congruence|congruence|]. rewrite Hm, Hmd, Hi, Hd, Hdk. done.
Qed.

(** The root directory of a file system. *)
Definition root_entries (A : fs) (es : list (list Z * Z)) : Prop := objs A !! NEWFS_ROOT_INO = Some (ADir es).

(** The heap is a tree that can be saved. *)
Lemma session_mounted d s A es : in_session d s A -> root_entries A es ->
  exists m r a fuel, linked m s A /\ enough (S fuel) A NEWFS_ROOT_INO /\
    mounted s r a (Z.of_nat (length es) * sizeof_dentry) (subtrees fuel A (data_of s m) es).
Proof.
  intros [[Hok [m Hlk]] Hg Hgeo (Hmo & Hdo & Hio & Hda & Hdk)] Hes.
  destruct (lk_objs _ _ _ Hlk _ _ Hes) as (r & a & dr & nr & Hobj). set (fuel := Z.to_nat (next_ino A)).
  assert (Hen : enough (S fuel) A NEWFS_ROOT_INO) by (unfold enough, NEWFS_ROOT_INO, fuel; lia).
  exists m, r, a, fuel. split; [done|]. split; [done|].
  assert (Htree : tree s m (S fuel) A NEWFS_ROOT_INO = Dir 0 (Z.of_nat (length es) * sizeof_dentry) (subtrees fuel A (data_of s m) es)).
  { unfold tree. cbn [tree_of]. rewrite Hes. done. }
  pose proof (tree_good s m A (S fuel) Hok Hlk NEWFS_ROOT_INO ltac:(eauto) Hen) as Hgood. rewrite Htree in Hgood.
  pose proof (tree_in_heap s m A (S fuel) Hok Hlk _ _ r a dr nr Hes Hobj Hen) as Hheap. rewrite Htree in Hheap.
  pose proof (tree_distinct A (data_of s m) (S fuel) Hok NEWFS_ROOT_INO) as Hnd. fold (tree s m (S fuel) A NEWFS_ROOT_INO) in Hnd. rewrite Htree in Hnd.
  destruct (lk_imap _ _ _ Hlk) as [Hib (Hil & Hiby & _)], (lk_dmap _ _ _ Hlk) as [Hdb (Hdl & Hdby & _)].
  split; try done.
  - apply (lk_mounted _ _ _ Hlk).
  - rewrite (lk_root _ _ _ Hlk). apply (oa_map _ _ _ _ _ _ _ _ Hobj).
  - apply (lk_block _ _ _ Hlk).
  - apply Forall_forall. intros j Hj. rewrite (proj1 Hgeo), <- Hdk, (proj1 (lk_disk _ _ _ Hlk)).
    rewrite <- Htree in Hj. apply (tree_below A _ _ Hok), (below_used A NEWFS_ROOT_INO j Hok) in Hj; [|exact (root_used A Hok)].
    apply (ok_range A Hok) in Hj. apply max_files_fit. pose proof (ok_next A Hok). lia.
  - rewrite Hio, Hda. destruct (lk_disk _ _ _ Hlk) as [_ ->]. done.
Qed.
End session.
End NewfsSession.
