(* ===== verification/NewfsMain.v ===== *)
(** * The file system: the main theorems

    A session formats a blank device and serves requests; then the device is
    unmounted and mounted again. *)

From S2P Require Import Prelude.
From S2P Require Import Memory.
From S2P Require Import NewfsDisk.
From S2P Require Import NewfsDiskThms.
From S2P Require Import Newfs.
From S2P Require Import NewfsLookup.
From S2P Require Import NewfsAlloc.
From S2P Require Import NewfsThms.
From S2P Require Import NewfsTree.
From S2P Require Import NewfsRemount.
From S2P Require Import NewfsFuse.
From S2P Require Import NewfsSpec.
From S2P Require Import NewfsRefine.
From S2P Require Import NewfsRefineOps.
From S2P Require Import NewfsSession.

Module NewfsMain.
Import NewfsDiskThms Newfs NewfsLookup NewfsAlloc NewfsThms NewfsTree NewfsRemount NewfsFuse NewfsSpec NewfsSpecThms
  NewfsRefine NewfsRefineOps NewfsFormat NewfsSession.

Section main.
Context {D : Type} `{!Ddriver D} `{!DdriverOk D} `{Platform} `{!PlatformOk}.
Implicit Types s : newfs D.

(** Mounting with [newfs_init], then the requests. *)
Definition session (fd : Z) (l : list request) : M (newfs D) (list reply) :=
  _ ← newfs_init fd; handle_all l.

(** What is specified of a session on the device [d]. *)
Definition specified (d : D) (l : list request) : list reply * fs := spec_all l (fresh_fs (ddriver_size d)).
Definition session_allowed (d : D) (l : list request) : bool := allowed_all l (fresh_fs (ddriver_size d)).

Lemma session_ok d fd l : blank d -> 0 <= fd -> session_allowed d l = true ->
  wp (session fd l) (boot d) (fun xs s => Forall2 agrees xs (fst (specified d l)) /\ in_session d s (snd (specified d l))).
Proof.
  intros Hbl Hfd Hal. apply wp_bind. eapply wp_mono; [by apply init_formats|]. cbn beta. intros _ s [_ Hfm%session_start].
  destruct (handle_all_refines l s (fresh_fs (ddriver_size d)) (is_refines _ _ _ Hfm) Hal) as (xs & s' & E & Hxs & Href & Hf).
  eapply wp_Ok; [exact E|]. split; [done|]. by eapply session_frame.
Qed.

(** C14: The file system refines its specification. On a blank device [newfs_init]
    succeeds, and then every sequence of allowed requests through the table
    [operations] runs without undefined behaviour, returns the replies that
    [NewfsSpec] specifies, error codes included, and leaves a heap that represents
    the specified file system. *)
Theorem newfs_refines_spec d fd l : blank d -> 0 <= fd -> session_allowed d l = true ->
  wp (session fd l) (boot d) (fun xs s => Forall2 agrees xs (fst (specified d l)) /\ refines s (snd (specified d l))).
Proof.
  intros Hbl Hfd Hal. eapply wp_mono; [by apply session_ok|]. intros xs s [Hxs Hs]. split; [done|apply Hs].
Qed.

(** C16: At every point of a session the heap is well-formed: the entries and inodes
    form a finite tree below the root, with entry and inode pointing to each other,
    names that are terminated, inode numbers that are all different and below 3968,
    directories of at most 58 entries, files inside their eight blocks, bitmaps of one
    block, and room for all of it on the device. *)
Theorem newfs_heap_well_formed d fd l : blank d -> 0 <= fd -> session_allowed d l = true ->
  wp (session fd l) (boot d) (fun _ s => exists r a size es, mounted s r a size es).
Proof.
  intros Hbl Hfd Hal. eapply wp_mono; [by apply session_ok|]. intros xs s [_ Hs].
  destruct (ok_root _ (proj1 (is_refines _ _ _ Hs))) as [es Hes].
  destruct (session_mounted d s _ es Hs Hes) as (m & r & a & fuel & _ & _ & Hm). by eexists _, _, _, _.
Qed.

(** ** After mounting again *)

(** No other entry of [es] starts with the name of [e]. *)
Definition alone (e : list Z * Z) (es : list (list Z * Z)) : Prop :=
  forall e', e' ∈ es -> take (length (fst e)) (fst e') = fst e -> e' = e.

(** The files of the root hold what they held. *)
Definition keeps_files (A : fs) s : Prop := forall es e c n off,
  root_entries A es -> e ∈ es -> objs A !! snd e = Some (AFile c) -> alone e es ->
  Z.of_nat (length (fst e)) + 1 < path_cap -> 0 <= off -> 0 <= n -> off + n <= Z.of_nat (length c) ->
  wp (newfs_read (pathname [fst e]) n off) s (fun r _ => r = (n, take (Z.to_nat n) (drop (Z.to_nat off) c))).

(** The root lists what it listed, in the opposite order. *)
Definition keeps_root (A : fs) s : Prop := forall es k, root_entries A es -> 0 <= k < 2 ^ 31 ->
  newfs_readdir [slash] k s =
  Ok ((NEWFS_ERROR_NONE, match rev es !! Z.to_nat k with Some e => Some (fst e, k + 1) | None => None end), s).

Lemma only_match_subtrees fuel A data es e n : Forall (fun e => name_fits (fst e)) es -> e ∈ es -> alone e es ->
  n = tree_of fuel A data (snd e) -> only_match (fst e) (subtrees fuel A data es) (fst e, n).
Proof.
  intros Hfits He Ha -> x Hx Hm. apply list_elem_of_fmap in Hx as (e' & -> & He'). cbn [fst] in Hm.
  destruct (proj1 (Forall_forall _ _) Hfits e He) as (Hz & Hl & _), (proj1 (Forall_forall _ _) Hfits e' He') as (_ & Hl' & _).
  rewrite take_padded in Hm by (done || lia). by rewrite (Ha e' He' Hm).
Qed.

Lemma reads_back_keeps s0 s A m es fuel : fs_ok A -> linked m s0 A -> enough (S fuel) A NEWFS_ROOT_INO -> root_entries A es ->
  reads_back s (subtrees fuel A (data_of s0 m) es) -> keeps_files A s.
Proof.
  intros Hok Hlk Hen Hes Hback es' e c n off Hes' He Hc Ha Hcap Ho Hn Hfit. assert (es' = es) as -> by (unfold root_entries in *; congruence).
  destruct (lk_objs _ _ _ Hlk _ _ Hc) as (p & a & d & nd & Hobj).
  pose proof (oa_body _ _ _ _ _ _ _ _ Hobj) as (_ & _ & _ & b & Hb & Htake & Hl & _).
  destruct (ok_file A Hok _ _ Hc) as [Hmax _].
  assert (Hf : tree_of fuel A (data_of s0 m) (snd e) = File (snd e) (Z.of_nat (length c)) 0 b).
  { destruct (enough_pos fuel A (snd e) Hok ltac:(eauto) (enough_child _ _ _ _ _ Hok Hes He Hen)) as [f ->].
    cbn [tree_of]. rewrite Hc. by rewrite (data_of_eq _ _ _ _ _ _ _ _ _ Hobj Hb). }
  eapply wp_mono; [eapply (Hback (fst e) (snd e) (Z.of_nat (length c)) 0 b n off)|].
  - apply list_elem_of_fmap. exists e. by rewrite Hf.
  - by apply (ok_name A Hok _ _ _ Hes).
  - apply only_match_subtrees; [by eapply entries_fit|done|done|by rewrite Hf].
  - done.
  - done.
  - unfold FILE_MAX, NEWFS_DATA_PER_FILE, NEWFS_DATA_SIZE in *. lia.
  - done.
  - cbn beta. intros r _ ->. f_equal. rewrite <- Htake, skipn_firstn_comm, take_take, Nat.min_l by lia. done.
Qed.

Lemma loaded_keeps d sb s A data es fuel : fs_ok A -> root_entries A es -> loaded d sb (subtrees fuel A data es) s -> keeps_root A s.
Proof.
  intros Hok Hes (_ & _ & _ & _ & _ & _ & r & l & Hr & Hdir & Hl) es' k Hes' Hk.
  assert (es' = es) as -> by (unfold root_entries in *; congruence).
  unfold newfs_readdir. cbv zeta. erewrite bind_step by (apply newfs_lookup_root; [exact Hr|by eapply dir_cached]).
  cbn beta iota. cbn [read_var]. rewrite bind_ret. cbn [negb].
  destruct Hdir as (dr & a & i & Hd & Ht & Ha & Hi & Hq & Hc). erewrite bind_step by (by apply dentry_at_Some). rewrite Ha.
  erewrite (bind_step _ _ s (l !! Z.to_nat k) s).
  2: { unfold newfs_get_dentry. erewrite bind_step by (by apply inode_at_Some). rewrite bind_gets. rewrite s32_small by lia.
       rewrite (get_dentry_loop_ok s l _ _ k 0); [by rewrite Z.sub_0_r|by eapply chain_length|exact Hc|lia]. }
  unfold subtrees in Hl. rewrite <- map_rev in Hl. destruct (l !! Z.to_nat k) as [x|] eqn:Ex.
  - destruct (Forall2_lookup_l _ _ _ _ _ Hl Ex) as (e' & He' & b & Hx). rewrite list_lookup_fmap in He'.
    apply fmap_Some in He' as (e & He & ->). rewrite He. erewrite bind_step by (by apply dentry_at_Some). cbn [de_fname fst].
    rewrite NewfsRefineOps.cstr_name; [done|]. apply (ok_entry A Hok _ _ _ Hes).
    apply elem_of_rev. exact (list_elem_of_lookup_2 _ _ _ He).
  - assert (He : rev es !! Z.to_nat k = None).
    { apply lookup_ge_None. apply lookup_ge_None in Ex. rewrite (Forall2_length _ _ _ Hl), length_map in Ex. done. }
    by rewrite He.
Qed.

(** C15: A session survives. After formatting a blank device, serving any sequence of
    allowed requests and unmounting with [newfs_destroy], a new program that mounts the
    device with [newfs_init] gets 0, lists the entries of the root in the opposite
    order, and reads every file of the root whose name no other one extends exactly as
    the specification left it. *)
Theorem newfs_session_survives d fd fd' l : blank d -> 0 <= fd -> 0 <= fd' -> session_allowed d l = true ->
  wp (_ ← session fd l; newfs_destroy) (boot d) (fun _ s =>
    wp (newfs_init fd') (boot (device s)) (fun rc s' =>
      rc = 0 /\ keeps_root (snd (specified d l)) s' /\ keeps_files (snd (specified d l)) s')).
Proof.
  intros Hbl Hfd Hfd' Hal. apply wp_bind. eapply wp_mono; [by apply session_ok|]. cbn beta. intros _ s [_ Hs].
  set (A := snd (specified d l)) in *. pose proof (proj1 (is_refines _ _ _ Hs)) as Hok. destruct (ok_root A Hok) as [es Hes].
  destruct (session_mounted d s A es Hs Hes) as (m & r & a & fuel & Hlk & Hen & Hm).
  eapply wp_mono; [exact (remount_ok s r a _ _ fd' Hm Hfd')|]. cbn beta. intros _ s1 Hback.
  eapply wp_mono; [apply (Hback (boot (device s1))); [done|]|].
  - split; intros x [y Hy]; cbn in Hy; by rewrite lookup_empty in Hy.
  - cbn beta. intros rc s2 (-> & Hl & Hr). split; [done|]. split; [by eapply loaded_keeps|by eapply reads_back_keeps].
Qed.
End main.
End NewfsMain.
