(* ===== verification/NewfsWit.v ===== *)
(** * The file system on a disk

    A disk in memory; the theorems of [NewfsThms], [NewfsRemount] and [NewfsMain] are
    applied to it. *)

From S2P Require Import Prelude.
From S2P Require Import Memory.
From S2P Require Import NewfsDisk.
From S2P Require Import NewfsDiskThms.
From S2P Require Import Newfs.
From S2P Require Import NewfsLookup.
From S2P Require Import NewfsAlloc.
From S2P Require Import NewfsThms.
From S2P Require Import NewfsTree.
From S2P Require Import NewfsRemount.
From S2P Require Import NewfsFuse.
From S2P Require Import NewfsSpec.
From S2P Require Import NewfsRefine.
From S2P Require Import NewfsSession.
From S2P Require Import NewfsMain.

Module NewfsWit.
Import NewfsDiskThms Newfs NewfsLookup NewfsAlloc NewfsThms.

(** ** The device *)
Record ram : Type := Ram { ram_img : mem; ram_head : Z }.

#[export] Instance ram_driver : Ddriver ram := {
  ddriver_seek d o := Ram (ram_img d) o;
  ddriver_read d :=
    (map (fun i => ld8 (ram_img d) (ram_head d + Z.of_nat i)) (seq 0 512),
     Ram (ram_img d) (ram_head d + 512));
  ddriver_write d l :=
    Ram (fun a => match (if ram_head d <=? a then l !! Z.to_nat (a - ram_head d) else None) with
                  | Some b => b | None => ram_img d a end) (ram_head d + 512);
  ddriver_size _ := 4194304;
  ddriver_io_sz _ := 512;
}.

#[export] Instance ram_ok : DdriverOk ram.
Proof.
  refine {| dd_byte d a := ld8 (ram_img d) a; dd_head d := ram_head d |}.
  - done.
  - intros d a. apply u8_range.
  - done.
  - done.
  - intros d l _ _ _. cbn. split_and!; try done. intros a. unfold ld8.
    by destruct (if ram_head d <=? a then _ else _).
Defined.

#[export] Instance plain : Platform := {
  heap_junk _ k := repeat 0 (Z.to_nat k);
  stack_junk := 0;
  path_cap := 24;
}.

#[export] Instance plain_ok : PlatformOk.
Proof.
  split; [| |done].
  - intros n k Hk. cbn. rewrite repeat_length. lia.
  - intros n k. apply Forall_forall. intros x Hx%list_elem_of_In%repeat_spec. lia.
Defined.

(** ** The mounted tree *)
Definition docs : list Z := [100; 111; 99; 115].
Definition name_a : list Z := [97].
Definition name_b : list Z := [98].
Definition padded (n : list Z) : list Z := n ++ repeat 0 (128 - length n).
Definition content : list Z := [1; 2; 3] ++ repeat 0 8189.
Definition inode_a : newfs_inode := Inode 2 3 0 (Some 4%nat) None (Some content).

Definition tree : newfs ram := Newfs
  (Super 512 4194304 0 NEWFS_INODE_NUM NEWFS_DATA_NUM (7 :: repeat 0 1023) 1 NEWFS_MAP_INODE_OFS
     (3 :: repeat 0 1023) 1 NEWFS_MAP_DATA_OFS 0 0 true (Some 0%nat))
  {[ 0%nat := Dentry (padded [slash]) NEWFS_DIR None None (-1) (Some 1%nat) 0;
     2%nat := Dentry (padded docs) NEWFS_DIR (Some 0%nat) None 1 (Some 3%nat) 0;
     4%nat := Dentry (padded name_a) NEWFS_FILE (Some 2%nat) None 2 (Some 5%nat) 0 ]}
  {[ 1%nat := Inode 0 176 1 (Some 0%nat) (Some 2%nat) None;
     3%nat := Inode 1 176 1 (Some 2%nat) (Some 4%nat) None;
     5%nat := inode_a ]}
  7 (Ram (fun _ => 0) 0).

Lemma tree_root : dir_at tree 0 [2%nat].
Proof.
  eexists _, _, _. do 5 (split; [reflexivity|]). cbn -[lookup].
  split; [done|]. split; [set_solver|]. eexists. split; reflexivity.
Qed.

Lemma tree_docs : dir_at tree 2 [4%nat].
Proof.
  eexists _, _, _. do 5 (split; [reflexivity|]). cbn -[lookup].
  split; [done|]. split; [set_solver|]. eexists. split; reflexivity.
Qed.

Lemma name_ok_dec n :
  bool_decide (n <> [] /\ slash ∉ n /\ (length n <= 128)%nat) = true -> name_ok n.
Proof. intros Hb%bool_decide_eq_true. unfold name_ok, NEWFS_MAX_FILE_NAME. destruct Hb as (? & ? & ?). split_and!; [done|done|lia]. Qed.

Lemma tree_path_docs : resolves tree 0 [docs] [0%nat] 2.
Proof. eapply resolves_step; [exact tree_root|vm_compute; reflexivity|constructor]. Qed.

Lemma tree_path_a : resolves tree 0 [docs; name_a] [0%nat; 2%nat] 4.
Proof.
  eapply resolves_step; [exact tree_root|vm_compute; reflexivity|].
  eapply resolves_step; [exact tree_docs|vm_compute; reflexivity|constructor].
Qed.

Lemma tree_heap_ok : heap_ok tree.
Proof.
  split; intros a [x Hx]; cbn [tree dentries inodes brk] in *;
    repeat (apply lookup_insert_Some in Hx as [[<- _]|[_ Hx]]; [lia|]);
    apply lookup_singleton_Some in Hx as [<- _]; lia.
Qed.

Lemma tree_sizes a i : inodes tree !! a = Some i -> 0 <= in_size i < 2 ^ 31.
Proof.
  intros Hx. cbn [tree inodes] in Hx.
  repeat (apply lookup_insert_Some in Hx as [[_ <-]|[_ Hx]]; [cbn; lia|]).
  apply lookup_singleton_Some in Hx as [_ <-]. cbn. lia.
Qed.

Lemma tree_can_create :
  can_create tree 2 [4%nat] 3 (15 :: repeat 0 1023) (7 :: repeat 0 1023).
Proof.
  split.
  - exact tree_heap_ok.
  - exact tree_docs.
  - split; vm_compute; reflexivity.
  - exact tree_sizes.
  - split; [vm_compute; reflexivity|done].
  - exists 2. split; [vm_compute; reflexivity|done].
Qed.

Lemma tree_creatable :
  creatable tree [docs] name_b 2 [4%nat] 3 (15 :: repeat 0 1023) (7 :: repeat 0 1023).
Proof.
  split.
  - exists 0%nat, [0%nat]. split_and!; [done|exact tree_path_docs|set_solver].
  - exact tree_can_create.
  - vm_compute; reflexivity.
  - split; [constructor; [|constructor]|]; by apply name_ok_dec.
  - vm_compute; reflexivity.
  - apply Nat.leb_le. vm_compute. reflexivity.
Qed.

Lemma tree_names_dir : names_dir tree [docs] 2 [4%nat].
Proof.
  split; [exists 0%nat, [0%nat]; split; [done|exact tree_path_docs]|exact tree_docs| |vm_compute; reflexivity].
  split; [|done]. constructor; [|constructor]. by apply name_ok_dec.
Qed.

Lemma tree_file : file_at tree 4 5 inode_a content.
Proof. eexists. by split_and!. Qed.

Lemma tree_names_file : names_file tree [docs; name_a] 4 5 inode_a content.
Proof.
  split; [exists 0%nat, [0%nat; 2%nat]; split; [done|exact tree_path_a]|exact tree_file| |vm_compute; reflexivity].
  split; [|done]. repeat constructor; by apply name_ok_dec.
Qed.

Lemma content_length : Z.of_nat (length content) = 8192.
Proof. unfold content. rewrite length_app, repeat_length. cbn. lia. Qed.

Lemma tree_on_disk : on_disk_ok tree inode_a content.
Proof.
  split.
  - split; vm_compute; reflexivity.
  - reflexivity.
  - vm_compute. by split.
  - vm_compute. done.
  - rewrite content_length. done.
  - unfold content. apply Forall_app. split; [repeat constructor; lia|]. apply Forall_forall.
    intros x Hx%list_elem_of_In%repeat_spec. lia.
  - rewrite content_length. cbn. lia.
  - split; vm_compute; done.
Qed.

(** ** The theorems at work *)
Lemma newfs_mkdir_creates_witness :
  exists s', newfs_mkdir (pathname ([docs] ++ [name_b])) tree = Ok (NEWFS_ERROR_NONE, s') /\
    entry_made tree s' [docs] name_b 2 [4%nat] NEWFS_DIR 3.
Proof. exact (newfs_mkdir_creates tree [docs] name_b 2 [4%nat] 3 _ _ tree_creatable). Defined.

Lemma newfs_mknod_creates_witness :
  exists s', newfs_mknod (pathname ([docs] ++ [name_b])) S_IFREG tree = Ok (NEWFS_ERROR_NONE, s') /\
    entry_made tree s' [docs] name_b 2 [4%nat] NEWFS_FILE 3.
Proof. exact (newfs_mknod_creates tree [docs] name_b 2 [4%nat] 3 _ _ S_IFREG tree_creatable eq_refl). Defined.

Lemma newfs_write_then_read_witness :
  exists s', newfs_write (pathname [docs; name_a]) [9; 8] 3 tree = Ok (2, s') /\
    newfs_read (pathname [docs; name_a]) 2 3 s' = Ok ((2, [9; 8]), s').
Proof.
  assert (Hr : 0 <= 3 <= in_size inode_a) by (cbn; lia).
  assert (Hf : 3 + Z.of_nat (length [9; 8]) <= Z.of_nat (length content)) by (rewrite content_length; cbn; lia).
  destruct (newfs_write_then_read tree [docs; name_a] 4 5 inode_a content 3 [9; 8]
              tree_names_file Hr Hf eq_refl) as (s' & i' & b' & Hw & Hrd & _).
  exists s'. split; [exact Hw|exact Hrd].
Defined.

Lemma newfs_error_results_witness :
  newfs_mkdir (pathname [docs]) tree = Ok (-17, tree) /\
  newfs_write (pathname [docs]) [1] 0 tree = Ok (-21, tree).
Proof.
  assert (Hn : name_ok name_b) by (by apply name_ok_dec).
  assert (Hm : first_match (dentries tree) [4%nat] name_b = None) by (vm_compute; reflexivity).
  destruct (newfs_error_results tree [docs] 2 [4%nat] name_b 0 0 0 0 0 (Stat 0 0 0 0 0 0 0 0 0) [1] 1 0
    tree_names_dir Hn Hm eq_refl) as (Hk & _ & Hw & _).
  split; [exact Hk|exact Hw].
Defined.

Lemma newfs_readdir_lists_witness :
  newfs_readdir (pathname [docs]) 0 tree = Ok ((0, Some (name_a, 1)), tree) /\
  newfs_readdir (pathname [docs]) 1 tree = Ok ((0, None), tree).
Proof.
  split.
  - exact (newfs_readdir_lists tree [docs] 2 [4%nat] 0 tree_names_dir eq_refl).
  - exact (newfs_readdir_lists tree [docs] 2 [4%nat] 1 tree_names_dir eq_refl).
Defined.

Lemma newfs_sync_read_file_witness :
  exists s1 s2 a' i', newfs_sync_inode 1 (Some 5%nat) tree = Ok (tt, s1) /\
    newfs_read_inode (Some 4%nat) 2 s1 = Ok (Some a', s2) /\
    inodes s2 !! a' = Some i' /\ in_size i' = 3.
Proof.
  destruct (wp_elim _ _ _ (newfs_sync_read_file tree 0 4 5 inode_a content tree_file tree_on_disk tree_heap_ok))
    as ([] & s1 & E1 & _ & Hr).
  destruct (wp_elim _ _ _ Hr) as (r & s2 & E2 & a' & i' & b' & -> & _ & _ & Hi' & _ & Hsz & _).
  exists s1, s2, a', i'. split; [exact E1|]. split; [exact E2|]. split; [exact Hi'|exact Hsz].
Defined.

Lemma newfs_driver_roundtrip_witness :
  exists d1 d2, newfs_driver_write 512 1020 [5; 6; 7; 8; 9; 10] 6 (Ram (fun _ => 0) 0) = Ok (tt, d1) /\
    newfs_driver_read 512 1020 6 d1 = Ok ([5; 6; 7; 8; 9; 10], d2).
Proof.
  assert (Hb : Forall (fun b => 0 <= b < 256) [5; 6; 7; 8; 9; 10]) by (repeat constructor; lia).
  assert (Hend : 1020 + Z.of_nat (length [5; 6; 7; 8; 9; 10]) <= ddriver_size (Ram (fun _ => 0) 0)) by (cbn; lia).
  assert (Ho : 0 <= 1020) by lia.
  assert (Hio : ddriver_io_sz (Ram (fun _ => 0) 0) = 512) by reflexivity.
  assert (Hw : whole_blocks (Ram (fun _ => 0) 0)) by reflexivity.
  destruct (wp_elim _ _ _ (newfs_driver_roundtrip (Ram (fun _ => 0) 0) 512 1020 [5; 6; 7; 8; 9; 10]
     Hio Hw Ho Hend Hb)) as ([] & d1 & E1 & _ & Hr).
  destruct (wp_elim _ _ _ Hr) as (k & d2 & E2 & -> & _).
  exists d1, d2. split; [exact E1|exact E2].
Defined.
End NewfsWit.

Module NewfsRemountWit.
Import NewfsDiskThms Newfs NewfsLookup NewfsAlloc NewfsThms NewfsWit NewfsTree NewfsRemount.

Definition entries : list (list Z * node) := [(name_a, File 2 3 0 content); (docs, Dir 1 0 [])].

Definition home : newfs ram := Newfs
  (Super 512 4194304 0 NEWFS_INODE_NUM NEWFS_DATA_NUM (7 :: repeat 0 1023) 1 NEWFS_MAP_INODE_OFS
     (3 :: repeat 0 1023) 1 NEWFS_MAP_DATA_OFS 0 0 true (Some 0%nat))
  {[ 0%nat := Dentry (NewfsTree.padded [slash]) NEWFS_DIR None None 0 (Some 1%nat) 0;
     2%nat := Dentry (NewfsTree.padded docs) NEWFS_DIR (Some 0%nat) None 1 (Some 3%nat) 0;
     4%nat := Dentry (NewfsTree.padded name_a) NEWFS_FILE (Some 0%nat) (Some 2%nat) 2 (Some 5%nat) 0 ]}
  {[ 1%nat := Inode 0 352 2 (Some 0%nat) (Some 4%nat) None;
     3%nat := Inode 1 0 0 (Some 2%nat) None None;
     5%nat := Inode 2 3 0 (Some 4%nat) None (Some content) ]}
  7 (Ram (fun _ => 0) 0).

Lemma name_a_fits : name_fits name_a.
Proof. unfold name_fits. apply (bool_decide_unpack _). vm_compute. done. Qed.
Lemma docs_fits : name_fits docs.
Proof. unfold name_fits. apply (bool_decide_unpack _). vm_compute. done. Qed.

Lemma home_mounted : mounted home 0 1 352 entries.
Proof.
  assert (Hbytes : forall b : Z, 0 <= b < 256 -> Forall (fun x => 0 <= x < 256) (b :: repeat 0 1023)).
  { intros b Hb. constructor; [done|]. apply Forall_forall. intros x Hx%list_elem_of_In%repeat_spec. lia. }
  assert (Hc : Forall (fun x => 0 <= x < 256) content).
  { unfold content. apply Forall_app. split; [repeat constructor; lia|]. apply Forall_forall. intros x Hx%list_elem_of_In%repeat_spec. lia. }
  split; try done.
  - eexists _, _. do 6 (split; [reflexivity|]). split; [done|]. split; [done|].
    exists 4%nat, 5%nat. eexists. do 4 (split; [reflexivity|]). split.
    { eexists _, _. do 6 (split; [reflexivity|]). done. }
    exists 2%nat, 3%nat. eexists. do 4 (split; [reflexivity|]). split; [|done].
    eexists _, _. do 6 (split; [reflexivity|]). done.
  - assert (Hl : Z.of_nat (length content) = 8192) by exact content_length.
    pose proof name_a_fits as Ha. pose proof docs_fits as Hd.
    cbn -[content name_a docs]. unfold NEWFS_INODE_NUM, NEWFS_DATA_PER_FILE, NEWFS_DATA_SIZE, MAX_ENTRIES, int32.
    rewrite Hl. split_and!; done || lia.
  - apply (bool_decide_unpack _). vm_compute. done.
  - repeat constructor; vm_compute; done.
  - split_and!; try done. by apply Hbytes.
  - split_and!; try done. by apply Hbytes.
Qed.

Lemma name_a_only : only_match name_a entries (name_a, File 2 3 0 content).
Proof.
  intros e He Hm. unfold entries in He. apply elem_of_cons in He as [->|He]; [done|].
  apply list_elem_of_singleton in He as ->. by vm_compute in Hm.
Qed.

(** The disk after unmounting is mounted with an empty heap, and [/a] reads [1; 2; 3]. *)
Lemma newfs_remount_witness :
  exists s1 s2 s3, newfs_destroy home = Ok (tt, s1) /\
    newfs_init 3 (Newfs (super home) ∅ ∅ 0 (device s1)) = Ok (0, s2) /\
    newfs_read (pathname [name_a]) 2 1 s2 = Ok ((2, [2; 3]), s3).
Proof.
  assert (Hfd : 0 <= 3) by lia.
  destruct (wp_elim _ _ _ (newfs_remount home 0 1 352 entries 3 home_mounted Hfd)) as ([] & s1 & E1 & Hr).
  assert (Hok : heap_ok (Newfs (super home) ∅ ∅ 0 (device s1))).
  { split; intros a [x Hx]; cbn in Hx; by rewrite lookup_empty in Hx. }
  destruct (wp_elim _ _ _ (Hr (Newfs (super home) ∅ ∅ 0 (device s1)) eq_refl Hok)) as (rc & s2 & E2 & -> & _ & Hback).
  assert (Hin : (name_a, File 2 3 0 content) ∈ entries) by (by left).
  assert (Hn : name_ok name_a) by (by apply name_ok_dec).
  destruct (wp_elim _ _ _ (Hback name_a 2 3 0 content 2 1 Hin Hn name_a_only eq_refl ltac:(lia) ltac:(lia) ltac:(lia)))
    as (r & s3 & E3 & Hres).
  exists s1, s2, s3. split; [exact E1|]. split; [exact E2|]. rewrite Hres in E3. exact E3.
Defined.
End NewfsRemountWit.

Module NewfsMainWit.
Import NewfsDiskThms Newfs NewfsLookup NewfsThms NewfsWit NewfsTree NewfsRemount NewfsFuse NewfsSpec NewfsSpecThms
  NewfsRefine NewfsFormat NewfsMain.

Definition zeros : ram := Ram (fun _ => 0) 0.

Lemma zeros_blank : blank zeros.
Proof. split; vm_compute; try reflexivity; discriminate. Qed.

Definition requests : list request :=
  [Mkdir [docs]; Mknod [docs; name_a] S_IFREG; Mknod [name_b] S_IFREG; Write [name_b] [1; 2; 3] 0;
   Read [name_b] 2 1; Mkdir [docs]; Readdir [] 0; Write [docs] [1] 0; Read [name_a] 1 0; Unlink [name_b]].

Definition replies : list reply :=
  [RInt 0; RInt 0; RInt 0; RInt 3; RData 2 [2; 3]; RInt (-17); RFill 0 (Some (name_b, 1)); RInt (-21); RData (-2) []; RUnset].

Lemma requests_allowed : session_allowed zeros requests = true.
Proof. vm_compute. reflexivity. Qed.

Lemma requests_specified :
  fst (specified zeros requests) = replies /\
  objs (snd (specified zeros requests)) !! 0 = Some (ADir [(name_b, 3); (docs, 1)]) /\
  objs (snd (specified zeros requests)) !! 3 = Some (AFile [1; 2; 3]).
Proof. vm_compute. done. Qed.

Lemma newfs_refines_spec_witness :
  exists xs s, session 3 requests (boot zeros) = Ok (xs, s) /\ Forall2 agrees xs replies.
Proof.
  assert (Hfd : 0 <= 3) by lia.
  destruct (wp_elim _ _ _ (newfs_refines_spec zeros 3 requests zeros_blank Hfd requests_allowed)) as (xs & s & E & Hxs & _).
  exists xs, s. split; [exact E|]. rewrite (proj1 requests_specified) in Hxs. exact Hxs.
Defined.

Lemma newfs_heap_well_formed_witness :
  exists xs s r a size es, session 3 requests (boot zeros) = Ok (xs, s) /\ mounted s r a size es.
Proof.
  assert (Hfd : 0 <= 3) by lia.
  destruct (wp_elim _ _ _ (newfs_heap_well_formed zeros 3 requests zeros_blank Hfd requests_allowed))
    as (xs & s & E & r & a & size & es & Hm).
  exists xs, s, r, a, size, es. split; [exact E|exact Hm].
Defined.

(** After mounting again [/b] reads [2; 3] from offset 1, and [docs] comes first. *)
Lemma newfs_session_survives_witness :
  exists s s' s'', (_ ← session 3 requests; newfs_destroy) (boot zeros) = Ok (tt, s) /\
    newfs_init 4 (boot (device s)) = Ok (0, s') /\
    newfs_read (pathname [name_b]) 2 1 s' = Ok ((2, [2; 3]), s'') /\
    newfs_readdir [slash] 0 s' = Ok ((0, Some (docs, 1)), s').
Proof.
  assert (Hfd : 0 <= 3) by lia. assert (Hfd' : 0 <= 4) by lia.
  pose proof (newfs_session_survives zeros 3 4 requests zeros_blank Hfd Hfd' requests_allowed) as Hw.
  apply wp_elim in Hw as ([] & s & E & Hr).
  destruct (wp_elim _ _ _ Hr) as (rc & s' & E' & -> & Hroot & Hfiles).
  destruct requests_specified as (_ & Hes & Hb).
  assert (Ha : alone (name_b, 3) [(name_b, 3); (docs, 1)]).
  { intros e He Hm. apply elem_of_cons in He as [->|He]; [done|]. apply list_elem_of_singleton in He as ->. by vm_compute in Hm. }
  destruct (wp_elim _ _ _ (Hfiles _ (name_b, 3) _ 2 1 Hes ltac:(by left) Hb Ha eq_refl ltac:(lia) ltac:(lia) ltac:(cbn; lia)))
    as (x & s'' & E'' & Hx).
  exists s, s', s''. split; [exact E|]. split; [exact E'|]. split; [rewrite Hx in E''; exact E''|].
  exact (Hroot _ 0 Hes ltac:(lia)).
Defined.
End NewfsMainWit.
