(* ===== verification/Pipe.v ===== *)
(** * Pipes (fourth experiment, [pipe.c]): model

    A pipe is a ring of 512 bytes with two 32-bit counters that only grow and
    wrap around. [pipewrite] and [piperead] hold the pipe's lock except inside
    [sleep], so a call is a sequence of runs, each from taking the lock to
    sleeping or returning; threads interleave between runs. Reading and writing a
    byte of user memory is an interface ([copyin_new] is not part of the
    repository). *)

From S2P Require Import Prelude.

Definition PIPESIZE : Z := 512.

(** [struct pipe]; its lock is implicit in the granularity of the runs. *)
Record pipe : Type := Pipe {
  data : list Z;
  nread : Z;
  nwrite : Z;
  readopen : bool;
  writeopen : bool;
}.

(** One byte of a process's memory: [copyin_new(pagetable, &ch, addr, 1)] and
    [copyout(pagetable, addr, &ch, 1)], [None] for [-1]. *)
Class UserMem (U : Type) : Type := {
  copyin1 : U -> Z -> option Z;
  copyout1 : U -> Z -> Z -> option U;
}.

(** The two sleep channels of a pipe. *)
Inductive channel : Type := ChNread | ChNwrite.
#[export] Instance channel_eq_dec : EqDecision channel.
Proof. solve_decision. Defined.

(** How a run ends: the thread sleeps on a channel, or the call returns. *)
Inductive ending : Type :=
| Sleeps (c : channel)
| Returns (r : Z).

Module Pipe.
Section ops.
Context {U : Type} `{!UserMem U}.

Definition full (pi : pipe) : bool := nwrite pi =? u32 (nread pi + PIPESIZE).

(** [pi->data[pi->nwrite++ % PIPESIZE] = ch] *)
Definition push (ch : Z) (pi : pipe) : pipe :=
  Pipe (<[Z.to_nat (nwrite pi mod PIPESIZE) := ch]> (data pi)) (nread pi) (u32 (nwrite pi + 1))
    (readopen pi) (writeopen pi).

(** [ch = pi->data[pi->nread++ % PIPESIZE]] *)
Definition front (pi : pipe) : Z := nth (Z.to_nat (nread pi mod PIPESIZE)) (data pi) 0.
Definition pop (pi : pipe) : pipe :=
  Pipe (data pi) (u32 (nread pi + 1)) (nwrite pi) (readopen pi) (writeopen pi).

(** One run of [pipewrite] at iteration [i] with [k] bytes to go. Returns the
    ending, the channels woken, the iteration reached and the pipe. [killed] is
    read at most once in a run. *)
Fixpoint pipewrite_run (k : nat) (u : U) (addr : Z) (killed : bool) (i : Z) (pi : pipe)
    : ending * list channel * Z * pipe :=
  match k with
  | O => (Returns i, [ChNread], i, pi)
  | S k' =>
      if full pi then
        if negb (readopen pi) || killed then (Returns (-1), [], i, pi)
        else (Sleeps ChNwrite, [ChNread], i, pi)
      else
        match copyin1 u (addr + i) with
        | None => (Returns i, [ChNread], i, pi)
        | Some ch => pipewrite_run k' u addr killed (i + 1) (push ch pi)
        end
  end.

(** The copying loop of [piperead]. Returns the count, the user memory and the
    pipe. *)
Fixpoint piperead_loop (k : nat) (u : U) (addr i : Z) (pi : pipe) : Z * U * pipe :=
  match k with
  | O => (i, u, pi)
  | S k' =>
      if nread pi =? nwrite pi then (i, u, pi) else
      match copyout1 u (addr + i) (front pi) with
      | None => (i, u, pop pi)
      | Some u' => piperead_loop k' u' addr (i + 1) (pop pi)
      end
  end.

(** One run of [piperead]. *)
Definition piperead_run (n : Z) (u : U) (addr : Z) (killed : bool) (pi : pipe)
    : ending * list channel * U * pipe :=
  if (nread pi =? nwrite pi) && writeopen pi then
    if killed then (Returns (-1), [], u, pi) else (Sleeps ChNread, [], u, pi)
  else
    let '(i, u', pi') := piperead_loop (Z.to_nat n) u addr 0 pi in
    (Returns i, [ChNwrite], u', pi').

(** [pipeclose]: the channel woken, the pipe, and whether its page is freed. *)
Definition pipeclose (writable : bool) (pi : pipe) : channel * pipe * bool :=
  let '(c, pi) :=
    if writable then (ChNread, Pipe (data pi) (nread pi) (nwrite pi) (readopen pi) false)
    else (ChNwrite, Pipe (data pi) (nread pi) (nwrite pi) false (writeopen pi)) in
  (c, pi, negb (readopen pi) && negb (writeopen pi)).

(** ** Threads *)

(** A call in progress. A writer is at iteration [i]. *)
Inductive call : Type :=
| Writing (u : U) (addr n i : Z)
| Reading (u : U) (addr n : Z).

Inductive status : Type :=
| Ready
| Asleep (c : channel)
| Finished (r : Z).

Record thread : Type := Thread { th_call : call; th_status : status }.

Record machine : Type := Machine { pi_of : pipe; threads : gmap nat thread }.

(** [wakeup(chan)] *)
Definition wake_one (c : channel) (t : thread) : thread :=
  match th_status t with
  | Asleep c' => if decide (c = c') then Thread (th_call t) Ready else t
  | _ => t
  end.
Definition wake (cs : list channel) (ts : gmap nat thread) : gmap nat thread :=
  foldl (fun ts c => wake_one c <$> ts) ts cs.

Definition status_of (e : ending) : status :=
  match e with Sleeps c => Asleep c | Returns r => Finished r end.

Definition is_writer (t : thread) : bool := if th_call t is Writing _ _ _ _ then true else false.
Definition active (t : thread) : bool := if th_status t is Finished _ then false else true.

(** A run of thread [t] whose [killed] flag reads [k]; the wakeups come before
    the thread goes to sleep. *)
Definition run (k : bool) (t : thread) (pi : pipe) : list channel * thread * pipe :=
  match th_call t with
  | Writing u addr n i =>
      let '(e, cs, i', pi') := pipewrite_run (Z.to_nat (n - i)) u addr k i pi in
      (cs, Thread (Writing u addr n i') (status_of e), pi')
  | Reading u addr n =>
      let '(e, cs, u', pi') := piperead_run n u addr k pi in
      (cs, Thread (Reading u' addr n) (status_of e), pi')
  end.

(** What can happen: a new call, a run of a thread that is ready, or the last
    close of one end, which no call in progress on that end can meet because the
    caller's descriptor keeps the file open. *)
Inductive event : Type :=
| ECall (id : nat)
| ERun (id : nat) (killed : bool)
| EClose (writable : bool).

Inductive step : machine -> event -> machine -> Prop :=
| step_write pi (ts : gmap nat thread) id u addr n :
    ts !! id = None -> writeopen pi = true ->
    step (Machine pi ts) (ECall id) (Machine pi (<[id := Thread (Writing u addr n 0) Ready]> ts))
| step_read pi (ts : gmap nat thread) id u addr n :
    ts !! id = None -> readopen pi = true ->
    step (Machine pi ts) (ECall id) (Machine pi (<[id := Thread (Reading u addr n) Ready]> ts))
| step_run pi (ts : gmap nat thread) id k t cs t' pi' :
    ts !! id = Some t -> th_status t = Ready -> run k t pi = (cs, t', pi') ->
    step (Machine pi ts) (ERun id k) (Machine pi' (<[id := t']> (wake cs ts)))
| step_close pi (ts : gmap nat thread) (w : bool) c pi' freed :
    (if w then writeopen pi else readopen pi) = true ->
    (forall id t, ts !! id = Some t -> is_writer t = w -> active t = false) ->
    pipeclose w pi = (c, pi', freed) ->
    step (Machine pi ts) (EClose w) (Machine pi' (wake [c] ts)).

Inductive steps : machine -> list event -> machine -> Prop :=
| steps_nil m : steps m [] m
| steps_snoc m es m' e m'' : steps m es m' -> step m' e m'' -> steps m (es ++ [e]) m''.
End ops.
Arguments Machine {U}.
Arguments Writing {U}.
Arguments Reading {U}.
Arguments Thread {U}.

(** ** Creation *)

(** The kernel calls [pipealloc] makes: the file table is not part of the
    repository. A file handle and a page are numbers; 0 is null. *)
Class PipeKernel (K : Type) : Type := {
  filealloc : K -> Z * K;
  fileclose : Z -> K -> K;
  pk_kalloc : K -> Z * K;
  pk_kfree : Z -> K -> K;
}.

(** The members of [struct file] that [pipealloc] sets. *)
Record pipe_file : Type := PipeFile { f_readable : bool; f_writable : bool; f_pipe : Z }.

(** [pipealloc]: the result, the two files as they are filled in, the pipe. *)
Definition pipealloc {K} `{!PipeKernel K} (junk : list Z) (k : K)
    : Z * option (Z * pipe_file * (Z * pipe_file) * pipe) * K :=
  let '(f0, k1) := filealloc k in
  if f0 =? 0 then (-1, None, k1) else
  let '(f1, k2) := filealloc k1 in
  if f1 =? 0 then (-1, None, fileclose f0 k2) else
  let '(pi, k3) := pk_kalloc k2 in
  if pi =? 0 then (-1, None, fileclose f1 (fileclose f0 k3)) else
  (0, Some (f0, PipeFile true false pi, (f1, PipeFile false true pi), Pipe junk 0 0 true true), k3).
End Pipe.
