(* ===== verification/PipeThms.v ===== *)
(** * Pipes: a first-in first-out channel

    The ring buffer with its wrapping counters represents a queue of at most 512
    bytes; every run of a call appends to it or takes from it; under every
    interleaving the bytes come out in the order in which they went in, and a
    thread sleeps only while its end has nothing to do. *)

From S2P Require Import Prelude.
From S2P Require Import Pipe.

Module PipeThms.
Import Pipe.

(** ** The ring *)
Definition count (pi : pipe) : Z := u32 (nwrite pi - nread pi).

(** The bytes in the pipe, oldest first. *)
Definition contents (pi : pipe) : list Z :=
  map (fun j => nth (Z.to_nat ((nread pi + Z.of_nat j) mod PIPESIZE)) (data pi) 0)
    (seq 0 (Z.to_nat (count pi))).

Record ring_ok (pi : pipe) : Prop := {
  ro_data : length (data pi) = Z.to_nat PIPESIZE;
  ro_nread : 0 <= nread pi < 2 ^ 32;
  ro_nwrite : 0 <= nwrite pi < 2 ^ 32;
  ro_count : count pi <= PIPESIZE;
}.

Lemma length_contents pi : length (contents pi) = Z.to_nat (count pi).
Proof. unfold contents. by rewrite length_map, length_seq. Qed.

Lemma count_pos pi : 0 <= count pi.
Proof. apply u32_range. Qed.

Lemma full_count pi : ring_ok pi -> full pi = (count pi =? PIPESIZE).
Proof.
  intros [_ Hr Hw Hc]. unfold full, count, u32, PIPESIZE in *.
  apply eq_iff_eq_true. rewrite !Z.eqb_eq. Z.to_euclidean_division_equations; lia.
Qed.

Lemma empty_count pi : ring_ok pi -> (nread pi =? nwrite pi) = (count pi =? 0).
Proof.
  intros [_ Hr Hw Hc]. unfold count, u32, PIPESIZE in *.
  apply eq_iff_eq_true. rewrite !Z.eqb_eq. Z.to_euclidean_division_equations; lia.
Qed.

Lemma empty_contents pi : count pi = 0 -> contents pi = [].
Proof. intros Hc. apply nil_length_inv. by rewrite length_contents, Hc. Qed.

Lemma count_push ch pi : ring_ok pi -> full pi = false -> count (push ch pi) = count pi + 1.
Proof.
  intros Hok Hf. rewrite full_count in Hf by done. destruct Hok as [_ Hr Hw Hc].
  unfold count, push, u32, PIPESIZE in *. cbn [nread nwrite] in *.
  apply Z.eqb_neq in Hf. Z.to_euclidean_division_equations; lia.
Qed.

Lemma count_pop pi : ring_ok pi -> count pi <> 0 -> count (pop pi) = count pi - 1.
Proof.
  intros [_ Hr Hw Hc] Hn. unfold count, pop, u32, PIPESIZE in *. cbn [nread nwrite] in *.
  Z.to_euclidean_division_equations; lia.
Qed.

Lemma ring_ok_push ch pi : ring_ok pi -> full pi = false -> ring_ok (push ch pi).
Proof.
  intros Hok Hf. pose proof (count_push ch pi Hok Hf) as Hcnt. rewrite full_count in Hf by done.
  apply Z.eqb_neq in Hf. destruct Hok as [Hd Hr Hw Hc]. split.
  - unfold push. cbn [data]. by rewrite length_insert.
  - done.
  - apply u32_range.
  - lia.
Qed.

Lemma ring_ok_pop pi : ring_ok pi -> count pi <> 0 -> ring_ok (pop pi).
Proof.
  intros Hok Hn. pose proof (count_pop pi Hok Hn) as Hcnt. destruct Hok as [Hd Hr Hw Hc].
  split; [done|apply u32_range|done|lia].
Qed.

(** The write position is [count] places after the read position. *)
Lemma nwrite_slot pi : ring_ok pi -> nwrite pi mod PIPESIZE = (nread pi + count pi) mod PIPESIZE.
Proof.
  intros [_ Hr Hw _]. unfold count, u32, PIPESIZE. Z.to_euclidean_division_equations; lia.
Qed.

Lemma nread_slot pi j : 0 <= nread pi < 2 ^ 32 -> 0 <= j ->
  (u32 (nread pi + 1) + j) mod PIPESIZE = (nread pi + (j + 1)) mod PIPESIZE.
Proof. intros Hr Hj. unfold u32, PIPESIZE. Z.to_euclidean_division_equations; lia. Qed.

Lemma slot_ne a x y : 0 <= x < y -> y - x < 512 -> (a + x) mod PIPESIZE <> (a + y) mod PIPESIZE.
Proof. intros Hx Hy. unfold PIPESIZE. Z.to_euclidean_division_equations; lia. Qed.

Lemma contents_push ch pi :
  ring_ok pi -> full pi = false -> contents (push ch pi) = contents pi ++ [ch].
Proof.
  intros Hok Hf. unfold contents. rewrite count_push by done. pose proof (count_pos pi).
  pose proof Hf as Hf'. rewrite full_count in Hf' by done. apply Z.eqb_neq in Hf'.
  pose proof (ro_count pi Hok) as Hc. pose proof (ro_data pi Hok) as Hd.
  replace (Z.to_nat (count pi + 1)) with (Z.to_nat (count pi) + 1)%nat by lia.
  rewrite seq_app, map_app. cbn [seq map]. unfold push. cbn [data nread]. rewrite (nwrite_slot pi Hok).
  assert (Hs : forall x, (x mod PIPESIZE) < PIPESIZE /\ 0 <= x mod PIPESIZE).
  { intros x. unfold PIPESIZE. pose proof (Z.mod_pos_bound x 512). lia. }
  f_equal.
  - apply map_ext_in. intros j Hj%in_seq. rewrite !nth_lookup.
    rewrite list_lookup_insert_ne; [done|].
    pose proof (slot_ne (nread pi) (Z.of_nat j) (count pi) ltac:(lia) ltac:(unfold PIPESIZE in *; lia)).
    pose proof (Hs (nread pi + Z.of_nat j)). pose proof (Hs (nread pi + count pi)). lia.
  - f_equal. rewrite ?Nat.add_0_l, Z2Nat.id by done. rewrite nth_lookup.
    rewrite list_lookup_insert_eq; [done|]. rewrite Hd.
    pose proof (Hs (nread pi + count pi)). lia.
Qed.

Lemma contents_pop pi :
  ring_ok pi -> count pi <> 0 -> contents pi = front pi :: contents (pop pi).
Proof.
  intros Hok Hn. pose proof (count_pos pi). unfold contents. rewrite count_pop by done.
  replace (Z.to_nat (count pi)) with (S (Z.to_nat (count pi - 1))) by lia. cbn [seq map].
  rewrite Z.add_0_r. unfold front. f_equal. rewrite <- seq_shift, map_map. apply map_ext. intros j.
  unfold pop. cbn [nread data]. rewrite (nread_slot pi (Z.of_nat j)) by (apply Hok || lia).
  do 2 f_equal. f_equal. lia.
Qed.

(** ** Runs *)
Section runs.
Context {U : Type} `{!UserMem U}.

(** The bytes at [addr + i .. addr + i' - 1] of the writer's memory. *)
Inductive taken_from (u : U) (addr : Z) : Z -> list Z -> Z -> Prop :=
| taken_nil i : taken_from u addr i [] i
| taken_cons i ch l i' :
    copyin1 u (addr + i) = Some ch -> taken_from u addr (i + 1) l i' ->
    taken_from u addr i (ch :: l) i'.

(** Storing the bytes one after the other in the reader's memory. *)
Inductive stored_to (addr : Z) : U -> Z -> list Z -> U -> Z -> Prop :=
| stored_nil u i : stored_to addr u i [] u i
| stored_cons u i ch l u1 u' i' :
    copyout1 u (addr + i) ch = Some u1 -> stored_to addr u1 (i + 1) l u' i' ->
    stored_to addr u i (ch :: l) u' i'.

(** A run of [pipewrite] appends the next bytes of the buffer, in order. *)
Lemma pipewrite_run_spec k u addr killed : forall i pi e cs i' pi',
  ring_ok pi -> pipewrite_run k u addr killed i pi = (e, cs, i', pi') ->
  ring_ok pi' /\ readopen pi' = readopen pi /\ writeopen pi' = writeopen pi /\
  (exists sent, taken_from u addr i sent i' /\ contents pi' = contents pi ++ sent) /\
  match e with
  | Returns r => (r = i' /\ cs = [ChNread]) \/
                 (r = -1 /\ cs = [] /\ count pi' = PIPESIZE /\ (readopen pi = false \/ killed = true))
  | Sleeps c => c = ChNwrite /\ cs = [ChNread] /\ count pi' = PIPESIZE /\ readopen pi = true
  end.
Proof.
  induction k as [|k IH]; intros i pi e cs i' pi' Hok Hrun; cbn [pipewrite_run] in Hrun.
  { simplify_eq. split_and!; try done; [|by left]. exists []. split; [constructor|by rewrite app_nil_r]. }
  destruct (full pi) eqn:Hf.
  - assert (Hc : count pi = PIPESIZE) by (rewrite full_count in Hf by done; by apply Z.eqb_eq).
    assert (Hnil : exists sent, taken_from u addr i sent i /\ contents pi = contents pi ++ sent).
    { exists []. split; [constructor|by rewrite app_nil_r]. }
    destruct (readopen pi) eqn:Hro, killed; cbn in Hrun; simplify_eq; split_and!; try done; right; auto.
  - destruct (copyin1 u (addr + i)) as [ch|] eqn:Hch.
    2: { simplify_eq. split_and!; try done; [|by left]. exists []. split; [constructor|by rewrite app_nil_r]. }
    apply IH in Hrun as (Hok' & Hr & Hw & (sent & Ht & Hcont) & He); [|by apply ring_ok_push].
    split_and!; [done..| |done]. exists (ch :: sent). split; [by econstructor|].
    rewrite Hcont, contents_push by done. by rewrite <- app_assoc.
Qed.

(** The loop of [piperead] takes bytes from the front and stores them in order;
    at most one byte it took is lost, when storing it fails. *)
Lemma piperead_loop_spec k addr : forall u i pi i' u' pi',
  ring_ok pi -> piperead_loop k u addr i pi = (i', u', pi') ->
  ring_ok pi' /\ readopen pi' = readopen pi /\ writeopen pi' = writeopen pi /\
  exists got lost, stored_to addr u i got u' i' /\ (length lost <= 1)%nat /\
    contents pi = got ++ lost ++ contents pi'.
Proof.
  induction k as [|k IH]; intros u i pi i' u' pi' Hok Hrun; cbn [piperead_loop] in Hrun.
  { simplify_eq. split_and!; try done. exists [], []. split; [constructor|]. by split; [cbn; lia|]. }
  rewrite empty_count in Hrun by done. destruct (Z.eqb_spec (count pi) 0).
  { simplify_eq. split_and!; try done. exists [], []. split; [constructor|]. by split; [cbn; lia|]. }
  destruct (copyout1 u (addr + i) (front pi)) as [u1|] eqn:Hc.
  - apply IH in Hrun as (Hok' & Hr & Hw & got & lost & Hst & Hl & Hcont); [|by apply ring_ok_pop].
    split_and!; [done..|]. exists (front pi :: got), lost. split_and!; [by econstructor|done|].
    rewrite contents_pop by done. by rewrite Hcont.
  - simplify_eq. split_and!; [by apply ring_ok_pop|done..|]. exists [], [front pi].
    split_and!; [constructor|done|]. by apply contents_pop.
Qed.

(** What a run does to user memory: the bytes it takes from a writer, stores for
    a reader, and loses. *)
Inductive moved : thread (U := U) -> thread (U := U) -> list Z -> list Z -> list Z -> Prop :=
| moved_write u addr n i i' st st' sent :
    taken_from u addr i sent i' ->
    moved (Thread (Writing u addr n i) st) (Thread (Writing u addr n i') st') sent [] []
| moved_read u u' addr n i' st st' got lost :
    stored_to addr u 0 got u' i' -> (length lost <= 1)%nat ->
    moved (Thread (Reading u addr n) st) (Thread (Reading u' addr n) st') [] got lost.

Lemma run_spec k t pi cs t' pi' :
  ring_ok pi -> run k t pi = (cs, t', pi') ->
  ring_ok pi' /\ readopen pi' = readopen pi /\ writeopen pi' = writeopen pi /\
  exists sent got lost, moved t t' sent got lost /\ contents pi ++ sent = got ++ lost ++ contents pi'.
Proof.
  intros Hok Hrun. destruct t as [[u addr n i|u addr n] st]; cbn [run th_call] in Hrun.
  - destruct (pipewrite_run _ u addr k i pi) as [[[e cs0] i'] pi0] eqn:E. simplify_eq.
    destruct (pipewrite_run_spec _ _ _ _ _ _ _ _ _ _ Hok E) as (? & ? & ? & (sent & Ht & Hc) & _).
    split_and!; [done..|]. exists sent, [], []. split; [by constructor|]. by rewrite Hc.
  - unfold piperead_run in Hrun. destruct ((nread pi =? nwrite pi) && writeopen pi) eqn:E.
    + assert (pi' = pi /\ exists st', t' = Thread (Reading u addr n) st') as [-> [st' ->]]
        by (destruct k; simplify_eq; eauto).
      split_and!; [done..|]. exists [], [], []. split; [|by rewrite app_nil_r].
      econstructor; [constructor|cbn; lia].
    + destruct (piperead_loop _ u addr 0 pi) as [[i' u'] pi0] eqn:El. simplify_eq.
      destruct (piperead_loop_spec _ _ _ _ _ _ _ _ Hok El) as (? & ? & ? & got & lost & Hs & Hl & Hc).
      split_and!; [done..|]. exists [], got, lost. split; [by econstructor|]. by rewrite app_nil_r, Hc.
Qed.

(** ** Interleavings *)

(** The bytes that went into and came out of user memory along a sequence of
    events. *)
Inductive history : machine (U := U) -> list event -> list Z -> list Z -> machine (U := U) -> Prop :=
| history_nil m : history m [] [] [] m
| history_run m es W R pi ts id k t cs t' pi' sent got lost :
    history m es W R (Machine pi ts) -> ts !! id = Some t -> run k t pi = (cs, t', pi') ->
    moved t t' sent got lost ->
    history m (es ++ [ERun id k]) (W ++ sent) (R ++ got ++ lost)
      (Machine pi' (<[id := t']> (wake cs ts)))
| history_other m es W R m' e m'' :
    history m es W R m' -> step m' e m'' -> (forall id k, e <> ERun id k) ->
    history m (es ++ [e]) W R m''.

Lemma pipeclose_spec w pi c pi' freed :
  ring_ok pi -> pipeclose w pi = (c, pi', freed) ->
  ring_ok pi' /\ contents pi' = contents pi /\ count pi' = count pi /\
  c = (if w then ChNread else ChNwrite).
Proof. intros [? ? ? ?] Hc. unfold pipeclose in Hc. destruct w; simplify_eq; split_and!; done. Qed.

Lemma step_ring_ok m e m' : ring_ok (pi_of m) -> step m e m' -> ring_ok (pi_of m').
Proof.
  intros Hok Hst. destruct Hst as [| |pi ts id k t cs t' pi' ? ? Hrun|pi ts w c pi' freed ? ? Hcl]; cbn in *; try done.
  - by eapply run_spec.
  - by eapply pipeclose_spec.
Qed.

(** C5: Under every interleaving of calls, runs and closes, whatever the counters'
    values, the bytes taken from the writers' buffers come out in the same order:
    the bytes stored for readers (and at most one per failing call that is lost
    when storing it fails) followed by the bytes still in the pipe are the bytes
    that were there at first followed by those written, and the pipe never holds
    more than 512. *)
Theorem pipe_is_fifo m es m' :
  ring_ok (pi_of m) -> steps m es m' ->
  exists W R, history m es W R m' /\
    contents (pi_of m) ++ W = R ++ contents (pi_of m') /\
    Z.of_nat (length (contents (pi_of m'))) <= PIPESIZE.
Proof.
  intros Hok Hst.
  assert (Hgoal : ring_ok (pi_of m') /\ exists W R, history m es W R m' /\
    contents (pi_of m) ++ W = R ++ contents (pi_of m')).
  2: { destruct Hgoal as (Hok' & W & R & Hh & He). exists W, R. split_and!; [done..|].
       rewrite length_contents. pose proof (ro_count _ Hok'). pose proof (count_pos (pi_of m')). lia. }
  induction Hst as [m|m es m' e m'' Hst IH He].
  { split; [done|]. exists [], []. split; [constructor|by rewrite app_nil_r]. }
  destruct (IH Hok) as (Hok' & W & R & Hh & Heq). split; [by eapply step_ring_ok|].
  destruct He as [pi ts id u addr n Hn Ho|pi ts id u addr n Hn Ho|pi ts id k t cs t' pi' Ht Hs Hrun|pi ts w c pi' freed Ho Ha Hcl].
  - exists W, R. split; [|done]. eapply history_other; [done|by apply step_write|done].
  - exists W, R. split; [|done]. eapply history_other; [done|by apply step_read|done].
  - destruct (run_spec _ _ _ _ _ _ Hok' Hrun) as (_ & _ & _ & sent & got & lost & Hm & Hc).
    exists (W ++ sent), (R ++ got ++ lost). split; [by econstructor|].
    cbn in *. rewrite app_assoc, Heq, <- !app_assoc, Hc. done.
  - exists W, R. split; [eapply history_other; [done|by eapply step_close|done]|].
    destruct (pipeclose_spec _ _ _ _ _ Hok' Hcl) as (_ & Hc & _). cbn in *. by rewrite Hc.
Qed.

(** ** Sleeping threads *)

(** A thread sleeps only while its end has nothing to do and the other end is
    open, and a call in progress keeps its own end open. *)
Definition sleeps_ok (pi : pipe) (t : thread (U := U)) : Prop :=
  match th_status t with
  | Asleep ChNread => is_writer t = false /\ count pi = 0 /\ writeopen pi = true
  | Asleep ChNwrite => is_writer t = true /\ count pi = PIPESIZE /\ readopen pi = true
  | _ => True
  end.
Definition end_open (pi : pipe) (t : thread (U := U)) : Prop :=
  active t = true -> (if is_writer t then writeopen pi else readopen pi) = true.

Record awake_inv (m : machine (U := U)) : Prop := {
  ai_ring : ring_ok (pi_of m);
  ai_sleep id t : threads m !! id = Some t -> sleeps_ok (pi_of m) t;
  ai_open id t : threads m !! id = Some t -> end_open (pi_of m) t;
}.

Lemma wake_lookup cs : forall (ts : gmap nat (thread (U := U))) id t',
  wake cs ts !! id = Some t' ->
  exists t, ts !! id = Some t /\ th_call t' = th_call t /\
    ((th_status t' = th_status t /\ forall c, th_status t = Asleep c -> c ∉ cs) \/
     (th_status t' = Ready /\ active t = true)).
Proof.
  induction cs as [|c cs IH]; intros ts id t' Ht'; cbn in *.
  { exists t'. split_and!; [done..|]. left. split; [done|set_solver]. }
  apply IH in Ht' as (t1 & Ht1 & Hc & Hst). rewrite lookup_fmap in Ht1.
  destruct (ts !! id) as [t|] eqn:E; [|done]. cbn in Ht1. simplify_eq. exists t. split; [done|].
  unfold wake_one in *. destruct (th_status t) as [|c'|r] eqn:Et.
  - split; [done|]. left. destruct Hst as [[-> _]|[-> _]]; (split; [congruence|done]).
  - destruct (decide (c = c')) as [->|Hne]; cbn in *.
    + split; [done|]. right. destruct Hst as [[-> _]|[-> _]]; (split; [done|]); unfold active; by rewrite Et.
    + split; [done|]. destruct Hst as [[-> Hn]|[-> Hn]]; [left|right; done]. split; [done|].
      intros c0 [= <-]. apply not_elem_of_cons. split; [done|]. by apply Hn.
  - split; [done|]. left. destruct Hst as [[-> _]|[_ Ha]]; [by split|]. unfold active in Ha. by rewrite Et in Ha.
Qed.

(** The other threads after a run: whoever is still asleep was not woken. *)
Lemma wake_sleeps_ok cs (ts : gmap nat (thread (U := U))) pi pi' :
  (forall id t, ts !! id = Some t -> sleeps_ok pi t) ->
  (forall id t c, ts !! id = Some t -> th_status t = Asleep c -> c ∉ cs -> sleeps_ok pi t -> sleeps_ok pi' t) ->
  forall id t, wake cs ts !! id = Some t -> sleeps_ok pi' t.
Proof.
  intros Hall Hstep id t' Ht'. destruct (wake_lookup _ _ _ _ Ht') as (t & Ht & Hcall & Hst).
  destruct Hst as [[Hst Hn]|[Hst _]].
  - assert (Hs : sleeps_ok pi' t).
    { destruct (th_status t) as [|c|r] eqn:E; [by unfold sleeps_ok; rewrite E| |by unfold sleeps_ok; rewrite E].
      eapply Hstep; eauto. }
    unfold sleeps_ok, is_writer in *. by rewrite Hst, Hcall.
  - unfold sleeps_ok. by rewrite Hst.
Qed.

Lemma wake_end_open cs (ts : gmap nat (thread (U := U))) pi :
  (forall id t, ts !! id = Some t -> end_open pi t) ->
  forall id t, wake cs ts !! id = Some t -> end_open pi t.
Proof.
  intros Hall id t' Ht'. destruct (wake_lookup _ _ _ _ Ht') as (t & Ht & Hcall & Hst).
  specialize (Hall _ _ Ht). unfold end_open, is_writer, active in *. rewrite Hcall.
  destruct Hst as [[-> _]|[-> Ha]]; auto.
Qed.

(** A run that does not find its process killed: it sleeps rightly itself, and
    leaves asleep only threads that still have nothing to do. *)
Lemma run_sleeps_ok t pi cs t' pi' :
  ring_ok pi -> run false t pi = (cs, t', pi') ->
  sleeps_ok pi' t' /\ is_writer t' = is_writer t /\
  forall t2 c, th_status t2 = Asleep c -> c ∉ cs -> sleeps_ok pi t2 -> end_open pi t2 -> sleeps_ok pi' t2.
Proof.
  intros Hok Hrun. destruct t as [[u addr n i|u addr n] st]; cbn [run th_call] in Hrun.
  - destruct (pipewrite_run _ u addr false i pi) as [[[e cs0] i'] pi0] eqn:E. simplify_eq.
    destruct (pipewrite_run_spec _ _ _ _ _ _ _ _ _ _ Hok E) as (Hok' & Hr & Hw & (sent & _ & Hc) & He).
    apply (f_equal length) in Hc. rewrite length_app, !length_contents in Hc.
    pose proof (count_pos pi). pose proof (count_pos pi'). pose proof (ro_count _ Hok').
    split_and!; [|done|].
    + destruct e as [c|r]; [|done]. destruct He as (-> & _ & Hf & Hro). cbn. by rewrite Hr.
    + intros t2 c Ht2 Hcn Hs2 Ho2. unfold sleeps_ok, end_open, active in *. rewrite Ht2 in *.
      destruct c; destruct Hs2 as (Hwr & Hcnt & Hop).
      * exfalso. destruct e as [c|r]; [destruct He as (_ & -> & _); set_solver|].
        destruct He as [[_ ->]|(_ & _ & _ & [Hc2|?])]; [set_solver| |done].
        rewrite Hwr in Ho2. specialize (Ho2 eq_refl). congruence.
      * split_and!; [done|lia|congruence].
  - unfold piperead_run in Hrun. destruct ((nread pi =? nwrite pi) && writeopen pi) eqn:E.
    + simplify_eq. apply andb_true_iff in E as [E Hw]. rewrite empty_count in E by done. apply Z.eqb_eq in E.
      split_and!; [by cbn|done|]. intros; done.
    + destruct (piperead_loop _ u addr 0 pi) as [[i' u'] pi0] eqn:El. simplify_eq.
      split_and!; [done|done|]. intros t2 c Ht2 Hcn Hs2 Ho2. exfalso. unfold sleeps_ok in *. rewrite Ht2 in *.
      destruct c; [|set_solver]. destruct Hs2 as (_ & Hcnt & Hop).
      rewrite empty_count, Hcnt, Hop in E by done. done.
Qed.

Lemma step_awake m e m' :
  (forall id, e <> ERun id true) -> awake_inv m -> step m e m' -> awake_inv m'.
Proof.
  intros Hk Hinv Hst. pose proof Hinv as [Hok Hsl Hop]. pose proof (step_ring_ok _ _ _ Hok Hst) as Hok'.
  destruct Hst as [pi ts id u addr n Hn Ho|pi ts id u addr n Hn Ho|pi ts id k t cs t' pi' Ht Hs Hrun|pi ts w c pi' freed Ho Ha Hcl];
    cbn [pi_of threads] in *; (split; [done|..]); cbn [pi_of threads].
  - intros j x [[<- <-]|[_ Hx]]%lookup_insert_Some; eauto; by try intros _.
  - intros j x [[<- <-]|[_ Hx]]%lookup_insert_Some; eauto; by try intros _.
  - intros j x [[<- <-]|[_ Hx]]%lookup_insert_Some; eauto; by try intros _.
  - intros j x [[<- <-]|[_ Hx]]%lookup_insert_Some; eauto; by try intros _.
  - destruct k; [by destruct (Hk id)|].
    destruct (run_sleeps_ok _ _ _ _ _ Hok Hrun) as (Hself & _ & Hothers).
    intros j x [[<- <-]|[_ Hx]]%lookup_insert_Some; [done|].
    eapply wake_sleeps_ok; [exact Hsl| |exact Hx]. eauto.
  - destruct k; [by destruct (Hk id)|].
    destruct (run_sleeps_ok _ _ _ _ _ Hok Hrun) as (_ & Hwr & _).
    destruct (run_spec _ _ _ _ _ _ Hok Hrun) as (_ & Hr & Hw & _).
    assert (Heq : forall x, end_open pi x -> end_open pi' x).
    { intros x. unfold end_open. by rewrite Hr, Hw. }
    intros j x [[<- <-]|[_ Hx]]%lookup_insert_Some; apply Heq; [|by eapply wake_end_open].
    intros _. rewrite Hwr. apply (Hop _ _ Ht). unfold active. by rewrite Hs.
  - destruct (pipeclose_spec _ _ _ _ _ Hok Hcl) as (_ & _ & Hcnt & ->).
    eapply wake_sleeps_ok; [exact Hsl|]. intros j x c Hx Hc Hn Hsx. exfalso.
    specialize (Ha _ _ Hx). unfold active, sleeps_ok in *. rewrite Hc in *.
    destruct w, c; try set_solver; destruct Hsx as [Hwx _]; specialize (Ha Hwx); done.
  - intros j x Hx. destruct (wake_lookup _ _ _ _ Hx) as (y & Hy & Hcall & _).
    pose proof (wake_end_open _ _ pi Hop _ _ Hx) as Hx'. unfold end_open, is_writer in *.
    intros Hact. specialize (Hx' Hact). specialize (Ha _ _ Hy). unfold is_writer in Ha. rewrite <- Hcall in Ha.
    assert (Hacty : active y = true).
    { destruct (wake_lookup _ _ _ _ Hx) as (y' & Hy' & _ & [[Est _]|[_ Hy2]]); simplify_eq; [|done].
      unfold active in *. by rewrite <- Est. }
    unfold pipeclose in Hcl. destruct w; simplify_eq; cbn in *; destruct (th_call x); try done;
      rewrite Hacty in Ha; by specialize (Ha eq_refl).
Qed.

(** A new pipe with no calls. *)
Definition fresh_machine (junk : list Z) : machine (U := U) := Machine (Pipe junk 0 0 true true) ∅.

Lemma fresh_awake junk : length junk = Z.to_nat PIPESIZE -> awake_inv (fresh_machine junk).
Proof. intros Hl. split; [by split|..]; intros id t; cbn; by rewrite lookup_empty. Qed.

(** C30: As long as no caller is killed, a thread that sleeps in [piperead] has an
    empty pipe whose write end is open, and one that sleeps in [pipewrite] a full
    pipe whose read end is open: no wakeup is ever lost, and readers and writers
    are never asleep at the same time. *)
Theorem pipe_no_lost_wakeup junk es m :
  length junk = Z.to_nat PIPESIZE -> steps (fresh_machine junk) es m ->
  (forall id, ERun id true ∉ es) ->
  (forall id t, threads m !! id = Some t -> th_status t = Asleep ChNread ->
     is_writer t = false /\ contents (pi_of m) = [] /\ writeopen (pi_of m) = true) /\
  (forall id t, threads m !! id = Some t -> th_status t = Asleep ChNwrite ->
     is_writer t = true /\ Z.of_nat (length (contents (pi_of m))) = PIPESIZE /\ readopen (pi_of m) = true) /\
  (forall id1 t1 id2 t2, threads m !! id1 = Some t1 -> threads m !! id2 = Some t2 ->
     ~ (th_status t1 = Asleep ChNread /\ th_status t2 = Asleep ChNwrite)).
Proof.
  intros Hj Hst Hk.
  assert (Hinv : awake_inv m).
  { assert (Hfresh := fresh_awake junk Hj). revert Hfresh Hk Hst. generalize (fresh_machine junk).
    intros m0 Hfresh Hk Hst. induction Hst as [|m0 es m' e m'' Hst IH He]; [done|].
    eapply step_awake; [|apply IH; [done|]|exact He].
    - intros id ->. apply (Hk id). set_solver.
    - intros id Hin. apply (Hk id). set_solver. }
  destruct Hinv as [Hok Hsl _]. split_and!.
  - intros id t Ht Hs. specialize (Hsl _ _ Ht). unfold sleeps_ok in Hsl. rewrite Hs in Hsl.
    destruct Hsl as (? & Hc & ?). split_and!; [done|by apply empty_contents|done].
  - intros id t Ht Hs. specialize (Hsl _ _ Ht). unfold sleeps_ok in Hsl. rewrite Hs in Hsl.
    destruct Hsl as (? & Hc & ?). rewrite length_contents, Hc. done.
  - intros id1 t1 id2 t2 Ht1 Ht2 [Hs1 Hs2]. pose proof (Hsl _ _ Ht1) as Ha. pose proof (Hsl _ _ Ht2) as Hb.
    unfold sleeps_ok in Ha, Hb. rewrite Hs1 in Ha. rewrite Hs2 in Hb.
    destruct Ha as (_ & Ha & _), Hb as (_ & Hb & _). rewrite Ha in Hb. done.
Qed.
End runs.

(** ** A killed writer *)

(** User memory that holds 7s and accepts everything. *)
#[export] Instance sevens : UserMem unit := {
  copyin1 _ _ := Some 7;
  copyout1 u _ _ := Some u;
}.

Definition zeros : list Z := repeat 0 512.
Definition reader : thread (U := unit) := Thread (Reading tt 0 1) Ready.
Definition writer (n : Z) : thread (U := unit) := Thread (Writing tt 0 n 0) Ready.

Lemma steps_one {U} `{!UserMem U} (m : machine (U := U)) es m' e m'' es' :
  steps m es m' -> step m' e m'' -> es' = es ++ [e] -> steps m es' m''.
Proof. intros ? ? ->. by econstructor. Qed.


(** ** The theorems at work: two bytes written, one read *)
Definition short_run : list event := [ECall 0; ERun 0 false; ECall 1; ERun 1 false].

Lemma short_run_steps : exists m : machine (U := unit), steps (fresh_machine zeros) short_run m.
Proof.
  eexists. eapply (steps_one _ [ECall 0; ERun 0 false; ECall 1]); [|..|reflexivity].
  1: eapply (steps_one _ [ECall 0; ERun 0 false]); [|..|reflexivity].
  1: eapply (steps_one _ [ECall 0]); [|..|reflexivity].
  1: eapply (steps_one _ []); [constructor|by apply (step_write _ _ 0 tt 0 2)|reflexivity].
  - eapply step_run; [apply lookup_insert_eq|reflexivity..].
  - by apply (step_read _ _ 1 tt 0 1).
  - eapply step_run; [apply lookup_insert_eq|reflexivity..].
Qed.

Lemma zeros_length : length zeros = Z.to_nat PIPESIZE.
Proof. reflexivity. Qed.

Lemma pipe_is_fifo_witness :
  exists (m : machine (U := unit)) W R, history (fresh_machine zeros) short_run W R m /\
    W = R ++ contents (pi_of m).
Proof.
  destruct short_run_steps as [m Hm].
  assert (Hok : ring_ok (pi_of (fresh_machine (U := unit) zeros))) by (by apply fresh_awake, zeros_length).
  destruct (pipe_is_fifo (fresh_machine zeros) short_run m Hok Hm) as (W & R & Hh & He & _).
  exists m, W, R. split; [exact Hh|exact He].
Defined.

Lemma pipe_no_lost_wakeup_witness :
  exists m : machine (U := unit), steps (fresh_machine zeros) short_run m /\
    forall id t, threads m !! id = Some t -> th_status t = Asleep ChNread -> contents (pi_of m) = [].
Proof.
  destruct short_run_steps as [m Hm].
  assert (Hk : forall id, ERun id true ∉ short_run) by (intros id; unfold short_run; set_solver).
  destruct (pipe_no_lost_wakeup zeros short_run m zeros_length Hm Hk) as (Hr & _).
  exists m. split; [exact Hm|]. intros id t Ht Hs. exact (proj1 (proj2 (Hr id t Ht Hs))).
Defined.
End PipeThms.
