(* ===== verification/ProcState.v ===== *)
(** * Process states

    The members of [struct proc] that the process lock protects are the same in
    the second and the fourth experiment ([proc.h] of both); so are the sleep
    channels and the copying of names. *)

From S2P Require Import Prelude.

Inductive procstate : Type := UNUSED | SLEEPING | RUNNABLE | RUNNING | ZOMBIE.
#[export] Instance procstate_eq_dec : EqDecision procstate.
Proof. solve_decision. Defined.

(** [void *chan]: a process (used by [wait]) or some other address. *)
Inductive chan : Type := ChProc (i : nat) | ChAddr (a : Z).
#[export] Instance chan_eq_dec : EqDecision chan.
Proof. solve_decision. Defined.

(** The members of [struct proc] that [p->lock] protects. *)
Record pshared : Type := Shared {
  p_state : procstate;
  p_parent : option nat;
  p_chan : option chan;
  p_killed : Z;
  p_xstate : Z;
  p_pid : Z;
}.

Definition set_state (x : procstate) (p : pshared) : pshared :=
  Shared x (p_parent p) (p_chan p) (p_killed p) (p_xstate p) (p_pid p).
Definition set_parent (x : option nat) (p : pshared) : pshared :=
  Shared (p_state p) x (p_chan p) (p_killed p) (p_xstate p) (p_pid p).
Definition set_chan (x : option chan) (p : pshared) : pshared :=
  Shared (p_state p) (p_parent p) x (p_killed p) (p_xstate p) (p_pid p).
Definition set_killed (x : Z) (p : pshared) : pshared :=
  Shared (p_state p) (p_parent p) (p_chan p) x (p_xstate p) (p_pid p).
Definition set_xstate (x : Z) (p : pshared) : pshared :=
  Shared (p_state p) (p_parent p) (p_chan p) (p_killed p) x (p_pid p).
Definition set_pid (x : Z) (p : pshared) : pshared :=
  Shared (p_state p) (p_parent p) (p_chan p) (p_killed p) (p_xstate p) x.

(** [safestrcpy(dst, src, n)]: at most [n - 1] bytes up to the terminator, which
    is written; the rest of [dst] stays. *)
Fixpoint safestrcpy (n : nat) (dst src : list Z) : list Z :=
  match n, dst with
  | S n', d :: dst' =>
      match n', src with
      | S _, c :: src' => if c =? 0 then 0 :: dst' else c :: safestrcpy n' dst' src'
      | _, _ => 0 :: dst'
      end
  | _, _ => dst
  end.
