(* ===== verification/Kernel2.v ===== *)
(** * The kernel of the second experiment: state and interfaces

    The members of [struct proc] and the global variables that [proc.c],
    [sysproc.c], [syscall.c] and [sysfile.c] of the second experiment share. Pages
    come from the allocator of the same experiment ([KallocSingle]). Its [vm.c],
    its file layer ([file.c], [fs.c], [log.c], [pipe.c]), [exec.c] and [sysinfo.h]
    are not part of the repository and are behind interfaces. A function runs from one context switch to the
    next, as in the model of the fourth experiment. *)

From S2P Require Import Prelude.
From S2P Require Import Memory.
From S2P Require Import Riscv.
From S2P Require Import PageAlloc.
From S2P Require Import FreeList.
From S2P Require Import KallocSingle.
From S2P Require Import ProcState.

(** Physical memory and the free list. *)
Abbreviation pages := (kstate kmem_single).

(** The members private to the process. Of [context] only [ra] and [sp] are ever
    set here. *)
Record pprivate : Type := Private {
  p_kstack : Z;
  p_sz : Z;
  p_pagetable : Z;
  p_trapframe : Z;
  p_ra : Z;
  p_sp : Z;
  p_ofile : list Z;
  p_cwd : Z;
  p_name : list Z;
  p_mask : Z;
}.

(** [struct proc]. *)
Record proc : Type := Proc { p_lock : bool; p_sh : pshared; p_pr : pprivate }.

Definition set_lock (b : bool) (p : proc) : proc := Proc b (p_sh p) (p_pr p).
Definition on_sh (f : pshared -> pshared) (p : proc) : proc := Proc (p_lock p) (f (p_sh p)) (p_pr p).
Definition on_pr (f : pprivate -> pprivate) (p : proc) : proc := Proc (p_lock p) (p_sh p) (f (p_pr p)).

Definition set_kstack (x : Z) (p : pprivate) : pprivate :=
  Private x (p_sz p) (p_pagetable p) (p_trapframe p) (p_ra p) (p_sp p) (p_ofile p) (p_cwd p) (p_name p) (p_mask p).
Definition set_sz (x : Z) (p : pprivate) : pprivate :=
  Private (p_kstack p) x (p_pagetable p) (p_trapframe p) (p_ra p) (p_sp p) (p_ofile p) (p_cwd p) (p_name p) (p_mask p).
Definition set_pagetable (x : Z) (p : pprivate) : pprivate :=
  Private (p_kstack p) (p_sz p) x (p_trapframe p) (p_ra p) (p_sp p) (p_ofile p) (p_cwd p) (p_name p) (p_mask p).
Definition set_trapframe (x : Z) (p : pprivate) : pprivate :=
  Private (p_kstack p) (p_sz p) (p_pagetable p) x (p_ra p) (p_sp p) (p_ofile p) (p_cwd p) (p_name p) (p_mask p).
Definition set_context (ra sp : Z) (p : pprivate) : pprivate :=
  Private (p_kstack p) (p_sz p) (p_pagetable p) (p_trapframe p) ra sp (p_ofile p) (p_cwd p) (p_name p) (p_mask p).
Definition set_ofile (x : list Z) (p : pprivate) : pprivate :=
  Private (p_kstack p) (p_sz p) (p_pagetable p) (p_trapframe p) (p_ra p) (p_sp p) x (p_cwd p) (p_name p) (p_mask p).
Definition set_cwd (x : Z) (p : pprivate) : pprivate :=
  Private (p_kstack p) (p_sz p) (p_pagetable p) (p_trapframe p) (p_ra p) (p_sp p) (p_ofile p) x (p_name p) (p_mask p).
Definition set_name (x : list Z) (p : pprivate) : pprivate :=
  Private (p_kstack p) (p_sz p) (p_pagetable p) (p_trapframe p) (p_ra p) (p_sp p) (p_ofile p) (p_cwd p) x (p_mask p).
Definition set_mask (x : Z) (p : pprivate) : pprivate :=
  Private (p_kstack p) (p_sz p) (p_pagetable p) (p_trapframe p) (p_ra p) (p_sp p) (p_ofile p) (p_cwd p) (p_name p) x.

(** ** Code that is not part of the repository *)

(** [vm.c]. [copyin] and [copyinstr] give the bytes they store at the kernel
    address and their result; [copyout] and [uvminit] take the bytes they read
    there. *)
Class UserVm : Type := {
  uvmcreate : M pages Z;
  mappages : Z -> Z -> Z -> Z -> Z -> M pages Z;
  uvmunmap : Z -> Z -> Z -> bool -> M pages unit;
  uvmfree : Z -> Z -> M pages unit;
  uvminit : Z -> list Z -> M pages unit;
  uvmalloc : Z -> Z -> Z -> M pages Z;
  uvmdealloc : Z -> Z -> Z -> M pages Z;
  uvmcopy : Z -> Z -> Z -> M pages Z;
  copyin : Z -> Z -> Z -> M pages (list Z * Z);
  copyinstr : Z -> Z -> Z -> M pages (list Z * Z);
  copyout : Z -> Z -> list Z -> M pages Z;
  kvmmap : Z -> Z -> Z -> Z -> M pages unit;
  kvminithart : M pages unit;
}.

(** The members of [struct inode] and [struct file] that [sysfile.c] uses. *)
Record inode : Type := Inode {
  i_type : Z; i_major : Z; i_minor : Z; i_nlink : Z; i_size : Z; i_dev : Z; i_inum : Z;
}.
Inductive filetype : Type := FD_NONE | FD_PIPE | FD_INODE | FD_DEVICE.
#[export] Instance filetype_eq_dec : EqDecision filetype.
Proof. solve_decision. Defined.
Record file : Type := File {
  f_type : filetype; f_ip : Z; f_off : Z; f_major : Z; f_readable : bool; f_writable : bool;
}.

(** [fs.c], [log.c] and [file.c]. Inodes and files are pointers, 0 the null
    pointer. [nameiparent] also gives the last component of the path, [dirlookup]
    also the offset of the entry; [readi] and [writei] are the ones with a kernel
    address. Closing a file can free the page of a pipe, which
    [pipealloc] allocates. *)
Class FsOps (F : Type) : Type := {
  begin_op : M F unit;
  end_op : M F unit;
  namei : list Z -> M F Z;
  nameiparent : list Z -> M F (Z * list Z);
  namecmp : list Z -> list Z -> Z;
  idup : Z -> M F Z;
  ilock : Z -> M F unit;
  iunlock : Z -> M F unit;
  iunlockput : Z -> M F unit;
  iput : Z -> M F unit;
  iupdate : Z -> M F unit;
  itrunc : Z -> M F unit;
  ialloc : Z -> Z -> M F Z;
  dirlookup : Z -> list Z -> M F (Z * Z);
  dirlink : Z -> list Z -> Z -> M F Z;
  readi : Z -> Z -> Z -> M F (list Z);
  writei : Z -> list Z -> Z -> M F Z;
  inode_at : Z -> F -> inode;
  put_inode : Z -> inode -> M F unit;
  filealloc : M F Z;
  filedup : Z -> M F Z;
  file_at : Z -> F -> file;
  put_file : Z -> file -> M F unit;
  fileclose : Z -> M (pages * F) unit;
  pipealloc : M (pages * F) (option (Z * Z));
  fileread : Z -> Z -> Z -> M (pages * F) Z;
  filewrite : Z -> Z -> Z -> M (pages * F) Z;
  filestat : Z -> Z -> M (pages * F) Z;
}.

(** Constants of [param.h], [fs.h], [stat.h] and [fcntl.h], the address of [forkret], and the layouts of
    [struct sysinfo] and [struct dirent]. *)
Class Params2 : Type := {
  NOFILE : Z;
  NDEV : Z;
  MAXPATH : Z;
  MAXARG : nat;
  forkret_addr : Z;
  ticks_addr : Z;
  enc_sysinfo : Z -> Z -> Z -> list Z;
  sizeof_dirent : Z;
  dirent_inum : list Z -> Z;
  T_DIR : Z; T_FILE : Z; T_DEVICE : Z;
  O_RDONLY : Z; O_WRONLY : Z; O_RDWR : Z; O_CREATE : Z; O_TRUNC : Z;
}.

(** A line the kernel prints for a system call. *)
Inductive message : Type :=
| Traced (pid : Z) (name : string) (arg0 ret : Z)
| Unknown (pid : Z) (name : list Z) (num : Z).

(** The kernel: memory, the table, [nextpid], [initproc], the file layer, this CPU's
    [proc] and [noff], [tickslock] and [ticks], and the console. *)
Record kernel (F : Type) : Type := Kernel {
  k_vm : pages;
  k_procs : list proc;
  k_nextpid : Z;
  k_initproc : option nat;
  k_files : F;
  k_cur : option nat;
  k_noff : Z;
  k_tickslock : bool;
  k_ticks : Z;
  k_out : list message;
}.
Arguments Kernel {F}.
Arguments k_vm {F} k.
Arguments k_procs {F} k.
Arguments k_nextpid {F} k.
Arguments k_initproc {F} k.
Arguments k_files {F} k.
Arguments k_cur {F} k.
Arguments k_noff {F} k.
Arguments k_tickslock {F} k.
Arguments k_ticks {F} k.
Arguments k_out {F} k.

(** Offsets of the members of [struct trapframe]. *)
Definition tf_epc : Z := 24.
Definition tf_sp : Z := 48.
Definition tf_a (n : Z) : Z := 112 + 8 * n.
Definition sizeof_trapframe : Z := 288.

(** ** Access to the state *)
Section access.
Context {F : Type}.
Abbreviation P := (M (kernel F)).

Definition set_vm (v : pages) (s : kernel F) : kernel F :=
  Kernel v (k_procs s) (k_nextpid s) (k_initproc s) (k_files s) (k_cur s) (k_noff s) (k_tickslock s) (k_ticks s) (k_out s).
Definition set_procs (l : list proc) (s : kernel F) : kernel F :=
  Kernel (k_vm s) l (k_nextpid s) (k_initproc s) (k_files s) (k_cur s) (k_noff s) (k_tickslock s) (k_ticks s) (k_out s).
Definition set_nextpid (n : Z) (s : kernel F) : kernel F :=
  Kernel (k_vm s) (k_procs s) n (k_initproc s) (k_files s) (k_cur s) (k_noff s) (k_tickslock s) (k_ticks s) (k_out s).
Definition set_initproc (i : option nat) (s : kernel F) : kernel F :=
  Kernel (k_vm s) (k_procs s) (k_nextpid s) i (k_files s) (k_cur s) (k_noff s) (k_tickslock s) (k_ticks s) (k_out s).
Definition set_files (f : F) (s : kernel F) : kernel F :=
  Kernel (k_vm s) (k_procs s) (k_nextpid s) (k_initproc s) f (k_cur s) (k_noff s) (k_tickslock s) (k_ticks s) (k_out s).
Definition set_cur (c : option nat) (s : kernel F) : kernel F :=
  Kernel (k_vm s) (k_procs s) (k_nextpid s) (k_initproc s) (k_files s) c (k_noff s) (k_tickslock s) (k_ticks s) (k_out s).
Definition set_noff (n : Z) (s : kernel F) : kernel F :=
  Kernel (k_vm s) (k_procs s) (k_nextpid s) (k_initproc s) (k_files s) (k_cur s) n (k_tickslock s) (k_ticks s) (k_out s).
Definition set_tickslock (b : bool) (s : kernel F) : kernel F :=
  Kernel (k_vm s) (k_procs s) (k_nextpid s) (k_initproc s) (k_files s) (k_cur s) (k_noff s) b (k_ticks s) (k_out s).
Definition print (m : message) (s : kernel F) : kernel F :=
  Kernel (k_vm s) (k_procs s) (k_nextpid s) (k_initproc s) (k_files s) (k_cur s) (k_noff s) (k_tickslock s) (k_ticks s) (k_out s ++ [m]).

(** Operations on memory, on the file layer, on both. *)
Definition vm {B} (m : M pages B) : P B := fun s =>
  match m (k_vm s) with
  | Ok (b, v) => Ok (b, set_vm v s)
  | Fail e => Fail e
  end.
Definition fs {B} (m : M F B) : P B := fun s =>
  match m (k_files s) with
  | Ok (b, f) => Ok (b, set_files f s)
  | Fail e => Fail e
  end.
Definition vmfs {B} (m : M (pages * F) B) : P B := fun s =>
  match m (k_vm s, k_files s) with
  | Ok (b, (v, f)) => Ok (b, set_files f (set_vm v s))
  | Fail e => Fail e
  end.

Definition proc_at (i : nat) : P proc := fun s =>
  match k_procs s !! i with
  | Some p => Ok (p, s)
  | None => Fail (Undefined "proc")
  end.
Definition upd (i : nat) (f : proc -> proc) : P unit :=
  p ← proc_at i; modify (fun s => set_procs (<[i := f p]> (k_procs s)) s).
Definition shared (i : nat) (f : pshared -> pshared) : P unit := upd i (on_sh f).
Definition private (i : nat) (f : pprivate -> pprivate) : P unit := upd i (on_pr f).

(** [acquire(&p->lock)], [release(&p->lock)]. *)
Definition acquire (i : nat) : P unit :=
  p ← proc_at i;
  if p_lock p then fail (Blocked "acquire") else
  upd i (set_lock true);;
  modify (fun s => set_noff (k_noff s + 1) s).
Definition release (i : nat) : P unit :=
  p ← proc_at i;
  if negb (p_lock p) then panic "release" else
  upd i (set_lock false);;
  modify (fun s => set_noff (k_noff s - 1) s).

(** [acquire(&tickslock)], [release(&tickslock)]. *)
Definition acquire_ticks : P unit :=
  b ← gets k_tickslock;
  if (b : bool) then fail (Blocked "acquire") else
  modify (fun s => set_noff (k_noff s + 1) (set_tickslock true s)).
Definition release_ticks : P unit :=
  b ← gets k_tickslock;
  if negb b then panic "release" else
  modify (fun s => set_noff (k_noff s - 1) (set_tickslock false s)).

(** [myproc()], dereferenced by every caller. *)
Definition myproc : P nat :=
  c ← gets k_cur;
  match c with
  | Some i => mret i
  | None => fail (Undefined "myproc")
  end.
Definition mine : P pprivate := i ← myproc; p ← proc_at i; mret (p_pr p).

(** A loop over the process table. *)
Definition table : P (list nat) := gets (fun s => seq 0 (length (k_procs s))).
Fixpoint for_each (ids : list nat) (body : nat -> P unit) : P unit :=
  match ids with
  | [] => mret tt
  | i :: ids' => body i;; for_each ids' body
  end.

Definition store64 (a v : Z) : P unit := vm (modify (fun s => ksetmem (st64 (kmem s) a v) s)).
Definition load64 (a : Z) : P Z := gets (fun s => ld64 (kmem (k_vm s)) a).
End access.
