(* ===== verification/Proc2.v ===== *)
(** * Processes (second experiment, [proc.c]): model

    The process table with every lock and one CPU. A function runs from one
    context switch to the next: [sched] hands the CPU to the scheduler, whose loop
    body is [dispatch]; what a function does after its [sched] returns is a
    definition of its own. Against the fourth experiment there is no page table of
    the kernel per process, and there are the trace mask and [info]. *)

From S2P Require Import Prelude.
From S2P Require Import Memory.
From S2P Require Import Riscv.
From S2P Require Import PageAlloc.
From S2P Require Import FreeList.
From S2P Require Import KallocSingle.
From S2P Require Import ProcState.
From S2P Require Import Kernel2.

(** The lock [sleep] gives up: the process's own, [tickslock], or one of code that
    is not part of the repository, which only counts in [noff]. *)
Inductive sleep_lock : Type := OwnLock | TicksLock | OtherLock.

(** The bytes of a C [int]. *)
Definition int_bytes (x : Z) : list Z := map (fun i => u8 (x / 256 ^ Z.of_nat i)) (seq 0 4).

Module Proc2.
Section ops.
Context `{MemLayout} `{Params2} `{UserVm} {F : Type} `{!FsOps F}.

Abbreviation P := (M (kernel F)).

Definition procinit : P unit :=
  t ← table;
  for_each t (fun i =>
    pa ← vm kalloc;
    if pa =? 0 then panic "kalloc" else
    let va := KSTACK (Z.of_nat i) in
    vm (kvmmap va pa PGSIZE (Z.lor PTE_R PTE_W));;
    private i (set_kstack va));;
  vm kvminithart.

Definition allocpid : P Z :=
  pid ← gets (fun s => k_nextpid s);
  modify (fun s => set_nextpid (s32 (k_nextpid s + 1)) s);;
  mret pid.

Definition new_pagetable (trapframe : Z) : M pages Z :=
  pagetable ← uvmcreate;
  if pagetable =? 0 then mret 0 else
  r ← mappages pagetable TRAMPOLINE PGSIZE trampoline (Z.lor PTE_R PTE_X);
  if r <? 0 then uvmfree pagetable 0;; mret 0 else
  r ← mappages pagetable TRAPFRAME PGSIZE trapframe (Z.lor PTE_R PTE_W);
  if r <? 0 then uvmunmap pagetable TRAMPOLINE 1 false;; uvmfree pagetable 0;; mret 0 else
  mret pagetable.

Definition proc_pagetable (i : nat) : P Z :=
  p ← proc_at i; vm (new_pagetable (p_trapframe (p_pr p))).

Definition proc_freepagetable (pagetable sz : Z) : M pages unit :=
  uvmunmap pagetable TRAMPOLINE 1 false;;
  uvmunmap pagetable TRAPFRAME 1 false;;
  uvmfree pagetable sz.

Definition freeproc (i : nat) : P unit :=
  p ← proc_at i;
  let q := p_pr p in
  (if p_trapframe q =? 0 then mret tt else vm (kfree (p_trapframe q)));;
  private i (set_trapframe 0);;
  (if p_pagetable q =? 0 then mret tt else vm (proc_freepagetable (p_pagetable q) (p_sz q)));;
  private i (set_pagetable 0);;
  private i (set_sz 0);;
  shared i (set_pid 0);;
  shared i (set_parent None);;
  private i (fun q => set_name (<[0%nat := 0]> (p_name q)) q);;
  private i (set_mask 0);;
  shared i (set_chan None);;
  shared i (set_killed 0);;
  shared i (set_xstate 0);;
  shared i (set_state UNUSED).

(** The search for an [UNUSED] slot, left with its lock held. *)
Fixpoint find_unused (ids : list nat) : P (option nat) :=
  match ids with
  | [] => mret None
  | i :: ids' =>
      acquire i;;
      p ← proc_at i;
      if decide (p_state (p_sh p) = UNUSED) then mret (Some i)
      else release i;; find_unused ids'
  end.

Definition allocproc : P (option nat) :=
  t ← table;
  r ← find_unused t;
  match r with
  | None => mret None
  | Some i =>
      pid ← allocpid;
      shared i (set_pid pid);;
      tf ← vm kalloc;
      private i (set_trapframe tf);;
      if tf =? 0 then release i;; mret None else
      pt ← proc_pagetable i;
      private i (set_pagetable pt);;
      if pt =? 0 then freeproc i;; release i;; mret None else
      p ← proc_at i;
      private i (set_context forkret_addr (u64 (p_kstack (p_pr p) + PGSIZE)));;
      mret (Some i)
  end.

(** ["initcode"] *)
Definition initcode_name : list Z := [105; 110; 105; 116; 99; 111; 100; 101].
Definition initcode : list Z := [
  0x17; 0x05; 0x00; 0x00; 0x13; 0x05; 0x45; 0x02;
  0x97; 0x05; 0x00; 0x00; 0x93; 0x85; 0x35; 0x02;
  0x93; 0x08; 0x70; 0x00; 0x73; 0x00; 0x00; 0x00;
  0x93; 0x08; 0x20; 0x00; 0x73; 0x00; 0x00; 0x00;
  0xef; 0xf0; 0x9f; 0xff; 0x2f; 0x69; 0x6e; 0x69;
  0x74; 0x00; 0x00; 0x24; 0x00; 0x00; 0x00; 0x00;
  0x00; 0x00; 0x00; 0x00 ].

Definition userinit : P unit :=
  r ← allocproc;
  match r with
  | None => fail (Undefined "userinit")
  | Some i =>
      modify (set_initproc (Some i));;
      p ← proc_at i;
      vm (uvminit (p_pagetable (p_pr p)) initcode);;
      private i (set_sz PGSIZE);;
      store64 (u64 (p_trapframe (p_pr p) + tf_epc)) 0;;
      store64 (u64 (p_trapframe (p_pr p) + tf_sp)) PGSIZE;;
      private i (fun q => set_name (safestrcpy 16 (p_name q) initcode_name) q);;
      cwd ← fs (namei [47]);
      private i (set_cwd cwd);;
      shared i (set_state RUNNABLE);;
      release i
  end.

(** [sz] is a 32-bit variable. *)
Definition growproc (n : Z) : P Z :=
  i ← myproc;
  p ← proc_at i;
  let q := p_pr p in
  let sz := u32 (p_sz q) in
  if 0 <? n then
    sz' ← vm (uvmalloc (p_pagetable q) sz (u32 (sz + n)));
    if u32 sz' =? 0 then mret (-1) else
    private i (set_sz (u32 sz'));; mret 0
  else if n <? 0 then
    sz' ← vm (uvmdealloc (p_pagetable q) sz (u32 (sz + n)));
    private i (set_sz (u32 sz'));; mret 0
  else private i (set_sz sz);; mret 0.

Definition trace (mask : Z) : P unit := i ← myproc; private i (set_mask mask).

(** The [UNUSED] slots of the table. *)
Fixpoint infonproc_loop (l : list proc) (nproc : Z) : Z :=
  match l with
  | [] => nproc
  | p :: l' => infonproc_loop l' (if decide (p_state (p_sh p) = UNUSED) then u64 (nproc + 1) else nproc)
  end.
Definition infonproc : P Z := gets (fun s => infonproc_loop (k_procs s) 0).

(** The null entries of the descriptor tables of all slots. *)
Fixpoint freefd_inner (l : list Z) (freefd : Z) : Z :=
  match l with
  | [] => freefd
  | f :: l' => freefd_inner l' (if f =? 0 then u64 (freefd + 1) else freefd)
  end.
Fixpoint infofreefd_loop (l : list proc) (freefd : Z) : Z :=
  match l with
  | [] => freefd
  | p :: l' => infofreefd_loop l' (freefd_inner (p_ofile (p_pr p)) freefd)
  end.
Definition infofreefd : P Z := gets (fun s => infofreefd_loop (k_procs s) 0).

Definition info (addr : Z) : P Z :=
  q ← mine;
  freemem ← vm KallocSingle.infofreemem;
  nproc ← infonproc;
  freefd ← infofreefd;
  r ← vm (copyout (p_pagetable q) addr (enc_sysinfo freemem nproc freefd));
  mret (if r <? 0 then -1 else 0).

(** The loop over the open files in [fork]. *)
Fixpoint dup_files (l : list Z) (fd : nat) (np : nat) : P unit :=
  match l with
  | [] => mret tt
  | f :: l' =>
      (if f =? 0 then mret tt else
       g ← fs (filedup f); private np (fun q => set_ofile (<[fd := g]> (p_ofile q)) q));;
      dup_files l' (S fd) np
  end.

Definition fork : P Z :=
  i ← myproc;
  r ← allocproc;
  match r with
  | None => mret (-1)
  | Some np =>
      p ← proc_at i;
      n ← proc_at np;
      let q := p_pr p in
      r ← vm (uvmcopy (p_pagetable q) (p_pagetable (p_pr n)) (p_sz q));
      if r <? 0 then freeproc np;; release np;; mret (-1) else
      private np (set_sz (p_sz q));;
      shared np (set_parent (Some i));;
      vm (modify (fun s => ksetmem (memmove (kmem s) (p_trapframe (p_pr n)) (p_trapframe q) sizeof_trapframe) s));;
      store64 (u64 (p_trapframe (p_pr n) + tf_a 0)) 0;;
      private np (set_mask (p_mask q));;
      dup_files (p_ofile q) 0 np;;
      cwd ← fs (idup (p_cwd q));
      private np (set_cwd cwd);;
      private np (fun c => set_name (safestrcpy 16 (p_name c) (p_name q)) c);;
      n ← proc_at np;
      shared np (set_state RUNNABLE);;
      release np;;
      mret (p_pid (p_sh n))
  end.

Definition reparent (p : nat) : P unit :=
  t ← table;
  for_each t (fun pp =>
    q ← proc_at pp;
    if decide (p_parent (p_sh q) = Some p) then
      acquire pp;;
      init ← gets (fun s => k_initproc s);
      shared pp (set_parent init);;
      release pp
    else mret tt).

Definition wakeup1 (i : nat) : P unit :=
  p ← proc_at i;
  if negb (p_lock p) then panic "wakeup1" else
  if decide (p_chan (p_sh p) = Some (ChProc i) /\ p_state (p_sh p) = SLEEPING)
  then shared i (set_state RUNNABLE) else mret tt.

(** The checks, then the switch to the scheduler, which goes on with
    [c->proc = 0] and releases the process's lock. Interrupts are off while a lock
    is held. *)
Definition sched : P unit :=
  i ← myproc;
  p ← proc_at i;
  if negb (p_lock p) then panic "sched p->lock" else
  n ← gets (fun s => k_noff s);
  if negb (n =? 1) then panic "sched locks" else
  if decide (p_state (p_sh p) = RUNNING) then panic "sched running" else
  modify (set_cur None);;
  release i.

Fixpoint close_files (fds : list nat) (i : nat) : P unit :=
  match fds with
  | [] => mret tt
  | fd :: fds' =>
      p ← proc_at i;
      let f := nth fd (p_ofile (p_pr p)) 0 in
      (if f =? 0 then mret tt else
       vmfs (fileclose f);; private i (fun q => set_ofile (<[fd := 0]> (p_ofile q)) q));;
      close_files fds' i
  end.

(** [exit], up to its last switch to the scheduler. *)
Definition exit (status : Z) : P unit :=
  i ← myproc;
  init ← gets (fun s => k_initproc s);
  if decide (init = Some i) then panic "init exiting" else
  p ← proc_at i;
  close_files (seq 0 (length (p_ofile (p_pr p)))) i;;
  fs begin_op;;
  fs (iput (p_cwd (p_pr p)));;
  fs end_op;;
  private i (set_cwd 0);;
  match init with
  | None => fail (Undefined "initproc")
  | Some init => acquire init;; wakeup1 init;; release init
  end;;
  acquire i;;
  p ← proc_at i;
  let original_parent := p_parent (p_sh p) in
  release i;;
  match original_parent with
  | None => fail (Undefined "original_parent")
  | Some pa =>
      acquire pa;;
      acquire i;;
      reparent i;;
      wakeup1 pa;;
      shared i (set_xstate status);;
      shared i (set_state ZOMBIE);;
      release pa;;
      sched
  end.

(** [sleep] up to its switch. *)
Definition release_lk (lk : sleep_lock) : P unit :=
  match lk with
  | OwnLock => mret tt
  | TicksLock => release_ticks
  | OtherLock => modify (fun s => set_noff (k_noff s - 1) s)
  end.
Definition acquire_lk (lk : sleep_lock) : P unit :=
  match lk with
  | OwnLock => mret tt
  | TicksLock => acquire_ticks
  | OtherLock => modify (fun s => set_noff (k_noff s + 1) s)
  end.
Definition is_own (lk : sleep_lock) : bool := match lk with OwnLock => true | _ => false end.

Definition sleep (c : chan) (lk : sleep_lock) : P unit :=
  i ← myproc;
  (if is_own lk then mret tt else acquire i;; release_lk lk);;
  shared i (set_chan (Some c));;
  shared i (set_state SLEEPING);;
  sched.

(** What follows when the process runs again. *)
Definition sleep_resume (lk : sleep_lock) : P unit :=
  i ← myproc;
  shared i (set_chan None);;
  if is_own lk then mret tt else release i;; acquire_lk lk.

(** The result of a scan of [wait]: the call returns, or there are children to
    wait for, or there are none. *)
Inductive scan_result : Type := ScanReturns (r : Z) | ScanKids (havekids : bool).

Fixpoint wait_scan (ids : list nat) (me : nat) (addr : Z) (havekids : bool) : P scan_result :=
  match ids with
  | [] => mret (ScanKids havekids)
  | np :: ids' =>
      q ← proc_at np;
      if decide (p_parent (p_sh q) = Some me) then
        acquire np;;
        q ← proc_at np;
        if decide (p_state (p_sh q) = ZOMBIE) then
          p ← proc_at me;
          r ← (if addr =? 0 then mret 0 else
               vm (copyout (p_pagetable (p_pr p)) addr (int_bytes (p_xstate (p_sh q)))));
          if negb (addr =? 0) && (r <? 0) then
            release np;; release me;; mret (ScanReturns (-1))
          else
            freeproc np;; release np;; release me;; mret (ScanReturns (p_pid (p_sh q)))
        else
          release np;; wait_scan ids' me addr true
      else wait_scan ids' me addr havekids
  end.

(** One iteration of [wait]'s loop: [Some r] when it returns, [None] when it went
    to sleep. *)
Definition wait_iter (addr : Z) : P (option Z) :=
  i ← myproc;
  t ← table;
  r ← wait_scan t i addr false;
  match r with
  | ScanReturns r => mret (Some r)
  | ScanKids havekids =>
      p ← proc_at i;
      if negb havekids || negb (p_killed (p_sh p) =? 0) then release i;; mret (Some (-1))
      else sleep (ChProc i) OwnLock;; mret None
  end.

Definition wait (addr : Z) : P (option Z) := i ← myproc; acquire i;; wait_iter addr.
Definition wait_resume (addr : Z) : P (option Z) := sleep_resume OwnLock;; wait_iter addr.

(** The body of the scheduler's loop: run process [i] if it can run. *)
Definition dispatch (i : nat) : P bool :=
  acquire i;;
  p ← proc_at i;
  if decide (p_state (p_sh p) = RUNNABLE) then
    shared i (set_state RUNNING);;
    modify (set_cur (Some i));;
    mret true
  else release i;; mret false.

Definition yield : P unit :=
  i ← myproc; acquire i;; shared i (set_state RUNNABLE);; sched.
Definition yield_resume : P unit := i ← myproc; release i.

(** The first switch to a new process: [forkret] releases the lock. *)
Definition forkret : P unit := i ← myproc; release i.

Definition wakeup (c : chan) : P unit :=
  t ← table;
  for_each t (fun i =>
    acquire i;;
    p ← proc_at i;
    (if decide (p_state (p_sh p) = SLEEPING /\ p_chan (p_sh p) = Some c)
     then shared i (set_state RUNNABLE) else mret tt);;
    release i).

Fixpoint kill_loop (ids : list nat) (pid : Z) : P Z :=
  match ids with
  | [] => mret (-1)
  | i :: ids' =>
      acquire i;;
      p ← proc_at i;
      if p_pid (p_sh p) =? pid then
        shared i (set_killed 1);;
        (if decide (p_state (p_sh p) = SLEEPING) then shared i (set_state RUNNABLE) else mret tt);;
        release i;;
        mret 0
      else release i;; kill_loop ids' pid
  end.
Definition kill (pid : Z) : P Z := t ← table; kill_loop t pid.

Definition either_copyout (user_dst : bool) (dst src : Z) (len : nat) : P Z :=
  q ← mine;
  if user_dst then
    l ← gets (fun s => ld_bytes (kmem (k_vm s)) src len);
    vm (copyout (p_pagetable q) dst l)
  else vm (modify (fun s => ksetmem (memmove (kmem s) dst src (Z.of_nat len)) s));; mret 0.

Definition either_copyin (dst : Z) (user_src : bool) (src len : Z) : P Z :=
  q ← mine;
  if user_src then
    r ← vm (copyin (p_pagetable q) src len);
    vm (modify (fun s => ksetmem (st_bytes (kmem s) dst (fst r)) s));;
    mret (snd r)
  else vm (modify (fun s => ksetmem (memmove (kmem s) dst src len) s));; mret 0.

(** The lines [procdump] prints. *)
Definition state_name (x : procstate) : string :=
  match x with
  | UNUSED => "unused" | SLEEPING => "sleep " | RUNNABLE => "runble"
  | RUNNING => "run   " | ZOMBIE => "zombie"
  end.
Definition procdump : P (list (Z * string * list Z)) :=
  gets (fun s => map (fun p => (p_pid (p_sh p), state_name (p_state (p_sh p)), p_name (p_pr p)))
                   (filter (fun p => p_state (p_sh p) <> UNUSED) (k_procs s))).
End ops.
End Proc2.
