(* ===== verification/Syscall.v ===== *)
(** * System call arguments (second experiment, [syscall.c]): model

    The functions that fetch the arguments of a system call from the trapframe and
    from user memory. The dispatcher of the same file is in [SyscallTable]. *)

From S2P Require Import Prelude.
From S2P Require Import Memory.
From S2P Require Import Riscv.
From S2P Require Import PageAlloc.
From S2P Require Import FreeList.
From S2P Require Import KallocSingle.
From S2P Require Import ProcState.
From S2P Require Import Kernel2.

(** The number with the given little-endian bytes. *)
Definition of_bytes (l : list Z) : Z := fold_right (fun b x => b + 256 * x) 0 l.

(** [strlen] of a buffer whose contents are known up to the end of [l]. *)
Fixpoint strlen (l : list Z) : option Z :=
  match l with
  | [] => None
  | c :: l' => if c =? 0 then Some 0 else Z.succ <$> strlen l'
  end.

Module Syscall.
Section ops.
Context `{Params2} `{UserVm} {F : Type}.

Abbreviation P := (M (kernel F)).

(** [None] for -1. *)
Definition fetchaddr (addr : Z) : P (option Z) :=
  q ← mine;
  if (p_sz q <=? addr) || (p_sz q <? u64 (addr + 8)) then mret None else
  r ← vm (copyin (p_pagetable q) addr 8);
  if negb (snd r =? 0) then mret None else mret (Some (of_bytes (fst r))).

(** The bytes stored in [buf], and the result. *)
Definition fetchstr (addr max : Z) : P (list Z * Z) :=
  q ← mine;
  r ← vm (copyinstr (p_pagetable q) addr max);
  if snd r <? 0 then mret r else
  match strlen (fst r) with
  | Some n => mret (fst r, n)
  | None => fail (Undefined "strlen")
  end.

Definition argraw (n : Z) : P Z :=
  q ← mine;
  if (0 <=? n) && (n <=? 5) then load64 (u64 (p_trapframe q + tf_a n)) else panic "argraw".

(** They always return 0; the result here is what they store. *)
Definition argint (n : Z) : P Z := x ← argraw n; mret (s32 x).
Definition argaddr (n : Z) : P Z := argraw n.

Definition argstr (n max : Z) : P (list Z * Z) := addr ← argaddr n; fetchstr addr max.

(** The string in the buffer. *)
Definition str (r : list Z * Z) : list Z := take (Z.to_nat (snd r)) (fst r).
End ops.
End Syscall.
