(* ===== verification/Sysproc.v ===== *)
(** * Process system calls (second experiment, [sysproc.c]): model

    A call that gives up the CPU has the result [None]; [sys_wait] and [sys_sleep]
    then go on with their resume functions. A result is the C value before its
    conversion to [uint64]. *)

From S2P Require Import Prelude.
From S2P Require Import Memory.
From S2P Require Import Riscv.
From S2P Require Import PageAlloc.
From S2P Require Import FreeList.
From S2P Require Import KallocSingle.
From S2P Require Import ProcState.
From S2P Require Import Kernel2.
From S2P Require Import Proc2.
From S2P Require Import Syscall.

Module Sysproc.
Import Proc2 Syscall.
Section ops.
Context `{MemLayout} `{Params2} `{UserVm} {F : Type} `{!FsOps F}.

Abbreviation P := (M (kernel F)).

Definition returns (m : P Z) : P (option Z) := r ← m; mret (Some r).

Definition sys_exit : P (option Z) := n ← argint 0; exit n;; mret None.

Definition sys_getpid : P (option Z) := i ← myproc; p ← proc_at i; mret (Some (p_pid (p_sh p))).

Definition sys_fork : P (option Z) := returns fork.

Definition sys_wait : P (option Z) := p ← argaddr 0; wait p.

Definition sys_sbrk : P (option Z) :=
  n ← argint 0;
  q ← mine;
  let addr := s32 (p_sz q) in
  r ← growproc n;
  if r <? 0 then mret (Some (-1)) else mret (Some addr).

(** [ticks - ticks0 < n] compares unsigned numbers. *)
Definition sleep_loop (n ticks0 : Z) : P (option Z) :=
  ticks ← gets (fun s => k_ticks s);
  if u32 (ticks - ticks0) <? u32 n then
    i ← myproc;
    p ← proc_at i;
    if negb (p_killed (p_sh p) =? 0) then release_ticks;; mret (Some (-1))
    else sleep (ChAddr ticks_addr) TicksLock;; mret None
  else release_ticks;; mret (Some 0).

Definition sys_sleep : P (option Z) :=
  n ← argint 0;
  acquire_ticks;;
  ticks0 ← gets (fun s => k_ticks s);
  sleep_loop n ticks0.
Definition sys_sleep_resume (n ticks0 : Z) : P (option Z) :=
  sleep_resume TicksLock;; sleep_loop n ticks0.

Definition sys_kill : P (option Z) := pid ← argint 0; returns (kill pid).

Definition sys_uptime : P (option Z) :=
  acquire_ticks;; xticks ← gets (fun s => k_ticks s); release_ticks;; mret (Some xticks).

Definition sys_trace : P (option Z) := mask ← argint 0; trace mask;; mret (Some 0).

Definition sys_sysinfo : P (option Z) := addr ← argaddr 0; returns (info addr).
End ops.
End Sysproc.
