(* ===== verification/Sysfile.v ===== *)
(** * File system calls (second experiment, [sysfile.c]): model

    The calls check arguments, keep the descriptor table of the process, and call
    the file layer ([FsOps]) under its rules on transactions, references and
    locks. *)

From S2P Require Import Prelude.
From S2P Require Import Memory.
From S2P Require Import Riscv.
From S2P Require Import PageAlloc.
From S2P Require Import FreeList.
From S2P Require Import KallocSingle.
From S2P Require Import ProcState.
From S2P Require Import Kernel2.
From S2P Require Import Proc2.
From S2P Require Import Syscall.

(** [exec.c] of the second experiment is not part of the repository: the path
    and the addresses of the argument strings. *)
Class ExecCall (F : Type) : Type := { exec : list Z -> list Z -> M (kernel F) Z }.

Definition set_major (x : Z) (i : inode) : inode :=
  Inode (i_type i) x (i_minor i) (i_nlink i) (i_size i) (i_dev i) (i_inum i).
Definition set_minor (x : Z) (i : inode) : inode :=
  Inode (i_type i) (i_major i) x (i_nlink i) (i_size i) (i_dev i) (i_inum i).
Definition set_nlink (x : Z) (i : inode) : inode :=
  Inode (i_type i) (i_major i) (i_minor i) x (i_size i) (i_dev i) (i_inum i).

Module Sysfile.
Import Proc2 Syscall.
Section ops.
Context `{MemLayout} `{Params2} `{UserVm} {F : Type} `{!FsOps F} `{!ExecCall F}.

Abbreviation P := (M (kernel F)).

Definition ino (ip : Z) : P inode := gets (fun s => inode_at ip (k_files s)).
Definition on_ino (ip : Z) (f : inode -> inode) : P unit := i ← ino ip; fs (put_inode ip (f i)).

(** [p->ofile[fd]] *)
Definition ofile_at (fd : nat) : P Z :=
  q ← mine;
  match p_ofile q !! fd with
  | Some f => mret f
  | None => fail (Undefined "ofile")
  end.
Definition set_fd (fd : Z) (f : Z) : P unit :=
  i ← myproc; private i (fun q => set_ofile (<[Z.to_nat fd := f]> (p_ofile q)) q).

(** The descriptor and the file; [None] for -1. *)
Definition argfd (n : Z) : P (option (Z * Z)) :=
  fd ← argint n;
  if (fd <? 0) || (NOFILE <=? fd) then mret None else
  f ← ofile_at (Z.to_nat fd);
  if f =? 0 then mret None else mret (Some (fd, f)).

(** The loop of [fdalloc], with [n] iterations left. *)
Fixpoint fdalloc_loop (n fd : nat) (f : Z) : P Z :=
  match n with
  | O => mret (-1)
  | S n' =>
      g ← ofile_at fd;
      if g =? 0 then set_fd (Z.of_nat fd) f;; mret (Z.of_nat fd)
      else fdalloc_loop n' (S fd) f
  end.
Definition fdalloc (f : Z) : P Z := fdalloc_loop (Z.to_nat NOFILE) 0 f.

Definition sys_dup : P Z :=
  a ← argfd 0;
  match a with
  | None => mret (-1)
  | Some (_, f) =>
      fd ← fdalloc f;
      if fd <? 0 then mret (-1) else
      _ ← fs (filedup f);
      mret fd
  end.

Definition sys_read : P Z :=
  a ← argfd 0;
  match a with
  | None => mret (-1)
  | Some (_, f) => n ← argint 2; p ← argaddr 1; vmfs (fileread f p n)
  end.

Definition sys_write : P Z :=
  a ← argfd 0;
  match a with
  | None => mret (-1)
  | Some (_, f) => n ← argint 2; p ← argaddr 1; vmfs (filewrite f p n)
  end.

Definition sys_close : P Z :=
  a ← argfd 0;
  match a with
  | None => mret (-1)
  | Some (fd, f) => set_fd fd 0;; vmfs (fileclose f);; mret 0
  end.

Definition sys_fstat : P Z :=
  a ← argfd 0;
  match a with
  | None => mret (-1)
  | Some (_, f) => st ← argaddr 1; vmfs (filestat f st)
  end.

Definition sys_link : P Z :=
  old ← argstr 0 MAXPATH;
  if snd old <? 0 then mret (-1) else
  new ← argstr 1 MAXPATH;
  if snd new <? 0 then mret (-1) else
  fs begin_op;;
  ip ← fs (namei (str old));
  if ip =? 0 then fs end_op;; mret (-1) else
  fs (ilock ip);;
  i ← ino ip;
  if i_type i =? T_DIR then fs (iunlockput ip);; fs end_op;; mret (-1) else
  on_ino ip (fun i => set_nlink (s16 (i_nlink i + 1)) i);;
  fs (iupdate ip);;
  fs (iunlock ip);;
  let bad :=
    fs (ilock ip);;
    on_ino ip (fun i => set_nlink (s16 (i_nlink i - 1)) i);;
    fs (iupdate ip);;
    fs (iunlockput ip);;
    fs end_op;;
    mret (-1) in
  d ← fs (nameiparent (str new));
  let '(dp, name) := d in
  if dp =? 0 then bad else
  fs (ilock dp);;
  i ← ino ip;
  j ← ino dp;
  r ← (if negb (i_dev j =? i_dev i) then mret (-1) else fs (dirlink dp name (i_inum i)));
  if r <? 0 then fs (iunlockput dp);; bad else
  fs (iunlockput dp);;
  fs (iput ip);;
  fs end_op;;
  mret 0.

(** The loop of [isdirempty]: [off] is an [int], compared as unsigned. *)
Fixpoint isdirempty_loop (fuel : nat) (dp off : Z) : P bool :=
  j ← ino dp;
  if u32 off <? i_size j then
    match fuel with
    | O => fail OutOfFuel
    | S fuel' =>
        de ← fs (readi dp (u32 off) sizeof_dirent);
        if negb (Z.of_nat (length de) =? sizeof_dirent) then panic "isdirempty: readi" else
        if negb (dirent_inum de =? 0) then mret false else
        isdirempty_loop fuel' dp (s32 (off + sizeof_dirent))
    end
  else mret true.
Definition isdirempty (dp : Z) : P bool :=
  j ← ino dp;
  isdirempty_loop (Z.to_nat (i_size j)) dp (2 * sizeof_dirent).

Definition sys_unlink : P Z :=
  path ← argstr 0 MAXPATH;
  if snd path <? 0 then mret (-1) else
  fs begin_op;;
  d ← fs (nameiparent (str path));
  let '(dp, name) := d in
  if dp =? 0 then fs end_op;; mret (-1) else
  fs (ilock dp);;
  let bad := fs (iunlockput dp);; fs end_op;; mret (-1) in
  cmp ← gets (fun _ => (namecmp name [46], namecmp name [46; 46]));
  if (fst cmp =? 0) || (snd cmp =? 0) then bad else
  e ← fs (dirlookup dp name);
  let '(ip, off) := e in
  if ip =? 0 then bad else
  fs (ilock ip);;
  i ← ino ip;
  if i_nlink i <? 1 then panic "unlink: nlink < 1" else
  full ← (if i_type i =? T_DIR then b ← isdirempty ip; mret (negb b) else mret false);
  if (full : bool) then fs (iunlockput ip);; bad else
  r ← fs (writei dp (replicate (Z.to_nat sizeof_dirent) 0) off);
  if negb (r =? sizeof_dirent) then panic "unlink: writei" else
  i ← ino ip;
  (if i_type i =? T_DIR then
     on_ino dp (fun j => set_nlink (s16 (i_nlink j - 1)) j);; fs (iupdate dp)
   else mret tt);;
  fs (iunlockput dp);;
  on_ino ip (fun i => set_nlink (s16 (i_nlink i - 1)) i);;
  fs (iupdate ip);;
  fs (iunlockput ip);;
  fs end_op;;
  mret 0.

(** [type], [major] and [minor] are [short]. *)
Definition create (path : list Z) (type major minor : Z) : P Z :=
  d ← fs (nameiparent path);
  let '(dp, name) := d in
  if dp =? 0 then mret 0 else
  fs (ilock dp);;
  e ← fs (dirlookup dp name);
  let ip := fst e in
  if negb (ip =? 0) then
    fs (iunlockput dp);;
    fs (ilock ip);;
    i ← ino ip;
    if (type =? T_FILE) && ((i_type i =? T_FILE) || (i_type i =? T_DEVICE)) then mret ip else
    fs (iunlockput ip);; mret 0
  else
  j ← ino dp;
  ip ← fs (ialloc (i_dev j) type);
  if ip =? 0 then panic "create: ialloc" else
  fs (ilock ip);;
  on_ino ip (set_major major);;
  on_ino ip (set_minor minor);;
  on_ino ip (set_nlink 1);;
  fs (iupdate ip);;
  (if type =? T_DIR then
     on_ino dp (fun j => set_nlink (s16 (i_nlink j + 1)) j);;
     fs (iupdate dp);;
     i ← ino ip;
     j ← ino dp;
     r ← fs (dirlink ip [46] (i_inum i));
     if r <? 0 then panic "create dots" else
     r ← fs (dirlink ip [46; 46] (i_inum j));
     if r <? 0 then panic "create dots" else mret tt
   else mret tt);;
  i ← ino ip;
  r ← fs (dirlink dp name (i_inum i));
  if r <? 0 then panic "create: dirlink" else
  fs (iunlockput dp);;
  mret ip.

Definition has (omode flag : Z) : bool := negb (Z.land omode flag =? 0).

(** The assignments to [*f]; the members that are not assigned stay. *)
Definition open_file (ip omode : Z) (i : inode) (f : file) : file :=
  let device := i_type i =? T_DEVICE in
  File (if device then FD_DEVICE else FD_INODE) ip
    (if device then f_off f else 0) (if device then i_major i else f_major f)
    (negb (has omode O_WRONLY)) (has omode O_WRONLY || has omode O_RDWR).

(** From the inode on: [ip] is locked. *)
Definition open_inode (ip omode : Z) : P Z :=
  i ← ino ip;
  if (i_type i =? T_DEVICE) && ((i_major i <? 0) || (NDEV <=? i_major i)) then
    fs (iunlockput ip);; fs end_op;; mret (-1)
  else
  f ← fs filealloc;
  fd ← (if f =? 0 then mret (-1) else fdalloc f);
  if (f =? 0) || (fd <? 0) then
    (if f =? 0 then mret tt else vmfs (fileclose f));;
    fs (iunlockput ip);; fs end_op;; mret (-1)
  else
  o ← gets (fun s => file_at f (k_files s));
  fs (put_file f (open_file ip omode i o));;
  (if has omode O_TRUNC && (i_type i =? T_FILE) then fs (itrunc ip) else mret tt);;
  fs (iunlock ip);;
  fs end_op;;
  mret fd.

Definition sys_open : P Z :=
  path ← argstr 0 MAXPATH;
  if snd path <? 0 then mret (-1) else
  omode ← argint 1;
  fs begin_op;;
  if has omode O_CREATE then
    ip ← create (str path) T_FILE 0 0;
    if ip =? 0 then fs end_op;; mret (-1) else open_inode ip omode
  else
    ip ← fs (namei (str path));
    if ip =? 0 then fs end_op;; mret (-1) else
    fs (ilock ip);;
    i ← ino ip;
    if (i_type i =? T_DIR) && negb (omode =? O_RDONLY) then
      fs (iunlockput ip);; fs end_op;; mret (-1)
    else open_inode ip omode.

Definition sys_mkdir : P Z :=
  fs begin_op;;
  path ← argstr 0 MAXPATH;
  ip ← (if snd path <? 0 then mret 0 else create (str path) T_DIR 0 0);
  if ip =? 0 then fs end_op;; mret (-1) else
  fs (iunlockput ip);;
  fs end_op;;
  mret 0.

Definition sys_mknod : P Z :=
  fs begin_op;;
  path ← argstr 0 MAXPATH;
  ip ← (if snd path <? 0 then mret 0 else
        major ← argint 1; minor ← argint 2; create (str path) T_DEVICE (s16 major) (s16 minor));
  if ip =? 0 then fs end_op;; mret (-1) else
  fs (iunlockput ip);;
  fs end_op;;
  mret 0.

Definition sys_chdir : P Z :=
  me ← myproc;
  fs begin_op;;
  path ← argstr 0 MAXPATH;
  ip ← (if snd path <? 0 then mret 0 else fs (namei (str path)));
  if ip =? 0 then fs end_op;; mret (-1) else
  fs (ilock ip);;
  i ← ino ip;
  if negb (i_type i =? T_DIR) then fs (iunlockput ip);; fs end_op;; mret (-1) else
  fs (iunlock ip);;
  q ← mine;
  fs (iput (p_cwd q));;
  fs end_op;;
  private me (set_cwd ip);;
  mret 0.

(** The loop that copies the argument strings, with [n] elements of [argv] left and
    the pages [argv] allocated: whether it ends without [bad], and the pages. *)
Fixpoint exec_args (n : nat) (uargv i : Z) (argv : list Z) : P (bool * list Z) :=
  match n with
  | O => mret (false, argv)
  | S n' =>
      uarg ← fetchaddr (u64 (uargv + 8 * i));
      match uarg with
      | None => mret (false, argv)
      | Some uarg =>
          if uarg =? 0 then mret (true, argv) else
          page ← vm kalloc;
          if page =? 0 then mret (false, argv) else
          s ← fetchstr uarg PGSIZE;
          vm (modify (fun v => ksetmem (st_bytes (kmem v) page (fst s)) v));;
          if snd s <? 0 then mret (false, argv ++ [page]) else
          exec_args n' uargv (i + 1) (argv ++ [page])
      end
  end.

Fixpoint free_args (argv : list Z) : P unit :=
  match argv with
  | [] => mret tt
  | a :: argv' => vm (kfree a);; free_args argv'
  end.

Definition sys_exec : P Z :=
  path ← argstr 0 MAXPATH;
  if snd path <? 0 then mret (-1) else
  uargv ← argaddr 1;
  a ← exec_args MAXARG uargv 0 [];
  let '(good, argv) := a in
  if (good : bool) then
    ret ← exec (str path) argv;
    free_args argv;;
    mret ret
  else free_args argv;; mret (-1).

Definition sys_pipe : P Z :=
  q ← mine;
  fdarray ← argaddr 0;
  r ← vmfs pipealloc;
  match r with
  | None => mret (-1)
  | Some (rf, wf) =>
      fd0 ← fdalloc rf;
      fd1 ← (if fd0 <? 0 then mret (-1) else fdalloc wf);
      if (fd0 <? 0) || (fd1 <? 0) then
        (if 0 <=? fd0 then set_fd fd0 0 else mret tt);;
        vmfs (fileclose rf);; vmfs (fileclose wf);; mret (-1)
      else
      r0 ← vm (copyout (p_pagetable q) fdarray (int_bytes fd0));
      r1 ← (if r0 <? 0 then mret (-1)
            else vm (copyout (p_pagetable q) (u64 (fdarray + 4)) (int_bytes fd1)));
      if (r0 <? 0) || (r1 <? 0) then
        set_fd fd0 0;; set_fd fd1 0;;
        vmfs (fileclose rf);; vmfs (fileclose wf);; mret (-1)
      else mret 0
  end.
End ops.
End Sysfile.
