(* ===== verification/SyscallTable.v ===== *)
(** * The system call dispatcher (second experiment, [syscall.c]): model

    [syscall] runs the handler of the number in [a7]. A handler that gives up the
    CPU leaves the rest of the function to [syscall_return], which stores the
    result and prints the traced calls. *)

From S2P Require Import Prelude.
From S2P Require Import Memory.
From S2P Require Import Riscv.
From S2P Require Import PageAlloc.
From S2P Require Import FreeList.
From S2P Require Import KallocSingle.
From S2P Require Import ProcState.
From S2P Require Import Kernel2.
From S2P Require Import Proc2.
From S2P Require Import Syscall.
From S2P Require Import Sysproc.
From S2P Require Import Sysfile.

Module SyscallTable.
Import Proc2 Syscall Sysproc Sysfile.
Section ops.
Context `{MemLayout} `{Params2} `{UserVm} {F : Type} `{!FsOps F} `{!ExecCall F}.

Abbreviation P := (M (kernel F)).

(** The table, from number 1 on. *)
Definition syscalls : list (P (option Z)) := [
  sys_fork; sys_exit; sys_wait; returns sys_pipe; returns sys_read; sys_kill;
  returns sys_exec; returns sys_fstat; returns sys_chdir; returns sys_dup;
  sys_getpid; sys_sbrk; sys_sleep; sys_uptime; returns sys_open; returns sys_write;
  returns sys_mknod; returns sys_unlink; returns sys_link; returns sys_mkdir;
  returns sys_close; sys_trace; sys_sysinfo ].

Definition syscallsName : list string := [
  "sys_fork"; "sys_exit"; "sys_wait"; "sys_pipe"; "sys_read"; "sys_kill";
  "sys_exec"; "sys_fstat"; "sys_chdir"; "sys_dup"; "sys_getpid"; "sys_sbrk";
  "sys_sleep"; "sys_uptime"; "sys_open"; "sys_write"; "sys_mknod"; "sys_unlink";
  "sys_link"; "sys_mkdir"; "sys_close"; "sys_trace"; "sys_sysinfo" ]%string.

(** [(p->mask >> num) % 2 == 1] *)
Definition traced (mask num : Z) : bool := Z.rem (Z.shiftr mask num) 2 =? 1.

Definition set_a0 (r : Z) : P unit := q ← mine; store64 (u64 (p_trapframe q + tf_a 0)) r.

(** After the handler of [num] has returned [r]. *)
Definition syscall_return (num arg0 r : Z) : P unit :=
  set_a0 r;;
  i ← myproc;
  p ← proc_at i;
  if traced (p_mask (p_pr p)) num then
    a0 ← load64 (u64 (p_trapframe (p_pr p) + tf_a 0));
    modify (print (Traced (p_pid (p_sh p)) (nth (Z.to_nat (num - 1)) syscallsName EmptyString) arg0 (s32 a0)))
  else mret tt.

(** Whether the call returns before the process gives up the CPU. *)
Definition syscall : P bool :=
  i ← myproc;
  p ← proc_at i;
  a7 ← load64 (u64 (p_trapframe (p_pr p) + tf_a 7));
  let num := s32 a7 in
  let handler := if (0 <? num) && (num <? 24) then syscalls !! Z.to_nat (num - 1) else None in
  match handler with
  | Some handler =>
      arg0 ← argint 0;
      r ← handler;
      match r with
      | Some r => syscall_return num arg0 r;; mret true
      | None => mret false
      end
  | None =>
      modify (print (Unknown (p_pid (p_sh p)) (p_name (p_pr p)) num));;
      set_a0 (-1);;
      mret true
  end.
End ops.
End SyscallTable.
