(* ===== verification/SyscallThms.v ===== *)
(** * System calls of the second experiment: dispatch, sleep and sysinfo

    Exact results: which handler runs and what is printed, how long a process
    sleeps by a counter that wraps around, and the three numbers of sysinfo. *)

From S2P Require Import Prelude.
From S2P Require Import Memory.
From S2P Require Import Riscv.
From S2P Require Import PageAlloc.
From S2P Require Import FreeList.
From S2P Require Import KallocSingle.
From S2P Require Import ProcState.
From S2P Require Import Kernel2.
From S2P Require Import Proc2.
From S2P Require Import Syscall.
From S2P Require Import Sysproc.
From S2P Require Import Sysfile.
From S2P Require Import SyscallTable.

Module SyscallThms.
Import Proc2 Syscall Sysproc Sysfile SyscallTable.

(** The trace condition of the source: bit [num] of a mask that is not negative. *)
Lemma traced_spec mask num : 0 <= num -> traced mask num = (0 <=? mask) && Z.testbit mask num.
Proof.
  intros Hn. unfold traced. assert (Hs : Z.testbit mask num = Z.odd (Z.shiftr mask num)).
  { by rewrite <- Z.bit0_odd, Z.shiftr_spec by lia. }
  destruct (Z.leb_spec 0 mask) as [Hm|Hm]; cbn [andb].
  - assert (0 <= Z.shiftr mask num) by (by apply Z.shiftr_nonneg).
    rewrite Z.rem_mod_nonneg by lia. rewrite Hs, Zmod_odd. by destruct (Z.odd _).
  - assert (Z.shiftr mask num < 0) by (by apply Z.shiftr_neg).
    destruct (Z.eqb_spec (Z.rem (Z.shiftr mask num) 2) 1) as [E|]; [|done].
    pose proof (Z.rem_nonpos (Z.shiftr mask num) 2). lia.
Qed.

(** Running a chain of steps; the table is rewritten at one slot. *)
Ltac slot_eq Hlt := cbn; rewrite ?list_insert_insert_eq; apply list_lookup_insert_eq; exact Hlt.
Ltac run_step E := etransitivity; [eapply bind_step, E|]; cbn beta iota.

Section ops.
Context `{MemLayout} `{Params2} `{UserVm} {F : Type} `{!FsOps F} `{!ExecCall F}.
Implicit Types s : kernel F.

Lemma myproc_run s i : k_cur s = Some i -> myproc s = Ok (i, s).
Proof. intros Hc. unfold myproc. by rewrite bind_gets, Hc. Qed.
Lemma proc_at_run s i p : k_procs s !! i = Some p -> proc_at i s = Ok (p, s).
Proof. intros Hp. unfold proc_at. by rewrite Hp. Qed.
Lemma mine_run s i p : k_cur s = Some i -> k_procs s !! i = Some p -> mine s = Ok (p_pr p, s).
Proof.
  intros Hc Hp. unfold mine. rewrite (bind_step _ _ _ _ _ (myproc_run s i Hc)).
  by rewrite (bind_step _ _ _ _ _ (proc_at_run s i p Hp)).
Qed.

(** The register of the trapframe that starts at [tf + 112 + 8 n]. *)
Definition reg n (p : proc) s : Z := ld64 (kmem (k_vm s)) (u64 (p_trapframe (p_pr p) + tf_a n)).
Definition with_a0 (p : proc) (r : Z) s : kernel F :=
  set_vm (ksetmem (st64 (kmem (k_vm s)) (u64 (p_trapframe (p_pr p) + tf_a 0)) r) (k_vm s)) s.

Lemma argint_run n s i p : k_cur s = Some i -> k_procs s !! i = Some p -> 0 <= n <= 5 ->
  argint n s = Ok (s32 (reg n p s), s).
Proof.
  intros Hc Hp Hn. unfold argint, argraw. rewrite bind_assoc, (bind_step _ _ _ _ _ (mine_run s i p Hc Hp)).
  destruct (Z.leb_spec 0 n), (Z.leb_spec n 5); try lia. done.
Qed.

Lemma set_a0_run r s i p : k_cur s = Some i -> k_procs s !! i = Some p -> set_a0 r s = Ok (tt, with_a0 p r s).
Proof. intros Hc Hp. unfold set_a0. by rewrite (bind_step _ _ _ _ _ (mine_run s i p Hc Hp)). Qed.

(** What the end of a call prints. *)
Definition trace_line (num arg0 r : Z) (p : proc) : list message :=
  if (0 <=? p_mask (p_pr p)) && Z.testbit (p_mask (p_pr p)) num
  then [Traced (p_pid (p_sh p)) (nth (Z.to_nat (num - 1)) syscallsName EmptyString) arg0 (s32 r)] else [].

Definition print_all (l : list message) s : kernel F :=
  Kernel (k_vm s) (k_procs s) (k_nextpid s) (k_initproc s) (k_files s) (k_cur s) (k_noff s) (k_tickslock s)
    (k_ticks s) (k_out s ++ l).

Lemma s32_ld64_st64 m a v : s32 (ld64 (st64 m a v) a) = s32 v.
Proof.
  unfold ld64, st64. rewrite ld_st_le. unfold s32, u32.
  rewrite Z.mod_mod_divide; [done|]. by exists (2 ^ 32).
Qed.

Lemma syscall_return_run num arg0 r s i p :
  k_cur s = Some i -> k_procs s !! i = Some p -> 0 <= num ->
  syscall_return num arg0 r s = Ok (tt, print_all (trace_line num arg0 r p) (with_a0 p r s)).
Proof.
  intros Hc Hp Hn. unfold syscall_return. rewrite (bind_step _ _ _ _ _ (set_a0_run r s i p Hc Hp)).
  rewrite (bind_step _ _ _ _ _ (myproc_run (with_a0 p r s) i Hc)).
  rewrite (bind_step _ _ _ _ _ (proc_at_run (with_a0 p r s) i p Hp)).
  rewrite traced_spec by done. unfold trace_line. case_match.
  - unfold load64. rewrite bind_gets. unfold modify, print, print_all. cbn. by rewrite s32_ld64_st64.
  - unfold mret, M_ret, print_all. rewrite app_nil_r. by destruct s.
Qed.

(** C21: A system call runs the handler of its number. When the handler returns [r],
    [r] is stored in [a0] of the process, and a line is printed exactly when
    the trace mask the process then has is not negative and has the bit of the
    call; a handler that gives up the CPU leaves this for later. A number outside
    1 to 23 is reported and gives -1. *)
Theorem syscall_dispatches s i p :
  k_cur s = Some i -> k_procs s !! i = Some p ->
  let num := s32 (reg 7 p s) in
  (1 <= num <= 23 -> exists handler, syscalls !! Z.to_nat (num - 1) = Some handler /\
     forall s1, (handler s = Ok (None, s1) -> syscall s = Ok (false, s1)) /\
       forall r q, handler s = Ok (Some r, s1) -> k_cur s1 = Some i -> k_procs s1 !! i = Some q ->
         syscall s = Ok (true, print_all (trace_line num (s32 (reg 0 p s)) r q) (with_a0 q r s1))) /\
  (~ 1 <= num <= 23 ->
     syscall s = Ok (true, with_a0 p (-1) (print_all [Unknown (p_pid (p_sh p)) (p_name (p_pr p)) num] s))).
Proof.
  intros Hc Hp num. unfold syscall.
  rewrite (bind_step _ _ _ _ _ (myproc_run s i Hc)), (bind_step _ _ _ _ _ (proc_at_run s i p Hp)).
  unfold load64. rewrite !bind_gets. cbv zeta. change (s32 (ld64 _ _)) with num. split.
  - intros Hn. destruct (lookup_lt_is_Some_2 syscalls (Z.to_nat (num - 1))) as [handler Hh]; [cbn; lia|].
    destruct (Z.ltb_spec 0 num), (Z.ltb_spec num 24); try lia. cbn [andb]. rewrite Hh. exists handler. split; [done|].
    intros s1. rewrite (bind_step _ _ _ _ _ (argint_run 0 s i p Hc Hp ltac:(lia))). cbn beta. split.
    + intros Hr. etransitivity; [eapply bind_step, Hr|done].
    + intros r q Hr Hc1 Hq. etransitivity; [eapply bind_step, Hr|]. cbn beta iota.
      by rewrite (bind_step _ _ _ _ _ (syscall_return_run num _ r s1 i q Hc1 Hq ltac:(lia))).
  - intros Hn. replace ((0 <? num) && (num <? 24)) with false by (symmetry; apply andb_false_iff; lia).
    rewrite bind_modify.
    etransitivity; [eapply bind_step, (set_a0_run (-1) (print _ s) i p Hc Hp)|done].
Qed.

(** ** Sleeping *)

(** The ticks after which [sys_sleep] returns: the comparison is unsigned. *)
Definition duration (n : Z) : Z := if n <? 0 then 2 ^ 32 + n else n.

Lemma u32_int n : - 2 ^ 31 <= n < 2 ^ 31 -> u32 n = duration n.
Proof.
  intros Hn. unfold u32, duration. destruct (Z.ltb_spec n 0); [|apply Z.mod_small; lia].
  rewrite <- (Z.mod_small (2 ^ 32 + n) (2 ^ 32)) by lia. rewrite Z.add_comm, <- Z.add_mod_idemp_r by lia.
  by rewrite Z.mod_same, Z.add_0_r by lia.
Qed.

Lemma u32_elapsed t e : 0 <= e < 2 ^ 32 -> u32 (u32 (t + e) - t) = e.
Proof.
  intros He. unfold u32. rewrite Zminus_mod_idemp_l. replace (t + e - t) with e by lia. by apply Z.mod_small.
Qed.

(** The kernel with [tickslock] free again, and with the process [p] asleep. *)
Definition ticks_released s : kernel F := set_noff 0 (set_tickslock false s).
Definition asleep (i : nat) (p : proc) s : kernel F :=
  set_noff 0 (set_cur None (set_tickslock false
    (set_procs (<[i := on_sh (fun q => set_state SLEEPING (set_chan (Some (ChAddr ticks_addr)) q)) p]> (k_procs s)) s))).

(** The outcome of the loop after [e] ticks. *)
Definition sleep_outcome (n e : Z) (i : nat) (p : proc) s : option Z * kernel F :=
  if duration n <=? e then (Some 0, ticks_released s)
  else if p_killed (p_sh p) =? 0 then (None, asleep i p s)
  else (Some (-1), ticks_released s).

Lemma upd_run s i p f : k_procs s !! i = Some p -> upd i f s = Ok (tt, set_procs (<[i := f p]> (k_procs s)) s).
Proof. intros Hp. unfold upd. by rewrite (bind_step _ _ _ _ _ (proc_at_run s i p Hp)). Qed.

Lemma acquire_run s i p :
  k_procs s !! i = Some p -> p_lock p = false ->
  acquire i s = Ok (tt, set_noff (k_noff s + 1) (set_procs (<[i := set_lock true p]> (k_procs s)) s)).
Proof.
  intros Hp Hl. unfold acquire. rewrite (bind_step _ _ _ _ _ (proc_at_run s i p Hp)), Hl. cbn [negb].
  by rewrite (bind_step _ _ _ _ _ (upd_run s i p _ Hp)).
Qed.
Lemma release_run s i p :
  k_procs s !! i = Some p -> p_lock p = true ->
  release i s = Ok (tt, set_noff (k_noff s - 1) (set_procs (<[i := set_lock false p]> (k_procs s)) s)).
Proof.
  intros Hp Hl. unfold release. rewrite (bind_step _ _ _ _ _ (proc_at_run s i p Hp)), Hl. cbn [negb].
  by rewrite (bind_step _ _ _ _ _ (upd_run s i p _ Hp)).
Qed.

(** [sleep(&ticks, &tickslock)] by a process whose lock is free. *)
Lemma sleep_ticks_run s i p :
  k_cur s = Some i -> k_procs s !! i = Some p -> p_lock p = false -> k_tickslock s = true -> k_noff s = 1 ->
  sleep (ChAddr ticks_addr) TicksLock s = Ok (tt, asleep i p s).
Proof.
  destruct s as [v l np ini fs c n tl t out]. cbn. intros -> Hp Hl -> ->.
  assert (Hlt := lookup_lt_Some _ _ _ Hp). unfold sleep, shared.
  etransitivity; [eapply bind_step, myproc_run; reflexivity|]. cbn beta iota. cbn [is_own release_lk].
  rewrite bind_assoc.
  etransitivity; [eapply bind_step, (acquire_run _ i p); [exact Hp|exact Hl]|]. cbn beta iota.
  etransitivity; [eapply bind_step; unfold release_ticks; rewrite bind_gets; reflexivity|]. cbn beta iota.
  etransitivity; [eapply bind_step, upd_run; slot_eq Hlt|]. cbn beta iota.
  etransitivity; [eapply bind_step, upd_run; slot_eq Hlt|]. cbn beta iota.
  unfold sched. etransitivity; [eapply bind_step, myproc_run; reflexivity|]. cbn beta iota.
  etransitivity; [eapply bind_step, proc_at_run; slot_eq Hlt|]. cbn beta iota. cbn [p_lock on_sh set_lock negb].
  rewrite bind_gets. cbn [k_noff set_noff set_tickslock set_procs Z.add Z.sub Z.eqb negb].
  change (negb (1 + 1 - 1 =? 1)) with false. cbn beta iota. case_decide; [done|]. rewrite bind_modify.
  etransitivity; [eapply release_run; [slot_eq Hlt|done]|]. unfold asleep. cbn.
  rewrite !list_insert_insert_eq. unfold on_sh, set_lock. cbn. by rewrite Hl.
Qed.

Lemma sleep_loop_run n ticks0 e s i p :
  k_cur s = Some i -> k_procs s !! i = Some p -> p_lock p = false -> k_tickslock s = true -> k_noff s = 1 ->
  k_ticks s = u32 (ticks0 + e) -> 0 <= e < 2 ^ 32 -> - 2 ^ 31 <= n < 2 ^ 31 ->
  sleep_loop n ticks0 s = Ok (sleep_outcome n e i p s).
Proof.
  intros Hc Hp Hl Ht Hn He Hr Hi. unfold sleep_loop, sleep_outcome. rewrite bind_gets, He, u32_elapsed, u32_int by done.
  assert (Hrel : release_ticks s = Ok (tt, ticks_released s)).
  { unfold release_ticks. rewrite bind_gets, Ht. cbn [negb]. unfold ticks_released, modify. by rewrite Hn. }
  destruct (Z.ltb_spec e (duration n)), (Z.leb_spec (duration n) e); try lia.
  - run_step (myproc_run s i Hc). run_step (proc_at_run s i p Hp).
    destruct (p_killed (p_sh p) =? 0); cbn [negb].
    + run_step (sleep_ticks_run s i p Hc Hp Hl Ht Hn). done.
    + run_step Hrel. done.
  - run_step Hrel. done.
Qed.

(** [tickslock] taken by the running process. *)
Definition ticks_locked s : kernel F := set_noff 1 (set_tickslock true s).
(** The process [i] back from its sleep. *)
Definition awoken (i : nat) (p : proc) s : kernel F :=
  ticks_locked (set_procs (<[i := Proc false (set_chan None (p_sh p)) (p_pr p)]> (k_procs s)) s).

(** C36: How long sleep sleeps. The call, and every wakeup after [e] ticks, whatever
    the value of the wrapping 32-bit counter, returns 0 when [n] ticks have passed,
    returns -1 when the process was killed before, and goes to sleep on [ticks]
    otherwise; for a negative [n] the time is 2^32 + [n] ticks, since the comparison
    is unsigned. *)
Theorem sys_sleep_duration i p s :
  k_cur s = Some i -> k_procs s !! i = Some p -> k_tickslock s = false -> 0 <= k_ticks s < 2 ^ 32 ->
  (p_lock p = false -> k_noff s = 0 -> sys_sleep s = Ok (sleep_outcome (s32 (reg 0 p s)) 0 i p (ticks_locked s))) /\
  (forall n ticks0 e, p_lock p = true -> k_noff s = 1 -> - 2 ^ 31 <= n < 2 ^ 31 -> 0 <= e < 2 ^ 32 ->
     k_ticks s = u32 (ticks0 + e) ->
     sys_sleep_resume n ticks0 s = Ok (sleep_outcome n e i (Proc false (set_chan None (p_sh p)) (p_pr p)) (awoken i p s))).
Proof.
  intros Hc Hp Ht Htr. split.
  - intros Hl Hn. unfold sys_sleep. run_step (argint_run 0 s i p Hc Hp ltac:(lia)).
    assert (Ha : acquire_ticks s = Ok (tt, ticks_locked s)).
    { unfold acquire_ticks. rewrite bind_gets, Ht. unfold ticks_locked, modify. by rewrite Hn. }
    run_step Ha. rewrite bind_gets. cbn [k_ticks ticks_locked set_noff set_tickslock].
    apply sleep_loop_run; try done; try lia.
    + cbn. rewrite Z.add_0_r. symmetry. by apply u32_small.
    + unfold s32. pose proof (u32_range (reg 0 p s)). case_bool; lia.
  - intros n ticks0 e Hl Hn Hnr Her He. unfold sys_sleep_resume.
    assert (Hres : sleep_resume TicksLock s = Ok (tt, awoken i p s)).
    { destruct s as [v l np ini fs c no tl t out]. cbn in *. subst c tl no. assert (Hlt := lookup_lt_Some _ _ _ Hp).
      unfold sleep_resume, shared. etransitivity; [eapply bind_step, myproc_run; reflexivity|]. cbn beta iota.
      etransitivity; [eapply bind_step, upd_run, Hp|]. cbn beta iota. cbn [is_own acquire_lk].
      etransitivity; [eapply bind_step, release_run; [slot_eq Hlt|done]|]. cbn beta iota.
      unfold acquire_ticks. rewrite bind_gets. cbn. unfold modify, awoken, ticks_locked, on_sh, set_lock.
      cbn. by rewrite list_insert_insert_eq. }
    run_step Hres. apply sleep_loop_run; try done.
    cbn. apply list_lookup_insert_eq. by eapply lookup_lt_Some.
Qed.

(** ** [sysinfo] *)
Lemma infonproc_count l n : 0 <= n < 2 ^ 64 ->
  infonproc_loop l n = u64 (n + Z.of_nat (length (filter (fun p => p_state (p_sh p) = UNUSED) l))).
Proof.
  revert n. induction l as [|p l IH]; intros n Hn; cbn [infonproc_loop].
  - cbn. by rewrite Z.add_0_r, u64_small.
  - rewrite filter_cons. case_decide; [|by apply IH].
    rewrite IH by apply u64_range. unfold u64. rewrite Zplus_mod_idemp_l. f_equal. cbn [length]. lia.
Qed.

Lemma freefd_inner_count l n : 0 <= n < 2 ^ 64 ->
  freefd_inner l n = u64 (n + Z.of_nat (length (filter (fun f => f = 0) l))).
Proof.
  revert n. induction l as [|f l IH]; intros n Hn; cbn [freefd_inner].
  - cbn. by rewrite Z.add_0_r, u64_small.
  - rewrite filter_cons. destruct (Z.eqb_spec f 0), (decide (f = 0)); try done; [|by apply IH].
    rewrite IH by apply u64_range. unfold u64. rewrite Zplus_mod_idemp_l. f_equal. cbn [length]. lia.
Qed.

Lemma infofreefd_count l n : 0 <= n < 2 ^ 64 ->
  infofreefd_loop l n = u64 (n + Z.of_nat (length (filter (fun f => f = 0) (concat (map (fun p => p_ofile (p_pr p)) l))))).
Proof.
  revert n. induction l as [|p l IH]; intros n Hn; cbn [infofreefd_loop].
  - cbn. by rewrite Z.add_0_r, u64_small.
  - rewrite freefd_inner_count by done. rewrite IH by apply u64_range. unfold u64. rewrite Zplus_mod_idemp_l.
    cbn [map concat]. rewrite filter_app, length_app. f_equal. lia.
Qed.
End ops.

(** C37: sysinfo copies out the free memory in bytes, the number of unused process
    slots and the number of null descriptors over all slots, each counted exactly,
    and returns -1 only when the copy fails. *)
Theorem sysinfo_reports `{MemLayout} `{!MemLayoutOk} `{Params2} `{UserVm} {F : Type} `{!FsOps F} addr (s : kernel F) i p Free :
  k_cur s = Some i -> k_procs s !! i = Some p -> KallocSingle.ok (k_vm s) Free ->
  info addr s =
    (r ← vm (copyout (p_pagetable (p_pr p)) addr
               (enc_sysinfo (u64 (PGSIZE * Z.of_nat (size Free)))
                  (u64 (Z.of_nat (length (filter (fun p => p_state (p_sh p) = UNUSED) (k_procs s)))))
                  (u64 (Z.of_nat (length (filter (fun f => f = 0) (concat (map (fun p => p_ofile (p_pr p)) (k_procs s)))))))));
     mret (if r <? 0 then -1 else 0)) s.
Proof.
  intros Hc Hp Hok. unfold info. run_step (mine_run s i p Hc Hp).
  destruct (wp_elim _ _ _ (KallocSingle.infofreemem_spec _ _ Hok)) as (n & v' & E & -> & ->).
  assert (Hf : vm KallocSingle.infofreemem s = Ok (u64 (PGSIZE * Z.of_nat (size Free)), s)).
  { unfold vm. rewrite E. by destruct s. }
  run_step Hf. unfold infonproc, infofreefd. rewrite !bind_gets.
  rewrite infonproc_count, infofreefd_count by lia. by rewrite !Z.add_0_l.
Qed.
End SyscallThms.
