(* ===== verification/FsLedger.v ===== *)
(** * The rules of the file layer (second experiment)

    What [fs.c], [log.c] and [file.c] ask of their callers and do for them, as
    their comments state it, in terms of a ledger: is a transaction open, which
    inodes does the running process have locked, which references to inodes and
    to open files do the processes hold. A reference an open file holds itself is
    not in the ledger. An operation used against the rules is not described. *)

From stdpp Require Export gmultiset.
From S2P Require Import Prelude.
From S2P Require Import Memory.
From S2P Require Import Riscv.
From S2P Require Import PageAlloc.
From S2P Require Import FreeList.
From S2P Require Import KallocSingle.
From S2P Require Import ProcState.
From S2P Require Import Kernel2.
From S2P Require Import Syscall.

Record ledger : Type := Ledger {
  txn : bool;
  held : gset Z;
  irefs : gmultiset Z;
  frefs : gmultiset Z;
}.

(** A reference more, unless the pointer is null. *)
Definition plus_ref (x : Z) (I : gmultiset Z) : gmultiset Z := if x =? 0 then I else I ⊎ {[+ x +]}.

Class FsLaws (F : Type) `{!FsOps F} : Type := {
  led : F -> ledger;
  begin_op_law f I R :
    led f = Ledger false ∅ I R -> safe begin_op f (fun _ f' => led f' = Ledger true ∅ I R);
  end_op_law f I R :
    led f = Ledger true ∅ I R -> safe end_op f (fun _ f' => led f' = Ledger false ∅ I R);
  namei_law path f I R :
    led f = Ledger true ∅ I R ->
    safe (namei path) f (fun ip f' => led f' = Ledger true ∅ (plus_ref ip I) R);
  namei_root_law f I R :
    led f = Ledger false ∅ I R ->
    safe (namei [47]) f (fun ip f' => ip <> 0 /\ led f' = Ledger false ∅ (plus_ref ip I) R);
  nameiparent_law path f I R :
    led f = Ledger true ∅ I R ->
    safe (nameiparent path) f (fun d f' => led f' = Ledger true ∅ (plus_ref (fst d) I) R);
  idup_law ip f t h I R :
    led f = Ledger t h I R -> ip ∈ I ->
    safe (idup ip) f (fun r f' => r = ip /\ led f' = Ledger t h (I ⊎ {[+ ip +]}) R);
  ilock_law ip f t h I R :
    led f = Ledger t h I R -> ip ∈ I -> ip ∉ h ->
    safe (ilock ip) f (fun _ f' => led f' = Ledger t ({[ip]} ∪ h) I R);
  iunlock_law ip f t h I R :
    led f = Ledger t h I R -> ip ∈ h ->
    safe (iunlock ip) f (fun _ f' => led f' = Ledger t (h ∖ {[ip]}) I R);
  iunlockput_law ip f h I R :
    led f = Ledger true h I R -> ip ∈ h -> ip ∈ I ->
    safe (iunlockput ip) f (fun _ f' => led f' = Ledger true (h ∖ {[ip]}) (I ∖ {[+ ip +]}) R);
  iput_law ip f h I R :
    led f = Ledger true h I R -> ip ∉ h -> ip ∈ I ->
    safe (iput ip) f (fun _ f' => led f' = Ledger true h (I ∖ {[+ ip +]}) R);
  iupdate_law ip f h I R :
    led f = Ledger true h I R -> ip ∈ h ->
    safe (iupdate ip) f (fun _ f' => led f' = Ledger true h I R);
  itrunc_law ip f h I R :
    led f = Ledger true h I R -> ip ∈ h ->
    safe (itrunc ip) f (fun _ f' => led f' = Ledger true h I R);
  ialloc_law dev type f h I R :
    led f = Ledger true h I R ->
    safe (ialloc dev type) f (fun ip f' => (ip <> 0 -> ip ∉ h) /\ led f' = Ledger true h (plus_ref ip I) R);
  dirlookup_law dp name f t h I R :
    led f = Ledger t h I R -> dp ∈ h ->
    safe (dirlookup dp name) f (fun e f' =>
      led f' = Ledger t h (plus_ref (fst e) I) R /\
      (namecmp name [46] <> 0 -> namecmp name [46; 46] <> 0 -> fst e <> dp));
  dirlink_law dp name inum f h I R :
    led f = Ledger true h I R -> dp ∈ h ->
    safe (dirlink dp name inum) f (fun _ f' => led f' = Ledger true h I R);
  readi_law ip off n f t h I R :
    led f = Ledger t h I R -> ip ∈ h ->
    safe (readi ip off n) f (fun _ f' => led f' = Ledger t h I R /\ inode_at ip f' = inode_at ip f);
  writei_law ip bs off f h I R :
    led f = Ledger true h I R -> ip ∈ h ->
    safe (writei ip bs off) f (fun _ f' => led f' = Ledger true h I R);
  put_inode_law ip i f t h I R :
    led f = Ledger t h I R -> ip ∈ h ->
    safe (put_inode ip i) f (fun _ f' => led f' = Ledger t h I R);
  (** the largest file is far below 2 GiB *)
  inode_size_law ip f : 0 <= i_size (inode_at ip f) < 2 ^ 30;
  filealloc_law f t h I R :
    led f = Ledger t h I R ->
    safe filealloc f (fun x f' =>
      led f' = Ledger t h I (plus_ref x R) /\ (x <> 0 -> f_type (file_at x f') = FD_NONE));
  filedup_law x f t h I R :
    led f = Ledger t h I R -> x ∈ R ->
    safe (filedup x) f (fun r f' => r = x /\ led f' = Ledger t h I (R ⊎ {[+ x +]}));
  (** the file takes over the reference to the inode *)
  put_file_law x fl f t h I R :
    led f = Ledger t h I R -> x ∈ R -> f_type (file_at x f) = FD_NONE ->
    f_type fl <> FD_NONE -> f_ip fl ∈ I ->
    safe (put_file x fl) f (fun _ f' => led f' = Ledger t h (I ∖ {[+ f_ip fl +]}) R);
  (** dropping the inode of a file runs a transaction of its own *)
  fileclose_law x v f t h I R :
    led f = Ledger t h I R -> x ∈ R ->
    (t = false /\ h = ∅) \/ f_type (file_at x f) = FD_NONE ->
    safe (fileclose x) (v, f) (fun _ w => led (snd w) = Ledger t h I (R ∖ {[+ x +]}));
  pipealloc_law v f I R :
    led f = Ledger false ∅ I R ->
    safe pipealloc (v, f) (fun r w =>
      match r with
      | None => led (snd w) = Ledger false ∅ I R
      | Some (x, y) => x <> 0 /\ y <> 0 /\ led (snd w) = Ledger false ∅ I (R ⊎ {[+ x +]} ⊎ {[+ y +]})
      end);
  fileread_law x a n v f I R :
    led f = Ledger false ∅ I R -> x ∈ R ->
    safe (fileread x a n) (v, f) (fun _ w => led (snd w) = Ledger false ∅ I R);
  filewrite_law x a n v f I R :
    led f = Ledger false ∅ I R -> x ∈ R ->
    safe (filewrite x a n) (v, f) (fun _ w => led (snd w) = Ledger false ∅ I R);
  filestat_law x a v f I R :
    led f = Ledger false ∅ I R -> x ∈ R ->
    safe (filestat x a) (v, f) (fun _ w => led (snd w) = Ledger false ∅ I R);
}.

(** Copying to and from user memory: [copyin] and [copyinstr] only read, a string
    that was copied is terminated, and at most [n] bytes of it are stored. *)
Class UserVmLaws `{UserVm} : Prop := {
  copyin_law pagetable a n v :
    wp (copyin pagetable a n) v (fun _ v' => v' = v);
  copyinstr_law pagetable a n v :
    wp (copyinstr pagetable a n) v (fun r v' =>
      v' = v /\ (0 <= snd r -> 0 ∈ fst r) /\ (0 <= n -> Z.of_nat (length (fst r)) <= n));
  copyout_law pagetable a l v : safe (copyout pagetable a l) v (fun _ _ => True);
}.

Lemma terminated l : 0 ∈ l -> exists k, strlen l = Some k.
Proof.
  induction l as [|c l IH]; [set_solver|]. cbn. intros Hz. destruct (Z.eqb_spec c 0); [by eexists|].
  destruct IH as [k ->]; [|by eexists]. apply elem_of_cons in Hz as [<-|]; done.
Qed.

Class Params2Ok `{Params2} : Prop := {
  nofile_pos : 0 < NOFILE < 2 ^ 31;
  dirent_size : 0 < sizeof_dirent <= 2 ^ 10;
}.

(** ** What the processes hold *)
Definition pointers (l : list Z) : list Z := filter (fun x => x <> 0) l.

Definition refs_of (l : list Z) : gmultiset Z := list_to_set_disj (pointers l).

(** The references of one process. *)
Definition files_of (q : pprivate) : gmultiset Z := refs_of (p_ofile q).
Definition cwd_of (q : pprivate) : gmultiset Z := plus_ref (p_cwd q) ∅.

Arguments refs_of : simpl never.
Arguments files_of : simpl never.
Arguments cwd_of : simpl never.

(** The references of a table. *)
Definition all_files (l : list proc) : gmultiset Z := foldr (fun p R => files_of (p_pr p) ⊎ R) ∅ l.
Definition all_cwds (l : list proc) : gmultiset Z := foldr (fun p R => cwd_of (p_pr p) ⊎ R) ∅ l.

Lemma union_swap (x y z : gmultiset Z) : x ⊎ (y ⊎ z) = y ⊎ (x ⊎ z).
Proof. multiset_solver. Qed.

Lemma foldr_update {B} (g : B -> gmultiset Z) (l : list B) i p :
  l !! i = Some p -> exists R, forall q, foldr (fun p R => g p ⊎ R) ∅ (<[i := q]> l) = g q ⊎ R.
Proof.
  revert i. induction l as [|x l IH]; intros [|i] Hi; simplify_eq/=.
  - by eexists.
  - destruct (IH i Hi) as (R & E). exists (g x ⊎ R). intros q. rewrite E. apply union_swap.
Qed.

(** The references of one slot apart from those of the others. *)
Lemma slot_files l i p : l !! i = Some p ->
  exists R, all_files l = files_of (p_pr p) ⊎ R /\ forall q, all_files (<[i := q]> l) = files_of (p_pr q) ⊎ R.
Proof.
  intros Hi. destruct (foldr_update (fun p => files_of (p_pr p)) l i p Hi) as [R E]. exists R.
  split; [|exact E]. rewrite <- (E p). by rewrite list_insert_id.
Qed.
Lemma slot_cwds l i p : l !! i = Some p ->
  exists R, all_cwds l = cwd_of (p_pr p) ⊎ R /\ forall q, all_cwds (<[i := q]> l) = cwd_of (p_pr q) ⊎ R.
Proof.
  intros Hi. destruct (foldr_update (fun p => cwd_of (p_pr p)) l i p Hi) as [R E]. exists R.
  split; [|exact E]. rewrite <- (E p). by rewrite list_insert_id.
Qed.

Lemma plus_ref_ne x I : x <> 0 -> plus_ref x I = I ⊎ {[+ x +]}.
Proof. intros Hx. unfold plus_ref. by rewrite (proj2 (Z.eqb_neq x 0)). Qed.
Lemma plus_ref_0 I : plus_ref 0 I = I.
Proof. done. Qed.

Lemma plus_swap (x y : Z) (I : gmultiset Z) : I ⊎ {[+ y +]} ⊎ {[+ x +]} = I ⊎ {[+ x +]} ⊎ {[+ y +]}.
Proof. multiset_solver. Qed.
Lemma plus_ref_swap x y I : plus_ref x (plus_ref y I) = plus_ref y (plus_ref x I).
Proof. unfold plus_ref. case_match; case_match; try done. apply plus_swap. Qed.

Lemma refs_of_cons x l : refs_of (x :: l) = plus_ref x (refs_of l).
Proof.
  unfold refs_of, pointers, plus_ref. rewrite filter_cons.
  destruct (Z.eqb_spec x 0), (decide (x <> 0)); try done. cbn. by rewrite gmultiset_disj_union_comm.
Qed.

Lemma refs_of_zeros n : refs_of (replicate n 0) = ∅.
Proof. induction n as [|n IH]; [done|]. cbn [replicate]. by rewrite refs_of_cons, plus_ref_0. Qed.

(** Setting an element of the descriptor table. *)
Lemma refs_of_insert l i x y :
  l !! i = Some x -> plus_ref x (refs_of (<[i := y]> l)) = plus_ref y (refs_of l).
Proof.
  revert i. induction l as [|z l IH]; intros [|i] Hi; simplify_eq/=; rewrite !refs_of_cons.
  - apply plus_ref_swap.
  - by rewrite plus_ref_swap, IH, plus_ref_swap.
Qed.

Lemma pointers_elem l i x : l !! i = Some x -> x <> 0 -> x ∈ refs_of l.
Proof.
  intros Hi Hx. apply elem_of_list_to_set_disj, list_elem_of_filter. split; [done|].
  by eapply list_elem_of_lookup_2.
Qed.

Lemma refs_minus (x : Z) (I : gmultiset Z) : (I ⊎ {[+ x +]}) ∖ {[+ x +]} = I.
Proof. multiset_solver. Qed.
Lemma refs_in (x : Z) (I : gmultiset Z) : x ∈ I ⊎ {[+ x +]}.
Proof. multiset_solver. Qed.
Lemma refs_in_l (x y : Z) (I : gmultiset Z) : x ∈ I -> x ∈ I ⊎ {[+ y +]}.
Proof. multiset_solver. Qed.
Lemma refs_right (x : Z) (I R : gmultiset Z) : I ⊎ R ⊎ {[+ x +]} = I ⊎ {[+ x +]} ⊎ R.
Proof. multiset_solver. Qed.
#[export] Hint Resolve refs_in refs_in_l : refs.

(** ** The laws in the shapes the calls use them in: at most two locks are held *)
Section shapes.
Context {F : Type} `{!FsOps F} `{!FsLaws F}.
Implicit Types (f : F) (I R : gmultiset Z).

Lemma ilock_first ip f t I R :
  led f = Ledger t ∅ I R -> ip ∈ I -> safe (ilock ip) f (fun _ f' => led f' = Ledger t {[ip]} I R).
Proof.
  intros HL Hi. eapply safe_mono; [eapply ilock_law; [exact HL|done|set_solver]|]. cbn beta.
  intros _ f' ->. f_equal. set_solver.
Qed.

Lemma iunlock_last ip f t I R :
  led f = Ledger t {[ip]} I R -> safe (iunlock ip) f (fun _ f' => led f' = Ledger t ∅ I R).
Proof.
  intros HL. eapply safe_mono; [eapply iunlock_law; [exact HL|set_solver]|]. cbn beta.
  intros _ f' ->. f_equal. set_solver.
Qed.

Lemma iunlockput_last ip f I R :
  led f = Ledger true {[ip]} (I ⊎ {[+ ip +]}) R ->
  safe (iunlockput ip) f (fun _ f' => led f' = Ledger true ∅ I R).
Proof.
  intros HL. eapply safe_mono; [eapply iunlockput_law; [exact HL|set_solver|auto with refs]|]. cbn beta.
  intros _ f' ->. f_equal; [set_solver|apply refs_minus].
Qed.

(** Of two locked inodes [ip] is given back. *)
Lemma iunlockput_one ip dp f I R :
  led f = Ledger true ({[ip]} ∪ {[dp]}) (I ⊎ {[+ ip +]}) R -> ip <> dp ->
  safe (iunlockput ip) f (fun _ f' => led f' = Ledger true {[dp]} I R).
Proof.
  intros HL Hne. eapply safe_mono; [eapply iunlockput_law; [exact HL|set_solver|auto with refs]|]. cbn beta.
  intros _ f' ->. f_equal; [set_solver|apply refs_minus].
Qed.

(** Of two locked inodes the one locked first is given back. *)
Lemma iunlockput_other ip dp f I R :
  led f = Ledger true ({[ip]} ∪ {[dp]}) (I ⊎ {[+ dp +]} ⊎ {[+ ip +]}) R -> ip <> dp ->
  safe (iunlockput dp) f (fun _ f' => led f' = Ledger true {[ip]} (I ⊎ {[+ ip +]}) R).
Proof.
  intros HL Hne. eapply safe_mono; [eapply iunlockput_law; [exact HL|set_solver|auto with refs]|]. cbn beta.
  intros _ f' ->. f_equal; [set_solver|]. rewrite plus_swap. apply refs_minus.
Qed.

Lemma iput_last ip f I R :
  led f = Ledger true ∅ (I ⊎ {[+ ip +]}) R ->
  safe (iput ip) f (fun _ f' => led f' = Ledger true ∅ I R).
Proof.
  intros HL. eapply safe_mono; [eapply iput_law; [exact HL|set_solver|auto with refs]|]. cbn beta.
  intros _ f' ->. f_equal. apply refs_minus.
Qed.

Lemma fileclose_last x v f t h I R :
  led f = Ledger t h I (R ⊎ {[+ x +]}) -> (t = false /\ h = ∅) \/ f_type (file_at x f) = FD_NONE ->
  safe (fileclose x) (v, f) (fun _ w => led (snd w) = Ledger t h I R).
Proof.
  intros HL Ht. eapply safe_mono; [eapply fileclose_law; [exact HL|auto with refs|done]|]. cbn beta.
  intros _ w ->. f_equal. apply refs_minus.
Qed.
End shapes.
