(* ===== verification/SysfileView.v ===== *)
(** * File system calls: proof rules

    During a file system call only the private members of the running process,
    memory and the file layer change. [view] describes such a state; the rules run
    the calls of [sysfile.c] on it, down to the calls of the file layer, whose
    effect is that of their laws. *)

From stdpp Require Import gmultiset.
From S2P Require Import Prelude.
From S2P Require Import Memory.
From S2P Require Import Riscv.
From S2P Require Import PageAlloc.
From S2P Require Import FreeList.
From S2P Require Import KallocSingle.
From S2P Require Import ProcState.
From S2P Require Import Kernel2.
From S2P Require Import Proc2.
From S2P Require Import Syscall.
From S2P Require Import Sysfile.
From S2P Require Import FsLedger.
#[local] Open Scope Z_scope.

(** Everything but memory, the file layer and the table. *)
Definition same_cpu {F} (s s' : kernel F) : Prop :=
  k_nextpid s' = k_nextpid s /\ k_initproc s' = k_initproc s /\ k_cur s' = k_cur s /\ k_noff s' = k_noff s /\
  k_tickslock s' = k_tickslock s /\ k_ticks s' = k_ticks s /\ k_out s' = k_out s.

(** [i] is the running process, in its slot [p] of the table [l]. *)
Record view {F} (s0 : kernel F) (i : nat) (p : proc) (f : F) (q : pprivate) (s : kernel F) : Prop := View {
  view_cur : k_cur s0 = Some i;
  view_slot : k_procs s0 !! i = Some p;
  view_files : k_files s = f;
  view_procs : k_procs s = <[i := Proc (p_lock p) (p_sh p) q]> (k_procs s0);
  view_cpu : same_cpu s0 s;
}.

Module SysfileView.
Import Proc2 Syscall Sysfile.

Lemma view_start {F} (s : kernel F) i p :
  k_cur s = Some i -> k_procs s !! i = Some p -> view s i p (k_files s) (p_pr p) s.
Proof. intros Hc Hp. split; try done. destruct p. cbn. by rewrite list_insert_id. Qed.

Section rules.
Context `{MemLayout} `{Params2} `{UserVm} `{!UserVmLaws} {F : Type} `{!FsOps F}.
Context (s0 : kernel F) (i : nat) (p : proc).
Implicit Types s : kernel F.
Abbreviation view := (view s0 i p).

Lemma view_mine f q s : view f q s -> mine s = Ok (q, s).
Proof.
  intros [Hc Hs Hf Hp (E1 & E2 & E3 & E4)]. unfold mine, myproc.
  rewrite bind_assoc, bind_gets. rewrite E3, Hc, bind_ret.
  unfold proc_at, mbind, M_bind. rewrite Hp, list_lookup_insert_eq; [done|].
  by eapply lookup_lt_Some.
Qed.

Lemma view_myproc f q s : view f q s -> myproc s = Ok (i, s).
Proof.
  intros [Hc Hs Hf Hp (E1 & E2 & E3 & E4)]. unfold myproc. by rewrite bind_gets, E3, Hc.
Qed.

Lemma view_private f q s g :
  view f q s -> exists s', private i g s = Ok (tt, s') /\ view f (g q) s'.
Proof.
  intros [Hc Hs Hf Hp He]. unfold private, upd, proc_at, mbind, M_bind.
  assert (Hlt := lookup_lt_Some _ _ _ Hs).
  rewrite Hp, list_lookup_insert_eq by done. eexists. split; [reflexivity|].
  split; try done; cbn. by rewrite Hp, list_insert_insert_eq.
Qed.

(** Sequencing. *)
Lemma run_mine {B} f q s (g : pprivate -> M (kernel F) B) Q :
  view f q s -> safe (g q) s Q -> safe (mine ≫= g) s Q.
Proof. intros HV. eapply safe_bind_Ok, view_mine, HV. Qed.

Lemma run_myproc {B} f q s (g : nat -> M (kernel F) B) Q :
  view f q s -> safe (g i) s Q -> safe (myproc ≫= g) s Q.
Proof. intros HV. eapply safe_bind_Ok, view_myproc, HV. Qed.

Lemma run_private {B} f q s h (g : unit -> M (kernel F) B) Q :
  view f q s -> (forall s', view f (h q) s' -> safe (g tt) s' Q) -> safe (private i h ≫= g) s Q.
Proof.
  intros HV Hg. destruct (view_private f q s h HV) as (s' & E & HV').
  eapply safe_bind_Ok; [exact E|by apply Hg].
Qed.

Lemma run_gets {B C} s (h : kernel F -> B) (g : B -> M (kernel F) C) Q :
  safe (g (h s)) s Q -> safe (gets h ≫= g) s Q.
Proof. done. Qed.

Lemma safe_fs {B} f q s (m : M F B) (Post : B -> F -> Prop) :
  view f q s -> safe m f Post -> safe (fs m) s (fun b s' => exists f', Post b f' /\ view f' q s').
Proof.
  intros [Hc Hs <- Hp He] Hm. unfold safe, fs in *. destruct (m (k_files s)) as [[b f']|[]]; try done.
  exists f'. by split.
Qed.

Lemma run_fs {B C} f q s (m : M F B) (g : B -> M (kernel F) C) (Post : B -> F -> Prop) Q :
  view f q s -> safe m f Post ->
  (forall b f' s', Post b f' -> view f' q s' -> safe (g b) s' Q) ->
  safe (fs m ≫= g) s Q.
Proof.
  intros HV Hm Hg. apply safe_bind. eapply safe_mono; [by apply (safe_fs f q)|]. cbn beta.
  intros b s' (f' & HP & HV'). by apply (Hg b f').
Qed.

Lemma safe_vm {B} f q s (m : M pages B) (Post : B -> pages -> Prop) :
  view f q s -> safe m (k_vm s) Post -> safe (vm m) s (fun b s' => Post b (k_vm s') /\ view f q s').
Proof.
  intros [Hc Hs <- Hp He] Hm. unfold safe, vm in *. by destruct (m (k_vm s)) as [[b v']|[]].
Qed.

Lemma run_vm {B C} f q s (m : M pages B) (g : B -> M (kernel F) C) (Post : B -> pages -> Prop) Q :
  view f q s -> safe m (k_vm s) Post ->
  (forall b s', Post b (k_vm s') -> view f q s' -> safe (g b) s' Q) ->
  safe (vm m ≫= g) s Q.
Proof.
  intros HV Hm Hg. apply safe_bind. eapply safe_mono; [by apply (safe_vm f q)|]. cbn beta.
  intros b s' [HP HV']. by apply Hg.
Qed.

Lemma safe_vmfs {B} f q s (m : M (pages * F) B) (Post : B -> pages * F -> Prop) :
  view f q s -> (forall v, safe m (v, f) Post) ->
  safe (vmfs m) s (fun b s' => exists w, Post b w /\ view (snd w) q s').
Proof.
  intros [Hc Hs <- Hp He] Hm. specialize (Hm (k_vm s)). unfold safe, vmfs in *.
  destruct (m (k_vm s, k_files s)) as [[b [v' f']]|[]]; try done.
  exists (v', f'). by split.
Qed.

Lemma run_vmfs {B C} f q s (m : M (pages * F) B) (g : B -> M (kernel F) C) (Post : B -> pages * F -> Prop) Q :
  view f q s -> (forall v, safe m (v, f) Post) ->
  (forall b w s', Post b w -> view (snd w) q s' -> safe (g b) s' Q) ->
  safe (vmfs m ≫= g) s Q.
Proof.
  intros HV Hm Hg. apply safe_bind. eapply safe_mono; [by apply (safe_vmfs f q)|]. cbn beta.
  intros b s' (w & HP & HV'). by apply (Hg b w).
Qed.

(** ** The functions of [syscall.c] *)
(** The argument [n] of the call. *)
Definition arg (n : Z) (q : pprivate) s : Z := ld64 (kmem (k_vm s)) (u64 (p_trapframe q + tf_a n)).

Lemma run_argraw {B} n f q s (g : Z -> M (kernel F) B) Q :
  view f q s -> 0 <= n <= 5 -> safe (g (arg n q s)) s Q -> safe (argraw n ≫= g) s Q.
Proof.
  intros HV Hn Hg. unfold argraw. apply safe_assoc. eapply run_mine; [exact HV|].
  destruct (Z.leb_spec 0 n), (Z.leb_spec n 5); try lia. exact Hg.
Qed.

Lemma run_argint {B} n f q s (g : Z -> M (kernel F) B) Q :
  view f q s -> 0 <= n <= 5 -> safe (g (s32 (arg n q s))) s Q -> safe (argint n ≫= g) s Q.
Proof.
  intros HV Hn Hg. unfold argint. apply safe_assoc. eapply run_argraw; [exact HV|done|]. exact Hg.
Qed.

Lemma fetchstr_safe f q s addr max :
  view f q s -> safe (fetchstr addr max) s (fun _ s' => view f q s' /\ k_vm s' = k_vm s).
Proof.
  intros HV. unfold fetchstr. eapply run_mine; [exact HV|].
  eapply run_vm; [exact HV|apply wp_safe, copyinstr_law|]. cbn beta.
  intros r s' (Hv & Hz & _) HV'. case_bool; [by apply safe_ret|].
  destruct (terminated _ (Hz E)) as [k ->]. by apply safe_ret.
Qed.

Lemma run_argstr {B} n max f q s (g : list Z * Z -> M (kernel F) B) Q :
  view f q s -> 0 <= n <= 5 -> (forall r s', view f q s' -> k_vm s' = k_vm s -> safe (g r) s' Q) ->
  safe (argstr n max ≫= g) s Q.
Proof.
  intros HV Hn Hg. unfold argstr, argaddr. apply safe_assoc. eapply run_argraw; [exact HV|done|].
  apply safe_bind.
  eapply safe_mono; [by apply (fetchstr_safe f q)|]. cbn beta. intros r s' [HV' Hv]. by apply Hg.
Qed.

(** ** Descriptors *)
Lemma run_ofile_at {B} fd x f q s (g : Z -> M (kernel F) B) Q :
  view f q s -> p_ofile q !! fd = Some x -> safe (g x) s Q -> safe (ofile_at fd ≫= g) s Q.
Proof.
  intros HV Hx Hg. unfold ofile_at. apply safe_bind. eapply run_mine; [exact HV|].
  rewrite Hx. exact Hg.
Qed.

Lemma run_set_fd {B} fd x f q s (g : unit -> M (kernel F) B) Q :
  view f q s ->
  (forall s', view f (set_ofile (<[Z.to_nat fd := x]> (p_ofile q)) q) s' -> safe (g tt) s' Q) ->
  safe (set_fd fd x ≫= g) s Q.
Proof.
  intros HV Hg. unfold set_fd. apply safe_bind. eapply run_myproc; [exact HV|].
  destruct (view_private f q s (fun q => set_ofile (<[Z.to_nat fd := x]> (p_ofile q)) q) HV) as (s' & E & HV').
  eapply safe_Ok; [exact E|by apply Hg].
Qed.

Lemma run_argfd {B} n f q s (g : option (Z * Z) -> M (kernel F) B) Q :
  view f q s -> 0 <= n <= 5 -> Z.of_nat (length (p_ofile q)) = NOFILE ->
  safe (g None) s Q ->
  (forall fd x, fd = s32 (arg n q s) -> 0 <= fd < NOFILE -> p_ofile q !! Z.to_nat fd = Some x -> x <> 0 ->
     safe (g (Some (fd, x))) s Q) ->
  safe (argfd n ≫= g) s Q.
Proof.
  intros HV Hn Hl Hnone Hsome. unfold argfd. apply safe_assoc. eapply run_argint; [exact HV|done|].
  set (fd := s32 _) in *. destruct ((fd <? 0) || (NOFILE <=? fd)) eqn:E; [exact Hnone|].
  apply orb_false_iff in E as [E1 E2]. bool_to_prop. apply safe_assoc.
  destruct (lookup_lt_is_Some_2 (p_ofile q) (Z.to_nat fd)) as [x Hx]; [lia|].
  eapply run_ofile_at; [exact HV|exact Hx|].
  case_bool; [exact Hnone|]. apply Hsome; [done|lia|done|done].
Qed.

(** The lowest free descriptor. *)
Definition lowest (l : list Z) (fd : nat) : Prop :=
  l !! fd = Some 0 /\ forall j x, (j < fd)%nat -> l !! j = Some x -> x <> 0.

Lemma fdalloc_safe x f q s :
  view f q s -> Z.of_nat (length (p_ofile q)) = NOFILE ->
  safe (fdalloc x) s (fun fd s' =>
    (fd = -1 /\ s' = s) \/
    (exists k, fd = Z.of_nat k /\ lowest (p_ofile q) k /\ view f (set_ofile (<[k := x]> (p_ofile q)) q) s')).
Proof.
  intros HV Hl. unfold fdalloc.
  assert (Hgen : forall n k, (k + n)%nat = length (p_ofile q) ->
    (forall j y, (j < k)%nat -> p_ofile q !! j = Some y -> y <> 0) ->
    safe (fdalloc_loop n k x) s (fun fd s' =>
      (fd = -1 /\ s' = s) \/
      (exists k, fd = Z.of_nat k /\ lowest (p_ofile q) k /\ view f (set_ofile (<[k := x]> (p_ofile q)) q) s'))).
  { induction n as [|n IH]; intros k Hk Hlow; cbn [fdalloc_loop].
    - apply safe_ret. by left.
    - destruct (lookup_lt_is_Some_2 (p_ofile q) k) as [y Hy]; [lia|].
      eapply run_ofile_at; [exact HV|exact Hy|]. case_bool.
      + subst y. eapply run_set_fd; [exact HV|]. rewrite Nat2Z.id. intros s' HV'. apply safe_ret.
        right. exists k. done.
      + apply IH; [lia|]. intros j z Hj Hz. destruct (decide (j = k)) as [->|]; [congruence|].
        apply (Hlow j); [lia|done]. }
  apply Hgen; [lia|]. intros j y Hj. lia.
Qed.
End rules.
End SysfileView.
