(* ===== verification/SysfileThms.v ===== *)
(** * File system calls: the theorems

    Every file system call, on every path, gives back the locks, references and
    transactions it takes, and changes the descriptor table as documented. *)

From S2P Require Import Prelude.
From S2P Require Import Memory.
From S2P Require Import Riscv.
From S2P Require Import PageAlloc.
From S2P Require Import FreeList.
From S2P Require Import KallocSingle.
From S2P Require Import ProcState.
From S2P Require Import Kernel2.
From S2P Require Import Proc2.
From S2P Require Import Syscall.
From S2P Require Import Sysfile.
From S2P Require Import FsLedger.
From S2P Require Import SysfileView.
#[local] Open Scope Z_scope.

Module SysfileThms.
Import Proc2 Syscall Sysfile SysfileView.

Section calls.
Context `{MemLayout} `{Params2} `{!Params2Ok} `{UserVm} `{!UserVmLaws}.
Context {F : Type} `{!FsOps F} `{!FsLaws F} `{!ExecCall F}.
Context (s0 : kernel F) (i : nat) (p : proc).
Implicit Types (s : kernel F) (I R : gmultiset Z).
Abbreviation view := (view s0 i p).

(** Between two calls: no transaction, no lock, the references of the process [q]
    and, in [I] and [R], those of the others. *)
Definition rest_state (q : pprivate) I R (f : F) : Prop := led f = Ledger false ∅ (cwd_of q ⊎ I) (files_of q ⊎ R).

(** A call returns to such a state, and [eff] relates result and private members. *)
Definition call_ok (m : M (kernel F) Z) (eff : kernel F -> Z -> pprivate -> pprivate -> Prop) : Prop :=
  forall f q s I R, view f q s -> rest_state q I R f -> Z.of_nat (length (p_ofile q)) = NOFILE -> p_cwd q <> 0 ->
    safe m s (fun r s' => exists f' q', view f' q' s' /\ rest_state q' I R f' /\ eff s r q q').

Lemma files_of_open q k x :
  p_ofile q !! k = Some 0 -> x <> 0 ->
  files_of (set_ofile (<[k := x]> (p_ofile q)) q) = files_of q ⊎ {[+ x +]}.
Proof.
  intros Hk Hx. unfold files_of. cbn. apply (refs_of_insert _ _ _ x) in Hk.
  by rewrite plus_ref_0, plus_ref_ne in Hk.
Qed.
Lemma files_of_close q k x :
  p_ofile q !! k = Some x -> x <> 0 ->
  files_of q = files_of (set_ofile (<[k := 0]> (p_ofile q)) q) ⊎ {[+ x +]}.
Proof.
  intros Hk Hx. unfold files_of. cbn. apply (refs_of_insert _ _ _ 0) in Hk.
  by rewrite plus_ref_0, plus_ref_ne in Hk.
Qed.
Lemma in_files q k x R : p_ofile q !! k = Some x -> x <> 0 -> x ∈ files_of q ⊎ R.
Proof. intros Hk Hx. apply gmultiset_elem_of_disj_union. left. by eapply pointers_elem. Qed.

(** The end of a call. *)
Ltac call_end HV HR := apply safe_ret; do 2 eexists; split; [exact HV|split; [exact HR|]].

(** [end_op(); return r;] *)
Lemma end_call f q s I R r (Q : Z -> kernel F -> Prop) :
  view f q s -> led f = Ledger true ∅ I R ->
  (forall f' s', view f' q s' -> led f' = Ledger false ∅ I R -> Q r s') ->
  safe (fs end_op;; mret r) s Q.
Proof.
  intros HV HL HQ. eapply run_fs; [exact HV|by eapply end_op_law|]. cbn beta.
  intros _ f' s' HL' HV'. apply safe_ret. by apply (HQ f').
Qed.

(** [iunlockput(ip); end_op(); return r;] *)
Lemma put_end_call ip f q s I R r (Q : Z -> kernel F -> Prop) :
  view f q s -> led f = Ledger true {[ip]} (I ⊎ {[+ ip +]}) R ->
  (forall f' s', view f' q s' -> led f' = Ledger false ∅ I R -> Q r s') ->
  safe (fs (iunlockput ip);; fs end_op;; mret r) s Q.
Proof.
  intros HV HL HQ. eapply run_fs; [exact HV|by eapply iunlockput_last|]. cbn beta.
  intros _ f' s' HL' HV'. by eapply end_call.
Qed.

(** An update of a locked inode. *)
Lemma run_on_ino {B} ip g0 f q s t h I R (g : unit -> M (kernel F) B) Q :
  view f q s -> led f = Ledger t h I R -> ip ∈ h ->
  (forall f' s', view f' q s' -> led f' = Ledger t h I R -> safe (g tt) s' Q) ->
  safe (on_ino ip g0 ≫= g) s Q.
Proof.
  intros HV HL Hin Hg. unfold on_ino, ino. apply safe_assoc, run_gets.
  eapply run_fs; [exact HV|eapply put_inode_law; [exact HL|done]|]. cbn beta.
  intros [] f' s' HL' HV'. by apply (Hg f').
Qed.

(** ** Descriptors *)
Definition opens (r : Z) (q q' : pprivate) : Prop :=
  (r = -1 /\ q' = q) \/
  exists k x, r = Z.of_nat k /\ lowest (p_ofile q) k /\ x <> 0 /\ q' = set_ofile (<[k := x]> (p_ofile q)) q.

(** A free descriptor now refers to the file of descriptor [fd]. *)
Definition dups (fd r : Z) (q q' : pprivate) : Prop :=
  (r = -1 /\ q' = q) \/
  exists k x, 0 <= fd /\ p_ofile q !! Z.to_nat fd = Some x /\ x <> 0 /\
    r = Z.of_nat k /\ lowest (p_ofile q) k /\ q' = set_ofile (<[k := x]> (p_ofile q)) q.
Definition closes (fd r : Z) (q q' : pprivate) : Prop :=
  (r = -1 /\ q' = q) \/
  exists x, 0 <= fd /\ p_ofile q !! Z.to_nat fd = Some x /\ x <> 0 /\ r = 0 /\
    q' = set_ofile (<[Z.to_nat fd := 0]> (p_ofile q)) q.
Definition no_effect (s : kernel F) (r : Z) (q q' : pprivate) : Prop := q' = q.

Lemma sys_dup_ok : call_ok sys_dup (fun s r q => dups (s32 (arg 0 q s)) r q).
Proof.
  intros f q s I R HV HR Hl Hc. unfold sys_dup. eapply run_argfd; [exact HV|lia|done| |].
  - call_end HV HR. left; auto.
  - intros fd x Hfd [Hr _] Hx Hx0. apply safe_bind.
    eapply safe_mono; [by eapply fdalloc_safe|]. cbn beta. intros fd' s' [[-> ->]|(k & -> & Hk & HV')].
    + call_end HV HR. left; auto.
    + destruct (Z.ltb_spec (Z.of_nat k) 0); [lia|].
      eapply run_fs; [exact HV'|eapply filedup_law; [exact HR|by eapply in_files]|]. cbn beta.
      intros _ f' s2 [_ HL'] HV2. apply safe_ret. do 2 eexists. split; [exact HV2|]. split.
      * unfold rest_state. rewrite HL'. f_equal. erewrite files_of_open by (done || apply Hk). apply refs_right.
      * right. exists k, x. subst fd. by split_and!.
Qed.

Lemma sys_close_ok : call_ok sys_close (fun s r q => closes (s32 (arg 0 q s)) r q).
Proof.
  intros f q s I R HV HR Hl Hc. unfold sys_close. eapply run_argfd; [exact HV|lia|done| |].
  - call_end HV HR. left; auto.
  - intros fd x Hfd [Hr _] Hx Hx0. eapply run_set_fd; [exact HV|]. intros s1 HV1.
    eapply run_vmfs; [exact HV1|intros v; eapply fileclose_last; [|by left]|].
    { unfold rest_state in HR. rewrite HR. f_equal. rewrite (files_of_close q _ x Hx Hx0). symmetry. apply refs_right. }
    cbn beta. intros _ w s2 HL2 HV2. call_end HV2 HL2. right. exists x. subst fd. by split_and!.
Qed.

(** [fileread], [filewrite] and [filestat] on a descriptor. *)
Lemma file_io_end (m : M (pages * F) Z) f q s s1 I R :
  view f q s -> rest_state q I R f ->
  (forall v, safe m (v, f) (fun _ w => led (snd w) = Ledger false ∅ (cwd_of q ⊎ I) (files_of q ⊎ R))) ->
  safe (vmfs m) s (fun r s' => exists f' q', view f' q' s' /\ rest_state q' I R f' /\ no_effect s1 r q q').
Proof.
  intros HV HR Hm. eapply safe_mono; [by eapply safe_vmfs|]. cbn beta.
  intros r s' (w & HL & HV'). by exists (snd w), q.
Qed.

Lemma sys_read_ok : call_ok sys_read no_effect.
Proof.
  intros f q s I R HV HR Hl Hc. unfold sys_read. eapply run_argfd; [exact HV|lia|done| |].
  - by call_end HV HR.
  - intros fd x _ _ Hx Hx0. eapply run_argint; [exact HV|lia|]. eapply run_argraw; [exact HV|lia|].
    eapply file_io_end; [exact HV|exact HR|]. intros v. apply fileread_law; [exact HR|by eapply in_files].
Qed.

Lemma sys_write_ok : call_ok sys_write no_effect.
Proof.
  intros f q s I R HV HR Hl Hc. unfold sys_write. eapply run_argfd; [exact HV|lia|done| |].
  - by call_end HV HR.
  - intros fd x _ _ Hx Hx0. eapply run_argint; [exact HV|lia|]. eapply run_argraw; [exact HV|lia|].
    eapply file_io_end; [exact HV|exact HR|]. intros v. apply filewrite_law; [exact HR|by eapply in_files].
Qed.

Lemma sys_fstat_ok : call_ok sys_fstat no_effect.
Proof.
  intros f q s I R HV HR Hl Hc. unfold sys_fstat. eapply run_argfd; [exact HV|lia|done| |].
  - by call_end HV HR.
  - intros fd x _ _ Hx Hx0. eapply run_argraw; [exact HV|lia|].
    eapply file_io_end; [exact HV|exact HR|]. intros v. apply filestat_law; [exact HR|by eapply in_files].
Qed.

(** ** Paths *)

(** The next call of the file layer, by its law. *)
Ltac fsop law :=
  lazymatch goal with
  | HV : SysfileView.view _ _ _ ?f ?q ?s |- safe (fs _ ≫= _) ?s _ =>
      lazymatch goal with
      | HL : led f = _ |- _ => eapply run_fs; [exact HV|eapply law; [exact HL|auto with refs..]|cbn beta]
      end
  end.
(** A pointer is null or a new reference. *)
Ltac ref_cases ip HL :=
  destruct (Z.eqb_spec ip 0) as [->|?]; [rewrite plus_ref_0 in HL|rewrite plus_ref_ne in HL by done].
Ltac finish q := let f' := fresh in intros f' ? ? ?; by exists f', q.

Lemma sys_link_ok : call_ok sys_link no_effect.
Proof.
  intros f q s I R HV HR Hl Hc. unfold sys_link. eapply run_argstr; [exact HV|lia|]. intros old s1 HV1 _.
  case_bool; [by call_end HV1 HR|].
  eapply run_argstr; [exact HV1|lia|]. intros new s2 HV2 _. case_bool; [by call_end HV2 HR|].
  red in HR. fsop begin_op_law. intros _ f3 s3 HL3 HV3.
  fsop namei_law. intros ip f4 s4 HL4 HV4. ref_cases ip HL4.
  { eapply end_call; [exact HV4|exact HL4|finish q]. }
  fsop ilock_first. intros _ f5 s5 HL5 HV5. apply run_gets. case_bool.
  { eapply put_end_call; [exact HV5|exact HL5|finish q]. }
  eapply run_on_ino; [exact HV5|exact HL5|set_solver|]. intros f6 s6 HV6 HL6.
  fsop iupdate_law; [set_solver|]. intros _ f7 s7 HL7 HV7.
  fsop iunlock_last. intros _ f8 s8 HL8 HV8. cbv zeta.
  match goal with |- safe (_ ≫= fun d => let '(_, _) := d in if _ then ?b else _) _ ?Q =>
    assert (Hbad : forall f s, view f q s -> led f = Ledger true ∅ (cwd_of q ⊎ I ⊎ {[+ ip +]}) (files_of q ⊎ R) ->
      safe b s Q); [|set (bad := b) in *]
  end.
  { intros fb sb HVb HLb. fsop ilock_first. intros _ fc sc HLc HVc.
    eapply run_on_ino; [exact HVc|exact HLc|set_solver|]. intros fd sd HVd HLd.
    fsop iupdate_law; [set_solver|]. intros _ fe se HLe HVe.
    eapply put_end_call; [exact HVe|exact HLe|finish q]. }
  fsop nameiparent_law. intros [dp name] f9 s9 HL9 HV9. cbn [fst] in HL9. ref_cases dp HL9; [by eapply Hbad|].
  fsop ilock_first. intros _ f10 s10 HL10 HV10. apply run_gets, run_gets. apply safe_bind.
  eapply safe_mono with (Q := fun _ s' => exists f', view f' q s' /\
    led f' = Ledger true {[dp]} (cwd_of q ⊎ I ⊎ {[+ ip +]} ⊎ {[+ dp +]}) (files_of q ⊎ R)).
  { case_bool; [apply safe_ret; by exists f10|].
    eapply safe_mono; [eapply safe_fs; [exact HV10|eapply dirlink_law; [exact HL10|set_solver]]|].
    cbn beta. intros r s' (f' & HL' & HV'). by exists f'. }
  cbn beta. intros r s11 (f11 & HV11 & HL11). case_bool.
  { fsop iunlockput_last. intros _ f12 s12 HL12 HV12. by eapply Hbad. }
  fsop iunlockput_last. intros _ f12 s12 HL12 HV12. fsop iput_last. intros _ f13 s13 HL13 HV13.
  eapply end_call; [exact HV13|exact HL13|finish q].
Qed.

(** [isdirempty] terminates: a directory is smaller than the range of [off]. *)
Lemma isdirempty_safe dp f q s t h I R :
  view f q s -> led f = Ledger t h I R -> dp ∈ h ->
  safe (isdirempty dp) s (fun _ s' => exists f', view f' q s' /\ led f' = Ledger t h I R).
Proof.
  intros HV HL Hdp. unfold isdirempty, ino. apply run_gets.
  pose proof dirent_size as Hsz. rewrite (view_files _ _ _ _ _ _ HV).
  pose proof (inode_size_law dp f) as Hi. set (sz := i_size (inode_at dp f)) in *.
  assert (Hloop : forall fuel off fa sa, view fa q sa -> led fa = Ledger t h I R -> i_size (inode_at dp fa) = sz ->
    0 <= off < 2 ^ 30 + 2 ^ 12 -> sz <= off + Z.of_nat fuel ->
    safe (isdirempty_loop fuel dp off) sa (fun _ s' => exists f', view f' q s' /\ led f' = Ledger t h I R)).
  { induction fuel as [|fuel IH]; intros off fa sa HVa HLa Hsa Hoff Hfuel; cbn [isdirempty_loop]; unfold ino;
      apply run_gets; rewrite (view_files _ _ _ _ _ _ HVa), Hsa, u32_small by lia;
      case_bool; try (apply safe_ret; by exists fa).
    - lia.
    - fsop readi_law. intros de fb sb [HLb Hib] HVb. case_bool; [apply safe_panic|].
      case_bool; [apply safe_ret; by exists fb|].
      rewrite s32_small by lia. apply (IH _ fb); try done; [congruence|lia|lia]. }
  apply (Hloop _ _ f); try done; lia.
Qed.

Lemma sys_unlink_ok : call_ok sys_unlink no_effect.
Proof.
  intros f q s I R HV HR Hl Hc. unfold sys_unlink. eapply run_argstr; [exact HV|lia|]. intros path s1 HV1 _.
  case_bool; [by call_end HV1 HR|]. red in HR.
  fsop begin_op_law. intros _ f2 s2 HL2 HV2.
  fsop nameiparent_law. intros [dp name] f3 s3 HL3 HV3. cbn [fst] in HL3. ref_cases dp HL3.
  { eapply end_call; [exact HV3|exact HL3|finish q]. }
  fsop ilock_first. intros _ f4 s4 HL4 HV4. cbv zeta. apply run_gets. cbn [fst snd].
  case_match eqn:Hcmp; [eapply put_end_call; [exact HV4|exact HL4|finish q]|].
  apply orb_false_iff in Hcmp as [Hd1 Hd2]. bool_to_prop.
  fsop dirlookup_law; [set_solver|]. intros [ip off] f5 s5 [HL5 Hne] HV5. cbn [fst] in HL5, Hne.
  specialize (Hne Hd1 Hd2). ref_cases ip HL5; [eapply put_end_call; [exact HV5|exact HL5|finish q]|].
  fsop ilock_law; [set_solver|]. intros _ f6 s6 HL6 HV6. apply run_gets. case_bool; [apply safe_panic|].
  apply safe_bind.
  eapply safe_mono with (Q := fun _ s' => exists f', view f' q s' /\ led f' = led f6).
  { case_bool; [|apply safe_ret; by exists f6]. apply safe_bind.
    eapply safe_mono; [eapply isdirempty_safe; [exact HV6|exact HL6|set_solver]|]. cbn beta.
    intros b s7 (f7 & HV7 & HL7). apply safe_ret. exists f7. by rewrite HL7, HL6. }
  cbn beta. intros full s7 (f7 & HV7 & HL7). rewrite HL6 in HL7. destruct full.
  { fsop iunlockput_one. intros _ f8 s8 HL8 HV8.
    eapply put_end_call; [exact HV8|exact HL8|finish q]. }
  fsop writei_law; [set_solver|]. intros r f8 s8 HL8 HV8. case_bool; [apply safe_panic|].
  apply run_gets. apply safe_bind.
  eapply safe_mono with (Q := fun _ s' => exists f', view f' q s' /\ led f' = led f8).
  { case_bool; [|apply safe_ret; by exists f8].
    eapply run_on_ino; [exact HV8|exact HL8|set_solver|]. intros f9 s9 HV9 HL9.
    eapply safe_mono; [eapply safe_fs; [exact HV9|eapply iupdate_law; [exact HL9|set_solver]]|]. cbn beta.
    intros _ s10 (f10 & HL10 & HV10). exists f10. by rewrite HL10, HL8. }
  cbn beta. intros _ s9 (f9 & HV9 & HL9). rewrite HL8 in HL9.
  fsop iunlockput_other. intros _ f10 s10 HL10 HV10.
  eapply run_on_ino; [exact HV10|exact HL10|set_solver|]. intros f11 s11 HV11 HL11.
  fsop iupdate_law; [set_solver|]. intros _ f12 s12 HL12 HV12.
  eapply put_end_call; [exact HV12|exact HL12|finish q].
Qed.

(** ** [create]: null, or a locked inode with a reference *)
Definition created (ip : Z) I R : ledger :=
  if ip =? 0 then Ledger true ∅ I R else Ledger true {[ip]} (I ⊎ {[+ ip +]}) R.
Lemma created_ne ip I R : ip <> 0 -> created ip I R = Ledger true {[ip]} (I ⊎ {[+ ip +]}) R.
Proof. intros Hip. unfold created. by rewrite (proj2 (Z.eqb_neq ip 0)). Qed.

(** The entries [.] and [..] of a new directory. *)
Lemma create_dots dp ip f q s I R (c : bool) :
  view f q s -> led f = Ledger true ({[ip]} ∪ {[dp]}) I R ->
  safe (if c then
     on_ino dp (fun j => set_nlink (s16 (i_nlink j + 1)) j);;
     fs (iupdate dp);;
     i ← ino ip;
     j ← ino dp;
     r ← fs (dirlink ip [46] (i_inum i));
     if r <? 0 then panic "create dots" else
     r ← fs (dirlink ip [46; 46] (i_inum j));
     if r <? 0 then panic "create dots" else mret tt
   else mret tt) s (fun _ s' => exists f', view f' q s' /\ led f' = Ledger true ({[ip]} ∪ {[dp]}) I R).
Proof.
  intros HV HL. destruct c; [|apply safe_ret; by exists f].
  eapply run_on_ino; [exact HV|exact HL|set_solver|]. intros f1 s1 HV1 HL1.
  fsop iupdate_law; [set_solver|]. intros _ f2 s2 HL2 HV2. apply run_gets, run_gets.
  fsop dirlink_law; [set_solver|]. intros r f3 s3 HL3 HV3. case_bool; [apply safe_panic|].
  fsop dirlink_law; [set_solver|]. intros r' f4 s4 HL4 HV4. case_bool; [apply safe_panic|].
  apply safe_ret. by exists f4.
Qed.

Lemma create_safe path type major minor f q s I R :
  view f q s -> led f = Ledger true ∅ I R ->
  safe (create path type major minor) s (fun ip s' => exists f', view f' q s' /\ led f' = created ip I R).
Proof.
  intros HV HL. unfold create. fsop nameiparent_law. intros [dp name] f1 s1 HL1 HV1. cbn [fst] in HL1.
  ref_cases dp HL1; [apply safe_ret; by exists f1|].
  fsop ilock_first. intros _ f2 s2 HL2 HV2.
  fsop dirlookup_law; [set_solver|]. intros [ip off] f3 s3 [HL3 _] HV3. cbn [fst] in *. cbv zeta.
  ref_cases ip HL3; cbn [negb].
  - apply run_gets. fsop ialloc_law. intros ip f4 s4 [Hne HL4] HV4. ref_cases ip HL4; [apply safe_panic|].
    assert (ip <> dp) by (specialize (Hne ltac:(assumption)); set_solver).
    fsop ilock_law. intros _ f5 s5 HL5 HV5.
    eapply run_on_ino; [exact HV5|exact HL5|set_solver|]. intros f6 s6 HV6 HL6.
    eapply run_on_ino; [exact HV6|exact HL6|set_solver|]. intros f7 s7 HV7 HL7.
    eapply run_on_ino; [exact HV7|exact HL7|set_solver|]. intros f8 s8 HV8 HL8.
    fsop iupdate_law; [set_solver|]. intros _ f9 s9 HL9 HV9.
    apply safe_bind. eapply safe_mono; [eapply create_dots; [exact HV9|exact HL9]|]. cbn beta.
    intros _ s10 (f10 & HV10 & HL10). apply run_gets.
    fsop dirlink_law; [set_solver|]. intros r f11 s11 HL11 HV11. case_bool; [apply safe_panic|].
    fsop iunlockput_other. intros _ f12 s12 HL12 HV12. apply safe_ret. exists f12. by rewrite created_ne.
  - rewrite plus_swap in HL3.
    fsop iunlockput_last. intros _ f4 s4 HL4 HV4.
    fsop ilock_first. intros _ f5 s5 HL5 HV5. apply run_gets.
    case_match; [apply safe_ret; exists f5; by rewrite created_ne|].
    fsop iunlockput_last. intros _ f6 s6 HL6 HV6. apply safe_ret. by exists f6.
Qed.

Lemma open_inode_ok ip omode f q s I R :
  view f q s -> led f = Ledger true {[ip]} (cwd_of q ⊎ I ⊎ {[+ ip +]}) (files_of q ⊎ R) ->
  Z.of_nat (length (p_ofile q)) = NOFILE ->
  safe (open_inode ip omode) s (fun r s' => exists f' q', view f' q' s' /\ rest_state q' I R f' /\ opens r q q').
Proof.
  intros HV HL Hl.
  assert (Hfail : forall f s, view f q s -> led f = Ledger true {[ip]} (cwd_of q ⊎ I ⊎ {[+ ip +]}) (files_of q ⊎ R) ->
    safe (fs (iunlockput ip);; fs end_op;; mret (-1)) s
      (fun r s' => exists f' q', view f' q' s' /\ rest_state q' I R f' /\ opens r q q')).
  { intros fa sa HVa HLa. eapply put_end_call; [exact HVa|exact HLa|].
    intros fb sb HVb HLb. exists fb, q. split; [done|]. split; [done|]. by left. }
  unfold open_inode. apply run_gets. case_match; [by apply (Hfail f)|].
  fsop filealloc_law. intros x f1 s1 [HL1 Hnone] HV1. apply safe_bind. ref_cases x HL1; cbn [orb].
  { apply safe_ret. cbn [orb]. apply safe_bind, safe_ret. by apply (Hfail f1). }
  specialize (Hnone ltac:(done)).
  eapply safe_mono; [by eapply fdalloc_safe|]. cbn beta. intros fd s2 [[-> ->]|(k & -> & Hk & HV2)].
  { cbn [Z.ltb Z.compare]. eapply run_vmfs; [exact HV1|intros v; eapply fileclose_last; [exact HL1|by right]|].
    cbn beta. intros _ w s2 HL2 HV2. by apply (Hfail (snd w)). }
  destruct (Z.ltb_spec (Z.of_nat k) 0); [lia|]. apply run_gets. rewrite (view_files _ _ _ _ _ _ HV2).
  eapply run_fs; [exact HV2|eapply put_file_law; [exact HL1|auto with refs|exact Hnone|..]|cbn beta].
  { unfold open_file. cbn. by case_match. }
  { unfold open_file. cbn. auto with refs. }
  intros _ f3 s3 HL3 HV3. cbn [f_ip open_file] in HL3. rewrite refs_minus in HL3.
  apply safe_bind. eapply safe_mono with (Q := fun _ s' => exists f', view f' _ s' /\ led f' = led f3).
  { case_match; [|apply safe_ret; by exists f3].
    eapply safe_mono; [eapply safe_fs; [exact HV3|eapply itrunc_law; [exact HL3|set_solver]]|]. cbn beta.
    intros _ s4 (f4 & HL4 & HV4). exists f4. by rewrite HL4, HL3. }
  cbn beta. intros _ s4 (f4 & HV4 & HL4). rewrite HL3 in HL4.
  fsop iunlock_last. intros _ f5 s5 HL5 HV5.
  eapply end_call; [exact HV5|exact HL5|]. intros f6 s6 HV6 HL6. do 2 eexists. split; [exact HV6|]. split.
  - unfold rest_state. rewrite HL6. f_equal. erewrite files_of_open by (done || apply Hk). apply refs_right.
  - right. by exists k, x.
Qed.

Lemma sys_open_ok : call_ok sys_open (fun _ => opens).
Proof.
  intros f q s I R HV HR Hl Hc. unfold sys_open. eapply run_argstr; [exact HV|lia|]. intros path s1 HV1 _.
  assert (Hfail : forall f s, view f q s -> led f = Ledger true ∅ (cwd_of q ⊎ I) (files_of q ⊎ R) ->
    safe (fs end_op;; mret (-1)) s
      (fun r s' => exists f' q', view f' q' s' /\ rest_state q' I R f' /\ opens r q q')).
  { intros fa sa HVa HLa. eapply end_call; [exact HVa|exact HLa|].
    intros fb sb HVb HLb. exists fb, q. split; [done|]. split; [done|]. by left. }
  case_bool; [call_end HV1 HR; by left|].
  eapply run_argint; [exact HV1|lia|]. set (omode := s32 _). red in HR.
  fsop begin_op_law. intros _ f2 s2 HL2 HV2. case_match.
  - apply safe_bind. eapply safe_mono; [by eapply create_safe|]. cbn beta. intros ip s3 (f3 & HV3 & HL3).
    unfold created in HL3. case_match; [by apply (Hfail f3)|]. by eapply open_inode_ok.
  - fsop namei_law. intros ip f3 s3 HL3 HV3. ref_cases ip HL3; [by apply (Hfail f3)|].
    fsop ilock_first. intros _ f4 s4 HL4 HV4. apply run_gets. case_match; [|by eapply open_inode_ok].
    eapply put_end_call; [exact HV4|exact HL4|].
    intros f5 s5 HV5 HL5. exists f5, q. split; [done|]. split; [done|]. by left.
Qed.

(** ** Directories and devices *)
Lemma create_call path type major minor f q s I R :
  view f q s -> led f = Ledger true ∅ (cwd_of q ⊎ I) (files_of q ⊎ R) ->
  safe (ip ← create path type major minor;
        if ip =? 0 then fs end_op;; mret (-1) else fs (iunlockput ip);; fs end_op;; mret 0) s
    (fun r s' => exists f' q', view f' q' s' /\ rest_state q' I R f' /\ no_effect s0 r q q').
Proof.
  intros HV HL. apply safe_bind. eapply safe_mono; [by eapply create_safe|]. cbn beta.
  intros ip s1 (f1 & HV1 & HL1). unfold created in HL1. case_match.
  - eapply end_call; [exact HV1|exact HL1|finish q].
  - eapply put_end_call; [exact HV1|exact HL1|finish q].
Qed.

Lemma sys_mkdir_ok : call_ok sys_mkdir no_effect.
Proof.
  intros f q s I R HV HR Hl Hc. unfold sys_mkdir. red in HR.
  fsop begin_op_law. intros _ f1 s1 HL1 HV1. eapply run_argstr; [exact HV1|lia|]. intros path s2 HV2 _.
  case_bool; [|by apply (create_call _ _ _ _ f1)].
  apply safe_bind, safe_ret. eapply end_call; [exact HV2|exact HL1|finish q].
Qed.

Lemma sys_mknod_ok : call_ok sys_mknod no_effect.
Proof.
  intros f q s I R HV HR Hl Hc. unfold sys_mknod. red in HR.
  fsop begin_op_law. intros _ f1 s1 HL1 HV1. eapply run_argstr; [exact HV1|lia|]. intros path s2 HV2 _.
  case_bool; [apply safe_bind, safe_ret; eapply end_call; [exact HV2|exact HL1|finish q]|].
  apply safe_assoc. eapply run_argint; [exact HV2|lia|]. apply safe_assoc. eapply run_argint; [exact HV2|lia|].
  by apply (create_call _ _ _ _ f1).
Qed.

Definition changes_dir (r : Z) (q q' : pprivate) : Prop :=
  (r = -1 /\ q' = q) \/ (r = 0 /\ exists ip, ip <> 0 /\ q' = set_cwd ip q).

Lemma cwd_of_ne q : p_cwd q <> 0 -> cwd_of q = {[+ p_cwd q +]}.
Proof. intros Hc. unfold cwd_of. rewrite plus_ref_ne by done. multiset_solver. Qed.

Lemma sys_chdir_ok : call_ok sys_chdir (fun _ => changes_dir).
Proof.
  intros f q s I R HV HR Hl Hc. unfold sys_chdir. red in HR. eapply run_myproc; [exact HV|].
  fsop begin_op_law. intros _ f1 s1 HL1 HV1. eapply run_argstr; [exact HV1|lia|]. intros path s2 HV2 _.
  assert (Hfail : forall f s, view f q s -> led f = Ledger true ∅ (cwd_of q ⊎ I) (files_of q ⊎ R) ->
    safe (fs end_op;; mret (-1)) s
      (fun r s' => exists f' q', view f' q' s' /\ rest_state q' I R f' /\ changes_dir r q q')).
  { intros fa sa HVa HLa. eapply end_call; [exact HVa|exact HLa|].
    intros fb sb HVb HLb. exists fb, q. split; [done|]. split; [done|]. by left. }
  case_bool; [apply safe_bind, safe_ret; by apply (Hfail f1)|].
  fsop namei_law. intros ip f3 s3 HL3 HV3. ref_cases ip HL3; [by apply (Hfail f3)|].
  fsop ilock_first. intros _ f4 s4 HL4 HV4. apply run_gets. case_bool.
  { eapply put_end_call; [exact HV4|exact HL4|].
    intros f5 s5 HV5 HL5. exists f5, q. split; [done|]. split; [done|]. by left. }
  fsop iunlock_last. intros _ f5 s5 HL5 HV5. eapply run_mine; [exact HV5|].
  assert (Hswap : cwd_of q ⊎ I ⊎ {[+ ip +]} = {[+ ip +]} ⊎ I ⊎ {[+ p_cwd q +]}).
  { rewrite (cwd_of_ne q Hc). clear. multiset_solver. }
  rewrite Hswap in HL5. fsop iput_last. intros _ f6 s6 HL6 HV6.
  fsop end_op_law. intros _ f7 s7 HL7 HV7.
  eapply run_private; [exact HV7|]. intros s8 HV8. apply safe_ret. do 2 eexists. split; [exact HV8|]. split.
  - unfold rest_state. by rewrite HL7, cwd_of_ne.
  - right. split; [done|]. by exists ip.
Qed.

(** ** Pipes *)
Definition opens_two (r : Z) (q q' : pprivate) : Prop :=
  (r = -1 /\ q' = q) \/
  (r = 0 /\ exists j k x y, x <> 0 /\ y <> 0 /\ lowest (p_ofile q) j /\ lowest (<[j := x]> (p_ofile q)) k /\
     q' = set_ofile (<[k := y]> (<[j := x]> (p_ofile q))) q).

Lemma set_ofile_restore q k x : p_ofile q !! k = Some 0 -> set_ofile (<[k := 0]> (<[k := x]> (p_ofile q))) q = q.
Proof. intros Hk. rewrite list_insert_insert_eq, list_insert_id by done. by destruct q. Qed.

Lemma insert_two_restore (l : list Z) j k x y :
  j <> k -> l !! j = Some 0 -> l !! k = Some 0 -> <[k := 0]> (<[j := 0]> (<[k := y]> (<[j := x]> l))) = l.
Proof.
  intros Hne Hj Hk. rewrite (list_insert_insert_ne _ j k) by done.
  rewrite !list_insert_insert_eq. rewrite (list_insert_id l j) by done. by apply list_insert_id.
Qed.

(** [fileclose(rf); fileclose(wf); return -1;] *)
Lemma close_two x y f q s I R :
  view f q s -> led f = Ledger false ∅ (cwd_of q ⊎ I) (files_of q ⊎ R ⊎ {[+ x +]} ⊎ {[+ y +]}) ->
  safe (vmfs (fileclose x);; vmfs (fileclose y);; mret (-1)) s
    (fun r s' => exists f' q', view f' q' s' /\ rest_state q' I R f' /\ opens_two r q q').
Proof.
  intros HV HL. rewrite plus_swap in HL.
  eapply run_vmfs; [exact HV|intros v; eapply fileclose_last; [exact HL|by left]|]. cbn beta. intros _ w s1 HL1 HV1.
  eapply run_vmfs; [exact HV1|intros v; eapply fileclose_last; [exact HL1|by left]|]. cbn beta. intros _ w2 s2 HL2 HV2.
  call_end HV2 HL2. by left.
Qed.

Lemma sys_pipe_ok : call_ok sys_pipe (fun _ => opens_two).
Proof.
  intros f q s I R HV HR Hl Hc. unfold sys_pipe. eapply run_mine; [exact HV|].
  eapply run_argraw; [exact HV|lia|]. set (fdarray := arg 0 q s).
  eapply run_vmfs; [exact HV|intros v; by eapply pipealloc_law|]. cbn beta.
  intros [[rf wf]|] w s1 HL1 HV1; [|call_end HV1 HL1; by left]. destruct HL1 as (Hrf & Hwf & HL1).
  apply safe_bind. eapply safe_mono; [by eapply fdalloc_safe|]. cbn beta.
  intros fd0 s2 [[-> ->]|(j & -> & Hj & HV2)].
  { cbn [Z.ltb Z.leb Z.compare]. apply safe_bind, safe_ret. cbn [orb]. apply safe_bind, safe_ret.
    by eapply close_two. }
  destruct (Z.ltb_spec (Z.of_nat j) 0); [lia|]. cbn [orb]. apply safe_bind.
  eapply safe_mono; [eapply fdalloc_safe; [exact HV2|cbn; by rewrite length_insert]|]. cbn beta.
  intros fd1 s3 [[-> ->]|(k & -> & Hk & HV3)].
  { cbn [Z.ltb Z.compare]. destruct (Z.leb_spec 0 (Z.of_nat j)); [|lia].
    eapply run_set_fd; [exact HV2|]. rewrite Nat2Z.id. intros s3 HV3.
    change (view (snd w) (set_ofile (<[j := 0]> (<[j := rf]> (p_ofile q))) q) s3) in HV3.
    rewrite set_ofile_restore in HV3 by apply Hj. by eapply close_two. }
  destruct (Z.ltb_spec (Z.of_nat k) 0); [lia|]. cbn [p_ofile set_ofile] in Hk, HV3.
  change (view (snd w) (set_ofile (<[k := wf]> (<[j := rf]> (p_ofile q))) q) s3) in HV3.
  assert (Hjk : j <> k).
  { intros <-. destruct Hk as [Hk _]. rewrite list_lookup_insert_eq in Hk; [congruence|]. by eapply lookup_lt_Some, Hj. }
  eapply run_vm; [exact HV3|apply copyout_law|]. cbn beta. intros r0 s4 _ HV4.
  apply safe_bind. eapply safe_mono with (Q := fun _ s' => view (snd w) _ s').
  { case_bool; [by apply safe_ret|]. eapply safe_mono; [eapply safe_vm; [exact HV4|apply copyout_law]|].
    cbn beta. by intros r1 s5 [_ HV5]. }
  cbn beta. intros r1 s5 HV5. case_match.
  - eapply run_set_fd; [exact HV5|]. rewrite Nat2Z.id. intros s6 HV6.
    eapply run_set_fd; [exact HV6|]. rewrite Nat2Z.id. intros s7 HV7.
    cbn [p_ofile set_ofile] in HV7. rewrite insert_two_restore in HV7; [|done|apply Hj|].
    + eapply (close_two rf wf); [|exact HL1]. by destruct q.
    + destruct Hk as [Hk _]. by rewrite list_lookup_insert_ne in Hk.
  - apply safe_ret. do 2 eexists. split; [exact HV5|]. split.
    + unfold rest_state. rewrite HL1. f_equal. unfold files_of. cbn [p_ofile set_ofile].
      pose proof (refs_of_insert _ _ _ rf (proj1 Hj)) as E1.
      pose proof (refs_of_insert _ _ _ wf (proj1 Hk)) as E2.
      rewrite plus_ref_0, plus_ref_ne in E1, E2 by done. rewrite E2, E1. fold (files_of q).
      generalize (files_of q). clear. intros X. multiset_solver.
    + right. split; [done|]. by exists j, k, rf, wf.
Qed.
End calls.
End SysfileThms.
