(* ===== verification/Refs2.v ===== *)
(** * References of the processes (second experiment): the invariant

    Between two steps of the kernel no transaction is open and no inode locked, and
    the references to inodes and files that the file layer has given to processes
    are exactly the current directories and the entries of the descriptor tables.
    Here: the invariant, and the many operations that leave all of this alone. *)

From S2P Require Import Prelude.
From S2P Require Import Memory.
From S2P Require Import Riscv.
From S2P Require Import PageAlloc.
From S2P Require Import FreeList.
From S2P Require Import KallocSingle.
From S2P Require Import ProcState.
From S2P Require Import Kernel2.
From S2P Require Import Proc2.
From S2P Require Import FsLedger.
#[local] Open Scope Z_scope.

(** Slots that hold nothing. *)
Definition idle_state (x : procstate) : Prop := x = UNUSED \/ x = ZOMBIE.
Definition idle (p : proc) : Prop := idle_state (p_state (p_sh p)).

Definition holds_nothing (q : pprivate) : Prop := p_ofile q = replicate (length (p_ofile q)) 0 /\ p_cwd q = 0.

Definition slot_ok `{Params2} (p : proc) : Prop :=
  Z.of_nat (length (p_ofile (p_pr p))) = NOFILE /\
  (idle p -> holds_nothing (p_pr p)) /\ (~ idle p -> p_cwd (p_pr p) <> 0).

Section inv.
Context `{Params2} {F : Type} `{!FsOps F} `{!FsLaws F}.
Implicit Types s : kernel F.

(** What the file layer has given is what the table holds. *)
Definition totals s : Prop := led (k_files s) = Ledger false ∅ (all_cwds (k_procs s)) (all_files (k_procs s)).

Definition active s : Prop := forall i, k_cur s = Some i -> exists p, k_procs s !! i = Some p /\ ~ idle p.

Definition refs_ok s : Prop := totals s /\ Forall slot_ok (k_procs s) /\ active s.
End inv.

(** The slot holds what it held, and is idle if it was. *)
Definition same_refs (p p' : proc) : Prop :=
  p_ofile (p_pr p') = p_ofile (p_pr p) /\ p_cwd (p_pr p') = p_cwd (p_pr p) /\ (idle p' <-> idle p).

#[global] Instance same_refs_refl : Reflexive same_refs.
Proof. by intros p. Qed.
#[global] Instance same_refs_trans : Transitive same_refs.
Proof. intros p1 p2 p3 (A1 & B1 & C1) (A2 & B2 & C2). split_and!; [congruence|congruence|tauto]. Qed.

Definition keeps {F} (s s' : kernel F) : Prop :=
  k_files s' = k_files s /\ (k_cur s' = k_cur s \/ k_cur s' = None) /\ Forall2 same_refs (k_procs s) (k_procs s').

#[global] Instance keeps_refl {F} : Reflexive (@keeps F).
Proof. intros s. split_and!; [done|by left|]. reflexivity. Qed.
#[global] Instance keeps_trans {F} : Transitive (@keeps F).
Proof.
  intros s1 s2 s3 (A1 & B1 & C1) (A2 & B2 & C2). split_and!; [congruence| |by etransitivity].
  destruct B2 as [E | E]; [rewrite E | by right]. done.
Qed.

Module Refs2.
Import Proc2.

Section keeps.
Context {F : Type}.
Implicit Types s : kernel F.

Lemma keeps_slot s s' i p : keeps s s' -> k_procs s !! i = Some p ->
  exists p', k_procs s' !! i = Some p' /\ same_refs p p'.
Proof. intros (_ & _ & Hl) Hi. eapply Forall2_lookup_l in Hl as (p' & ? & ?); [|exact Hi]. by exists p'. Qed.
Lemma keeps_slot_inv s s' i p' : keeps s s' -> k_procs s' !! i = Some p' ->
  exists p, k_procs s !! i = Some p /\ same_refs p p'.
Proof. intros (_ & _ & Hl) Hi. eapply Forall2_lookup_r in Hl as (p & ? & ?); [|exact Hi]. by exists p. Qed.

Lemma all_files_keeps l l' : Forall2 same_refs l l' -> all_files l' = all_files l.
Proof.
  unfold all_files. induction 1 as [|p p' l l' (E1 & _) _ IH]; [done|]. cbn. rewrite IH. f_equal. unfold files_of. by rewrite E1.
Qed.
Lemma all_cwds_keeps l l' : Forall2 same_refs l l' -> all_cwds l' = all_cwds l.
Proof.
  unfold all_cwds. induction 1 as [|p p' l l' (_ & E1 & _) _ IH]; [done|]. cbn. rewrite IH. f_equal. unfold cwd_of. by rewrite E1.
Qed.

Lemma slot_ok_keeps `{Params2} p p' : same_refs p p' -> slot_ok p -> slot_ok p'.
Proof.
  intros (E1 & E2 & E3) (A & B & C). unfold slot_ok, holds_nothing in *. rewrite E1, E2. tauto.
Qed.

Lemma totals_keeps `{!FsOps F} `{!FsLaws F} s s' : keeps s s' -> totals s -> totals s'.
Proof.
  intros (E & _ & Hl). unfold totals. rewrite E. by rewrite (all_files_keeps _ _ Hl), (all_cwds_keeps _ _ Hl).
Qed.

Lemma active_keeps s s' : keeps s s' -> active s -> active s'.
Proof.
  intros Hk Ha i Hc. destruct Hk as (HF & [Hc'|Hc'] & Hl); [|congruence].
  rewrite Hc in Hc'. destruct (Ha i (eq_sym Hc')) as (p & Hp & Hn).
  destruct (keeps_slot s s' i p) as (p' & Hp' & _ & _ & Hi); [split_and!; [done|left; congruence|done]|done|].
  exists p'. by rewrite Hi.
Qed.

Lemma slots_keeps `{Params2} s s' : keeps s s' -> Forall slot_ok (k_procs s) -> Forall slot_ok (k_procs s').
Proof.
  intros HK HS. apply Forall_lookup. intros i p' Hi. destruct (keeps_slot_inv _ _ _ _ HK Hi) as (p & Hp & Hr).
  eapply slot_ok_keeps; [exact Hr|]. by eapply (Forall_lookup_1 _ _ _ _ HS).
Qed.

Lemma refs_ok_keeps `{Params2} `{!FsOps F} `{!FsLaws F} s s' : keeps s s' -> refs_ok s -> refs_ok s'.
Proof.
  intros HK (HT & HS & HA). split_and!; [by eapply totals_keeps| |].
  - by eapply slots_keeps.
  - by eapply active_keeps.
Qed.

(** ** Operations that keep everything *)
Definition kept {B} (m : M (kernel F) B) : Prop := forall s, post m s (fun _ s' => keeps s s').

Lemma kept_bind {B C} (m : M (kernel F) B) (f : B -> M (kernel F) C) :
  kept m -> (forall b, kept (f b)) -> kept (m ≫= f).
Proof.
  intros Hm Hf s. apply post_bind. eapply post_mono; [apply Hm|]. cbn beta. intros b s1 H1.
  eapply post_mono; [apply Hf|]. cbn beta. intros _ s2 H2. by etransitivity.
Qed.
Lemma kept_ret {B} (b : B) : kept (mret b).
Proof. intros s. apply post_ret. reflexivity. Qed.
Lemma kept_fail {B} e : kept (fail e : M _ B).
Proof. intros s. apply post_fail. Qed.
Lemma kept_gets {B} (f : kernel F -> B) : kept (gets f).
Proof. intros s. eapply post_Ok; [done|]. reflexivity. Qed.
Lemma kept_modify (f : kernel F -> kernel F) : (forall s, keeps s (f s)) -> kept (modify f).
Proof. intros Hf s. eapply post_Ok; [done|]. apply Hf. Qed.
Lemma kept_vm {B} (m : M pages B) : kept (vm m).
Proof.
  intros s b s' Hm. unfold vm in Hm. destruct (m (k_vm s)) as [[b' v]|]; [|done]. simplify_eq.
  split_and!; [done|by left|reflexivity].
Qed.
Lemma kept_proc_at i : kept (proc_at (F := F) i).
Proof. intros s b s' Hm. unfold proc_at in Hm. case_match; [|done]. simplify_eq. reflexivity. Qed.
Lemma upd_keeps i f s : (forall p, k_procs s !! i = Some p -> same_refs p (f p)) ->
  post (upd (F := F) i f) s (fun _ s' => keeps s s').
Proof.
  intros Hf. unfold upd. apply post_bind. intros q s1 Hq. unfold proc_at in Hq.
  destruct (k_procs s !! i) as [q'|] eqn:E2; [|done]. simplify_eq. eapply post_Ok; [done|].
  split_and!; [done|by left|]. cbn. apply Forall2_same_length_lookup_2; [by rewrite length_insert|].
  intros j p p' Hp Hp'. apply list_lookup_insert_Some in Hp' as [(-> & <- & _)|(_ & Hp')].
  - rewrite E2 in Hp. simplify_eq. by apply Hf.
  - rewrite Hp in Hp'. by simplify_eq.
Qed.
Lemma kept_upd i f : (forall p, same_refs p (f p)) -> kept (upd i f).
Proof. intros Hf s. apply upd_keeps. auto. Qed.
Lemma kept_for_each ids body : (forall i, kept (body i)) -> kept (for_each (F := F) ids body).
Proof. intros Hb. induction ids as [|i ids IH]; [apply kept_ret|]. by apply kept_bind. Qed.
Lemma kept_if {B} (c : bool) (m1 m2 : M (kernel F) B) : kept m1 -> kept m2 -> kept (if c then m1 else m2).
Proof. by destruct c. Qed.
Lemma kept_decide {B} P `{Decision P} (m1 m2 : M (kernel F) B) :
  kept m1 -> kept m2 -> kept (if decide P then m1 else m2).
Proof. by destruct (decide P). Qed.
End keeps.

Create HintDb kept.
#[export] Hint Resolve kept_ret kept_fail kept_gets kept_vm kept_proc_at : kept.

(** By the shape of the computation. *)
Ltac keep := intros; cbv zeta; unfold shared, private, panic; lazymatch goal with
  | |- kept (_ ≫= _) => apply kept_bind; [keep|keep]
  | |- kept (if decide _ then _ else _) => apply kept_decide; [keep|keep]
  | |- kept (if _ then _ else _) => apply kept_if; [keep|keep]
  | |- kept (upd _ _) => first [apply kept_upd; intros ?; by repeat split|idtac]
  | |- kept (modify _) => first [apply kept_modify; intros ?; split_and!; [done|by left|reflexivity]|idtac]
  | |- kept (match ?x with _ => _ end) => destruct x; keep
  | |- _ => eauto with kept
  end.

Section ops.
Context `{MemLayout} `{Params2} `{UserVm} {F : Type} `{!FsOps F}.
Implicit Types s : kernel F.

Lemma kept_acquire i : kept (acquire (F := F) i).
Proof. unfold acquire. keep. Qed.
Lemma kept_release i : kept (release (F := F) i).
Proof. unfold release. keep. Qed.
Lemma kept_acquire_ticks : kept (acquire_ticks (F := F)).
Proof. unfold acquire_ticks. keep. Qed.
Lemma kept_release_ticks : kept (release_ticks (F := F)).
Proof. unfold release_ticks. keep. Qed.
Lemma kept_myproc : kept (myproc (F := F)).
Proof. unfold myproc. keep. Qed.
Lemma kept_store64 a v : kept (store64 (F := F) a v).
Proof. unfold store64. keep. Qed.
Hint Resolve kept_acquire kept_release kept_acquire_ticks kept_release_ticks kept_myproc kept_store64 : kept.

Lemma kept_allocpid : kept (allocpid (F := F)).
Proof. unfold allocpid. keep. Qed.
Lemma kept_trace m : kept (trace (F := F) m).
Proof. unfold trace. keep. Qed.
Lemma kept_growproc n : kept (growproc (F := F) n).
Proof. unfold growproc. keep. Qed.
Lemma kept_mine : kept (mine (F := F)).
Proof. unfold mine. keep. Qed.
Hint Resolve kept_allocpid kept_mine : kept.
Lemma kept_info a : kept (info (F := F) a).
Proof. unfold info, infonproc, infofreefd. keep. Qed.
Lemma kept_reparent i : kept (reparent (F := F) i).
Proof. unfold reparent, table. keep. apply kept_for_each. keep. Qed.
Lemma kept_find_unused ids : kept (find_unused (F := F) ids).
Proof. induction ids as [|i ids IH]; cbn [find_unused]; keep. Qed.
Lemma kept_sched : kept (sched (F := F)).
Proof.
  unfold sched. keep. apply kept_modify. intros s. split_and!; [done|by right|reflexivity].
Qed.

(** ** Changes of state *)
Lemma keep_bind {B C} (m : M (kernel F) B) (f : B -> M (kernel F) C) s (R : B -> kernel F -> Prop) :
  post m s (fun b s1 => keeps s s1 /\ R b s1) ->
  (forall b s1, keeps s s1 -> R b s1 -> post (f b) s1 (fun _ s2 => keeps s1 s2)) ->
  post (m ≫= f) s (fun _ s' => keeps s s').
Proof.
  intros Hm Hf. apply post_bind. eapply post_mono; [exact Hm|]. cbn beta. intros b s1 [Hk HR].
  eapply post_mono; [by apply Hf|]. cbn beta. intros _ s2 Hk2. by etransitivity.
Qed.

Lemma proc_at_post i s : post (proc_at (F := F) i) s (fun p s1 => s1 = s /\ k_procs s !! i = Some p).
Proof. intros p s1 Hp. unfold proc_at in Hp. case_match; [|done]. by simplify_eq. Qed.

Lemma keep_proc_at {C} i (f : proc -> M (kernel F) C) s :
  (forall p, k_procs s !! i = Some p -> post (f p) s (fun _ s2 => keeps s s2)) ->
  post (proc_at i ≫= f) s (fun _ s' => keeps s s').
Proof.
  intros Hf. eapply keep_bind with (R := fun p s1 => s1 = s /\ k_procs s !! i = Some p).
  - eapply post_mono; [apply proc_at_post|]. cbn beta. intros p s1 [-> Hp]. split; [reflexivity|done].
  - intros p s1 _ [-> Hp]. by apply Hf.
Qed.
Lemma kept_post {B} (m : M (kernel F) B) s : kept m -> post m s (fun _ s' => keeps s s').
Proof. intros Hm. apply Hm. Qed.

Lemma shared_keeps i f s :
  (forall p, k_procs s !! i = Some p -> idle_state (p_state (f (p_sh p))) <-> idle p) ->
  post (shared (F := F) i f) s (fun _ s' => keeps s s').
Proof. intros Hf. apply upd_keeps. intros p Hp. by split_and!; [| |apply Hf]. Qed.

Lemma awake_not_idle x : x = SLEEPING \/ x = RUNNABLE \/ x = RUNNING -> ~ idle_state x.
Proof. unfold idle_state. intros [->|[->| ->]] [|]; congruence. Qed.

(** A process that sleeps, runs or can run changes between these. *)
Lemma awake_keeps i x s p :
  k_procs s !! i = Some p -> ~ idle p -> ~ idle_state x ->
  post (shared (F := F) i (set_state x)) s (fun _ s' => keeps s s').
Proof. intros Hp Hn Hx. apply shared_keeps. intros p' Hp'. simplify_eq. cbn. tauto. Qed.

Lemma kept_wakeup1 i : kept (wakeup1 (F := F) i).
Proof.
  intros s. unfold wakeup1. apply keep_proc_at. intros p Hp. case_match; [apply post_fail|].
  case_decide as Hd; [|apply kept_post, kept_ret]. eapply awake_keeps; [exact Hp| |apply awake_not_idle; auto].
  apply awake_not_idle. tauto.
Qed.

Lemma kept_wakeup c : kept (wakeup (F := F) c).
Proof.
  unfold wakeup, table. keep. apply kept_for_each. intros i. apply kept_bind; [apply kept_acquire|]. intros _ s.
  apply keep_proc_at. intros p Hp.
  eapply keep_bind with (R := fun _ _ => True); [|intros ? ? _ _; apply kept_post, kept_release].
  eapply post_mono; [|intros ? ? Hk; split; [exact Hk|done]].
  case_decide as Hd; [|apply kept_post, kept_ret]. eapply awake_keeps; [exact Hp| |apply awake_not_idle; auto].
  apply awake_not_idle. tauto.
Qed.

Lemma kept_kill_loop ids pid : kept (kill_loop (F := F) ids pid).
Proof.
  induction ids as [|i ids IH]; cbn [kill_loop]; [keep|].
  apply kept_bind; [apply kept_acquire|]. intros _ s. apply keep_proc_at. intros p Hp.
  case_match; [|apply kept_post; keep].
  eapply keep_bind with (R := fun _ s1 => exists p1, k_procs s1 !! i = Some p1 /\ same_refs p p1).
  { eapply post_mono; [apply kept_post; keep|]. cbn beta. intros _ s1 Hk. split; [done|].
    by apply (keeps_slot s). }
  intros _ s1 _ (p1 & Hp1 & Hr).
  eapply keep_bind with (R := fun _ _ => True); [|intros ? ? _ _; apply kept_post; keep].
  eapply post_mono; [|intros ? ? Hk; split; [exact Hk|done]].
  case_decide as Hd; [|apply kept_post, kept_ret]. eapply awake_keeps; [exact Hp1| |apply awake_not_idle; auto].
  destruct Hr as (_ & _ & Hi). rewrite Hi. apply awake_not_idle. auto.
Qed.
Lemma kept_kill pid : kept (kill (F := F) pid).
Proof. unfold kill, table. keep. apply kept_kill_loop. Qed.

(** ** Runs that start from [s0] *)
Lemma kept_then {B C} s0 (m : M (kernel F) B) (f : B -> M (kernel F) C) s :
  keeps s0 s -> kept m -> (forall b s1, keeps s0 s1 -> post (f b) s1 (fun _ s' => keeps s0 s')) ->
  post (m ≫= f) s (fun _ s' => keeps s0 s').
Proof.
  intros Hk Hm Hf. apply post_bind. eapply post_mono; [apply Hm|]. cbn beta. intros b s1 Hk1.
  apply Hf. by etransitivity.
Qed.
Lemma from_keeps {B} s0 (m : M (kernel F) B) s :
  keeps s0 s -> post m s (fun _ s' => keeps s s') -> post m s (fun _ s' => keeps s0 s').
Proof. intros Hk Hm. eapply post_mono; [exact Hm|]. cbn beta. intros _ s1 Hk1. by etransitivity. Qed.

Lemma freeproc_keeps i s p :
  k_procs s !! i = Some p -> idle p -> post (freeproc (F := F) i) s (fun _ s' => keeps s s').
Proof.
  intros Hp Hi. unfold freeproc. apply keep_proc_at. intros q _. cbv zeta.
  assert (Hk : keeps s s) by reflexivity. revert Hk. generalize s at 2 3. intros s1 Hk1.
  do 12 (eapply kept_then; [eassumption|keep|clear s1 Hk1; intros _ s1 Hk1]).
  apply from_keeps; [done|]. apply shared_keeps. intros p1 Hp1. cbn.
  destruct (keeps_slot_inv _ _ _ _ Hk1 Hp1) as (p0 & Hp0 & _ & _ & Hr). simplify_eq.
  rewrite Hr. split; [done|]. by left.
Qed.

Lemma find_unused_post ids s :
  post (find_unused (F := F) ids) s (fun r s' => keeps s s' /\
    forall i, r = Some i -> exists p, k_procs s' !! i = Some p /\ idle p).
Proof.
  revert s. induction ids as [|i ids IH]; intros s; cbn [find_unused].
  - apply post_ret. by split.
  - apply post_bind. eapply post_mono; [apply kept_acquire|]. cbn beta. intros _ s1 Hk1.
    apply post_bind. eapply post_mono; [apply proc_at_post|]. cbn beta. intros p _ [-> Hp].
    case_decide as Hd.
    + apply post_ret. split; [done|]. intros j [= <-]. exists p. split; [done|]. by left.
    + apply post_bind. eapply post_mono; [apply kept_release|]. cbn beta. intros _ s2 Hk2.
      eapply post_mono; [apply IH|]. cbn beta. intros r s3 [Hk3 Hr]. split; [|done].
      do 2 (etransitivity; [eassumption|]). done.
Qed.

Lemma keeps_idle s s' i p : keeps s s' -> k_procs s !! i = Some p -> idle p ->
  exists p', k_procs s' !! i = Some p' /\ idle p'.
Proof.
  intros Hk Hp Hi. destruct (keeps_slot _ _ _ _ Hk Hp) as (p' & Hp' & _ & _ & Hr). exists p'. by rewrite Hr.
Qed.

(** What [allocproc] does with the slot it has found. *)
Definition alloc_rest (i : nat) : M (kernel F) (option nat) :=
  pid ← allocpid;
  shared i (set_pid pid);;
  tf ← vm kalloc;
  private i (set_trapframe tf);;
  if tf =? 0 then release i;; mret None else
  pt ← proc_pagetable i;
  private i (set_pagetable pt);;
  if pt =? 0 then freeproc i;; release i;; mret None else
  p ← proc_at i;
  private i (set_context forkret_addr (u64 (p_kstack (p_pr p) + PGSIZE)));;
  mret (Some i).

Lemma alloc_rest_keeps i p s :
  k_procs s !! i = Some p -> idle p -> post (alloc_rest i) s (fun _ s' => keeps s s').
Proof.
  intros Hp Hi. unfold alloc_rest. assert (Hk : keeps s s) by reflexivity.
  do 4 (eapply kept_then; [eassumption|keep|clear Hk; intros ? ? Hk]). case_match.
  { eapply from_keeps; [eassumption|]. apply kept_post. keep. }
  eapply kept_then; [eassumption|unfold proc_pagetable; keep|intros pt s5 Hk5].
  eapply kept_then; [eassumption|keep|intros _ s6 Hk6]. case_match.
  - destruct (keeps_idle _ _ _ _ Hk6 Hp Hi) as (p6 & Hp6 & Hi6).
    eapply from_keeps; [exact Hk6|]. eapply keep_bind with (R := fun _ _ => True).
    + eapply post_mono; [by eapply freeproc_keeps|]. done.
    + intros _ s7 _ _. apply kept_post. keep.
  - eapply from_keeps; [exact Hk6|]. apply kept_post. keep.
Qed.

Lemma alloc_rest_result i s : post (alloc_rest i) s (fun r _ => r = None \/ r = Some i).
Proof.
  unfold alloc_rest. do 4 (apply post_any; intros ? ?). case_match.
  - apply post_any. intros ? ?. apply post_ret. by left.
  - do 2 (apply post_any; intros ? ?). case_match.
    + do 2 (apply post_any; intros ? ?). apply post_ret. by left.
    + do 2 (apply post_any; intros ? ?). apply post_ret. by right.
Qed.

Lemma allocproc_keeps s :
  post (allocproc (F := F)) s (fun r s' => keeps s s' /\
    forall i, r = Some i -> exists p, k_procs s' !! i = Some p /\ idle p).
Proof.
  unfold allocproc. apply post_bind. intros t s1 [= _ <-].
  apply post_bind. eapply post_mono; [apply find_unused_post|]. cbn beta. intros [i|] s1 [Hk1 Hr]; [|by apply post_ret].
  destruct (Hr i eq_refl) as (p & Hp & Hi). clear Hr.
  eapply post_mono; [apply post_and; [apply alloc_rest_keeps with (p := p); done|apply alloc_rest_result]|].
  cbn beta. intros r s2 [Hk2 Hr]. split; [by etransitivity|]. intros j ->. destruct Hr as [|[= ->]]; [done|].
  by apply (keeps_idle s1 s2 i p).
Qed.

(** ** Giving up the CPU *)
Lemma myproc_post s : post (myproc (F := F)) s (fun i s' => s' = s /\ k_cur s = Some i).
Proof.
  intros i s' Hm. unfold myproc in Hm. rewrite bind_gets in Hm. destruct (k_cur s); [|done].
  unfold mret, M_ret in Hm. by simplify_eq.
Qed.
Lemma keep_myproc {C} (f : nat -> M (kernel F) C) s :
  (forall i, k_cur s = Some i -> post (f i) s (fun _ s2 => keeps s s2)) ->
  post (myproc ≫= f) s (fun _ s' => keeps s s').
Proof.
  intros Hf. apply post_bind. eapply post_mono; [apply myproc_post|]. cbn beta. intros i s1 [-> Hc]. by apply Hf.
Qed.

(** The running process gets another state in which it is not idle, and the
    rest keeps everything. *)
Lemma set_state_then {C} s0 s i x (f : unit -> M (kernel F) C) :
  active s0 -> k_cur s0 = Some i -> ~ idle_state x -> keeps s0 s -> (forall b, kept (f b)) ->
  post (shared i (set_state x) ≫= f) s (fun _ s' => keeps s0 s').
Proof.
  intros Ha Hc Hx Hk Hf. destruct (Ha i Hc) as (p0 & Hp0 & Hn).
  destruct (keeps_slot _ _ _ _ Hk Hp0) as (p & Hp & _ & _ & Hr).
  apply from_keeps; [done|]. eapply keep_bind with (R := fun _ _ => True).
  - eapply post_mono; [eapply awake_keeps; [exact Hp|tauto|done]|done].
  - intros b s1 _ _. apply kept_post, Hf.
Qed.

Lemma sleep_keeps c lk s : active s -> post (sleep (F := F) c lk) s (fun _ s' => keeps s s').
Proof.
  intros Ha. unfold sleep. apply keep_myproc. intros i Hc.
  assert (Hk : keeps s s) by reflexivity.
  do 2 (eapply kept_then; [eassumption|unfold release_lk; keep|clear Hk; intros ? ? Hk]).
  eapply set_state_then; [exact Ha|exact Hc|apply awake_not_idle; auto|exact Hk|]. intros _. apply kept_sched.
Qed.

Lemma yield_keeps s : active s -> post (yield (F := F)) s (fun _ s' => keeps s s').
Proof.
  intros Ha. unfold yield. apply keep_myproc. intros i Hc.
  assert (Hk : keeps s s) by reflexivity.
  eapply kept_then; [eassumption|keep|clear Hk; intros ? ? Hk].
  eapply set_state_then; [exact Ha|exact Hc|apply awake_not_idle; auto|exact Hk|]. intros _. apply kept_sched.
Qed.

Lemma kept_sleep_resume lk : kept (sleep_resume (F := F) lk).
Proof. unfold sleep_resume, acquire_lk. keep. Qed.
Lemma kept_release_only : kept (i ← myproc; release (F := F) i).
Proof. keep. Qed.

Lemma kept_wait_scan ids me addr hk : kept (wait_scan (F := F) ids me addr hk).
Proof.
  revert hk. induction ids as [|np ids IH]; intros hk; cbn [wait_scan]; [keep|].
  apply kept_bind; [keep|]. intros q0. apply kept_decide; [|apply IH].
  apply kept_bind; [keep|]. intros _ s. apply keep_proc_at. intros q Hq. case_decide as Hz; [|apply kept_post; keep].
  assert (Hk : keeps s s) by reflexivity.
  do 2 (eapply kept_then; [eassumption|keep|clear Hk; intros ? ? Hk]).
  case_match; [apply from_keeps; [done|]; apply kept_post; keep|].
  destruct (keeps_idle _ _ _ _ Hk Hq) as (q1 & Hq1 & Hi); [by right|].
  apply from_keeps; [done|]. eapply keep_bind with (R := fun _ _ => True).
  - eapply post_mono; [by eapply freeproc_keeps|done].
  - intros _ s2 _ _. apply kept_post. keep.
Qed.

Lemma wait_iter_keeps addr s : active s -> post (wait_iter (F := F) addr) s (fun _ s' => keeps s s').
Proof.
  intros Ha. unfold wait_iter. assert (Hk : keeps s s) by reflexivity.
  eapply kept_then; [exact Hk|keep|intros i s1 Hk1].
  eapply kept_then; [exact Hk1|unfold table; keep|intros t s2 Hk2].
  eapply kept_then; [exact Hk2|apply kept_wait_scan|intros r s3 Hk3].
  apply from_keeps; [exact Hk3|]. destruct r as [r|hk]; [apply kept_post; keep|].
  apply keep_proc_at. intros p Hp. case_match; [apply kept_post; keep|].
  eapply keep_bind with (R := fun _ _ => True).
  - eapply post_mono; [apply sleep_keeps; by eapply active_keeps|done].
  - intros _ s4 _ _. apply kept_post. keep.
Qed.
Lemma wait_keeps addr s : active s -> post (wait (F := F) addr) s (fun _ s' => keeps s s').
Proof.
  intros Ha. unfold wait. assert (Hk : keeps s s) by reflexivity.
  eapply kept_then; [exact Hk|keep|intros i s1 Hk1].
  eapply kept_then; [exact Hk1|keep|intros _ s2 Hk2].
  apply from_keeps; [exact Hk2|]. apply wait_iter_keeps. by eapply active_keeps.
Qed.
Lemma wait_resume_keeps addr s : active s -> post (wait_resume (F := F) addr) s (fun _ s' => keeps s s').
Proof.
  intros Ha. unfold wait_resume. assert (Hk : keeps s s) by reflexivity.
  eapply kept_then; [exact Hk|apply kept_sleep_resume|intros _ s1 Hk1].
  apply from_keeps; [exact Hk1|]. apply wait_iter_keeps. by eapply active_keeps.
Qed.
End ops.
#[export] Hint Resolve kept_acquire kept_release kept_acquire_ticks kept_release_ticks kept_myproc
  kept_store64 kept_allocpid kept_mine kept_info kept_reparent kept_sched kept_wakeup1 kept_wakeup kept_kill
  kept_trace kept_growproc kept_sleep_resume : kept.
End Refs2.
