(* ===== verification/Refs2Steps.v ===== *)
(** * References of the processes (second experiment): creation and end of a process

    [fork] gives the child references of its own, [exit] gives all of them back:
    both change the table and the ledger together. *)

From S2P Require Import Prelude.
From S2P Require Import Memory.
From S2P Require Import Riscv.
From S2P Require Import PageAlloc.
From S2P Require Import FreeList.
From S2P Require Import KallocSingle.
From S2P Require Import ProcState.
From S2P Require Import Kernel2.
From S2P Require Import Proc2.
From S2P Require Import FsLedger.
From S2P Require Import Refs2.
#[local] Open Scope Z_scope.

Module Refs2Steps.
Import Proc2 Refs2.

Section steps.
Context `{MemLayout} `{Params2} `{UserVm} {F : Type} `{!FsOps F} `{!FsLaws F}.
Implicit Types s : kernel F.

(** The invariant but for what the slot [j] may hold. *)
Definition others_ok (j : nat) s : Prop :=
  totals s /\ (forall k p, k <> j -> k_procs s !! k = Some p -> slot_ok p) /\ active s.

Lemma others_ok_all j s : refs_ok s -> others_ok j s.
Proof.
  intros (HT & HS & HA). split_and!; [done| |done]. intros k p _ Hk. by eapply (Forall_lookup_1 _ _ _ _ HS).
Qed.

Lemma others_ok_keeps j s s' : keeps s s' -> others_ok j s -> others_ok j s'.
Proof.
  intros HK (HT & HS & HA). split_and!; [by eapply totals_keeps| |by eapply active_keeps].
  intros k p' Hne Hk. destruct (keeps_slot_inv _ _ _ _ HK Hk) as (p & Hp & Hr).
  eapply slot_ok_keeps; [exact Hr|by eapply HS].
Qed.

(** What the slot [j] holds. *)
Definition slot s (j : nat) (ofile : list Z) (cwd : Z) : Prop :=
  exists p, k_procs s !! j = Some p /\ p_ofile (p_pr p) = ofile /\ p_cwd (p_pr p) = cwd.

Lemma slot_keeps s s' j o c : keeps s s' -> slot s j o c -> slot s' j o c.
Proof.
  intros HK (p & Hp & Ho & Hc). destruct (keeps_slot _ _ _ _ HK Hp) as (p' & Hp' & E1 & E2 & _).
  exists p'. split_and!; congruence.
Qed.

(** A call of the file layer. *)
Lemma post_fs {B C} (m : M F B) (g : B -> M (kernel F) C) (Post : B -> F -> Prop) s Q :
  safe m (k_files s) Post -> (forall b f', Post b f' -> post (g b) (set_files f' s) Q) ->
  post (fs m ≫= g) s Q.
Proof.
  intros Hm Hg. apply post_bind. intros b s' Hr. unfold fs in Hr. unfold safe in Hm.
  destruct (m (k_files s)) as [[b' f']|]; [|done]. simplify_eq. by apply Hg.
Qed.
Lemma post_vmfs {B C} (m : M (pages * F) B) (g : B -> M (kernel F) C) (Post : B -> pages * F -> Prop) s Q :
  safe m (k_vm s, k_files s) Post -> (forall b w, Post b w -> post (g b) (set_files (snd w) (set_vm (fst w) s)) Q) ->
  post (vmfs m ≫= g) s Q.
Proof.
  intros Hm Hg. apply post_bind. intros b s' Hr. unfold vmfs in Hr. unfold safe in Hm.
  destruct (m (k_vm s, k_files s)) as [[b' [v f']]|]; [|done]. simplify_eq. by apply (Hg _ (v, f')).
Qed.

(** A change of the private members of slot [j]. *)
Lemma after_private {C} j h (g : unit -> M (kernel F) C) s p Q :
  k_procs s !! j = Some p -> post (g tt) (set_procs (<[j := on_pr h p]> (k_procs s)) s) Q ->
  post (private j h ≫= g) s Q.
Proof.
  intros Hp Hg. apply post_bind. unfold private, upd. apply post_bind.
  eapply post_mono; [apply proc_at_post|]. cbn beta. intros q s1 [-> Hq]. simplify_eq. by eapply post_Ok.
Qed.

(** The ledger after such a change, when the file layer has moved from [(I, R)]. *)
Lemma totals_slot j p p' s f' :
  k_procs s !! j = Some p ->
  (forall I R, led (k_files s) = Ledger false ∅ (cwd_of (p_pr p) ⊎ I) (files_of (p_pr p) ⊎ R) ->
     led f' = Ledger false ∅ (cwd_of (p_pr p') ⊎ I) (files_of (p_pr p') ⊎ R)) ->
  totals s -> totals (set_procs (<[j := p']> (k_procs s)) (set_files f' s)).
Proof.
  intros Hp Hled HT. unfold totals in *. cbn.
  destruct (slot_files _ _ _ Hp) as (R & E1 & E2), (slot_cwds _ _ _ Hp) as (I & E3 & E4).
  rewrite E2, E4. apply Hled. by rewrite HT, E1, E3.
Qed.

Lemma others_ok_slot j h p s f' :
  others_ok j s -> k_procs s !! j = Some p ->
  (forall I R, led (k_files s) = Ledger false ∅ (cwd_of (p_pr p) ⊎ I) (files_of (p_pr p) ⊎ R) ->
     led f' = Ledger false ∅ (cwd_of (h (p_pr p)) ⊎ I) (files_of (h (p_pr p)) ⊎ R)) ->
  others_ok j (set_procs (<[j := on_pr h p]> (k_procs s)) (set_files f' s)).
Proof.
  intros (HT & HS & HA) Hp Hled. split_and!.
  - by eapply totals_slot.
  - cbn. intros k q Hne Hk. rewrite list_lookup_insert_ne in Hk by done. by eapply HS.
  - intros k Hk. cbn in *. destruct (HA k Hk) as (q & Hq & Hi). destruct (decide (k = j)) as [->|Hne].
    + exists (on_pr h p). rewrite list_lookup_insert_eq by (by eapply lookup_lt_Some). simplify_eq. done.
    + exists q. by rewrite list_lookup_insert_ne.
Qed.

Lemma slot_set_ne s i j x f' o c : slot s i o c -> i <> j -> slot (set_procs (<[j := x]> (k_procs s)) (set_files f' s)) i o c.
Proof. intros (p & Hp & Ho & Hc) Hne. exists p. cbn. by rewrite list_lookup_insert_ne. Qed.
Lemma slot_set_eq s j p x f' : k_procs s !! j = Some p ->
  slot (set_procs (<[j := x]> (k_procs s)) (set_files f' s)) j (p_ofile (p_pr x)) (p_cwd (p_pr x)).
Proof. intros Hp. exists x. cbn. split; [|done]. apply list_lookup_insert_eq. by eapply lookup_lt_Some. Qed.

(** The references of a slot are in the ledger. *)
Lemma slot_file_in s i o c k x : totals s -> slot s i o c -> o !! k = Some x -> x <> 0 ->
  exists I R, led (k_files s) = Ledger false ∅ I R /\ x ∈ R.
Proof.
  intros HT (p & Hp & Ho & _) Hk Hx. do 2 eexists. split; [exact HT|].
  destruct (slot_files _ _ _ Hp) as (R & -> & _). apply gmultiset_elem_of_disj_union. left.
  unfold files_of. rewrite Ho. by eapply pointers_elem.
Qed.
Lemma slot_cwd_in s i o c : totals s -> slot s i o c -> c <> 0 ->
  exists I R, led (k_files s) = Ledger false ∅ I R /\ c ∈ I.
Proof.
  intros HT (p & Hp & _ & Hc) Hx. do 2 eexists. split; [exact HT|].
  destruct (slot_cwds _ _ _ Hp) as (R & -> & _). apply gmultiset_elem_of_disj_union. left.
  unfold cwd_of. rewrite Hc, plus_ref_ne by done. auto with refs.
Qed.

(** ** [fork] *)
Lemma dup_files_refs i np c0 cwd l : forall pre s,
  others_ok np s -> i <> np -> slot s i (pre ++ l) cwd -> slot s np (pre ++ replicate (length l) 0) c0 ->
  post (dup_files l (length pre) np) s (fun _ s' => others_ok np s' /\ slot s' i (pre ++ l) cwd /\ slot s' np (pre ++ l) c0).
Proof.
  induction l as [|f l IH]; intros pre s Hok Hne Hi Hn; cbn [dup_files].
  { apply post_ret. done. }
  assert (Hnext : forall s, others_ok np s -> slot s i (pre ++ f :: l) cwd ->
    slot s np ((pre ++ [f]) ++ replicate (length l) 0) c0 ->
    post (dup_files l (S (length pre)) np) s (fun _ s' => others_ok np s' /\ slot s' i (pre ++ f :: l) cwd /\ slot s' np (pre ++ f :: l) c0)).
  { intros s1 Hok1 Hi1 Hn1. specialize (IH (pre ++ [f]) s1 Hok1 Hne).
    rewrite <- !app_assoc in IH. cbn [app] in IH. rewrite length_app, Nat.add_1_r in IH.
    apply IH; [done|]. by rewrite <- app_assoc in Hn1. }
  destruct (Z.eqb_spec f 0) as [->|Hf].
  { eapply post_bind_Ok; [done|]. apply Hnext; [done|done|]. by rewrite <- app_assoc. }
  apply post_bind. destruct (slot_file_in s i _ _ (length pre) f (proj1 Hok) Hi) as (I & R & HL & Hin); [by apply list_lookup_middle|done|].
  destruct Hn as (c & Hc & Ho & Hcwd).
  eapply post_fs; [by eapply filedup_law|]. cbn beta. intros g f' [-> HL'].
  unfold private, upd. apply post_bind. eapply post_mono; [apply proc_at_post|]. cbn beta. intros c' s1 [-> Hc'].
  cbn in Hc'. simplify_eq. eapply post_Ok; [done|]. cbn [k_procs set_files set_procs].
  apply Hnext.
  - apply others_ok_slot; [done|done|]. intros I' R' HL2. rewrite HL in HL2. injection HL2 as -> ->. rewrite HL'.
    f_equal. unfold files_of. cbn. pose proof (refs_of_insert (p_ofile (p_pr c)) (length pre) 0 f) as E.
    rewrite plus_ref_0, plus_ref_ne in E by done. rewrite E; [apply refs_right|]. rewrite Ho. by apply list_lookup_middle.
  - by apply slot_set_ne.
  - pose proof (slot_set_eq s np c (on_pr (fun q => set_ofile (<[length pre := f]> (p_ofile q)) q) c) f' Hc) as Hs.
    cbn in Hs. rewrite Ho, insert_app_r_alt, Nat.sub_diag in Hs by done. cbn in Hs.
    rewrite <- app_assoc. exact Hs.
Qed.

(** An operation that keeps everything, then the rest. *)
Lemma kept_go {B C} (m : M (kernel F) B) (f : B -> M (kernel F) C) s Q :
  kept m -> (forall b s', keeps s s' -> post (f b) s' Q) -> post (m ≫= f) s Q.
Proof. intros Hm Hf. apply post_bind. eapply post_mono; [apply Hm|]. exact Hf. Qed.
Lemma kept_end {B} (m : M (kernel F) B) s : refs_ok s -> kept m -> post m s (fun _ s' => refs_ok s').
Proof. intros Hok Hm. eapply post_mono; [apply Hm|]. cbn beta. intros _ s' Hk. by eapply refs_ok_keeps. Qed.
Lemma after_proc_at {C} j (g : proc -> M (kernel F) C) s Q :
  (forall p, k_procs s !! j = Some p -> post (g p) s Q) -> post (proc_at j ≫= g) s Q.
Proof. intros Hg. apply post_bind. eapply post_mono; [apply proc_at_post|]. cbn beta. intros p ? [-> Hp]. by apply Hg. Qed.

(** A slot that holds what it must can be given any state but an idle one. *)
Lemma wake_slot j x s o c :
  others_ok j s -> slot s j o c -> Z.of_nat (length o) = NOFILE -> c <> 0 -> ~ idle_state x ->
  post (shared j (set_state x)) s (fun _ s' => refs_ok s').
Proof.
  intros (HT & HS & HA) (p & Hp & Ho & Hc) Hl Hc0 Hx. unfold shared, upd. apply after_proc_at. intros p' Hp'.
  simplify_eq. eapply post_Ok; [done|]. pose proof (lookup_lt_Some _ _ _ Hp) as Hlt. split_and!.
  - change (totals (set_procs (<[j := on_sh (set_state x) p]> (k_procs s)) (set_files (k_files s) s))).
    by eapply totals_slot.
  - apply Forall_lookup. cbn. intros k q Hk. apply list_lookup_insert_Some in Hk as [(-> & <- & _)|(Hne & Hk)].
    + split; [done|]. split; [intros Hi; by destruct Hx|done].
    + eapply HS; [|exact Hk]. congruence.
  - intros k Hk. cbn in *. destruct (HA k Hk) as (q & Hq & Hi). destruct (decide (k = j)) as [->|Hne].
    + exists (on_sh (set_state x) p). rewrite list_lookup_insert_eq by done. done.
    + exists q. by rewrite list_lookup_insert_ne.
Qed.

Lemma active_slot s i : refs_ok s -> k_cur s = Some i ->
  exists p, k_procs s !! i = Some p /\ ~ idle p /\ Z.of_nat (length (p_ofile (p_pr p))) = NOFILE /\ p_cwd (p_pr p) <> 0.
Proof.
  intros (HT & HS & HA) Hc. destruct (HA i Hc) as (p & Hp & Hn). exists p.
  destruct (Forall_lookup_1 _ _ _ _ HS Hp) as (Hl & _ & Hw). auto.
Qed.

(** The part of [fork] that gives the child its files and its directory. *)
Lemma fork_files i np q s o c :
  others_ok np s -> i <> np -> slot s i o c -> slot s np (replicate (length o) 0) 0 ->
  Z.of_nat (length o) = NOFILE -> c <> 0 ->
  post (dup_files o 0 np;;
        cwd ← fs (idup c);
        private np (set_cwd cwd);;
        private np (fun c => set_name (safestrcpy 16 (p_name c) (p_name q)) c);;
        n ← proc_at np;
        shared np (set_state RUNNABLE);;
        release np;;
        mret (p_pid (p_sh n))) s (fun _ s' => refs_ok s').
Proof.
  intros Hok Hne Hi Hn Hl Hc. apply post_bind. eapply post_mono; [by apply (dup_files_refs i np 0 c o [] s)|].
  cbn beta. cbn [app]. intros _ s1 (Hok1 & Hi1 & (n & Hn1 & Hno & Hnc)).
  destruct (slot_cwd_in s1 i o c (proj1 Hok1) Hi1 Hc) as (I & R & HL & Hin).
  eapply post_fs; [by eapply idup_law|]. cbn beta. intros cwd f' [-> HL'].
  eapply after_private; [exact Hn1|]. cbn [k_procs set_files].
  set (s2 := set_procs _ _).
  assert (Hok2 : others_ok np s2).
  { apply others_ok_slot; [done|done|]. intros I' R' HL2. rewrite HL in HL2. injection HL2 as -> ->. rewrite HL'.
    f_equal. unfold cwd_of. cbn [p_cwd set_cwd]. rewrite Hnc, plus_ref_0, plus_ref_ne by done. apply refs_right. }
  assert (Hs2 : slot s2 np o c).
  { pose proof (slot_set_eq s1 np n (on_pr (set_cwd c) n) f' Hn1) as Hs. cbn in Hs. by rewrite Hno in Hs. }
  apply kept_go; [keep|]. intros _ s3 Hk3. apply after_proc_at. intros n3 _. apply post_bind.
  eapply post_mono.
  { eapply wake_slot; [by eapply others_ok_keeps|by eapply slot_keeps|done|done|apply awake_not_idle; auto]. }
  cbn beta. intros _ s4 Hok4. apply kept_end; [done|keep].
Qed.

Lemma fork_refs s : refs_ok s -> post fork s (fun _ s' => refs_ok s').
Proof.
  intros Hok. unfold fork. apply post_bind. eapply post_mono; [apply myproc_post|]. cbn beta. intros i ? [-> Hcur].
  apply post_bind. eapply post_mono; [apply allocproc_keeps|]. cbn beta. intros [np|] s1 [Hk1 Hnp];
    [|apply post_ret; by eapply refs_ok_keeps].
  destruct (Hnp np eq_refl) as (n & Hn & Hidle). clear Hnp.
  assert (Hok1 : refs_ok s1) by (by eapply refs_ok_keeps).
  destruct (active_slot s i Hok Hcur) as (p0 & Hp0 & Hni & Hl0 & Hc0).
  destruct (keeps_slot _ _ _ _ Hk1 Hp0) as (p & Hp & Eo & Ec & Ei).
  assert (Hne : i <> np) by (intros ->; simplify_eq; tauto).
  apply after_proc_at. intros p' Hp'. simplify_eq. apply after_proc_at. intros n' Hn'. simplify_eq. cbv zeta.
  apply kept_go; [apply kept_vm|]. intros r s2 Hk2. case_match.
  { eapply post_mono with (Q := fun _ s' => keeps s2 s').
    - destruct (keeps_idle _ _ _ _ Hk2 Hn Hidle) as (n2 & Hn2 & Hi2).
      eapply keep_bind with (R := fun _ _ => True).
      + eapply post_mono; [by eapply freeproc_keeps|done].
      + intros _ s3 _ _. apply kept_post. keep.
    - cbn beta. intros _ s3 Hk3. eapply refs_ok_keeps; [exact Hk3|]. by eapply refs_ok_keeps. }
  do 5 (apply kept_go; [keep|]; intros _ ? ?).
  destruct Hok1 as (HT1 & HS1 & HA1).
  destruct (Forall_lookup_1 _ _ _ _ HS1 Hn) as (Hln & Hnot & _). destruct (Hnot Hidle) as [Hno Hnc].
  eapply fork_files with (i := i); try done; try congruence.
  - do 6 (eapply others_ok_keeps; [eassumption|]). by apply others_ok_all.
  - do 6 (eapply slot_keeps; [eassumption|]). by exists p.
  - do 6 (eapply slot_keeps; [eassumption|]). exists n. split; [done|]. split; [|done].
    rewrite Hno. f_equal. rewrite Eo. apply Nat2Z.inj. by rewrite Hln.
Qed.

(** ** [exit] *)
Lemma close_files_post i c rest : forall k s,
  others_ok i s -> slot s i (replicate k 0 ++ rest) c ->
  post (close_files (seq k (length rest)) i) s (fun _ s' => others_ok i s' /\ slot s' i (replicate (k + length rest) 0) c).
Proof.
  induction rest as [|f rest IH]; intros k s Hok Hs; cbn [close_files length seq].
  { apply post_ret. by rewrite Nat.add_0_r, app_nil_r in *. }
  assert (Hnext : forall s, others_ok i s -> slot s i (replicate (S k) 0 ++ rest) c ->
    post (close_files (seq (S k) (length rest)) i) s (fun _ s' => others_ok i s' /\ slot s' i (replicate (k + S (length rest)) 0) c)).
  { intros s1 Hok1 Hs1. rewrite Nat.add_succ_r. by apply IH. }
  assert (Hrep : replicate (S k) 0 ++ rest = <[k := 0]> (replicate k 0 ++ f :: rest)).
  { rewrite insert_app_r_alt by (by rewrite length_replicate). rewrite length_replicate, Nat.sub_diag.
    by rewrite replicate_S_end, <- app_assoc. }
  assert (Hk : (replicate k 0 ++ f :: rest) !! k = Some f) by (by apply list_lookup_middle; rewrite length_replicate).
  destruct Hs as (p & Hp & Ho & Hc). apply after_proc_at. intros p' Hp'. simplify_eq. cbv zeta.
  erewrite nth_lookup_Some by (rewrite Ho; exact Hk). destruct (Z.eqb_spec f 0) as [->|Hf].
  { eapply post_bind_Ok; [done|]. apply Hnext; [done|]. exists p. split; [done|]. split; [|done].
    by rewrite Hrep, list_insert_id. }
  apply post_bind. destruct (slot_file_in s i (replicate k 0 ++ f :: rest) (p_cwd (p_pr p)) k f (proj1 Hok)) as (I & R & HL & Hin); [by exists p|done|done|].
  eapply post_vmfs; [by eapply fileclose_law; [exact HL|done|by left]|]. cbn beta. intros _ [v f'] HL'. cbn [fst snd] in *.
  unfold private, upd. apply after_proc_at. intros p' Hp''. cbn in Hp''. simplify_eq. eapply post_Ok; [done|].
  cbn [k_procs set_files set_vm set_procs]. change (k_procs s) with (k_procs (set_vm v s)).
  apply Hnext.
  - apply others_ok_slot; [done|done|]. intros I' R' HL2. cbn in HL2. rewrite HL in HL2. injection HL2 as -> ->. rewrite HL'.
    f_equal. unfold files_of. cbn [p_ofile set_ofile].
    pose proof (refs_of_insert (p_ofile (p_pr p)) k f 0) as E. rewrite plus_ref_0, plus_ref_ne in E by done.
    rewrite <- E by (by rewrite Ho). rewrite <- refs_right. apply refs_minus.
  - pose proof (slot_set_eq (set_vm v s) i p (on_pr (fun q => set_ofile (<[k := 0]> (p_ofile q)) q) p) f' Hp) as Hs.
    cbn in Hs. rewrite Hrep, <- Ho. exact Hs.
Qed.

Lemma sched_post s : post (sched (F := F)) s (fun _ s' => keeps s s' /\ k_cur s' = None).
Proof.
  unfold sched. apply post_bind. eapply post_mono; [apply myproc_post|]. cbn beta. intros i ? [-> Hc].
  apply after_proc_at. intros p Hp. case_match; [apply post_fail|]. apply post_bind. intros n ? [= <- <-].
  case_match; [apply post_fail|]. case_decide; [apply post_fail|].
  eapply post_bind_Ok; [done|]. intros b s' Hr.
  pose proof (kept_release i (set_cur None s) b s' Hr) as (HF & Hcur & Hl). split.
  - split_and!; [done| |done]. right. by destruct Hcur.
  - by destruct Hcur.
Qed.

(** From the moment the process holds nothing. *)
Lemma exit_tail i o s (m : M (kernel F) unit) pa :
  others_ok i s -> slot s i (replicate o 0) 0 -> Z.of_nat o = NOFILE -> kept m ->
  post (m;; shared i (set_state ZOMBIE);; release pa;; sched) s (fun _ s' => refs_ok s').
Proof.
  intros Hok Hs Hl Hm. apply kept_go; [done|]. intros _ s1 Hk1.
  destruct (others_ok_keeps _ _ _ Hk1 Hok) as (HT & HS & HA).
  destruct (slot_keeps _ _ _ _ _ Hk1 Hs) as (p & Hp & Ho & Hc).
  unfold shared, upd. apply post_bind. apply after_proc_at. intros p' Hp'. simplify_eq.
  eapply post_Ok; [done|]. set (s2 := set_procs _ _).
  assert (HT2 : totals s2).
  { change s2 with (set_procs (<[i := on_sh (set_state ZOMBIE) p]> (k_procs s1)) (set_files (k_files s1) s1)).
    by eapply totals_slot. }
  assert (HS2 : Forall slot_ok (k_procs s2)).
  { apply Forall_lookup. cbn. intros k q Hk. apply list_lookup_insert_Some in Hk as [(-> & <- & _)|(Hne & Hk)].
    - split; [cbn; by rewrite Ho, length_replicate|]. split; [|intros Hi; destruct Hi; by right].
      intros _. split; [|done]. cbn. by rewrite Ho, length_replicate.
    - eapply HS; [|exact Hk]. congruence. }
  apply kept_go; [keep|]. intros _ s3 Hk3. eapply post_mono; [apply sched_post|]. cbn beta.
  intros _ s4 [Hk4 Hc4]. assert (Hk : keeps s2 s4) by (by etransitivity). split_and!.
  - by eapply totals_keeps.
  - by eapply slots_keeps.
  - intros j Hj. congruence.
Qed.

Lemma exit_refs status s : refs_ok s -> post (exit status) s (fun _ s' => refs_ok s').
Proof.
  intros Hok. unfold exit. apply post_bind. eapply post_mono; [apply myproc_post|]. cbn beta. intros i ? [-> Hcur].
  apply kept_go; [keep|]. intros init s1 Hk1. case_decide; [apply post_fail|].
  destruct (active_slot s i Hok Hcur) as (p0 & Hp0 & Hni & Hl0 & Hc0).
  destruct (keeps_slot _ _ _ _ Hk1 Hp0) as (p & Hp & Eo & Ec & Ei).
  apply after_proc_at. intros p' Hp'. simplify_eq.
  apply post_bind. eapply post_mono.
  { apply (close_files_post i (p_cwd (p_pr p)) (p_ofile (p_pr p)) 0 s1); [|by exists p].
    eapply others_ok_all. by eapply refs_ok_keeps. }
  cbn beta. cbn [Nat.add]. intros _ s2 [Hok2 Hs2].
  destruct (slot_cwd_in s2 i _ _ (proj1 Hok2) Hs2) as (I & R & HL & Hin); [congruence|].
  eapply post_fs; [by eapply begin_op_law|]. cbn beta. intros _ f3 HL3.
  eapply post_fs; [by eapply iput_law; [exact HL3|set_solver|]|]. cbn beta. intros _ f4 HL4.
  eapply post_fs; [by eapply end_op_law|]. cbn beta. intros _ f5 HL5.
  change (set_files f5 _) with (set_files f5 s2). destruct Hs2 as (q & Hq & Ho & Hc).
  eapply after_private; [exact Hq|]. cbn [k_procs set_files]. set (s3 := set_procs _ _).
  assert (Hok3 : others_ok i s3).
  { apply others_ok_slot; [done|done|]. intros I' R' HL2. rewrite HL in HL2. injection HL2 as -> ->. rewrite HL5.
    f_equal. unfold cwd_of. cbn [p_cwd set_cwd]. rewrite plus_ref_0, Hc, plus_ref_ne by congruence.
    rewrite <- refs_right. apply refs_minus. }
  assert (Hs3 : slot s3 i (replicate (length (p_ofile (p_pr p))) 0) 0).
  { pose proof (slot_set_eq s2 i q (on_pr (set_cwd 0) q) f5 Hq) as Hs. cbn in Hs. by rewrite Ho in Hs. }
  clearbody s3. apply kept_go; [destruct init; keep|]. intros _ s4 Hk4.
  apply kept_go; [keep|]. intros _ s5 Hk5. apply kept_go; [keep|]. intros q1 s6 Hk6. cbv zeta.
  apply kept_go; [keep|]. intros _ s7 Hk7. destruct (p_parent (p_sh q1)) as [pa|]; [|apply post_fail].
  do 4 (apply kept_go; [keep|]; intros _ ? ?).
  eapply exit_tail with (o := length (p_ofile (p_pr p))); [| |congruence|keep].
  - do 8 (eapply others_ok_keeps; [eassumption|]). done.
  - do 8 (eapply slot_keeps; [eassumption|]). done.
Qed.

(** ** The scheduler and the first process *)
Lemma dispatch_refs i s : refs_ok s -> post (dispatch i) s (fun _ s' => refs_ok s').
Proof.
  intros Hok. unfold dispatch. apply kept_go; [keep|]. intros _ s1 Hk1. apply after_proc_at. intros p Hp.
  case_decide as Hr; [|apply kept_end; [by eapply refs_ok_keeps|keep]].
  apply post_bind. eapply post_mono; [eapply awake_keeps; [exact Hp| |]; apply awake_not_idle; auto|]. cbn beta.
  intros _ s2 Hk2. eapply post_bind_Ok; [done|]. apply post_ret.
  assert (Hok2 : refs_ok s2) by (eapply refs_ok_keeps; [exact Hk2|]; by eapply refs_ok_keeps).
  destruct Hok2 as (HT & HS & _). split_and!; [done|done|]. intros j [= <-].
  destruct (keeps_slot _ _ _ _ Hk2 Hp) as (p2 & Hp2 & _ & _ & Hi). exists p2. split; [done|].
  rewrite Hi. apply awake_not_idle. auto.
Qed.

(** The table at boot: nothing is used, and the file layer has given nothing. *)
Definition boot s : Prop :=
  led (k_files s) = Ledger false ∅ ∅ ∅ /\ k_cur s = None /\
  Forall (fun p => Z.of_nat (length (p_ofile (p_pr p))) = NOFILE /\ idle p /\ holds_nothing (p_pr p)) (k_procs s).

Lemma boot_refs s : boot s -> refs_ok s.
Proof.
  intros (HL & Hc & HS). split_and!.
  - unfold totals. rewrite HL. assert (Hz : forall p, holds_nothing (p_pr p) -> files_of (p_pr p) = ∅ /\ cwd_of (p_pr p) = ∅).
    { intros p [Ho Hw]. unfold files_of, cwd_of. rewrite Hw. split; [|done]. rewrite Ho. apply refs_of_zeros. }
    unfold all_files, all_cwds. f_equal; symmetry.
    + induction HS as [|p l (_ & _ & Hp) _ IH]; [done|]. cbn. rewrite (proj2 (Hz p Hp)), IH. multiset_solver.
    + induction HS as [|p l (_ & _ & Hp) _ IH]; [done|]. cbn. rewrite (proj1 (Hz p Hp)), IH. multiset_solver.
  - apply Forall_lookup. intros i p Hp. destruct (Forall_lookup_1 _ _ _ _ HS Hp) as (Hl & Hi & Hn).
    split; [done|]. split; [done|]. by intros [].
  - intros i Hi. congruence.
Qed.

Lemma userinit_refs s : refs_ok s -> post userinit s (fun _ s' => refs_ok s').
Proof.
  intros Hok. unfold userinit. apply post_bind. eapply post_mono; [apply allocproc_keeps|]. cbn beta.
  intros [i|] s1 [Hk1 Hi]; [|apply post_fail]. destruct (Hi i eq_refl) as (p & Hp & Hidle). clear Hi.
  assert (Hok1 : refs_ok s1) by (by eapply refs_ok_keeps).
  apply kept_go; [keep|]. intros _ s2 Hk2. apply kept_go; [keep|]. intros p2 s3 Hk3.
  apply kept_go; [keep|]. intros _ s4 Hk4. apply kept_go; [keep|]. intros _ s5 Hk5.
  apply kept_go; [keep|]. intros _ s6 Hk6. apply kept_go; [keep|]. intros _ s7 Hk7.
  apply kept_go; [keep|]. intros _ s8 Hk8.
  assert (Hk : keeps s1 s8) by (do 7 (etransitivity; [eassumption|]); reflexivity).
  assert (Hok8 : refs_ok s8) by (by eapply refs_ok_keeps).
  destruct (keeps_idle _ _ _ _ Hk Hp Hidle) as (q & Hq & Hqi).
  destruct Hok8 as (HT & HS & HA). destruct (Forall_lookup_1 _ _ _ _ HS Hq) as (Hl & Hnot & _).
  destruct (Hnot Hqi) as [_ Hcwd].
  eapply post_fs; [by eapply namei_root_law|]. cbn beta. intros cwd f' [Hne HL'].
  eapply after_private; [exact Hq|]. cbn [k_procs set_files].
  apply post_bind. eapply post_mono.
  { eapply (wake_slot i).
    - apply others_ok_slot; [by apply others_ok_all|exact Hq|]. intros I' R' HL2. red in HT. rewrite HT in HL2.
      injection HL2 as E1 E2. rewrite HL', E1, E2. f_equal. unfold cwd_of. cbn [p_cwd set_cwd].
      rewrite Hcwd, plus_ref_0, !plus_ref_ne by done. apply refs_right.
    - by eapply slot_set_eq.
    - done.
    - done.
    - apply awake_not_idle. auto. }
  cbn beta. intros _ s9 Hok9. apply kept_end; [done|keep].
Qed.
End steps.
End Refs2Steps.
