(* ===== verification/SysfileMain.v ===== *)
(** * System calls of the second experiment: references and descriptors

    The file system calls seen from the whole kernel: each keeps the invariant of
    [Refs2] and its effect on the descriptor table is the documented one; and
    so do all steps of the kernel together. *)

From stdpp Require Import relations.
From S2P Require Import Prelude.
From S2P Require Import Memory.
From S2P Require Import Riscv.
From S2P Require Import PageAlloc.
From S2P Require Import FreeList.
From S2P Require Import KallocSingle.
From S2P Require Import ProcState.
From S2P Require Import Kernel2.
From S2P Require Import Proc2.
From S2P Require Import Syscall.
From S2P Require Import Sysproc.
From S2P Require Import Sysfile.
From S2P Require Import SyscallTable.
From S2P Require Import FsLedger.
From S2P Require Import SysfileView.
From S2P Require Import SysfileThms.
From S2P Require Import Refs2.
From S2P Require Import Refs2Steps.
#[local] Open Scope Z_scope.

(** The file system calls but for [exec]. *)
Inductive file_call : Type :=
| CDup | CRead | CWrite | CClose | CFstat | CLink | CUnlink | COpen | CMkdir | CMknod | CChdir | CPipe.

(** [exec] of this experiment is not part of the repository: it keeps the
    references of the processes. *)
Class ExecLaws (F : Type) `{Params2} `{!FsOps F} `{!FsLaws F} `{!ExecCall F} : Prop :=
  exec_law path argv (s : kernel F) : refs_ok s -> post (exec path argv) s (fun _ s' => refs_ok s').

Module SysfileMain.
Import Proc2 Syscall Sysproc Sysfile SyscallTable SysfileView SysfileThms Refs2 Refs2Steps.

Section main.
Context `{MemLayout} `{Params2} `{!Params2Ok} `{UserVm} `{!UserVmLaws}.
Context {F : Type} `{!FsOps F} `{!FsLaws F} `{!ExecCall F}.
Implicit Types s : kernel F.

Definition run_call (c : file_call) : M (kernel F) Z :=
  match c with
  | CDup => sys_dup | CRead => sys_read | CWrite => sys_write | CClose => sys_close
  | CFstat => sys_fstat | CLink => sys_link | CUnlink => sys_unlink | COpen => sys_open
  | CMkdir => sys_mkdir | CMknod => sys_mknod | CChdir => sys_chdir | CPipe => sys_pipe
  end.

(** What the call does to the private members, given its first argument and its
    result. *)
Definition call_effect (c : file_call) (a0 r : Z) (q q' : pprivate) : Prop :=
  match c with
  | CDup => dups (s32 a0) r q q'
  | CClose => closes (s32 a0) r q q'
  | COpen => opens r q q'
  | CPipe => opens_two r q q'
  | CChdir => changes_dir r q q'
  | _ => q' = q
  end.

Lemma run_call_ok c s0 i p : call_ok s0 i p (run_call c) (fun s r q => call_effect c (arg 0 q s) r q).
Proof.
  destruct c; [apply sys_dup_ok|apply sys_read_ok|apply sys_write_ok|apply sys_close_ok|apply sys_fstat_ok|
    apply sys_link_ok|apply sys_unlink_ok|apply sys_open_ok|apply sys_mkdir_ok|apply sys_mknod_ok|
    apply sys_chdir_ok|apply sys_pipe_ok].
Qed.

(** No call changes the size of the table or leaves the process without a
    directory. *)
Lemma call_effect_fits c a0 r q q' : call_effect c a0 r q q' ->
  length (p_ofile q') = length (p_ofile q) /\ (p_cwd q <> 0 -> p_cwd q' <> 0).
Proof.
  destruct c; cbn; try (by intros ->).
  - intros [[_ ->]|(k & x & _ & _ & _ & _ & _ & ->)]; [done|]. cbn. by rewrite length_insert.
  - intros [[_ ->]|(x & _ & _ & _ & _ & ->)]; [done|]. cbn. by rewrite length_insert.
  - intros [[_ ->]|(k & x & _ & _ & _ & ->)]; [done|]. cbn. by rewrite length_insert.
  - intros [[_ ->]|(_ & ip & Hip & ->)]; done.
  - intros [[_ ->]|(_ & j & k & x & y & _ & _ & _ & _ & ->)]; [done|]. cbn. by rewrite !length_insert.
Qed.

(** A call from a state of the invariant. *)
Lemma file_call_run c s i p :
  refs_ok s -> k_cur s = Some i -> k_procs s !! i = Some p ->
  safe (run_call c) s (fun r s' => refs_ok s' /\ exists q',
    k_procs s' = <[i := Proc (p_lock p) (p_sh p) q']> (k_procs s) /\ call_effect c (arg 0 (p_pr p) s) r (p_pr p) q').
Proof.
  intros Hok Hc Hp. destruct (active_slot s i Hok Hc) as (p' & Hp' & Hn & Hl & Hw). simplify_eq.
  destruct Hok as (HT & HS & HA).
  destruct (slot_files _ _ _ Hp) as (R & E1 & E2), (slot_cwds _ _ _ Hp) as (I & E3 & E4).
  eapply safe_mono.
  { apply (run_call_ok c s i p (k_files s) (p_pr p) s I R); [by apply view_start| |done|done].
    red. by rewrite HT, E1, E3. }
  cbn beta. intros r s' (f' & q' & HV & HR & He). destruct (call_effect_fits _ _ _ _ _ He) as [Hlen Hcwd].
  destruct HV as [_ _ Hf Hpr Hcpu]. split; [|by exists q']. split_and!.
  - unfold totals. rewrite Hf, Hpr, E2, E4. exact HR.
  - rewrite Hpr. apply Forall_insert; [done|]. split; [cbn; congruence|]. split; [|auto].
    intros Hi. by destruct Hn.
  - intros j Hj. destruct Hcpu as (_ & _ & Hcur & _). rewrite Hcur, Hc in Hj. simplify_eq. rewrite Hpr.
    exists (Proc (p_lock p) (p_sh p) q'). split; [|done]. apply list_lookup_insert_eq. by eapply lookup_lt_Some.
Qed.

(** ** The other handlers *)
Lemma kept_argraw n : kept (argraw (F := F) n).
Proof. unfold argraw, load64. keep. Qed.
Lemma kept_argint n : kept (argint (F := F) n).
Proof. unfold argint. apply kept_bind; [apply kept_argraw|keep]. Qed.
Lemma kept_fetchstr a m : kept (fetchstr (F := F) a m).
Proof. unfold fetchstr. keep. Qed.
Lemma kept_fetchaddr a : kept (fetchaddr (F := F) a).
Proof. unfold fetchaddr. keep. Qed.
Hint Resolve kept_argraw kept_argint kept_fetchstr kept_fetchaddr : kept.
Lemma kept_argstr n m : kept (argstr (F := F) n m).
Proof. unfold argstr, argaddr. keep. Qed.
Hint Resolve kept_argstr : kept.
Lemma kept_exec_args n uargv i argv : kept (exec_args (F := F) n uargv i argv).
Proof. revert i argv. induction n as [|n IH]; intros i argv; cbn [exec_args]; keep. Qed.
Lemma kept_free_args argv : kept (free_args (F := F) argv).
Proof. induction argv as [|a argv IH]; cbn [free_args]; keep. Qed.
Hint Resolve kept_exec_args kept_free_args : kept.

Definition handler_ok {B} (m : M (kernel F) B) : Prop :=
  forall s, refs_ok s -> k_cur s <> None -> post m s (fun _ s' => refs_ok s').

Lemma kept_handler {B} (m : M (kernel F) B) : kept m -> handler_ok m.
Proof. intros Hm s Hok _. by apply kept_end. Qed.

(** First something that keeps everything, then a run that keeps the invariant. *)
Lemma then_ok {B C} (m : M (kernel F) B) (f : B -> M (kernel F) C) s :
  refs_ok s -> kept m -> (forall b s', refs_ok s' -> post (f b) s' (fun _ s' => refs_ok s')) ->
  post (m ≫= f) s (fun _ s' => refs_ok s').
Proof. intros Hok Hm Hf. apply kept_go; [done|]. intros b s' Hk. apply Hf. by eapply refs_ok_keeps. Qed.
Lemma ok_then {B C} (m : M (kernel F) B) (f : B -> M (kernel F) C) s :
  post m s (fun _ s' => refs_ok s') -> (forall b, kept (f b)) ->
  post (m ≫= f) s (fun _ s' => refs_ok s').
Proof.
  intros Hm Hf. apply post_bind. eapply post_mono; [exact Hm|]. cbn beta. intros b s' Hok. by apply kept_end.
Qed.
Lemma keeps_ok {B} (m : M (kernel F) B) s :
  refs_ok s -> post m s (fun _ s' => keeps s s') -> post m s (fun _ s' => refs_ok s').
Proof. intros Hok Hm. eapply post_mono; [exact Hm|]. cbn beta. intros _ s' Hk. by eapply refs_ok_keeps. Qed.

Lemma file_call_handler c : handler_ok (returns (run_call c)).
Proof.
  intros s Hok Hc. unfold returns. apply ok_then; [|keep].
  destruct (k_cur s) as [i|] eqn:Ei; [|done]. destruct Hok as (HT & HS & HA).
  destruct (HA i Ei) as (p & Hp & _). eapply post_mono; [apply safe_post; by eapply file_call_run|].
  by intros r s' [Hok _].
Qed.

Lemma sleep_loop_refs n t s : refs_ok s -> post (sleep_loop n t) s (fun _ s' => refs_ok s').
Proof.
  intros Hok. unfold sleep_loop. apply then_ok; [done|keep|]. intros t' s1 Hok1.
  case_match; [|apply kept_end; [done|keep]].
  do 2 (apply then_ok; [done|keep|]; clear dependent s1; intros ? s1 Hok1). case_match; [apply kept_end; [done|keep]|].
  apply ok_then; [|keep]. apply keeps_ok; [done|]. apply sleep_keeps, Hok1.
Qed.

Lemma sys_sleep_handler : handler_ok sys_sleep.
Proof.
  intros s Hok _. unfold sys_sleep. do 3 (apply then_ok; [done|keep|]; clear dependent s; intros ? s Hok).
  by apply sleep_loop_refs.
Qed.
Lemma sys_sleep_resume_refs n t s : refs_ok s -> post (sys_sleep_resume n t) s (fun _ s' => refs_ok s').
Proof.
  intros Hok. unfold sys_sleep_resume. apply then_ok; [done|keep|]. intros _ s1 Hok1. by apply sleep_loop_refs.
Qed.
Lemma sys_wait_handler : handler_ok sys_wait.
Proof.
  intros s Hok _. unfold sys_wait, argaddr. apply then_ok; [done|keep|]. intros p s1 Hok1.
  apply keeps_ok; [done|]. apply wait_keeps, Hok1.
Qed.
Lemma sys_exit_handler : handler_ok sys_exit.
Proof.
  intros s Hok _. unfold sys_exit. apply then_ok; [done|keep|]. intros p s1 Hok1.
  apply ok_then; [by apply exit_refs|keep].
Qed.
Lemma sys_fork_handler : handler_ok sys_fork.
Proof. intros s Hok _. unfold sys_fork, returns. apply ok_then; [by apply fork_refs|keep]. Qed.

Section with_exec.
Context `{!ExecLaws F}.

Lemma sys_exec_handler : handler_ok (returns sys_exec).
Proof.
  intros s Hok _. unfold returns. apply ok_then; [|keep]. unfold sys_exec, argaddr.
  apply then_ok; [done|keep|]. intros path s1 Hok1. case_match; [by apply kept_end; [|keep]|].
  apply then_ok; [done|keep|]. intros u s2 Hok2. apply then_ok; [done|keep|]. intros [good argv] s3 Hok3.
  destruct good; [|apply kept_end; [done|keep]].
  apply ok_then; [by apply exec_law|]. keep.
Qed.

Lemma syscalls_ok : Forall handler_ok syscalls.
Proof.
  assert (Hfile : forall c m, m = run_call c -> handler_ok (returns m)) by (intros c m ->; apply file_call_handler).
  unfold syscalls. repeat apply Forall_cons_2; try apply Forall_nil_2.
  all: try (by apply kept_handler; unfold sys_kill, sys_getpid, sys_sbrk, sys_uptime, sys_trace, sys_sysinfo, returns, argaddr; keep).
  - apply sys_fork_handler.
  - apply sys_exit_handler.
  - apply sys_wait_handler.
  - by apply (Hfile CPipe).
  - by apply (Hfile CRead).
  - apply sys_exec_handler.
  - by apply (Hfile CFstat).
  - by apply (Hfile CChdir).
  - by apply (Hfile CDup).
  - apply sys_sleep_handler.
  - by apply (Hfile COpen).
  - by apply (Hfile CWrite).
  - by apply (Hfile CMknod).
  - by apply (Hfile CUnlink).
  - by apply (Hfile CLink).
  - by apply (Hfile CMkdir).
  - by apply (Hfile CClose).
Qed.

Lemma argint_post n s : post (argint (F := F) n) s (fun _ s' => s' = s).
Proof.
  unfold argint, argraw, mine. apply post_bind, post_bind, post_bind.
  eapply post_mono; [apply myproc_post|]. cbn beta. intros i ? [-> _].
  apply after_proc_at. intros p _. apply post_ret. case_match; [|apply post_fail].
  eapply post_Ok; [done|]. by apply post_ret.
Qed.

Lemma kept_syscall_return num arg0 r : kept (syscall_return (F := F) num arg0 r).
Proof. unfold syscall_return, set_a0, load64. keep. Qed.

Lemma syscall_refs s : refs_ok s -> post syscall s (fun _ s' => refs_ok s').
Proof.
  intros Hok. unfold syscall, load64, set_a0. apply post_bind. eapply post_mono; [apply myproc_post|]. cbn beta.
  intros i ? [-> Hc]. apply after_proc_at. intros p Hp. eapply post_bind_Ok; [done|]. cbv zeta.
  match goal with |- context [match ?x with Some _ => _ | None => _ end] => destruct x as [handler|] eqn:Eh end;
    [|apply kept_end; [done|keep]].
  assert (Hh : handler_ok handler).
  { case_match; [|done]. eapply Forall_lookup_1; [apply syscalls_ok|exact Eh]. }
  apply post_bind. eapply post_mono; [apply argint_post|]. cbn beta. intros arg0 ? ->.
  apply post_bind. eapply post_mono; [apply Hh; congruence|]. cbn beta. intros [r|] s1 Hok1; [|by apply post_ret].
  apply kept_end; [done|]. apply kept_bind; [apply kept_syscall_return|keep].
Qed.

(** ** The kernel as a whole

    The running process makes a system call, goes on with one it slept in, exits
    or yields; a wakeup arrives; the scheduler runs a process; user code, devices
    and the clock change memory and [ticks]. *)
Definition set_ticks (n : Z) s : kernel F :=
  Kernel (k_vm s) (k_procs s) (k_nextpid s) (k_initproc s) (k_files s) (k_cur s) (k_noff s) (k_tickslock s) n (k_out s).

Inductive kstep : kernel F -> kernel F -> Prop :=
| step_syscall b s s' : syscall s = Ok (b, s') -> kstep s s'
| step_return num arg0 r s s' : syscall_return num arg0 r s = Ok (tt, s') -> kstep s s'
| step_wait addr r s s' : wait_resume addr s = Ok (r, s') -> kstep s s'
| step_sleep n ticks0 r s s' : sys_sleep_resume n ticks0 s = Ok (r, s') -> kstep s s'
| step_exit status s s' : exit status s = Ok (tt, s') -> kstep s s'
| step_yield s s' : yield s = Ok (tt, s') -> kstep s s'
| step_yield_resume s s' : yield_resume s = Ok (tt, s') -> kstep s s'
| step_forkret s s' : forkret s = Ok (tt, s') -> kstep s s'
| step_wakeup c s s' : wakeup c s = Ok (tt, s') -> kstep s s'
| step_dispatch i b s s' : dispatch i s = Ok (b, s') -> kstep s s'
| step_outside v n s : kstep s (set_ticks n (set_vm v s)).

Lemma kstep_refs s s' : kstep s s' -> refs_ok s -> refs_ok s'.
Proof.
  intros Hst Hok. destruct Hst as [b s s' E|num a r s s' E|a r s s' E|n t r s s' E|st s s' E|s s' E|s s' E|s s' E|c s s' E|i b s s' E|v n s].
  - by apply (syscall_refs s Hok b).
  - by apply (kept_end _ _ Hok (kept_syscall_return num a r) tt).
  - apply (keeps_ok _ _ Hok (wait_resume_keeps a s (proj2 (proj2 Hok))) r _ E).
  - by apply (sys_sleep_resume_refs n t s Hok r).
  - by apply (exit_refs st s Hok tt).
  - apply (keeps_ok _ _ Hok (yield_keeps s (proj2 (proj2 Hok))) tt _ E).
  - by apply (kept_end _ _ Hok kept_release_only tt).
  - by apply (kept_end _ _ Hok kept_release_only tt).
  - by apply (kept_end _ _ Hok (kept_wakeup c) tt).
  - by apply (dispatch_refs i s Hok b).
  - eapply refs_ok_keeps; [|exact Hok]. split_and!; [done|by left|]. cbn. reflexivity.
Qed.

Lemma ksteps_refs s0 s1 s : boot s0 -> userinit s0 = Ok (tt, s1) -> rtc kstep s1 s -> refs_ok s.
Proof.
  intros Hb Hu Hr. assert (Hok : refs_ok s1) by (by eapply userinit_refs; [apply boot_refs|]).
  clear Hu. induction Hr as [s|s1 s2 s3 Hst _ IH]; [done|]. apply IH. by eapply kstep_refs.
Qed.

(** C2: From boot on, after any sequence of system calls, exits, wakeups and
    scheduling decisions, no transaction is open, no inode is locked, and the
    references the file layer has handed out are exactly the descriptors and current
    directories in the process table: nothing leaks and nothing is given back
    twice, on every error path. Unused and dead slots hold nothing. *)
Theorem kernel_references_balanced s0 s1 s :
  boot s0 -> userinit s0 = Ok (tt, s1) -> rtc kstep s1 s -> refs_ok s.
Proof. apply ksteps_refs. Qed.
End with_exec.

(** C3: A file system call other than exec returns or panics: it never waits for a
    lock or a transaction its own process holds, uses no inode or file without
    a reference, loops for ever nowhere, and leaves the invariant of the
    references intact. *)
Theorem file_calls_safe c s :
  refs_ok s -> k_cur s <> None -> safe (run_call c) s (fun _ s' => refs_ok s').
Proof.
  intros Hok Hc. destruct (k_cur s) as [i|] eqn:Ei; [|done]. destruct (active_slot s i Hok Ei) as (p & Hp & _).
  eapply safe_mono; [by eapply file_call_run|]. by intros r s' [Hok' _].
Qed.

(** C20: The effect of a file system call on the process: dup, open and pipe use the
    lowest free descriptors, close empties the one it is given, chdir sets the
    directory; a call that returns -1 changes no descriptor and no other member; no
    call touches another process. *)
Theorem file_calls_effect c s i p :
  refs_ok s -> k_cur s = Some i -> k_procs s !! i = Some p ->
  safe (run_call c) s (fun r s' => exists q',
    k_procs s' = <[i := Proc (p_lock p) (p_sh p) q']> (k_procs s) /\ call_effect c (arg 0 (p_pr p) s) r (p_pr p) q').
Proof.
  intros Hok Hc Hp. eapply safe_mono; [by eapply file_call_run|]. by intros r s' [_ He].
Qed.
End main.
End SysfileMain.
