(* ===== verification/SysExecThms.v ===== *)
(** * [sys_exec] of the second experiment: its pages

    The argument strings are copied to pages of their own, which are given back
    on every path. *)

From S2P Require Import Prelude.
From S2P Require Import Memory.
From S2P Require Import Riscv.
From S2P Require Import PageAlloc.
From S2P Require Import FreeList.
From S2P Require Import KallocSingle.
From S2P Require Import ProcState.
From S2P Require Import Kernel2.
From S2P Require Import Proc2.
From S2P Require Import Syscall.
From S2P Require Import Sysfile.
From S2P Require Import SyscallThms.
From S2P Require Import FsLedger.
#[local] Open Scope Z_scope.

Module SysExecThms.
Import Proc2 Syscall Sysfile SyscallThms.

Section pages.
Context `{MemLayout} `{!MemLayoutOk} `{Params2} `{UserVm} `{!UserVmLaws}.
Context {F : Type} `{!FsOps F} `{!ExecCall F}.
Implicit Types s : kernel F.

(** Only memory has changed. *)
Definition only_vm s s' : Prop := s' = set_vm (k_vm s') s.

Lemma only_vm_refl s : only_vm s s.
Proof. by destruct s. Qed.
Lemma only_vm_trans s1 s2 s3 : only_vm s1 s2 -> only_vm s2 s3 -> only_vm s1 s3.
Proof. unfold only_vm. intros -> E. rewrite E. done. Qed.

Lemma wp_pages {B} (m : M pages B) s (Q : B -> kernel F -> Prop) :
  wp m (k_vm s) (fun b v => Q b (set_vm v s)) -> wp (vm m) s Q.
Proof. unfold wp, vm. by destruct (m (k_vm s)) as [[b v]|]. Qed.

(** The running process, whose table entry memory does not hold. *)
Definition runs s (i : nat) (p : proc) : Prop := k_cur s = Some i /\ k_procs s !! i = Some p.
Lemma runs_only_vm s s' i p : only_vm s s' -> runs s i p -> runs s' i p.
Proof. unfold only_vm. by intros ->. Qed.

Lemma wp_mine s i p (Q : pprivate -> kernel F -> Prop) : runs s i p -> Q (p_pr p) s -> wp mine s Q.
Proof. intros [Hc Hp]. by apply wp_Ok, mine_run with (i := i). Qed.

Lemma fetchaddr_wp addr s i p :
  runs s i p -> wp (fetchaddr addr) s (fun _ s' => s' = s).
Proof.
  intros Hr. unfold fetchaddr. apply wp_bind. eapply wp_mine; [done|]. case_match; [by apply wp_ret|].
  apply wp_bind, wp_pages. eapply wp_mono; [apply copyin_law|]. cbn beta. intros r v ->.
  case_match; apply wp_ret; by destruct s.
Qed.

Lemma fetchstr_wp addr max s i p :
  runs s i p ->
  wp (fetchstr addr max) s (fun r s' => s' = s /\ (0 <= max -> Z.of_nat (length (fst r)) <= max)).
Proof.
  intros Hr. unfold fetchstr. apply wp_bind. eapply wp_mine; [done|].
  apply wp_bind, wp_pages. eapply wp_mono; [apply copyinstr_law|]. cbn beta. intros r v (-> & Hz & Hlen).
  assert (Es : set_vm (k_vm s) s = s) by (by destruct s). rewrite Es.
  case_bool; [by apply wp_ret|]. destruct (terminated _ (Hz E)) as [k ->]. by apply wp_ret.
Qed.

(** The pages [argv] have been taken from the free pages [Free]. *)
Definition taken (Free : gset Z) (argv : list Z) (v : pages) : Prop :=
  NoDup argv /\ (list_to_set argv : gset Z) ⊆ Free /\ al_ok v (Free ∖ list_to_set argv).

(** One more page, with a string in it. *)
Lemma taken_one Free argv page v v' bs :
  taken Free argv v -> page ∈ Free ∖ (list_to_set argv : gset Z) -> al_ok v' (Free ∖ list_to_set argv ∖ {[page]}) ->
  (forall x, x ∈ Free -> valid_page x) ->
  Z.of_nat (length bs) <= PGSIZE ->
  taken Free (argv ++ [page]) (ksetmem (st_bytes (kmem v') page bs) v').
Proof.
  intros (Hnd & Hsub & _) Hp Hok Hval Hlen. split_and!.
  - apply list.NoDup_app. split; [done|]. split; [set_solver|]. apply list.NoDup_singleton.
  - rewrite list_to_set_app_L. set_solver.
  - rewrite list_to_set_app_L. replace (Free ∖ (list_to_set argv ∪ list_to_set [page])) with (Free ∖ list_to_set argv ∖ {[page]} : gset Z) by set_solver.
    apply al_ok_frame; [done|]. intros x a Hx Ha. apply ld8_st_bytes_out. intros Hin.
    apply (pages_disjoint x page a); try done.
    + apply valid_page_aligned, Hval. set_solver.
    + apply valid_page_aligned, Hval. set_solver.
    + set_solver.
    + unfold in_page. lia.
Qed.

Lemma exec_args_wp Free n uargv k argv s i p :
  runs s i p -> (forall x, x ∈ Free -> valid_page x) -> taken Free argv (k_vm s) ->
  wp (exec_args n uargv k argv) s (fun r s' => only_vm s s' /\ taken Free (snd r) (k_vm s') /\
    (fst r = true -> (length (snd r) < length argv + n)%nat)).
Proof.
  intros Hr Hval. revert k argv s Hr. induction n as [|n IH]; intros k argv s Hr Ht; cbn [exec_args].
  { apply wp_ret. split; [apply only_vm_refl|]. done. }
  assert (Hret : forall b s', only_vm s s' -> taken Free argv (k_vm s') ->
    wp (mret (b, argv)) s' (fun r s' => only_vm s s' /\ taken Free (snd r) (k_vm s') /\
      (fst r = true -> (length (snd r) < length argv + S n)%nat))).
  { intros b s' Ho Ht'. apply wp_ret. cbn. split; [done|]. split; [done|]. lia. }
  apply wp_bind. eapply wp_mono; [by eapply fetchaddr_wp|]. cbn beta. intros [uarg|] s' ->;
    [|apply Hret; [apply only_vm_refl|done]].
  case_match; [apply Hret; [apply only_vm_refl|done]|].
  apply wp_bind, wp_pages. eapply wp_mono; [apply kalloc_ok, Ht|]. cbn beta.
  intros page v [(-> & _ & ->)|(Hin & Hok & _)].
  { cbn [Z.eqb]. apply Hret; [done|]. done. }
  assert (0 < page) by (apply valid_page_range, Hval; set_solver).
  destruct (Z.eqb_spec page 0); [lia|]. set (s1 := set_vm v s).
  assert (Hr1 : runs s1 i p) by done.
  apply wp_bind. eapply wp_mono; [eapply fetchstr_wp, Hr1|]. cbn beta. intros r s2 [-> Hlen].
  specialize (Hlen ltac:(unfold PGSIZE; lia)).
  apply wp_bind, wp_pages, wp_modify. set (s2 := set_vm _ s1).
  assert (Ht2 : taken Free (argv ++ [page]) (k_vm s2)) by (by eapply taken_one).
  case_match.
  - apply wp_ret. done.
  - eapply wp_mono; [by apply IH|]. cbn beta. intros r' s3 (Ho & Ht3 & Hl). split; [|split; [done|]].
    + eapply only_vm_trans; [|exact Ho]. done.
    + intros Hg. specialize (Hl Hg). rewrite length_app in Hl. cbn in Hl. lia.
Qed.

Lemma free_args_wp argv : forall G s, al_ok (k_vm s) G -> NoDup argv ->
  (forall x, x ∈ argv -> valid_page x /\ x ∉ G) ->
  wp (free_args argv) s (fun _ s' => only_vm s s' /\ al_ok (k_vm s') (G ∪ list_to_set argv)).
Proof.
  induction argv as [|a argv IH]; intros G s Hok Hnd Hval; cbn [free_args].
  - apply wp_ret. split; [apply only_vm_refl|]. by replace (G ∪ list_to_set []) with G by set_solver.
  - apply list.NoDup_cons in Hnd as [Hna Hnd]. destruct (Hval a) as [Hv Hn]; [set_solver|].
    apply wp_bind, wp_pages. eapply wp_mono; [by apply kfree_ok|]. cbn beta. intros _ v [Hok' _].
    eapply wp_mono; [apply (IH ({[a]} ∪ G)); [done|done|]|].
    + intros x Hx. destruct (Hval x) as [Hvx Hnx]; [set_solver|]. split; [done|]. set_solver.
    + cbn beta. intros _ s' [Ho Hok2]. split; [by eapply only_vm_trans; [|exact Ho]|].
      by replace (G ∪ list_to_set (a :: argv)) with ({[a]} ∪ G ∪ list_to_set argv) by set_solver.
Qed.

Lemma argaddr_run n s i p : runs s i p -> 0 <= n <= 5 -> argaddr n s = Ok (reg n p s, s).
Proof.
  intros [Hc Hp] Hn. unfold argaddr, argraw. rewrite (bind_step _ _ _ _ _ (mine_run s i p Hc Hp)).
  by rewrite (proj2 (Z.leb_le 0 n)), (proj2 (Z.leb_le n 5)) by lia.
Qed.

Lemma argstr_run n max s i p : runs s i p -> 0 <= n <= 5 -> exists r, argstr n max s = Ok (r, s).
Proof.
  intros Hr Hn. unfold argstr. rewrite (bind_step _ _ _ _ _ (argaddr_run n s i p Hr Hn)).
  destruct (wp_elim _ _ _ (fetchstr_wp (reg n p s) max s i p Hr)) as (r & s' & E & -> & _).
  by exists r.
Qed.

Lemma free_args_run argv G s : al_ok (k_vm s) G -> NoDup argv -> (forall x, x ∈ argv -> valid_page x /\ x ∉ G) ->
  exists s', free_args argv s = Ok (tt, s') /\ only_vm s s' /\ al_ok (k_vm s') (G ∪ list_to_set argv).
Proof.
  intros Hok Hnd Hval. destruct (wp_elim _ _ _ (free_args_wp argv G s Hok Hnd Hval)) as ([] & s' & E & Ho & Hok').
  by exists s'.
Qed.

(** C22: sys_exec takes a page of its own for every argument string and gives each
    back exactly once: when it fails before exec the free pages are those it started
    with; otherwise exec runs with fewer than MAXARG pages, distinct and taken from
    the free ones, and when it returns they are added to whatever is free then. *)
Theorem sys_exec_frees_arguments s i p Free :
  k_cur s = Some i -> k_procs s !! i = Some p -> KallocSingle.ok (k_vm s) Free ->
  (exists s', sys_exec s = Ok (-1, s') /\ only_vm s s' /\ KallocSingle.ok (k_vm s') Free) \/
  (exists path argv s1, only_vm s s1 /\ NoDup argv /\ (list_to_set argv : gset Z) ⊆ Free /\ (length argv < MAXARG)%nat /\
     KallocSingle.ok (k_vm s1) (Free ∖ list_to_set argv) /\
     (forall e, exec path argv s1 = Fail e -> sys_exec s = Fail e) /\
     forall ret s2 G, exec path argv s1 = Ok (ret, s2) -> KallocSingle.ok (k_vm s2) G -> list_to_set argv ## G ->
       exists s3, sys_exec s = Ok (ret, s3) /\ only_vm s2 s3 /\ KallocSingle.ok (k_vm s3) (G ∪ list_to_set argv)).
Proof.
  intros Hc Hp Hok. assert (Hr : runs s i p) by done.
  assert (Hval : forall x, x ∈ Free -> valid_page x) by (intros x; by apply (KallocSingle.ok_valid _ _ _ Hok)).
  destruct (argstr_run 0 MAXPATH s i p Hr) as ([path len] & E0); [lia|].
  pose proof (argaddr_run 1 s i p Hr ltac:(lia)) as E1.
  assert (Ht : taken Free [] (k_vm s)).
  { split; [apply base.NoDup_nil_2|]. split; [set_solver|]. by replace (Free ∖ list_to_set []) with Free by set_solver. }
  destruct (wp_elim _ _ _ (exec_args_wp Free MAXARG (reg 1 p s) 0 [] s i p Hr Hval Ht))
    as ([good argv] & s1 & E2 & Ho & (Hnd & Hsub & Hok1) & Hlen).
  cbn [fst snd] in *. unfold sys_exec. rewrite (bind_step _ _ _ _ _ E0). cbn [snd].
  case_match; [left; exists s; split; [done|]; split; [apply only_vm_refl|done]|].
  rewrite (bind_step _ _ _ _ _ E1), (bind_step _ _ _ _ _ E2). destruct good.
  - right. exists (str (path, len)), argv, s1. do 3 (split; [done|]). split; [specialize (Hlen eq_refl); cbn in Hlen; lia|].
    split; [done|]. split; [intros e Ee; by rewrite (bind_Fail _ _ _ _ Ee)|].
    intros ret s2 G Ee HG Hd. rewrite (bind_step _ _ _ _ _ Ee).
    destruct (free_args_run argv G s2 HG Hnd) as (s3 & E3 & Ho3 & Hok3); [set_solver|].
    exists s3. rewrite (bind_step _ _ _ _ _ E3). done.
  - left. destruct (free_args_run argv (Free ∖ list_to_set argv) s1 Hok1 Hnd) as (s3 & E3 & Ho3 & Hok3); [set_solver|].
    exists s3. rewrite (bind_step _ _ _ _ _ E3). split; [done|]. split; [by eapply only_vm_trans|].
    replace Free with (Free ∖ list_to_set argv ∪ list_to_set argv : gset Z); [done|]. rewrite difference_union_L. clear -Hsub. set_solver.
Qed.
End pages.
End SysExecThms.
