(* ===== verification/Proc.v ===== *)
(** * Processes (fourth experiment, [proc.c]): model

    The process table, the memory its page tables live in, and one CPU. A
    function runs from one context switch to the next: [sched] hands the CPU to
    the scheduler, whose loop body is [dispatch]; what a function does after its
    [sched] returns is a definition of its own ([sleep_resume], [yield_resume],
    [wait_resume]). Every process lock and the depth of nested locks are part of
    the state; taking a lock that is held is [Blocked]. Files and inodes belong to
    code that is not part of the repository and are behind an interface. *)

From S2P Require Import Prelude.
From S2P Require Import Memory.
From S2P Require Import Riscv.
From S2P Require Import PageAlloc.
From S2P Require Import Vm.
From S2P Require Import ProcState.

(** The members private to the process. Of [context] only [ra] and [sp] are ever
    set here. *)
Record pprivate : Type := Private {
  p_kstack : Z;
  p_kstack_pa : Z;
  p_sz : Z;
  p_k_pagetable : Z;
  p_pagetable : Z;
  p_trapframe : Z;
  p_ra : Z;
  p_sp : Z;
  p_ofile : list Z;
  p_cwd : Z;
  p_name : list Z;
}.

(** [struct proc]. *)
Record proc : Type := Proc { p_lock : bool; p_sh : pshared; p_pr : pprivate }.

Definition set_lock (b : bool) (p : proc) : proc := Proc b (p_sh p) (p_pr p).
Definition on_sh (f : pshared -> pshared) (p : proc) : proc := Proc (p_lock p) (f (p_sh p)) (p_pr p).
Definition on_pr (f : pprivate -> pprivate) (p : proc) : proc := Proc (p_lock p) (p_sh p) (f (p_pr p)).

Definition set_kstack (va pa : Z) (p : pprivate) : pprivate :=
  Private va pa (p_sz p) (p_k_pagetable p) (p_pagetable p) (p_trapframe p) (p_ra p) (p_sp p)
    (p_ofile p) (p_cwd p) (p_name p).
Definition set_sz (x : Z) (p : pprivate) : pprivate :=
  Private (p_kstack p) (p_kstack_pa p) x (p_k_pagetable p) (p_pagetable p) (p_trapframe p) (p_ra p)
    (p_sp p) (p_ofile p) (p_cwd p) (p_name p).
Definition set_k_pagetable (x : Z) (p : pprivate) : pprivate :=
  Private (p_kstack p) (p_kstack_pa p) (p_sz p) x (p_pagetable p) (p_trapframe p) (p_ra p)
    (p_sp p) (p_ofile p) (p_cwd p) (p_name p).
Definition set_pagetable (x : Z) (p : pprivate) : pprivate :=
  Private (p_kstack p) (p_kstack_pa p) (p_sz p) (p_k_pagetable p) x (p_trapframe p) (p_ra p)
    (p_sp p) (p_ofile p) (p_cwd p) (p_name p).
Definition set_trapframe (x : Z) (p : pprivate) : pprivate :=
  Private (p_kstack p) (p_kstack_pa p) (p_sz p) (p_k_pagetable p) (p_pagetable p) x (p_ra p)
    (p_sp p) (p_ofile p) (p_cwd p) (p_name p).
Definition set_context (ra sp : Z) (p : pprivate) : pprivate :=
  Private (p_kstack p) (p_kstack_pa p) (p_sz p) (p_k_pagetable p) (p_pagetable p) (p_trapframe p)
    ra sp (p_ofile p) (p_cwd p) (p_name p).
Definition set_ofile (x : list Z) (p : pprivate) : pprivate :=
  Private (p_kstack p) (p_kstack_pa p) (p_sz p) (p_k_pagetable p) (p_pagetable p) (p_trapframe p)
    (p_ra p) (p_sp p) x (p_cwd p) (p_name p).
Definition set_cwd (x : Z) (p : pprivate) : pprivate :=
  Private (p_kstack p) (p_kstack_pa p) (p_sz p) (p_k_pagetable p) (p_pagetable p) (p_trapframe p)
    (p_ra p) (p_sp p) (p_ofile p) x (p_name p).
Definition set_name (x : list Z) (p : pprivate) : pprivate :=
  Private (p_kstack p) (p_kstack_pa p) (p_sz p) (p_k_pagetable p) (p_pagetable p) (p_trapframe p)
    (p_ra p) (p_sp p) (p_ofile p) (p_cwd p) x.

(** The file layer: [filedup], [fileclose], [idup], [begin_op(); iput(ip);
    end_op()] and [namei("/")]. *)
Class FileOps (F : Type) : Type := {
  filedup : Z -> F -> F;
  fileclose : Z -> F -> F;
  idup : Z -> F -> F;
  iput : Z -> F -> F;
  namei_root : F -> Z * F;
}.

(** Addresses the linker fixes: [forkret], [initcode], and where the word
    [proc[i].xstate] lies in kernel memory; and the global [kernel_pagetable],
    which [kvminit] sets before any of this code runs. *)
Class ProcLayout : Type := {
  kernel_pagetable : Z;
  forkret_addr : Z;
  initcode_addr : Z;
  xstate_addr : nat -> Z;
}.

(** The kernel: memory and allocator, the table, [nextpid], [initproc], the file
    layer, and this CPU's [proc], [noff] and [satp]. *)
Record kernel (A F : Type) : Type := Kernel {
  k_vm : kstate A;
  k_procs : list proc;
  k_nextpid : Z;
  k_initproc : option nat;
  k_files : F;
  k_cur : option nat;
  k_noff : Z;
  k_satp : Z;
}.
Arguments Kernel {A F}.
Arguments k_vm {A F} k.
Arguments k_procs {A F} k.
Arguments k_nextpid {A F} k.
Arguments k_initproc {A F} k.
Arguments k_files {A F} k.
Arguments k_cur {A F} k.
Arguments k_noff {A F} k.
Arguments k_satp {A F} k.

(** Offsets of the members of [struct trapframe]. *)
Definition tf_epc : Z := 24.
Definition tf_sp : Z := 48.
Definition tf_a0 : Z := 112.
Definition tf_a1 : Z := 120.
Definition sizeof_trapframe : Z := 288.

Module Proc.
Section ops.
Context `{MemLayout} `{ProcLayout} {A : Type} `{!PageAllocator A} {F : Type} `{!FileOps F}.

Abbreviation P := (M (kernel A F)).

Definition set_procs (l : list proc) (s : kernel A F) : kernel A F :=
  Kernel (k_vm s) l (k_nextpid s) (k_initproc s) (k_files s) (k_cur s) (k_noff s) (k_satp s).
(** The scheduler goes on: [kvminithart(); c->proc = 0]. *)
Definition to_scheduler (s : kernel A F) : kernel A F :=
  Kernel (k_vm s) (k_procs s) (k_nextpid s) (k_initproc s) (k_files s) None (k_noff s)
    (kvminithart kernel_pagetable).
Definition set_noff (n : Z) (s : kernel A F) : kernel A F :=
  Kernel (k_vm s) (k_procs s) (k_nextpid s) (k_initproc s) (k_files s) (k_cur s) n (k_satp s).
Definition set_files (f : F) (s : kernel A F) : kernel A F :=
  Kernel (k_vm s) (k_procs s) (k_nextpid s) (k_initproc s) f (k_cur s) (k_noff s) (k_satp s).

(** Memory operations run on the kernel's memory. *)
Definition vm {B} (m : M (kstate A) B) : P B := fun s =>
  match m (k_vm s) with
  | Ok (b, v) => Ok (b, Kernel v (k_procs s) (k_nextpid s) (k_initproc s) (k_files s) (k_cur s)
                          (k_noff s) (k_satp s))
  | Fail e => Fail e
  end.

Definition proc_at (i : nat) : P proc := fun s =>
  match k_procs s !! i with
  | Some p => Ok (p, s)
  | None => Fail (Undefined "proc")
  end.
Definition upd (i : nat) (f : proc -> proc) : P unit :=
  p ← proc_at i; modify (fun s => set_procs (<[i := f p]> (k_procs s)) s).
Definition shared (i : nat) (f : pshared -> pshared) : P unit := upd i (on_sh f).
Definition private (i : nat) (f : pprivate -> pprivate) : P unit := upd i (on_pr f).
Definition files (f : F -> F) : P unit := modify (fun s => set_files (f (k_files s)) s).

(** [acquire(&p->lock)], [release(&p->lock)]. *)
Definition acquire (i : nat) : P unit :=
  p ← proc_at i;
  if p_lock p then fail (Blocked "acquire") else
  upd i (set_lock true);;
  modify (fun s => set_noff (k_noff s + 1) s).
Definition release (i : nat) : P unit :=
  p ← proc_at i;
  if negb (p_lock p) then panic "release" else
  upd i (set_lock false);;
  modify (fun s => set_noff (k_noff s - 1) s).

(** [myproc()], dereferenced by every caller. *)
Definition myproc : P nat :=
  c ← gets k_cur;
  match c with
  | Some i => mret i
  | None => fail (Undefined "myproc")
  end.

(** A loop over the process table. *)
Definition table : P (list nat) := gets (fun s => seq 0 (length (k_procs s))).
Fixpoint for_each (ids : list nat) (body : nat -> P unit) : P unit :=
  match ids with
  | [] => mret tt
  | i :: ids' => body i;; for_each ids' body
  end.

Definition procinit : P unit :=
  t ← table;
  for_each t (fun i =>
    pa ← vm kalloc;
    if pa =? 0 then panic "kalloc" else
    let va := KSTACK (Z.of_nat i) in
    vm (kvmmap kernel_pagetable va pa PGSIZE (Z.lor PTE_R PTE_W));;
    private i (set_kstack va pa));;
  modify (fun s => Kernel (k_vm s) (k_procs s) (k_nextpid s) (k_initproc s) (k_files s) (k_cur s)
                     (k_noff s) (kvminithart kernel_pagetable)).

Definition allocpid : P Z :=
  pid ← gets k_nextpid;
  modify (fun s => Kernel (k_vm s) (k_procs s) (s32 (k_nextpid s + 1)) (k_initproc s) (k_files s)
                     (k_cur s) (k_noff s) (k_satp s));;
  mret pid.

(** The body of [proc_pagetable], for a trapframe page. *)
Definition new_pagetable (trapframe : Z) : M (kstate A) Z :=
  pagetable ← uvmcreate;
  if pagetable =? 0 then mret 0 else
  r ← mappages pagetable TRAMPOLINE PGSIZE trampoline (Z.lor PTE_R PTE_X);
  if r <? 0 then uvmfree pagetable 0;; mret 0 else
  r ← mappages pagetable TRAPFRAME PGSIZE trapframe (Z.lor PTE_R PTE_W);
  if r <? 0 then uvmunmap pagetable TRAMPOLINE 1 false;; uvmfree pagetable 0;; mret 0 else
  mret pagetable.

Definition proc_pagetable (i : nat) : P Z :=
  p ← proc_at i; vm (new_pagetable (p_trapframe (p_pr p))).

Definition proc_freekernelpagetable (pagetable : Z) : M (kstate A) unit := kvmfree pagetable.

Definition proc_freeuserpagetable (pagetable sz : Z) : M (kstate A) unit :=
  uvmunmap pagetable TRAMPOLINE 1 false;;
  uvmunmap pagetable TRAPFRAME 1 false;;
  uvmfree pagetable sz.

Definition freeproc (i : nat) : P unit :=
  p ← proc_at i;
  let q := p_pr p in
  (if p_trapframe q =? 0 then mret tt else vm (kfree (p_trapframe q)));;
  private i (set_trapframe 0);;
  (if p_pagetable q =? 0 then mret tt else vm (proc_freeuserpagetable (p_pagetable q) (p_sz q)));;
  private i (set_pagetable 0);;
  (if p_k_pagetable q =? 0 then mret tt else vm (proc_freekernelpagetable (p_k_pagetable q)));;
  private i (set_k_pagetable 0);;
  private i (set_sz 0);;
  shared i (set_pid 0);;
  shared i (set_parent None);;
  private i (fun q => set_name (<[0%nat := 0]> (p_name q)) q);;
  shared i (set_chan None);;
  shared i (set_killed 0);;
  shared i (set_xstate 0);;
  shared i (set_state UNUSED).

(** The search for an [UNUSED] slot, left with its lock held. *)
Fixpoint find_unused (ids : list nat) : P (option nat) :=
  match ids with
  | [] => mret None
  | i :: ids' =>
      acquire i;;
      p ← proc_at i;
      if decide (p_state (p_sh p) = UNUSED) then mret (Some i)
      else release i;; find_unused ids'
  end.

Definition allocproc : P (option nat) :=
  t ← table;
  r ← find_unused t;
  match r with
  | None => mret None
  | Some i =>
      pid ← allocpid;
      shared i (set_pid pid);;
      tf ← vm kalloc;
      private i (set_trapframe tf);;
      if tf =? 0 then release i;; mret None else
      kpt ← vm kvminit_proc;
      private i (set_k_pagetable kpt);;
      if kpt =? 0 then freeproc i;; release i;; mret None else
      p ← proc_at i;
      vm (kvmmap_proc kpt (p_kstack (p_pr p)) (p_kstack_pa (p_pr p)) PGSIZE (Z.lor PTE_R PTE_W));;
      pt ← proc_pagetable i;
      private i (set_pagetable pt);;
      if pt =? 0 then freeproc i;; release i;; mret None else
      private i (set_context forkret_addr (u64 (p_kstack (p_pr p) + PGSIZE)));;
      mret (Some i)
  end.

(** ["initcode"] *)
Definition initcode_name : list Z := [105; 110; 105; 116; 99; 111; 100; 101].
Definition sizeof_initcode : Z := 52.

Definition userinit : P unit :=
  r ← allocproc;
  match r with
  | None => fail (Undefined "userinit")
  | Some i =>
      modify (fun s => Kernel (k_vm s) (k_procs s) (k_nextpid s) (Some i) (k_files s) (k_cur s)
                         (k_noff s) (k_satp s));;
      p ← proc_at i;
      let q := p_pr p in
      vm (uvminit (p_pagetable q) initcode_addr sizeof_initcode);;
      private i (set_sz PGSIZE);;
      _ ← vm (kvmcopy (p_pagetable q) (p_k_pagetable q) 0 PGSIZE);
      vm (store64 (u64 (p_trapframe q + tf_epc)) 0);;
      vm (store64 (u64 (p_trapframe q + tf_sp)) PGSIZE);;
      private i (fun q => set_name (safestrcpy 16 (p_name q) initcode_name) q);;
      cwd ← gets (fun s => namei_root (k_files s));
      files (fun _ => snd cwd);;
      private i (set_cwd (fst cwd));;
      shared i (set_state RUNNABLE);;
      release i
  end.

(** [growproc]: [sz] is a 32-bit variable. *)
Definition growproc (n : Z) : P Z :=
  i ← myproc;
  p ← proc_at i;
  let q := p_pr p in
  let sz := u32 (p_sz q) in
  if 0 <? n then
    sz' ← vm (uvmalloc (p_pagetable q) sz (u32 (sz + n)));
    let sz' := u32 sz' in
    if sz' =? 0 then mret (-1) else
    r ← vm (kvmcopy (p_pagetable q) (p_k_pagetable q) (p_sz q) (u64 (p_sz q + n)));
    if negb (r =? 0) then mret (-1) else
    private i (set_sz sz');; mret 0
  else if n <? 0 then
    sz' ← vm (uvmdealloc (p_pagetable q) sz (u32 (sz + n)));
    _ ← vm (kvmdealloc (p_k_pagetable q) (p_sz q) (u64 (p_sz q + n)));
    private i (set_sz (u32 sz'));; mret 0
  else private i (set_sz sz);; mret 0.

(** The loop over the open files in [fork]. *)
Fixpoint dup_files (l : list Z) (fd : nat) (np : nat) : P unit :=
  match l with
  | [] => mret tt
  | f :: l' =>
      (if f =? 0 then mret tt else
       files (filedup f);; private np (fun q => set_ofile (<[fd := f]> (p_ofile q)) q));;
      dup_files l' (S fd) np
  end.

Definition fork : P Z :=
  i ← myproc;
  r ← allocproc;
  match r with
  | None => mret (-1)
  | Some np =>
      p ← proc_at i;
      n ← proc_at np;
      let q := p_pr p in
      r ← vm (uvmcopy (p_pagetable q) (p_pagetable (p_pr n)) (p_sz q));
      if r <? 0 then freeproc np;; release np;; mret (-1) else
      r ← vm (kvmcopy (p_pagetable (p_pr n)) (p_k_pagetable (p_pr n)) 0 (p_sz q));
      if r <? 0 then freeproc np;; release np;; mret (-1) else
      private np (set_sz (p_sz q));;
      shared np (set_parent (Some i));;
      vm (do_memmove (p_trapframe (p_pr n)) (p_trapframe q) sizeof_trapframe);;
      vm (store64 (u64 (p_trapframe (p_pr n) + tf_a0)) 0);;
      dup_files (p_ofile q) 0 np;;
      files (idup (p_cwd q));;
      private np (set_cwd (p_cwd q));;
      private np (fun c => set_name (safestrcpy 16 (p_name c) (p_name q)) c);;
      n ← proc_at np;
      shared np (set_state RUNNABLE);;
      release np;;
      mret (p_pid (p_sh n))
  end.

Definition reparent (p : nat) : P unit :=
  t ← table;
  for_each t (fun pp =>
    q ← proc_at pp;
    if decide (p_parent (p_sh q) = Some p) then
      acquire pp;;
      init ← gets k_initproc;
      shared pp (set_parent init);;
      release pp
    else mret tt).

Definition wakeup1 (i : nat) : P unit :=
  p ← proc_at i;
  if negb (p_lock p) then panic "wakeup1" else
  if decide (p_chan (p_sh p) = Some (ChProc i) /\ p_state (p_sh p) = SLEEPING)
  then shared i (set_state RUNNABLE) else mret tt.

(** [sched]: the checks, then the switch to the scheduler, which goes on with
    its own page table and [c->proc = 0] and releases the process's lock. Interrupts are off while a
    lock is held. *)
Definition sched : P unit :=
  i ← myproc;
  p ← proc_at i;
  if negb (p_lock p) then panic "sched p->lock" else
  n ← gets k_noff;
  if negb (n =? 1) then panic "sched locks" else
  if decide (p_state (p_sh p) = RUNNING) then panic "sched running" else
  modify to_scheduler;;
  release i.

Fixpoint close_files (fds : list nat) (i : nat) : P unit :=
  match fds with
  | [] => mret tt
  | fd :: fds' =>
      p ← proc_at i;
      let f := nth fd (p_ofile (p_pr p)) 0 in
      (if f =? 0 then mret tt else
       files (fileclose f);; private i (fun q => set_ofile (<[fd := 0]> (p_ofile q)) q));;
      close_files fds' i
  end.

(** [exit], up to its last switch to the scheduler. *)
Definition exit (status : Z) : P unit :=
  i ← myproc;
  init ← gets k_initproc;
  if decide (init = Some i) then panic "init exiting" else
  p ← proc_at i;
  close_files (seq 0 (length (p_ofile (p_pr p)))) i;;
  files (iput (p_cwd (p_pr p)));;
  private i (set_cwd 0);;
  match init with
  | None => fail (Undefined "initproc")
  | Some init => acquire init;; wakeup1 init;; release init
  end;;
  acquire i;;
  p ← proc_at i;
  let original_parent := p_parent (p_sh p) in
  release i;;
  match original_parent with
  | None => fail (Undefined "original_parent")
  | Some pa =>
      acquire pa;;
      acquire i;;
      reparent i;;
      wakeup1 pa;;
      shared i (set_xstate status);;
      shared i (set_state ZOMBIE);;
      release pa;;
      sched
  end.

(** [sleep(chan, lk)] up to its switch; [own] says that [lk] is the process's own
    lock. Another lock only counts in [noff]. *)
Definition sleep (c : chan) (own : bool) : P unit :=
  i ← myproc;
  (if own then mret tt else acquire i;; modify (fun s => set_noff (k_noff s - 1) s));;
  shared i (set_chan (Some c));;
  shared i (set_state SLEEPING);;
  sched.

(** What follows when the process runs again. *)
Definition sleep_resume (own : bool) : P unit :=
  i ← myproc;
  shared i (set_chan None);;
  if own then mret tt else release i;; modify (fun s => set_noff (k_noff s + 1) s).

(** The result of a scan of [wait]: the call returns, or there are children to
    wait for, or there are none. *)
Inductive scan_result : Type := ScanReturns (r : Z) | ScanKids (havekids : bool).

Fixpoint wait_scan (ids : list nat) (me : nat) (addr : Z) (havekids : bool) : P scan_result :=
  match ids with
  | [] => mret (ScanKids havekids)
  | np :: ids' =>
      q ← proc_at np;
      if decide (p_parent (p_sh q) = Some me) then
        acquire np;;
        q ← proc_at np;
        if decide (p_state (p_sh q) = ZOMBIE) then
          p ← proc_at me;
          r ← (if addr =? 0 then mret 0 else
               vm (modify (fun s => ksetmem (st32 (kmem s) (xstate_addr np) (p_xstate (p_sh q))) s);;
                   copyout (p_pagetable (p_pr p)) addr (xstate_addr np) 4));
          if negb (addr =? 0) && (r <? 0) then
            release np;; release me;; mret (ScanReturns (-1))
          else
            freeproc np;; release np;; release me;; mret (ScanReturns (p_pid (p_sh q)))
        else
          release np;; wait_scan ids' me addr true
      else wait_scan ids' me addr havekids
  end.

(** One iteration of [wait]'s loop: [Some r] when it returns, [None] when it went
    to sleep. *)
Definition wait_iter (addr : Z) : P (option Z) :=
  i ← myproc;
  t ← table;
  r ← wait_scan t i addr false;
  match r with
  | ScanReturns r => mret (Some r)
  | ScanKids havekids =>
      p ← proc_at i;
      if negb havekids || negb (p_killed (p_sh p) =? 0) then release i;; mret (Some (-1))
      else sleep (ChProc i) true;; mret None
  end.

Definition wait (addr : Z) : P (option Z) := i ← myproc; acquire i;; wait_iter addr.
Definition wait_resume (addr : Z) : P (option Z) := sleep_resume true;; wait_iter addr.

(** The body of the scheduler's loop: run process [i] if it can run. *)
Definition dispatch (i : nat) : P bool :=
  acquire i;;
  p ← proc_at i;
  if decide (p_state (p_sh p) = RUNNABLE) then
    shared i (set_state RUNNING);;
    modify (fun s => Kernel (k_vm s) (k_procs s) (k_nextpid s) (k_initproc s) (k_files s) (Some i)
                       (k_noff s) (kvminithart_proc (p_k_pagetable (p_pr p))));;
    mret true
  else release i;; mret false.

Definition yield : P unit :=
  i ← myproc; acquire i;; shared i (set_state RUNNABLE);; sched.
Definition yield_resume : P unit := i ← myproc; release i.

(** The first switch to a new process: [forkret] releases the lock. *)
Definition forkret : P unit := i ← myproc; release i.

Definition wakeup (c : chan) : P unit :=
  t ← table;
  for_each t (fun i =>
    acquire i;;
    p ← proc_at i;
    (if decide (p_state (p_sh p) = SLEEPING /\ p_chan (p_sh p) = Some c)
     then shared i (set_state RUNNABLE) else mret tt);;
    release i).

Fixpoint kill_loop (ids : list nat) (pid : Z) : P Z :=
  match ids with
  | [] => mret (-1)
  | i :: ids' =>
      acquire i;;
      p ← proc_at i;
      if p_pid (p_sh p) =? pid then
        shared i (set_killed 1);;
        (if decide (p_state (p_sh p) = SLEEPING) then shared i (set_state RUNNABLE) else mret tt);;
        release i;;
        mret 0
      else release i;; kill_loop ids' pid
  end.
Definition kill (pid : Z) : P Z := t ← table; kill_loop t pid.

Definition either_copyout (user_dst : bool) (dst src len : Z) : P Z :=
  i ← myproc;
  p ← proc_at i;
  if user_dst then vm (copyout (p_pagetable (p_pr p)) dst src len)
  else vm (do_memmove dst src len);; mret 0.

(** [copyin_new] is not part of the repository. *)
Definition either_copyin (copyin_new : Z -> Z -> Z -> Z -> M (kstate A) Z)
    (dst : Z) (user_src : bool) (src len : Z) : P Z :=
  i ← myproc;
  p ← proc_at i;
  if user_src then vm (copyin_new (p_pagetable (p_pr p)) dst src len)
  else vm (do_memmove dst src len);; mret 0.

(** The lines [procdump] prints. *)
Definition state_name (x : procstate) : string :=
  match x with
  | UNUSED => "unused" | SLEEPING => "sleep " | RUNNABLE => "runble"
  | RUNNING => "run   " | ZOMBIE => "zombie"
  end.
Definition procdump : P (list (Z * string * list Z)) :=
  gets (fun s => map (fun p => (p_pid (p_sh p), state_name (p_state (p_sh p)), p_name (p_pr p)))
                   (filter (fun p => p_state (p_sh p) <> UNUSED) (k_procs s))).
End ops.
End Proc.
