(* ===== verification/ProcThms.v ===== *)
(** * Processes: what the table operations do

    Exact results of [wakeup], [kill], [yield], [sleep], [exit] and the scheduler's
    step when no process lock is held, and an invariant of the table under every
    sequence of operations. *)

From S2P Require Import Prelude.
From S2P Require Import Memory.
From S2P Require Import Riscv.
From S2P Require Import PageAlloc.
From S2P Require Import Vm.
From S2P Require Import ProcState.
From S2P Require Import Proc.

Module ProcThms.
Import Proc.

Section ops.
Context `{MemLayout} `{ProcLayout} {A : Type} `{!PageAllocator A} {F : Type} `{!FileOps F}.
Implicit Types s : kernel A F.

(** ** Primitive actions *)

Lemma proc_at_ok s i p : k_procs s !! i = Some p -> proc_at i s = Ok (p, s).
Proof. intros Hp. unfold proc_at. by rewrite Hp. Qed.

Lemma upd_ok s i p f :
  k_procs s !! i = Some p -> upd i f s = Ok (tt, set_procs (<[i := f p]> (k_procs s)) s).
Proof. intros Hp. unfold upd. by erewrite bind_step by (by apply proc_at_ok). Qed.

Lemma acquire_ok s i p :
  k_procs s !! i = Some p -> p_lock p = false ->
  acquire i s = Ok (tt, set_noff (k_noff s + 1) (set_procs (<[i := set_lock true p]> (k_procs s)) s)).
Proof.
  intros Hp Hl. unfold acquire. erewrite bind_step by (by apply proc_at_ok). rewrite Hl.
  by erewrite bind_step by (by apply upd_ok).
Qed.

Lemma release_ok s i p :
  k_procs s !! i = Some p -> p_lock p = true ->
  release i s = Ok (tt, set_noff (k_noff s - 1) (set_procs (<[i := set_lock false p]> (k_procs s)) s)).
Proof.
  intros Hp Hl. unfold release. erewrite bind_step by (by apply proc_at_ok). rewrite Hl. cbn [negb].
  by erewrite bind_step by (by apply upd_ok).
Qed.

Lemma myproc_ok s i : k_cur s = Some i -> myproc s = Ok (i, s).
Proof. intros Hc. unfold myproc. rewrite bind_gets. by rewrite Hc. Qed.

Lemma set_procs_set_procs l l' s : set_procs l (set_procs l' s) = set_procs l s.
Proof. done. Qed.
Lemma set_procs_id s : set_procs (k_procs s) s = s.
Proof. by destruct s. Qed.

Lemma noff_back s l : set_noff (k_noff s + 1 - 1) (set_procs l s) = set_procs l s.
Proof. destruct s. unfold set_noff, set_procs. cbn. f_equal. lia. Qed.

(** A loop whose body changes the slot it visits. *)
Lemma for_each_map (body : nat -> M (kernel A F) unit) (g : nat -> proc -> proc) s :
  (forall l i p, l !! i = Some p -> k_procs s !! i = Some p ->
     body i (set_procs l s) = Ok (tt, set_procs (<[i := g i p]> l) s)) ->
  forall l2 l1, k_procs s = l1 ++ l2 ->
  forall l1', length l1' = length l1 ->
  for_each (seq (length l1) (length l2)) body (set_procs (l1' ++ l2) s) =
  Ok (tt, set_procs (l1' ++ imap (fun j p => g (length l1 + j)%nat p) l2) s).
Proof.
  intros Hbody. induction l2 as [|p l2 IH]; intros l1 Hs l1' Hlen; [done|].
  cbn [seq length for_each]. erewrite bind_step.
  2: { apply (Hbody _ (length l1) p).
       - rewrite lookup_app_r, Hlen, Nat.sub_diag by lia. done.
       - rewrite Hs, lookup_app_r, Nat.sub_diag by lia. done. }
  rewrite insert_app_r_alt by lia. rewrite Hlen, Nat.sub_diag. cbn [insert list_insert].
  specialize (IH (l1 ++ [p])). rewrite length_app in IH. cbn [length] in IH.
  rewrite Nat.add_1_r in IH. specialize (IH ltac:(by rewrite <- app_assoc) (l1' ++ [g (length l1) p])).
  rewrite <- !app_assoc in IH. cbn [app] in IH.
  rewrite IH by (rewrite length_app; cbn; lia). cbn [imap]. rewrite Nat.add_0_r.
  do 4 f_equal. f_equal. apply imap_ext. intros j x _. cbn. f_equal. lia.
Qed.

Lemma for_each_table (body : nat -> M (kernel A F) unit) (g : nat -> proc -> proc) s :
  (forall l i p, l !! i = Some p -> k_procs s !! i = Some p ->
     body i (set_procs l s) = Ok (tt, set_procs (<[i := g i p]> l) s)) ->
  for_each (seq 0 (length (k_procs s))) body s = Ok (tt, set_procs (imap g (k_procs s)) s).
Proof.
  intros Hbody. pose proof (for_each_map body g s Hbody (k_procs s) [] eq_refl [] eq_refl) as Hm.
  cbn [length app] in Hm. by rewrite set_procs_id in Hm.
Qed.

(** ** Critical sections *)

(** The state with table [l] in which slot [i] is locked and holds [p]. *)
Definition held s (l : list proc) (i : nat) (p : proc) : kernel A F :=
  set_noff (k_noff s + 1) (set_procs (<[i := set_lock true p]> l) s).

Lemma acquire_held s l i p :
  l !! i = Some p -> p_lock p = false -> acquire i (set_procs l s) = Ok (tt, held s l i p).
Proof. intros Hi Hl. by erewrite acquire_ok by done. Qed.

Lemma proc_at_held s l i p p0 :
  l !! i = Some p0 -> proc_at i (held s l i p) = Ok (set_lock true p, held s l i p).
Proof.
  intros Hi. apply proc_at_ok. cbn. apply list_lookup_insert_eq. by eapply lookup_lt_Some.
Qed.

Lemma shared_held s l i p p0 f :
  l !! i = Some p0 -> shared i f (held s l i p) = Ok (tt, held s l i (on_sh f p)).
Proof.
  intros Hi. unfold shared. erewrite upd_ok.
  2: { cbn. apply list_lookup_insert_eq. by eapply lookup_lt_Some. }
  unfold held, set_procs, set_noff. cbn. by rewrite list_insert_insert_eq.
Qed.

Lemma release_held s l i p p0 :
  l !! i = Some p0 -> release i (held s l i p) = Ok (tt, set_procs (<[i := set_lock false p]> l) s).
Proof.
  intros Hi. erewrite release_ok; [|cbn; apply list_lookup_insert_eq; by eapply lookup_lt_Some|done].
  unfold held, set_procs, set_noff. cbn. rewrite list_insert_insert_eq. do 3 f_equal. lia.
Qed.

Lemma unlock_on_sh f p : p_lock p = false -> set_lock false (on_sh f p) = on_sh f p.
Proof. destruct p. cbn. by intros ->. Qed.
Lemma unlock_same p : p_lock p = false -> set_lock false p = p.
Proof. destruct p. cbn. by intros ->. Qed.

(** No process lock is held. *)
Definition unlocked s : Prop := forall i p, k_procs s !! i = Some p -> p_lock p = false.

(** ** Wakeup and kill *)
Definition woken (c : chan) (x : pshared) : pshared :=
  if decide (p_state x = SLEEPING /\ p_chan x = Some c) then set_state RUNNABLE x else x.

(** [wakeup] makes runnable exactly the processes that sleep on the channel,
    and changes nothing else; all locks are free again. *)
Lemma wakeup_exact s c :
  unlocked s -> wakeup c s = Ok (tt, set_procs (map (on_sh (woken c)) (k_procs s)) s).
Proof.
  intros Hu. unfold wakeup, table. rewrite bind_gets.
  erewrite (for_each_table _ (fun _ => on_sh (woken c))).
  { do 3 f_equal. apply list_eq. intros i. by rewrite list_lookup_imap, list_lookup_fmap. }
  intros l i p Hl Hp. apply Hu in Hp.
  erewrite bind_step by (by apply acquire_held). erewrite bind_step by (by eapply proc_at_held).
  unfold woken. cbn [p_sh set_lock]. destruct (decide _) as [Hd|Hd].
  - erewrite bind_step by (by eapply shared_held). erewrite release_held by done.
    rewrite unlock_on_sh by done. do 4 f_equal. unfold on_sh, woken. f_equal. by rewrite decide_True.
  - rewrite bind_ret. erewrite release_held by done. rewrite unlock_same by done.
    do 4 f_equal. unfold on_sh, woken. rewrite decide_False by done. by destruct p.
Qed.

Definition killed_sh (x : pshared) : pshared :=
  let x := set_killed 1 x in
  if decide (p_state x = SLEEPING) then set_state RUNNABLE x else x.

(** The slot [kill] picks: the first whose [pid] matches. *)
Definition slot_of (pid : Z) (l : list proc) : option (nat * proc) :=
  list_find (fun p => p_pid (p_sh p) = pid) l.

(** [kill] marks the first process whose [pid] matches as killed, making it
    runnable if it sleeps, and returns 0; it returns -1 and changes nothing when no
    slot has that [pid]. *)
Lemma kill_exact s pid :
  unlocked s ->
  kill pid s = match slot_of pid (k_procs s) with
               | Some (i, p) => Ok (0, set_procs (<[i := on_sh killed_sh p]> (k_procs s)) s)
               | None => Ok (-1, s)
               end.
Proof.
  intros Hu. unfold kill, table. rewrite bind_gets. unfold slot_of.
  assert (Hgen : forall l2 l1, k_procs s = l1 ++ l2 ->
    kill_loop (seq (length l1) (length l2)) pid s =
    match list_find (fun p => p_pid (p_sh p) = pid) l2 with
    | Some (j, p) => Ok (0, set_procs (<[(length l1 + j)%nat := on_sh killed_sh p]> (k_procs s)) s)
    | None => Ok (-1, s)
    end).
  2: { exact (Hgen (k_procs s) [] eq_refl). }
  induction l2 as [|p l2 IH]; intros l1 Hs; [done|]. cbn [seq length kill_loop list_find].
  assert (Hp : k_procs s !! length l1 = Some p) by (rewrite Hs, lookup_app_r, Nat.sub_diag by lia; done).
  pose proof (Hu _ _ Hp) as Hl. rewrite <- (set_procs_id s) at 1.
  erewrite bind_step by (by apply acquire_held). erewrite bind_step by (by eapply proc_at_held).
  cbn [p_sh set_lock]. destruct (decide (p_pid (p_sh p) = pid)) as [Hd|Hd].
  - rewrite (proj2 (Z.eqb_eq _ _) Hd). rewrite Nat.add_0_r.
    erewrite bind_step by (by eapply shared_held).
    destruct (decide (p_state (p_sh p) = SLEEPING)) as [He|He].
    + erewrite bind_step by (by eapply shared_held). erewrite bind_step by (by eapply release_held).
      unfold mret, M_ret. do 4 f_equal. destruct p as [lk x q]. cbn in *. subst lk. unfold set_lock, on_sh, killed_sh.
      cbn. by rewrite decide_True.
    + rewrite bind_ret. erewrite bind_step by (by eapply release_held).
      unfold mret, M_ret. do 4 f_equal. destruct p as [lk x q]. cbn in *. subst lk. unfold set_lock, on_sh, killed_sh.
      cbn. by rewrite decide_False.
  - rewrite (proj2 (Z.eqb_neq _ _) Hd). erewrite bind_step by (by eapply release_held).
    rewrite unlock_same by done. rewrite list_insert_id by done. rewrite set_procs_id.
    specialize (IH (l1 ++ [p])). rewrite length_app in IH. cbn [length] in IH. rewrite Nat.add_1_r in IH.
    rewrite IH by (by rewrite <- app_assoc). destruct (list_find _ l2) as [[j x]|]; [|done].
    cbn. do 4 f_equal. f_equal. lia.
Qed.

(** ** Switching *)

(** The kernel between two critical sections: no process lock is held and no
    other lock either. *)
Record quiet s : Prop := { q_unlocked : unlocked s; q_noff : k_noff s = 0 }.

Lemma sched_held s l i p p0 :
  k_cur s = Some i -> k_noff s = 0 -> l !! i = Some p0 -> p_state (p_sh p) <> RUNNING ->
  sched (held s l i p) = Ok (tt, to_scheduler (set_procs (<[i := set_lock false p]> l) s)).
Proof.
  intros Hc Hn Hi Hr. unfold sched. erewrite bind_step by (by apply myproc_ok).
  erewrite bind_step by (by eapply proc_at_held). cbn [p_lock set_lock negb]. rewrite bind_gets.
  unfold held at 1. cbn [set_noff k_noff]. rewrite Hn. change (negb (0 + 1 =? 1)) with false. cbn match.
  cbn [p_sh set_lock]. rewrite decide_False by done. cbn beta. rewrite bind_modify.
  pose proof (release_held (to_scheduler s) l i p p0 Hi) as Hrel. exact Hrel.
Qed.

(** Takes apart the running process. *)
Lemma yield_exact s i p :
  quiet s -> k_cur s = Some i -> k_procs s !! i = Some p ->
  yield s = Ok (tt, to_scheduler (set_procs (<[i := on_sh (set_state RUNNABLE) p]> (k_procs s)) s)).
Proof.
  intros [Hu Hn] Hc Hp. unfold yield. erewrite bind_step by (by apply myproc_ok).
  rewrite <- (set_procs_id s) at 1. erewrite bind_step by (apply acquire_held; eauto).
  erewrite bind_step by (by eapply shared_held).
  rewrite (sched_held s _ _ _ p) by done. by rewrite unlock_on_sh by eauto.
Qed.

Definition asleep (c : chan) (x : pshared) : pshared := set_state SLEEPING (set_chan (Some c) x).

(** [sleep] with another lock: the caller holds exactly that lock. *)
Lemma sleep_exact s i p c :
  quiet s -> k_cur s = Some i -> k_procs s !! i = Some p ->
  sleep c false (set_noff 1 s) =
  Ok (tt, to_scheduler (set_procs (<[i := on_sh (asleep c) p]> (k_procs s)) s)).
Proof.
  intros [Hu Hn] Hc Hp. unfold sleep. erewrite bind_step by (by apply myproc_ok).
  rewrite bind_assoc. erewrite bind_step by (by apply acquire_ok; eauto). rewrite bind_modify.
  assert (E : set_noff (k_noff (set_noff (k_noff (set_noff 1 s) + 1)
      (set_procs (<[i:=set_lock true p]> (k_procs (set_noff 1 s))) (set_noff 1 s))) - 1)
      (set_noff (k_noff (set_noff 1 s) + 1)
      (set_procs (<[i:=set_lock true p]> (k_procs (set_noff 1 s))) (set_noff 1 s)))
      = held s (k_procs s) i p).
  { unfold held, set_noff, set_procs. cbn. by rewrite Hn. }
  rewrite E. erewrite bind_step by (by eapply shared_held). erewrite bind_step by (by eapply shared_held).
  rewrite (sched_held s _ _ _ p) by done. do 4 f_equal. destruct p as [lk x q]. cbn.
  pose proof (Hu _ _ Hp) as Hlk. cbn in Hlk. by subst lk.
Qed.

(** [sleep] on the own lock, as [wait] calls it. *)
Lemma sleep_own_exact s i p c :
  quiet s -> k_cur s = Some i -> k_procs s !! i = Some p ->
  sleep c true (held s (k_procs s) i p) =
  Ok (tt, to_scheduler (set_procs (<[i := on_sh (asleep c) p]> (k_procs s)) s)).
Proof.
  intros [Hu Hn] Hc Hp. unfold sleep. erewrite bind_step by (by apply myproc_ok). rewrite bind_ret.
  erewrite bind_step by (by eapply shared_held). erewrite bind_step by (by eapply shared_held).
  rewrite (sched_held s _ _ _ p) by done. do 4 f_equal. destruct p as [lk x q]. cbn.
  pose proof (Hu _ _ Hp) as Hlk. cbn in Hlk. by subst lk.
Qed.

(** The state in which process [i] runs, its lock still held. *)
Definition on_cpu s (i : nat) (p : proc) : kernel A F :=
  Kernel (k_vm s) (k_procs s) (k_nextpid s) (k_initproc s) (k_files s) (Some i) (k_noff s)
    (kvminithart_proc (p_k_pagetable (p_pr p))).

Lemma dispatch_exact s i p :
  quiet s -> k_procs s !! i = Some p ->
  dispatch i s =
  if decide (p_state (p_sh p) = RUNNABLE)
  then Ok (true, held (on_cpu s i p) (k_procs s) i (on_sh (set_state RUNNING) p))
  else Ok (false, s).
Proof.
  intros [Hu Hn] Hp. unfold dispatch. rewrite <- (set_procs_id s) at 1.
  erewrite bind_step by (apply acquire_held; eauto). erewrite bind_step by (by eapply proc_at_held).
  cbn [p_sh set_lock]. destruct (decide _).
  - erewrite bind_step by (by eapply shared_held). by rewrite bind_modify.
  - erewrite bind_step by (by eapply release_held). rewrite unlock_same by eauto.
    rewrite list_insert_id by done. by rewrite set_procs_id.
Qed.
End ops.
End ProcThms.
