(* ===== verification/ProcExit.v ===== *)
(** * Processes: exit and wait

    [exit] turns the running process into a zombie, gives its children to init
    and wakes its parent; [wait] reaps one zombie child. Both follow the
    parent-then-child lock order. *)

From S2P Require Import Prelude.
From S2P Require Import Memory.
From S2P Require Import Riscv.
From S2P Require Import PageAlloc.
From S2P Require Import Vm.
From S2P Require Import ProcState.
From S2P Require Import Proc.
From S2P Require Import ProcThms.

Module ProcExit.
Import Proc ProcThms.

(** Reduces the projections of an explicit kernel state. *)
Ltac kcbn := cbv beta iota delta [set_procs set_noff to_scheduler set_files k_vm k_procs k_nextpid k_initproc k_files k_cur
  k_noff k_satp] in *.

Section ops.
Context `{MemLayout} `{ProcLayout} {A : Type} `{!PageAllocator A} {F : Type} `{!FileOps F}.
Implicit Types s : kernel A F.

Definition adopt (me : nat) (init : option nat) (x : pshared) : pshared :=
  if decide (p_parent x = Some me) then set_parent init x else x.

Lemma reparent_exact s me :
  (forall j p, k_procs s !! j = Some p -> p_parent (p_sh p) = Some me -> p_lock p = false) ->
  reparent me s = Ok (tt, set_procs (map (on_sh (adopt me (k_initproc s))) (k_procs s)) s).
Proof.
  intros Hu. unfold reparent, table. rewrite bind_gets.
  erewrite (for_each_table _ (fun _ => on_sh (adopt me (k_initproc s)))).
  { do 3 f_equal. apply list_eq. intros i. by rewrite list_lookup_imap, list_lookup_fmap. }
  intros l i p Hl Hp. erewrite bind_step by (by apply proc_at_ok).
  unfold adopt. destruct (decide _) as [Hd|Hd].
  - pose proof (Hu _ _ Hp Hd) as Hlk. erewrite bind_step by (by apply acquire_held).
    rewrite bind_gets. erewrite bind_step by (by eapply shared_held). erewrite release_held by done.
    rewrite unlock_on_sh by done. do 4 f_equal. unfold on_sh. f_equal. by rewrite decide_True.
  - unfold mret, M_ret. do 3 f_equal. symmetry. rewrite list_insert_id; [done|]. rewrite Hl. f_equal.
    unfold on_sh. rewrite decide_False by done. by destruct p.
Qed.

Lemma wakeup1_exact s i p :
  k_procs s !! i = Some p -> p_lock p = true ->
  wakeup1 i s = Ok (tt, set_procs (<[i := on_sh (woken (ChProc i)) p]> (k_procs s)) s).
Proof.
  intros Hp Hl. unfold wakeup1. erewrite bind_step by (by apply proc_at_ok). rewrite Hl. cbn [negb].
  unfold woken. destruct (decide (p_chan (p_sh p) = Some (ChProc i) /\ p_state (p_sh p) = SLEEPING)) as [Hd|Hd].
  - unfold shared. erewrite upd_ok by done. do 4 f_equal. unfold on_sh. f_equal. rewrite decide_True by tauto. done.
  - unfold mret, M_ret. do 2 f_equal. rewrite list_insert_id; [by rewrite set_procs_id|]. rewrite Hp. f_equal.
    unfold on_sh. rewrite decide_False by tauto. by destruct p.
Qed.

(** Waking init, its lock taken and released. *)
Lemma wake_init_exact s r p :
  k_procs s !! r = Some p -> p_lock p = false ->
  (acquire r;; wakeup1 r;; release r) s =
  Ok (tt, set_procs (<[r := on_sh (woken (ChProc r)) p]> (k_procs s)) s).
Proof.
  intros Hp Hl. rewrite <- (set_procs_id s) at 1. erewrite bind_step by (by apply acquire_held).
  erewrite bind_step.
  2: { apply (wakeup1_exact _ r (set_lock true p)); [|reflexivity]. cbn. apply list_lookup_insert_eq. by eapply lookup_lt_Some. }
  replace (set_procs _ (held s (k_procs s) r p)) with (held s (k_procs s) r (on_sh (woken (ChProc r)) p)).
  2: { unfold held, set_procs, set_noff. cbn. by rewrite list_insert_insert_eq. }
  erewrite release_held by done. by rewrite unlock_on_sh.
Qed.

(** Closing the descriptors [fds] of process [i]. *)
Lemma close_files_exact s i p fds :
  k_procs s !! i = Some p ->
  exists f q, close_files fds i s =
    Ok (tt, set_files f (set_procs (<[i := Proc (p_lock p) (p_sh p) q]> (k_procs s)) s)) /\
    length (p_ofile q) = length (p_ofile (p_pr p)) /\
    (forall fd, fd ∈ fds \/ nth fd (p_ofile (p_pr p)) 0 = 0 -> nth fd (p_ofile q) 0 = 0).
Proof.
  revert s p. induction fds as [|fd fds IH]; intros s p Hp; cbn [close_files].
  { exists (k_files s), (p_pr p). split_and!; [|done|intros fd [?|?]; [set_solver|done]].
    unfold mret, M_ret. do 2 f_equal. rewrite list_insert_id; [by destruct s|]. rewrite Hp. by destruct p. }
  erewrite bind_step by (by apply proc_at_ok).
  destruct (Z.eqb_spec (nth fd (p_ofile (p_pr p)) 0) 0) as [Hz|Hz].
  - rewrite bind_ret. destruct (IH s p Hp) as (f & q & -> & Hlen & Hq). exists f, q. split_and!; [done..|].
    intros fd' [Hin|?]; [|auto]. apply elem_of_cons in Hin as [->|?]; auto.
  - unfold files. rewrite bind_assoc, bind_modify.
    erewrite bind_step by (unfold private; by apply upd_ok).
    set (s1 := set_procs _ _).
    assert (Hp1 : k_procs s1 !! i = Some (on_pr (fun q => set_ofile (<[fd:=0]> (p_ofile q)) q) p)).
    { unfold s1. cbn. apply list_lookup_insert_eq. by eapply lookup_lt_Some. }
    destruct (IH s1 _ Hp1) as (f & q & -> & Hlen & Hq). exists f, q. cbn in Hlen, Hq.
    rewrite length_insert in Hlen. split_and!; [|done|].
    + do 2 f_equal. unfold s1, set_files, set_procs. cbn. by rewrite list_insert_insert_eq.
    + intros fd' Hfd. apply Hq. destruct (decide (fd' = fd)) as [->|Hne].
      * right. rewrite nth_lookup. destruct (decide (fd < length (p_ofile (p_pr p)))%nat).
        { by rewrite list_lookup_insert_eq by done. }
        rewrite lookup_ge_None_2; [done|]. rewrite length_insert. lia.
      * destruct Hfd as [Hin|Hz']; [left; apply elem_of_cons in Hin as [?|?]; done|right].
        rewrite nth_lookup, list_lookup_insert_ne, <- nth_lookup by done. done.
Qed.

(** What [exit] does to the shared members of another slot [j]. *)
Definition exit_sh (i r pa j : nat) (x : pshared) : pshared :=
  let x := if decide (j = r) then woken (ChProc r) x else x in
  let x := adopt i (Some r) x in
  if decide (j = pa) then woken (ChProc pa) x else x.

Record exited s s' (i pa r : nat) (p : proc) (status : Z) : Prop := {
  ex_quiet : quiet s';
  ex_cur : k_cur s' = None;
  ex_init : k_initproc s' = k_initproc s;
  ex_nextpid : k_nextpid s' = k_nextpid s;
  ex_vm : k_vm s' = k_vm s;
  ex_length : length (k_procs s') = length (k_procs s);
  ex_self : exists q, k_procs s' !! i =
      Some (Proc false (set_state ZOMBIE (set_xstate status (p_sh p))) q) /\
      p_cwd q = 0 /\ (forall fd, nth fd (p_ofile q) 0 = 0);
  ex_others j x : j <> i -> k_procs s !! j = Some x -> k_procs s' !! j = Some (on_sh (exit_sh i r pa j) x);
}.

(** Who may exit: the running process [i], not init, with a parent that is
    neither itself nor one of its children. *)
Record can_exit s (i pa r : nat) (p : proc) : Prop := {
  ce_quiet : quiet s;
  ce_cur : k_cur s = Some i;
  ce_proc : k_procs s !! i = Some p;
  ce_init : k_initproc s = Some r /\ r <> i /\ is_Some (k_procs s !! r);
  ce_parent : p_parent (p_sh p) = Some pa;
  ce_apart : pa <> i /\ exists x, k_procs s !! pa = Some x /\ p_parent (p_sh x) <> Some i;
}.

(** The second half of [exit]: from the point where the parent is known. *)
Definition exit_tail (i pa : nat) (status : Z) : M (kernel A F) unit :=
  acquire pa;;
  acquire i;;
  reparent i;;
  wakeup1 pa;;
  shared i (set_xstate status);;
  shared i (set_state ZOMBIE);;
  release pa;;
  sched.

Lemma exit_tail_exact s i pa r p x status :
  quiet s -> k_cur s = Some i -> k_procs s !! i = Some p -> k_initproc s = Some r ->
  pa <> i -> k_procs s !! pa = Some x -> p_parent (p_sh p) <> Some i -> p_parent (p_sh x) <> Some i ->
  exists s', exit_tail i pa status s = Ok (tt, s') /\
    quiet s' /\ k_cur s' = None /\ k_initproc s' = k_initproc s /\ k_nextpid s' = k_nextpid s /\
    k_vm s' = k_vm s /\ length (k_procs s') = length (k_procs s) /\
    k_procs s' !! i = Some (on_sh (fun y => set_state ZOMBIE (set_xstate status y)) p) /\
    forall j y, j <> i -> k_procs s !! j = Some y ->
      k_procs s' !! j = Some (on_sh (fun z =>
        let z := adopt i (Some r) z in if decide (j = pa) then woken (ChProc pa) z else z) y).
Proof.
  intros [Hu Hn] Hc Hi Hr Hne Hx Hpi Hxi. destruct s as [v l np ini f c n sp]. unfold unlocked in Hu.
  kcbn. subst c ini n.
  pose proof (Hu _ _ Hi) as Hli. pose proof (Hu _ _ Hx) as Hlx.
  pose proof (lookup_lt_Some _ _ _ Hi) as Hlt. pose proof (lookup_lt_Some _ _ _ Hx) as Hltx.
  unfold exit_tail. erewrite bind_step by (by apply acquire_ok). kcbn.
  erewrite bind_step.
  2: { apply acquire_ok; [|exact Hli]. kcbn. rewrite list_lookup_insert_ne by done. exact Hi. }
  kcbn. set (l2 := <[i:=set_lock true p]> _).
  erewrite bind_step.
  2: { apply reparent_exact. kcbn. intros j y Hj Hpar. unfold l2 in Hj.
       apply list_lookup_insert_Some in Hj as [(<- & <- & _)|[Hji Hj]]; [cbn in Hpar; congruence|].
       apply list_lookup_insert_Some in Hj as [(<- & <- & _)|[Hjp Hj]]; [cbn in Hpar; congruence|].
       by apply (Hu j). }
  kcbn. set (l3 := map _ l2).
  assert (H3i : l3 !! i = Some (set_lock true p)).
  { unfold l3. rewrite list_lookup_fmap. unfold l2. rewrite list_lookup_insert_eq by (by rewrite length_insert).
    cbn. f_equal. unfold on_sh, adopt, set_lock. cbn. by rewrite decide_False. }
  assert (H3p : l3 !! pa = Some (set_lock true x)).
  { unfold l3. rewrite list_lookup_fmap. unfold l2. rewrite list_lookup_insert_ne by done.
    rewrite list_lookup_insert_eq by done. cbn. f_equal. unfold on_sh, adopt, set_lock. cbn. by rewrite decide_False. }
  assert (H3l : length l3 = length l) by (unfold l3, l2; by rewrite length_map, !length_insert).
  erewrite bind_step.
  2: { apply (wakeup1_exact _ pa (set_lock true x)); [exact H3p|reflexivity]. }
  kcbn. set (x' := on_sh _ (set_lock true x)).
  erewrite bind_step.
  2: { unfold shared. apply upd_ok. kcbn. rewrite list_lookup_insert_ne by done. exact H3i. }
  kcbn. erewrite bind_step.
  2: { unfold shared. apply upd_ok. kcbn. rewrite list_lookup_insert_eq; [done|].
       rewrite length_insert. lia. }
  kcbn. rewrite list_insert_insert_eq. set (p' := on_sh _ (on_sh _ (set_lock true p))).
  erewrite bind_step.
  2: { apply (release_ok _ pa x'); [|reflexivity]. kcbn.
       rewrite list_lookup_insert_ne by done. rewrite list_lookup_insert_eq by lia. done. }
  kcbn. rewrite list_insert_insert_ne by done. rewrite list_insert_insert_eq.
  set (l4 := <[pa:=_]> l3).
  assert (H4i : l4 !! i = Some (set_lock true p)) by (unfold l4; by rewrite list_lookup_insert_ne).
  replace (Kernel v (<[i:=p']> l4) np (Some r) f (Some i) (0 + 1 + 1 - 1) sp)
    with (held (Kernel v l4 np (Some r) f (Some i) 0 sp) l4 i p') by done.
  rewrite (sched_held _ _ _ _ (set_lock true p)); [|done..]. kcbn.
  eexists. split; [reflexivity|]. kcbn.
  assert (Hothers : forall j y, j <> i -> l !! j = Some y ->
    <[i:=set_lock false p']> l4 !! j = Some (on_sh (fun z =>
        let z := adopt i (Some r) z in if decide (j = pa) then woken (ChProc pa) z else z) y)).
  { intros j y Hji Hy. rewrite list_lookup_insert_ne by done. unfold l4.
    destruct (decide (j = pa)) as [->|Hjp].
    - rewrite list_lookup_insert_eq by lia. assert (y = x) as -> by congruence. f_equal. unfold x', on_sh, set_lock.
      cbn. rewrite Hlx. f_equal. unfold adopt. by rewrite decide_False.
    - rewrite list_lookup_insert_ne by done. unfold l3. rewrite list_lookup_fmap. unfold l2.
      rewrite !list_lookup_insert_ne by done. by rewrite Hy. }
  assert (Hself : <[i:=set_lock false p']> l4 !! i =
    Some (on_sh (fun y => set_state ZOMBIE (set_xstate status y)) p)).
  { rewrite list_lookup_insert_eq by (unfold l4; rewrite length_insert; lia). f_equal.
    unfold p', on_sh, set_lock. cbn. by rewrite Hli. }
  split_and!; try done.
  - split; [|done]. intros j y Hj. kcbn. destruct (decide (j = i)) as [->|Hji].
    + rewrite Hself in Hj. by simplify_eq.
    + destruct (lookup_lt_is_Some_2 l j) as [z Hz].
      { apply lookup_lt_Some in Hj. unfold l4 in Hj. rewrite !length_insert in Hj. lia. }
      rewrite (Hothers j z Hji Hz) in Hj. simplify_eq. exact (Hu j z Hz).
  - unfold l4. rewrite !length_insert. lia.
Qed.

(** Taking and releasing one's own lock leaves nothing behind. *)
Lemma lock_unlock s i p (B : Type) (f : proc -> M (kernel A F) B) :
  k_procs s !! i = Some p -> p_lock p = false ->
  (acquire i;; p ← proc_at i; (release i;; f p)) s = f (set_lock true p) s.
Proof.
  intros Hp Hl. rewrite <- (set_procs_id s) at 1. erewrite bind_step by (by apply acquire_held).
  erewrite bind_step by (by eapply proc_at_held). erewrite bind_step by (by eapply release_held).
  by rewrite unlock_same, list_insert_id, set_procs_id.
Qed.

(** [exit] of a process other than init returns to the scheduler with all
    locks free: the process is a zombie with the given status, no open file and
    no working directory, its children belong to init, and init and the parent,
    where they sleep in [wait], can run; nothing else changes. *)
Lemma exit_exact s i pa r p status :
  can_exit s i pa r p -> exists s', exit status s = Ok (tt, s') /\ exited s s' i pa r p status.
Proof.
  intros [[Hu Hn] Hc Hi (Hr & Hri & pr & Hpr) Hpar (Hpai & x & Hx & Hxi)].
  destruct s as [v l np ini fs c n sp]. unfold unlocked in Hu. kcbn. subst c ini n.
  pose proof (lookup_lt_Some _ _ _ Hi) as Hlt. pose proof (Hu _ _ Hi) as Hli.
  unfold exit. erewrite bind_step by (by apply myproc_ok). rewrite bind_gets. kcbn.
  rewrite decide_False by congruence. erewrite bind_step by (by apply proc_at_ok).
  destruct (close_files_exact (Kernel v l np (Some r) fs (Some i) 0 sp) i p (seq 0 (length (p_ofile (p_pr p)))) Hi) as (f & q & Hcl & Hlen & Hzero).
  erewrite bind_step by exact Hcl. unfold files. rewrite bind_modify.
  erewrite bind_step.
  2: { unfold private. apply upd_ok. kcbn. by apply list_lookup_insert_eq. }
  kcbn. rewrite list_insert_insert_eq, Hli.
  set (p1 := on_pr (set_cwd 0) _). set (l1 := <[i:=p1]> l).
  set (s1 := Kernel _ l1 _ _ _ _ _ _).
  assert (H1r : l1 !! r = Some pr) by (unfold l1; by rewrite list_lookup_insert_ne).
  assert (H1i : l1 !! i = Some p1) by (unfold l1; by rewrite list_lookup_insert_eq).
  erewrite bind_step by (by apply wake_init_exact; [exact H1r|by eapply Hu]).
  set (pr' := on_sh (woken (ChProc r)) pr). set (s2 := set_procs _ s1).
  assert (H2i : k_procs s2 !! i = Some p1) by (unfold s2; kcbn; by rewrite list_lookup_insert_ne).
  assert (H2o : forall j, j <> i -> k_procs s2 !! j = (if decide (j = r) then Some pr' else l !! j)).
  { intros j Hji. unfold s2, s1. kcbn. destruct (decide (j = r)) as [->|Hjr].
    - apply list_lookup_insert_eq. unfold l1. rewrite length_insert. by eapply lookup_lt_Some.
    - rewrite list_lookup_insert_ne by done. unfold l1. by rewrite list_lookup_insert_ne. }
  assert (Hq2 : quiet s2).
  { split; [|reflexivity]. intros j y Hj. destruct (decide (j = i)) as [->|Hji]; [rewrite H2i in Hj; by simplify_eq|].
    rewrite H2o in Hj by done. destruct (decide (j = r)); [simplify_eq; exact (Hu r pr Hpr)|by apply (Hu j)]. }
  rewrite (lock_unlock s2 i p1) by done.
  change (p_parent (p_sh (set_lock true p1))) with (p_parent (p_sh p)). rewrite Hpar.
  destruct (exit_tail_exact s2 i pa r p1 (if decide (pa = r) then pr' else x) status) as
    (s' & He & Hq' & Hc' & Hr' & Hnp & Hvm & Hl' & Hself & Hoth); try done.
  - rewrite H2o by done. by destruct (decide (pa = r)).
  - change (p_parent (p_sh p1)) with (p_parent (p_sh p)). congruence.
  - destruct (decide (pa = r)) as [->|]; [|done]. assert (x = pr) as -> by congruence.
    unfold pr', woken. cbn. by destruct (decide _).
  - exists s'. split; [exact He|]. split; try done.
    + rewrite Hl'. unfold s2, s1, l1. kcbn. by rewrite !length_insert.
    + rewrite Hself. unfold p1, on_sh, on_pr. cbn. eexists. split; [done|]. cbn. split; [done|].
      intros fd. apply Hzero. destruct (decide (fd < length (p_ofile (p_pr p)))%nat).
      * left. apply elem_of_seq. lia.
      * right. rewrite nth_lookup, lookup_ge_None_2; [done|lia].
    + intros j y Hji Hy. cbn [k_procs] in Hy. specialize (Hoth j (if decide (j = r) then pr' else y) Hji).
      rewrite Hoth by (rewrite H2o, Hy by done; by destruct (decide (j = r))).
      f_equal. unfold exit_sh. destruct (decide (j = r)) as [->|]; [|done].
      assert (y = pr) as -> by congruence. done.
Qed.
End ops.
End ProcExit.
