(* ===== verification/ProcPost.v ===== *)
(** * Processes: what successful runs of the memory-heavy operations leave behind

    [fork], [wait] and [growproc] call page-table code that can fail in many
    ways. Here only their effect on the process table is described: if such an
    operation returns, this is the table it leaves. *)

From S2P Require Import Prelude.
From S2P Require Import Memory.
From S2P Require Import Riscv.
From S2P Require Import PageAlloc.
From S2P Require Import Vm.
From S2P Require Import ProcState.
From S2P Require Import Proc.
From S2P Require Import ProcThms.
From S2P Require Import ProcExit.

Module ProcPost.
Import Proc ProcThms ProcExit.

Section ops.
Context `{MemLayout} `{ProcLayout} {A : Type} `{!PageAllocator A} {F : Type} `{!FileOps F}.
Implicit Types s : kernel A F.

Lemma post_vm {B} (m : M (kstate A) B) v l np ini fs c n sp (Q : B -> kernel A F -> Prop) :
  (forall b v', Q b (Kernel v' l np ini fs c n sp)) -> post (vm m) (Kernel v l np ini fs c n sp) Q.
Proof.
  intros HQ b s' Hr. unfold vm in Hr. cbn in Hr. destruct (m v) as [[b' v']|]; [|done].
  simplify_eq. apply HQ.
Qed.

Lemma post_private {B} i f (g : M (kernel A F) B) v l np ini fs c n sp p Q :
  l !! i = Some p ->
  post g (Kernel v (<[i := on_pr f p]> l) np ini fs c n sp) Q ->
  post (private i f;; g) (Kernel v l np ini fs c n sp) Q.
Proof. intros Hp HQ. eapply post_bind_Ok; [unfold private; by apply upd_ok|exact HQ]. Qed.

Lemma post_shared {B} i f (g : M (kernel A F) B) v l np ini fs c n sp p Q :
  l !! i = Some p ->
  post g (Kernel v (<[i := on_sh f p]> l) np ini fs c n sp) Q ->
  post (shared i f;; g) (Kernel v l np ini fs c n sp) Q.
Proof. intros Hp HQ. eapply post_bind_Ok; [unfold shared; by apply upd_ok|exact HQ]. Qed.

Lemma post_release {B} i (g : M (kernel A F) B) v l np ini fs c n sp p Q :
  l !! i = Some p -> p_lock p = true ->
  post g (Kernel v (<[i := set_lock false p]> l) np ini fs c (n - 1) sp) Q ->
  post (release i;; g) (Kernel v l np ini fs c n sp) Q.
Proof. intros Hp Hl HQ. eapply post_bind_Ok; [by apply release_ok|exact HQ]. Qed.

Lemma post_proc_at {B} i (g : proc -> M (kernel A F) B) v l np ini fs c n sp p Q :
  l !! i = Some p -> post (g p) (Kernel v l np ini fs c n sp) Q ->
  post (proc_at i ≫= g) (Kernel v l np ini fs c n sp) Q.
Proof. intros Hp HQ. eapply post_bind_Ok; [by apply proc_at_ok|exact HQ]. Qed.

(** A slot [freeproc] has cleared. *)
Definition freed : pshared := Shared UNUSED None None 0 0 0.

Lemma freeproc_post i v l np ini fs c n sp p (Q : unit -> kernel A F -> Prop) :
  l !! i = Some p ->
  (forall v' q, Q tt (Kernel v' (<[i := Proc (p_lock p) freed q]> l) np ini fs c n sp)) ->
  post (freeproc i) (Kernel v l np ini fs c n sp) Q.
Proof.
  intros Hp HQ. pose proof (lookup_lt_Some _ _ _ Hp) as Hlt.
  assert (Hl : forall x, <[i:=x]> l !! i = Some x) by (intros x; by apply list_lookup_insert_eq).
  assert (Hopt : forall (b : bool) (m : M (kstate A) unit) v0 l0 R,
    (forall v', R tt (Kernel v' l0 np ini fs c n sp)) ->
    post (if b then mret tt else vm m) (Kernel v0 l0 np ini fs c n sp) R).
  { intros b m v0 l0 R HR. destruct b; [apply post_ret, HR|apply post_vm; intros []; apply HR]. }
  unfold freeproc. eapply post_proc_at; [exact Hp|].
  apply post_bind, Hopt. intros v1. eapply post_private; [exact Hp|].
  apply post_bind, Hopt. intros v2. eapply post_private; [apply Hl|rewrite list_insert_insert_eq].
  apply post_bind, Hopt. intros v3. eapply post_private; [apply Hl|rewrite list_insert_insert_eq].
  do 7 (first [eapply post_shared; [apply Hl|] | eapply post_private; [apply Hl|]]; rewrite list_insert_insert_eq).
  eapply post_Ok; [unfold shared; apply upd_ok, Hl|].
  kcbn. rewrite list_insert_insert_eq. apply HQ.
Qed.

(** ** Allocation *)
Lemma find_unused_exact s :
  unlocked s ->
  find_unused (seq 0 (length (k_procs s))) s =
  match list_find (fun p => p_state (p_sh p) = UNUSED) (k_procs s) with
  | Some (i, p) => Ok (Some i, held s (k_procs s) i p)
  | None => Ok (None, s)
  end.
Proof.
  intros Hu.
  assert (Hgen : forall l2 l1, k_procs s = l1 ++ l2 ->
    find_unused (seq (length l1) (length l2)) s =
    match list_find (fun p => p_state (p_sh p) = UNUSED) l2 with
    | Some (j, p) => Ok (Some (length l1 + j)%nat, held s (k_procs s) (length l1 + j) p)
    | None => Ok (None, s)
    end).
  2: { exact (Hgen (k_procs s) [] eq_refl). }
  induction l2 as [|p l2 IH]; intros l1 Hs; [done|]. cbn [seq length find_unused list_find].
  assert (Hp : k_procs s !! length l1 = Some p) by (rewrite Hs, lookup_app_r, Nat.sub_diag by lia; done).
  pose proof (Hu _ _ Hp) as Hl. rewrite <- (set_procs_id s) at 1.
  erewrite bind_step by (by apply acquire_held). erewrite bind_step by (by eapply proc_at_held).
  cbn [p_sh set_lock]. destruct (decide (p_state (p_sh p) = UNUSED)) as [Hd|Hd].
  - rewrite Nat.add_0_r. done.
  - erewrite bind_step by (by eapply release_held).
    rewrite unlock_same by done. rewrite list_insert_id by done. rewrite set_procs_id.
    specialize (IH (l1 ++ [p])). rewrite length_app in IH. cbn [length] in IH. rewrite Nat.add_1_r in IH.
    rewrite IH by (by rewrite <- app_assoc). destruct (list_find _ l2) as [[j x]|]; [|done].
    cbn. do 3 f_equal; [lia|]. f_equal. lia.
Qed.

(** What a failed allocation leaves in the slot it tried. *)
Definition still_unused (pid : Z) (x y : pshared) : Prop := y = set_pid pid x \/ y = freed.

(** [allocproc]: no slot, a failure that leaves the slot unused, or a slot with
    its lock held and the next pid. *)
Lemma allocproc_post v l np ini fs c sp (Q : option nat -> kernel A F -> Prop) :
  (forall j p, l !! j = Some p -> p_lock p = false) ->
  Q None (Kernel v l np ini fs c 0 sp) ->
  (forall j p v' x q, l !! j = Some p -> p_state (p_sh p) = UNUSED -> still_unused np (p_sh p) x ->
     Q None (Kernel v' (<[j := Proc false x q]> l) (s32 (np + 1)) ini fs c 0 sp)) ->
  (forall j p v' q, l !! j = Some p -> p_state (p_sh p) = UNUSED ->
     Q (Some j) (Kernel v' (<[j := Proc true (set_pid np (p_sh p)) q]> l) (s32 (np + 1)) ini fs c 1 sp)) ->
  post allocproc (Kernel v l np ini fs c 0 sp) Q.
Proof.
  intros Hu HQ0 HQf HQs. set (s0 := Kernel v l np ini fs c 0 sp) in *.
  unfold allocproc, table. apply post_bind. eapply post_Ok; [reflexivity|].
  pose proof (find_unused_exact s0 Hu) as E. unfold s0 in E. kcbn. fold s0 in E.
  destruct (list_find _ l) as [[j p]|] eqn:Hfind; (eapply post_bind_Ok; [exact E|]); [|by apply post_ret].
  apply list_find_Some in Hfind as (Hp & Hst & _). pose proof (Hu _ _ Hp) as Hlk.
  pose proof (lookup_lt_Some _ _ _ Hp) as Hlt.
  assert (Hl : forall x, <[j:=x]> l !! j = Some x) by (intros x; by apply list_lookup_insert_eq).
  unfold held, s0. kcbn.
  eapply post_bind_Ok; [reflexivity|]. kcbn.
  eapply post_shared; [apply Hl|rewrite list_insert_insert_eq].
  apply post_bind, post_vm. intros tf v1. eapply post_private; [apply Hl|rewrite list_insert_insert_eq].
  destruct (tf =? 0).
  { eapply post_release; [apply Hl|reflexivity|]. rewrite list_insert_insert_eq. apply post_ret.
    eapply HQf; [done|done|by left]. }
  apply post_bind, post_vm. intros kpt v2. eapply post_private; [apply Hl|rewrite list_insert_insert_eq].
  assert (Hfail : forall v3 q, post (freeproc j;; release j;; mret None)
    (Kernel v3 (<[j:=Proc true (set_pid np (p_sh p)) q]> l) (s32 (np + 1)) ini fs c 1 sp) Q).
  { intros v3 q. apply post_bind. eapply freeproc_post; [apply Hl|]. intros v4 q'. rewrite list_insert_insert_eq.
    eapply post_release; [apply Hl|reflexivity|]. rewrite list_insert_insert_eq. apply post_ret.
    eapply HQf; [done|done|by right]. }
  destruct (kpt =? 0); [apply Hfail|].
  eapply post_proc_at; [apply Hl|]. apply post_bind, post_vm. intros _ v3.
  apply post_bind. unfold proc_pagetable. eapply post_proc_at; [apply Hl|]. apply post_vm. intros pt v4.
  eapply post_private; [apply Hl|rewrite list_insert_insert_eq].
  destruct (pt =? 0); [apply Hfail|].
  eapply post_private; [apply Hl|rewrite list_insert_insert_eq].
  apply post_ret. exact (HQs j p _ _ Hp Hst).
Qed.

(** ** Fork *)
Lemma dup_files_post lf np v n ini c m sp (Q : unit -> kernel A F -> Prop) : forall fd l p fs,
  l !! np = Some p ->
  (forall fs' q, Q tt (Kernel v (<[np := Proc (p_lock p) (p_sh p) q]> l) n ini fs' c m sp)) ->
  post (dup_files lf fd np) (Kernel v l n ini fs c m sp) Q.
Proof.
  induction lf as [|f lf IH]; intros fd l p fs Hp HQ; cbn [dup_files].
  { apply post_ret. specialize (HQ fs (p_pr p)). rewrite list_insert_id in HQ; [done|]. by destruct p. }
  destruct (f =? 0).
  { eapply post_bind_Ok; [reflexivity|]. by apply (IH _ l p). }
  apply post_bind. unfold files. eapply post_bind_Ok; [reflexivity|]. kcbn.
  eapply post_Ok; [unfold private; by apply upd_ok|]. kcbn.
  eapply IH; [apply list_lookup_insert_eq; by eapply lookup_lt_Some|]. intros fs' q.
  rewrite list_insert_insert_eq. apply HQ.
Qed.

(** A child as [fork] leaves it. *)
Definition child (me : nat) (pid : Z) (x : pshared) : pshared :=
  set_state RUNNABLE (set_parent (Some me) (set_pid pid x)).

(** [fork]: nothing, a slot that stays unused, or a new child. *)
Lemma fork_post v l np ini fs i p sp (Q : Z -> kernel A F -> Prop) :
  (forall j p, l !! j = Some p -> p_lock p = false) ->
  l !! i = Some p -> p_state (p_sh p) <> UNUSED ->
  Q (-1) (Kernel v l np ini fs (Some i) 0 sp) ->
  (forall j y v' x q, l !! j = Some y -> p_state (p_sh y) = UNUSED -> still_unused np (p_sh y) x ->
     Q (-1) (Kernel v' (<[j := Proc false x q]> l) (s32 (np + 1)) ini fs (Some i) 0 sp)) ->
  (forall j y v' q fs', l !! j = Some y -> p_state (p_sh y) = UNUSED ->
     Q np (Kernel v' (<[j := Proc false (child i np (p_sh y)) q]> l) (s32 (np + 1)) ini fs' (Some i) 0 sp)) ->
  post fork (Kernel v l np ini fs (Some i) 0 sp) Q.
Proof.
  intros Hu Hi Hlive HQ0 HQf HQs. unfold fork. eapply post_bind_Ok; [by apply myproc_ok|].
  apply post_bind. apply allocproc_post; [done|by apply post_ret|intros; apply post_ret; by eapply HQf|].
  intros j y v1 q Hj Hst. pose proof (lookup_lt_Some _ _ _ Hj) as Hlt.
  assert (Hij : i <> j) by (intros ->; congruence).
  assert (Hl : forall x, <[j:=x]> l !! j = Some x) by (intros x; by apply list_lookup_insert_eq).
  eapply post_proc_at; [rewrite list_lookup_insert_ne by done; exact Hi|].
  eapply post_proc_at; [apply Hl|].
  assert (Hfail : forall v3 q, post (freeproc j;; release j;; mret (-1))
    (Kernel v3 (<[j:=Proc true (set_pid np (p_sh y)) q]> l) (s32 (np + 1)) ini fs (Some i) 1 sp) Q).
  { intros v3 q'. apply post_bind. eapply freeproc_post; [apply Hl|]. intros v4 q2. rewrite list_insert_insert_eq.
    eapply post_release; [apply Hl|reflexivity|]. rewrite list_insert_insert_eq. apply post_ret.
    eapply HQf; [done|done|by right]. }
  apply post_bind, post_vm. intros r v2. destruct (r <? 0); [apply Hfail|].
  apply post_bind, post_vm. intros r' v3. destruct (r' <? 0); [apply Hfail|].
  eapply post_private; [apply Hl|rewrite list_insert_insert_eq].
  eapply post_shared; [apply Hl|rewrite list_insert_insert_eq].
  apply post_bind, post_vm. intros _ v4. apply post_bind, post_vm. intros _ v5.
  apply post_bind. eapply dup_files_post; [apply Hl|]. intros fs1 q1. rewrite list_insert_insert_eq.
  unfold files. eapply post_bind_Ok; [reflexivity|]. kcbn.
  eapply post_private; [apply Hl|rewrite list_insert_insert_eq].
  eapply post_private; [apply Hl|rewrite list_insert_insert_eq].
  eapply post_proc_at; [apply Hl|].
  eapply post_shared; [apply Hl|rewrite list_insert_insert_eq].
  eapply post_release; [apply Hl|reflexivity|rewrite list_insert_insert_eq].
  apply post_ret. exact (HQs j y _ _ _ Hj Hst).
Qed.

(** ** Growing *)
Lemma growproc_post k v l np ini fs i n sp p (Q : Z -> kernel A F -> Prop) :
  l !! i = Some p ->
  (forall r v' q, Q r (Kernel v' (<[i := Proc (p_lock p) (p_sh p) q]> l) np ini fs (Some i) n sp)) ->
  post (growproc k) (Kernel v l np ini fs (Some i) n sp) Q.
Proof.
  intros Hp HQ.
  assert (Hsame : forall r v', Q r (Kernel v' l np ini fs (Some i) n sp)).
  { intros r v'. specialize (HQ r v' (p_pr p)). rewrite list_insert_id in HQ; [done|]. by destruct p. }
  unfold growproc. eapply post_bind_Ok; [by apply myproc_ok|]. eapply post_proc_at; [exact Hp|].
  destruct (0 <? k); [|destruct (k <? 0)].
  - apply post_bind, post_vm. intros sz v1. destruct (u32 sz =? 0); [apply post_ret, Hsame|].
    apply post_bind, post_vm. intros r v2. destruct (negb (r =? 0)); [apply post_ret, Hsame|].
    eapply post_private; [exact Hp|]. apply post_ret, HQ.
  - apply post_bind, post_vm. intros sz v1. apply post_bind, post_vm. intros r v2.
    eapply post_private; [exact Hp|]. apply post_ret, HQ.
  - eapply post_private; [exact Hp|]. apply post_ret, HQ.
Qed.

(** ** Wait *)

(** The table of a process that waits, its own lock taken. *)
Definition waiting (l : list proc) (i : nat) (p : proc) : list proc := <[i := set_lock true p]> l.

Lemma unlock_waiting l i p : l !! i = Some p -> p_lock p = false ->
  <[i := set_lock false (set_lock true p)]> (waiting l i p) = l.
Proof.
  intros Hp Hl. unfold waiting. rewrite list_insert_insert_eq, list_insert_id; [done|].
  rewrite Hp. destruct p. cbn in *. by subst.
Qed.

(** Reaping the zombie child [j]: the process's own lock and the child's are
    released, and the child's slot is cleared unless its status could not be
    copied out. *)
Lemma wait_scan_post addr v np ini fs i p sp (Q : scan_result -> kernel A F -> Prop) l :
  (forall j p, l !! j = Some p -> p_lock p = false) ->
  l !! i = Some p -> p_parent (p_sh p) <> Some i ->
  (forall b, Q (ScanKids b) (Kernel v (waiting l i p) np ini fs (Some i) 1 sp)) ->
  (forall v', Q (ScanReturns (-1)) (Kernel v' l np ini fs (Some i) 0 sp)) ->
  (forall j y v' q, l !! j = Some y -> p_parent (p_sh y) = Some i -> p_state (p_sh y) = ZOMBIE ->
     Q (ScanReturns (p_pid (p_sh y))) (Kernel v' (<[j := Proc false freed q]> l) np ini fs (Some i) 0 sp)) ->
  forall ids hk, post (wait_scan ids i addr hk) (Kernel v (waiting l i p) np ini fs (Some i) 1 sp) Q.
Proof.
  intros Hu Hi Hpi HQk HQe HQr. pose proof (Hu _ _ Hi) as Hli. pose proof (lookup_lt_Some _ _ _ Hi) as Hlt.
  assert (Hwi : waiting l i p !! i = Some (set_lock true p)) by (by apply list_lookup_insert_eq).
  induction ids as [|j ids IH]; intros hk; cbn [wait_scan]; [apply post_ret, HQk|].
  apply post_bind. intros q s1 Hat. unfold proc_at in Hat. kcbn.
  destruct (waiting l i p !! j) as [q0|] eqn:Hq; [|done]. simplify_eq.
  destruct (decide (p_parent (p_sh q) = Some i)) as [Hpar|]; [|apply IH].
  assert (Hji : j <> i) by (intros ->; rewrite Hwi in Hq; simplify_eq; by apply Hpi).
  assert (Hj : l !! j = Some q) by (unfold waiting in Hq; by rewrite list_lookup_insert_ne in Hq).
  pose proof (Hu _ _ Hj) as Hlj. eapply post_bind_Ok; [by apply acquire_ok|]. kcbn.
  set (w := <[j:=set_lock true q]> (waiting l i p)).
  assert (Hwj : w !! j = Some (set_lock true q)).
  { apply list_lookup_insert_eq. unfold waiting. rewrite length_insert. by eapply lookup_lt_Some. }
  assert (Hwi' : w !! i = Some (set_lock true p)) by (unfold w; by rewrite list_lookup_insert_ne).
  eapply post_proc_at; [exact Hwj|]. cbn [p_sh set_lock].
  destruct (decide (p_state (p_sh q) = ZOMBIE)) as [Hz|].
  2: { eapply post_release; [exact Hwj|reflexivity|]. unfold w. rewrite list_insert_insert_eq.
       rewrite (list_insert_id (waiting l i p) j); [apply IH|]. rewrite Hq. destruct q. cbn in *. by subst. }
  assert (Hcomm : forall x y, <[i:=y]> (<[j:=x]> (waiting l i p)) = <[j:=x]> (<[i:=y]> l)).
  { intros x y. unfold waiting. rewrite list_insert_insert_ne by done. by rewrite list_insert_insert_eq. }
  assert (Hpp : set_lock false (set_lock true p) = p) by (destruct p; cbn in *; by subst).
  assert (Hend : forall x r v1, p_lock x = true ->
    Q r (Kernel v1 (<[j:=set_lock false x]> l) np ini fs (Some i) 0 sp) ->
    post (release j;; release i;; mret r) (Kernel v1 (<[j:=x]> (waiting l i p)) np ini fs (Some i) (1 + 1) sp) Q).
  { intros x r v1 Hx HQ. eapply post_release; [apply list_lookup_insert_eq; unfold waiting; rewrite length_insert;
      by eapply lookup_lt_Some|done|]. rewrite list_insert_insert_eq.
    eapply post_release; [rewrite list_lookup_insert_ne by done; exact Hwi|done|].
    rewrite Hcomm, Hpp, (list_insert_id l i) by done. apply post_ret, HQ. }
  eapply post_proc_at; [exact Hwi'|].
  assert (Hrest : forall v1 r, post
    (if negb (addr =? 0) && (r <? 0) then release j;; release i;; mret (ScanReturns (-1))
     else freeproc j;; release j;; release i;; mret (ScanReturns (p_pid (p_sh q))))
    (Kernel v1 w np ini fs (Some i) (1 + 1) sp) Q).
  { intros v1 r. destruct (negb (addr =? 0) && (r <? 0)).
    - apply Hend; [done|]. rewrite list_insert_id; [apply HQe|]. rewrite Hj. destruct q. cbn in *. by subst.
    - apply post_bind. eapply freeproc_post; [exact Hwj|]. intros v2 q'. unfold w. rewrite list_insert_insert_eq.
      apply Hend; [done|]. by apply HQr. }
  destruct (addr =? 0) eqn:Ea.
  - eapply post_bind_Ok; [reflexivity|]. apply (Hrest v 0).
  - apply post_bind, post_vm. intros r v1. apply (Hrest v1 r).
Qed.

(** One iteration of [wait]: it returns -1, returns the pid of a zombie child it
    reaped, or goes to sleep on itself. *)
Lemma wait_iter_post addr v l np ini fs i p sp (Q : option Z -> kernel A F -> Prop) :
  (forall j p, l !! j = Some p -> p_lock p = false) ->
  l !! i = Some p -> p_parent (p_sh p) <> Some i ->
  (forall v', Q (Some (-1)) (Kernel v' l np ini fs (Some i) 0 sp)) ->
  (forall j y v' q, l !! j = Some y -> p_parent (p_sh y) = Some i -> p_state (p_sh y) = ZOMBIE ->
     Q (Some (p_pid (p_sh y))) (Kernel v' (<[j := Proc false freed q]> l) np ini fs (Some i) 0 sp)) ->
  Q None (Kernel v (<[i := on_sh (asleep (ChProc i)) p]> l) np ini fs None 0 (kvminithart kernel_pagetable)) ->
  post (wait_iter addr) (Kernel v (waiting l i p) np ini fs (Some i) 1 sp) Q.
Proof.
  intros Hu Hi Hpi HQe HQr HQs. pose proof (lookup_lt_Some _ _ _ Hi) as Hlt.
  unfold wait_iter, table. eapply post_bind_Ok; [by apply myproc_ok|]. apply post_bind. eapply post_Ok; [reflexivity|].
  apply post_bind. apply wait_scan_post; try done; [|intros; by apply post_ret|intros; apply post_ret; by apply HQr].
  intros b. eapply post_proc_at; [by apply list_lookup_insert_eq|].
  destruct (negb b || _).
  - eapply post_release; [by apply list_lookup_insert_eq|done|]. rewrite unlock_waiting by eauto.
    apply post_ret, HQe.
  - eapply post_bind_Ok.
    2: { apply post_ret. exact HQs. }
    assert (Hq : quiet (Kernel v l np ini fs (Some i) 0 sp)) by (split; [exact Hu|reflexivity]).
    exact (sleep_own_exact _ i p (ChProc i) Hq eq_refl Hi).
Qed.
End ops.
End ProcPost.
