(* ===== verification/ProcInv.v ===== *)
(** * Processes: an invariant of the process table

    A step relation over system calls, wakeups and scheduling decisions, and what
    holds after any number of them: pids are unique, exactly the process on the
    CPU is [RUNNING], every process but init has a live parent with a smaller
    pid, and no lock is left behind. *)

From S2P Require Import Prelude.
From S2P Require Import Memory.
From S2P Require Import Riscv.
From S2P Require Import PageAlloc.
From S2P Require Import Vm.
From S2P Require Import ProcState.
From S2P Require Import Proc.
From S2P Require Import ProcThms.
From S2P Require Import ProcExit.
From S2P Require Import ProcPost.

Module ProcInv.
Import Proc ProcThms ProcExit ProcPost.

(** ** The tree of processes *)
Definition used (x : pshared) : Prop := p_state x <> UNUSED.
Definition alive (x : pshared) : Prop := used x /\ p_state x <> ZOMBIE.

Record tree_ok (l : list proc) (init : option nat) (next : Z) : Prop := {
  tr_pid j x : l !! j = Some x -> used (p_sh x) -> 0 < p_pid (p_sh x) < next;
  tr_unique j k x y : l !! j = Some x -> l !! k = Some y -> used (p_sh x) -> used (p_sh y) ->
    p_pid (p_sh x) = p_pid (p_sh y) -> j = k;
  tr_init : exists r x, init = Some r /\ l !! r = Some x /\ alive (p_sh x) /\ p_parent (p_sh x) = None /\
    forall j y, l !! j = Some y -> used (p_sh y) -> j <> r -> p_pid (p_sh x) < p_pid (p_sh y);
  tr_parent j x : l !! j = Some x -> used (p_sh x) -> init <> Some j ->
    exists k y, p_parent (p_sh x) = Some k /\ l !! k = Some y /\ alive (p_sh y) /\
      p_pid (p_sh y) < p_pid (p_sh x);
}.

(** Two versions of a slot that the tree does not tell apart. *)
Record sim (x y : pshared) : Prop := {
  sim_pid : p_pid y = p_pid x;
  sim_parent : p_parent y = p_parent x;
  sim_unused : p_state y = UNUSED <-> p_state x = UNUSED;
  sim_zombie : p_state y = ZOMBIE <-> p_state x = ZOMBIE;
}.

#[global] Instance sim_refl : Reflexive sim.
Proof. done. Qed.

Lemma sim_used x y : sim x y -> used y <-> used x.
Proof. intros [_ _ Hu _]. unfold used. tauto. Qed.
Lemma sim_alive x y : sim x y -> alive y <-> alive x.
Proof. intros [_ _ Hu Hz]. unfold alive, used. tauto. Qed.

Definition sim_table (l l' : list proc) : Prop := Forall2 (fun p q => sim (p_sh p) (p_sh q)) l l'.

Lemma sim_table_refl l : sim_table l l.
Proof. apply Forall_Forall2_diag, Forall_forall. by intros p _. Qed.

Lemma sim_table_insert l i p q :
  l !! i = Some p -> sim (p_sh p) (p_sh q) -> sim_table l (<[i := q]> l).
Proof.
  intros Hp Hs. rewrite <- (list_insert_id l i p Hp) at 1. apply Forall2_insert; [apply sim_table_refl|done].
Qed.

Lemma sim_table_map l f : (forall x, sim x (f x)) -> sim_table l (map (on_sh f) l).
Proof.
  intros Hf. apply Forall2_same_length_lookup_2; [by rewrite length_map|].
  intros i p q Hp Hq. rewrite list_lookup_fmap, Hp in Hq. cbn in Hq. simplify_eq. apply Hf.
Qed.

Lemma tree_sim l l' init next : sim_table l l' -> tree_ok l init next -> tree_ok l' init next.
Proof.
  intros Hs [Hpid Huniq (r & x & Hr & Hx & Hax & Hpx & Hmin) Hpar].
  assert (Hback : forall j y, l' !! j = Some y -> exists x, l !! j = Some x /\ sim (p_sh x) (p_sh y)).
  { intros j y Hy. destruct (Forall2_lookup_r _ _ _ _ _ Hs Hy) as (x0 & ? & ?). eauto. }
  assert (Hforth : forall j x, l !! j = Some x -> exists y, l' !! j = Some y /\ sim (p_sh x) (p_sh y)).
  { intros j x0 Hx0. destruct (Forall2_lookup_l _ _ _ _ _ Hs Hx0) as (y & ? & ?). eauto. }
  split.
  - intros j y (x0 & Hx0 & Hsim)%Hback Hu. rewrite (sim_pid _ _ Hsim). apply (Hpid j); [done|by apply (sim_used _ _ Hsim)].
  - intros j k y1 y2 (x1 & Hx1 & Hs1)%Hback (x2 & Hx2 & Hs2)%Hback Hu1 Hu2 Heq.
    rewrite (sim_pid _ _ Hs1), (sim_pid _ _ Hs2) in Heq.
    eapply (Huniq j k x1 x2); eauto; [by apply (sim_used _ _ Hs1)|by apply (sim_used _ _ Hs2)].
  - destruct (Hforth r x Hx) as (y & Hy & Hsy). exists r, y. split_and!; [done|done|by apply (sim_alive _ _ Hsy)|
      by rewrite (sim_parent _ _ Hsy)|].
    intros j z (x0 & Hx0 & Hsim)%Hback Hu Hj. rewrite (sim_pid _ _ Hsim), (sim_pid _ _ Hsy).
    apply (Hmin j); [done|by apply (sim_used _ _ Hsim)|done].
  - intros j y (x0 & Hx0 & Hsim)%Hback Hu Hj.
    destruct (Hpar j x0 Hx0) as (k & z & Hk & Hz & Haz & Hlt); [by apply (sim_used _ _ Hsim)|done|].
    destruct (Hforth k z Hz) as (z' & Hz' & Hsz). exists k, z'.
    rewrite (sim_parent _ _ Hsim), (sim_pid _ _ Hsim), (sim_pid _ _ Hsz).
    split_and!; [done|done|by apply (sim_alive _ _ Hsz)|done].
Qed.

(** Lookups in an updated table. *)
Lemma insert_cases (l : list proc) i q j y :
  <[i := q]> l !! j = Some y -> (j = i /\ y = q) \/ (j <> i /\ l !! j = Some y).
Proof. intros [(-> & -> & _)|[? ?]]%list_lookup_insert_Some; auto. Qed.

(** A slot that is not in use may change freely as long as it stays so. *)
Lemma tree_free l init next i p q :
  tree_ok l init next -> l !! i = Some p -> ~ used (p_sh p) -> ~ used (p_sh q) ->
  tree_ok (<[i := q]> l) init next.
Proof.
  intros [Hpid Huniq (r & x & Hr & Hx & Hax & Hpx & Hmin) Hpar] Hp Hnp Hnq.
  assert (Hri : r <> i) by (intros ->; destruct Hax; by simplify_eq).
  split.
  - intros j y [[-> ->]|[_ Hy]]%insert_cases Hu; [done|by apply (Hpid j)].
  - intros j k y1 y2 [[-> ->]|[_ Hy1]]%insert_cases [[-> ->]|[_ Hy2]]%insert_cases; try done. by apply Huniq.
  - exists r, x. rewrite list_lookup_insert_ne by done. split_and!; try done.
    intros j y [[-> ->]|[_ Hy]]%insert_cases Hu; [done|by apply (Hmin j)].
  - intros j y [[-> ->]|[_ Hy]]%insert_cases Hu Hj; [done|].
    destruct (Hpar j y Hy Hu Hj) as (k & z & Hk & Hz & Haz & Hlt). exists k, z.
    rewrite list_lookup_insert_ne; [done|]. intros ->. destruct Haz. by simplify_eq.
Qed.

(** Raising [nextpid] keeps the tree. *)
Lemma tree_next l init next : tree_ok l init next -> tree_ok l init (next + 1).
Proof. intros [Hpid ? ? ?]. split; try done. intros j x Hx Hu. specialize (Hpid j x Hx Hu). lia. Qed.

(** [fork]: an unused slot becomes a child of a live process. *)
Lemma tree_fork l init next me pm j y q :
  tree_ok l init next -> 0 < next -> l !! me = Some pm -> alive (p_sh pm) ->
  l !! j = Some y -> ~ used (p_sh y) ->
  tree_ok (<[j := Proc false (child me next (p_sh y)) q]> l) init (next + 1).
Proof.
  intros [Hpid Huniq (r & x & Hr & Hx & Hax & Hpx & Hmin) Hpar] Hnext Hme Ham Hj Hny.
  assert (Hrj : r <> j) by (intros ->; destruct Hax; by simplify_eq).
  assert (Hmj : me <> j) by (intros ->; destruct Ham; by simplify_eq).
  split.
  - intros k z [[-> ->]|[_ Hz]]%insert_cases Hu; [cbn; lia|]. specialize (Hpid k z Hz Hu). lia.
  - intros k1 k2 z1 z2 [[-> ->]|[_ Hz1]]%insert_cases [[-> ->]|[_ Hz2]]%insert_cases Hu1 Hu2 Heq; cbn in *; [done|..].
    + specialize (Hpid _ _ Hz2 Hu2). lia.
    + specialize (Hpid _ _ Hz1 Hu1). lia.
    + by apply (Huniq k1 k2 z1 z2).
  - exists r, x. rewrite list_lookup_insert_ne by done. split_and!; try done.
    intros k z [[-> ->]|[_ Hz]]%insert_cases Hu Hk; [|by apply (Hmin k)]. cbn.
    destruct Hax as [Hux _]. specialize (Hpid r x Hx Hux). lia.
  - intros k z [[-> ->]|[_ Hz]]%insert_cases Hu Hk; cbn.
    + exists me, pm. rewrite list_lookup_insert_ne by done. destruct Ham as [Hum Hzm].
      specialize (Hpid me pm Hme Hum). split_and!; [done|done|by split|lia].
    + destruct (Hpar k z Hz Hu Hk) as (k' & z' & Hk' & Hz' & Haz & Hlt). exists k', z'.
      rewrite list_lookup_insert_ne; [done|]. intros ->. destruct Haz. by simplify_eq.
Qed.

(** [wait]: a zombie, which nobody has as parent, becomes an unused slot. *)
Lemma tree_reap l init next j y q :
  tree_ok l init next -> l !! j = Some y -> p_state (p_sh y) = ZOMBIE -> ~ used (p_sh q) ->
  tree_ok (<[j := q]> l) init next.
Proof.
  intros [Hpid Huniq (r & x & Hr & Hx & Hax & Hpx & Hmin) Hpar] Hj Hz Hnq.
  assert (Hrj : r <> j) by (intros ->; destruct Hax; by simplify_eq).
  split.
  - intros k z [[-> ->]|[_ Hk]]%insert_cases Hu; [done|by apply (Hpid k)].
  - intros k1 k2 z1 z2 [[-> ->]|[_ Hz1]]%insert_cases [[-> ->]|[_ Hz2]]%insert_cases; try done. by apply Huniq.
  - exists r, x. rewrite list_lookup_insert_ne by done. split_and!; try done.
    intros k z [[-> ->]|[_ Hk]]%insert_cases Hu; [done|by apply (Hmin k)].
  - intros k z [[-> ->]|[_ Hk]]%insert_cases Hu Hne; [done|].
    destruct (Hpar k z Hk Hu Hne) as (k' & z' & Hk' & Hz' & Haz & Hlt). exists k', z'.
    rewrite list_lookup_insert_ne; [done|]. intros ->. destruct Haz. by simplify_eq.
Qed.

Lemma sim_woken c x : sim x (woken c x).
Proof.
  unfold woken. destruct (decide _) as [[Hs _]|]; [|done].
  by split; cbn; rewrite ?Hs.
Qed.

Lemma sim_state x st : p_state x <> UNUSED -> p_state x <> ZOMBIE -> st <> UNUSED -> st <> ZOMBIE ->
  sim x (set_state st x).
Proof. intros. by split; cbn. Qed.

Lemma sim_trans x y z : sim x y -> sim y z -> sim x z.
Proof. intros [? ? [] []] [? ? [] []]. split; [congruence|congruence|tauto|tauto]. Qed.

Lemma sim_chan x c : sim x (set_chan c x).
Proof. by split. Qed.

Lemma sim_killed x : sim x (killed_sh x).
Proof.
  unfold killed_sh. destruct (decide _) as [Hs|]; [|by split]. cbn in Hs. by split; cbn; rewrite ?Hs.
Qed.

(** What [exit] leaves of another slot: the same but for the parent. *)
Lemma exit_sh_facts i r pa j x :
  let y := exit_sh i r pa j x in
  p_pid y = p_pid x /\ (used y <-> used x) /\ (alive y <-> alive x) /\
  p_parent y = if decide (p_parent x = Some i) then Some r else p_parent x.
Proof.
  set (x1 := if decide (j = r) then woken (ChProc r) x else x).
  assert (H1 : sim x x1) by (unfold x1; case_decide; [apply sim_woken|done]).
  assert (H2 : let x2 := adopt i (Some r) x1 in p_pid x2 = p_pid x1 /\ p_state x2 = p_state x1 /\
    p_parent x2 = if decide (p_parent x1 = Some i) then Some r else p_parent x1).
  { unfold adopt. by case_decide. }
  set (x2 := adopt i (Some r) x1) in *. destruct H2 as (Hp2 & Hs2 & Hpar2).
  assert (H3 : sim x2 (exit_sh i r pa j x)).
  { unfold exit_sh. fold x1 x2. destruct (decide (j = pa)); [apply sim_woken|done]. }
  cbn zeta. rewrite (sim_pid _ _ H3), (sim_used _ _ H3), (sim_alive _ _ H3), (sim_parent _ _ H3), Hpar2, Hp2.
  unfold alive, used in *. rewrite Hs2. pose proof (sim_used _ _ H1). pose proof (sim_alive _ _ H1).
  unfold alive, used in *. rewrite (sim_pid _ _ H1), (sim_parent _ _ H1). tauto.
Qed.

Section events.
Context `{MemLayout} `{ProcLayout} {A : Type} `{!PageAllocator A} {F : Type} `{!FileOps F}.
Implicit Types s : kernel A F.

Lemma tree_exit s s' i pa r p status next :
  exited s s' i pa r p status -> k_initproc s = Some r -> r <> i -> k_procs s !! i = Some p ->
  used (p_sh p) -> tree_ok (k_procs s) (Some r) next -> tree_ok (k_procs s') (Some r) next.
Proof.
  intros Hex Hr Hri Hi Hup [Hpid Huniq (r' & x & Hr' & Hx & Hax & Hpx & Hmin) Hpar]. simplify_eq.
  destruct (ex_self _ _ _ _ _ _ _ Hex) as (q & Hself & _).
  assert (Hback : forall j y, k_procs s' !! j = Some y -> exists x0, k_procs s !! j = Some x0 /\
    p_pid (p_sh y) = p_pid (p_sh x0) /\ (used (p_sh y) <-> used (p_sh x0)) /\
    (j <> i -> (alive (p_sh y) <-> alive (p_sh x0))) /\
    (p_parent (p_sh y) = if decide (j <> i /\ p_parent (p_sh x0) = Some i) then Some r' else p_parent (p_sh x0))).
  { intros j y Hy. destruct (decide (j = i)) as [->|Hji].
    - rewrite Hself in Hy. simplify_eq. exists p. cbn. split_and!; [done|done|by unfold used; cbn|done|].
      rewrite decide_False by tauto. done.
    - destruct (lookup_lt_is_Some_2 (k_procs s) j) as [x0 Hx0].
      { rewrite <- (ex_length _ _ _ _ _ _ _ Hex). by eapply lookup_lt_Some. }
      pose proof (ex_others _ _ _ _ _ _ _ Hex j x0 Hji Hx0) as Hj. rewrite Hy in Hj. simplify_eq.
      exists x0. destruct (exit_sh_facts i r' pa j (p_sh x0)) as (E1 & E2 & E3 & E4). cbn.
      split_and!; [done|done|done|done|]. rewrite E4. repeat case_decide; tauto || done. }
  assert (Hforth : forall j x0, j <> i -> k_procs s !! j = Some x0 ->
    k_procs s' !! j = Some (on_sh (exit_sh i r' pa j) x0)) by (intros; by eapply ex_others).
  assert (Hrs' := Hforth r' x Hri Hx).
  destruct (exit_sh_facts i r' pa r' (p_sh x)) as (Epid & _ & Ealive & Epar).
  split.
  - intros j y (x0 & Hx0 & E1 & E2 & _)%Hback Hu. rewrite E1. apply (Hpid j x0 Hx0). tauto.
  - intros j k y1 y2 (x1 & Hx1 & E1 & F1 & _)%Hback (x2 & Hx2 & E2 & F2 & _)%Hback Hu1 Hu2 Heq.
    eapply (Huniq j k x1 x2); eauto; [tauto|tauto|congruence].
  - exists r', (on_sh (exit_sh i r' pa r') x). cbn. split_and!; [done|done|tauto| |].
    + rewrite Epar, decide_False; congruence.
    + intros j y (x0 & Hx0 & E1 & E2 & _)%Hback Hu Hj. rewrite Epid, E1. apply (Hmin j x0 Hx0); tauto.
  - intros j y Hy Hu Hj. destruct (Hback j y Hy) as (x0 & Hx0 & E1 & E2 & _ & E4).
    destruct (Hpar j x0 Hx0 ltac:(tauto) Hj) as (k & z & Hk & Hz & Haz & Hlt).
    rewrite E4, E1. destruct (decide (j <> i /\ p_parent (p_sh x0) = Some i)) as [[Hji Hpi]|Hn].
    + exists r', (on_sh (exit_sh i r' pa r') x). cbn. rewrite Epid. split_and!; [done|done|tauto|].
      apply (Hmin j x0 Hx0); [tauto|congruence].
    + assert (Hki : k <> i).
      { intros ->. destruct (decide (j = i)) as [->|]; [|tauto]. simplify_eq. lia. }
      exists k, (on_sh (exit_sh i r' pa k) z). destruct (exit_sh_facts i r' pa k (p_sh z)) as (G1 & _ & G3 & _).
      cbn. rewrite G1. split_and!; [done|by apply Hforth|tauto|done].
Qed.
End events.
End ProcInv.
