(* ===== verification/ProcSys.v ===== *)
(** * Processes: every sequence of operations

    The events of a one-CPU kernel as computations, the runs they make up, and
    the theorems that hold of every reachable process table. *)

From S2P Require Import Prelude.
From S2P Require Import Memory.
From S2P Require Import Riscv.
From S2P Require Import PageAlloc.
From S2P Require Import Vm.
From S2P Require Import ProcState.
From S2P Require Import Proc.
From S2P Require Import ProcThms.
From S2P Require Import ProcExit.
From S2P Require Import ProcPost.
From S2P Require Import ProcInv.

Module ProcSys.
Import Proc ProcThms ProcExit ProcPost ProcInv.

(** What the process on the CPU does, what an interrupt does, and what the
    scheduler does next with process [i] while the CPU is free: the process goes
    on after [yield] or in [forkret], after [sleep] with another lock, or inside
    [wait]. *)
Inductive event : Type :=
| EFork
| EExit (status : Z)
| EWait (addr : Z)
| EGrow (n : Z)
| EYield
| ESleep (c : chan)
| EKill (pid : Z)
| EWakeup (c : chan)
| ERun (i : nat)
| ERunSleep (i : nat)
| ERunWait (i : nat) (addr : Z).

Section sys.
Context `{MemLayout} `{ProcLayout} {A : Type} `{!PageAllocator A} {F : Type} `{!FileOps F}.
Implicit Types s : kernel A F.

(** The scheduler's step with process [i] and what the process does first. *)
Definition run_proc (i : nat) (resume : M (kernel A F) unit) : M (kernel A F) unit :=
  c ← gets k_cur;
  match c with
  | Some _ => fail (Blocked "cpu")
  | None => b ← dispatch i; if (b : bool) then resume else mret tt
  end.

(** [ESleep] takes the other lock first, and [ERunSleep] releases it. *)
Definition sys (e : event) : M (kernel A F) unit :=
  match e with
  | EFork => _ ← fork; mret tt
  | EExit status => exit status
  | EWait addr => _ ← wait addr; mret tt
  | EGrow n => _ ← growproc n; mret tt
  | EYield => yield
  | ESleep c => modify (fun s => set_noff (k_noff s + 1) s);; sleep c false
  | EKill pid => _ ← kill pid; mret tt
  | EWakeup c => wakeup c
  | ERun i => run_proc i yield_resume
  | ERunSleep i => run_proc i (sleep_resume false;; modify (fun s => set_noff (k_noff s - 1) s))
  | ERunWait i addr => run_proc i (_ ← wait_resume addr; mret tt)
  end.

Inductive runs : kernel A F -> list event -> kernel A F -> Prop :=
| runs_nil s : runs s [] s
| runs_snoc s es s1 e s2 : runs s es s1 -> sys e s1 = Ok (tt, s2) -> runs s (es ++ [e]) s2.

(** The invariant between events. *)
Record inv s : Prop := {
  i_quiet : quiet s;
  i_run i p : k_procs s !! i = Some p -> p_state (p_sh p) = RUNNING <-> k_cur s = Some i;
  i_cur i : k_cur s = Some i -> is_Some (k_procs s !! i);
  i_tree : tree_ok (k_procs s) (k_initproc s) (k_nextpid s);
}.

(** The running process: in the table, alive, not its own parent. *)
Lemma inv_current s i : inv s -> k_cur s = Some i ->
  exists p, k_procs s !! i = Some p /\ p_state (p_sh p) = RUNNING /\ alive (p_sh p) /\
    p_parent (p_sh p) <> Some i.
Proof.
  intros [_ Hrun Hcur [Hpid Huniq (r & x & Hr & Hx & Hax & Hpx & Hmin) Hpar]] Hc.
  destruct (Hcur i Hc) as [p Hp]. assert (Hst : p_state (p_sh p) = RUNNING) by (by apply (Hrun i)).
  exists p. assert (Hal : alive (p_sh p)) by (by split; unfold used; rewrite Hst). split_and!; [done..|].
  intros Hpi. destruct (decide (i = r)) as [->|Hir]; [simplify_eq; congruence|].
  destruct (Hpar i p Hp (proj1 Hal) ltac:(congruence)) as (k & y & Hk & Hy & _ & Hlt). simplify_eq. lia.
Qed.

(** A table that looks the same to the tree, with the right process running. *)
Lemma inv_sim s s' :
  inv s -> sim_table (k_procs s) (k_procs s') -> k_initproc s' = k_initproc s ->
  k_nextpid s' = k_nextpid s -> quiet s' ->
  (forall i p, k_procs s' !! i = Some p -> p_state (p_sh p) = RUNNING <-> k_cur s' = Some i) ->
  (forall i, k_cur s' = Some i -> is_Some (k_procs s' !! i)) -> inv s'.
Proof.
  intros [_ _ _ Ht] Hs Hi Hn Hq Hr Hc. split; [done..|]. rewrite Hi, Hn. by eapply tree_sim.
Qed.

Lemma quiet_insert s i q (v : kstate A) np ini (fs : F) c sp :
  quiet s -> p_lock q = false ->
  quiet (Kernel v (<[i := q]> (k_procs s)) np ini fs c 0 sp).
Proof.
  intros [Hu _] Hq. split; [|done]. intros j y Hy. cbn in Hy.
  apply insert_cases in Hy as [[_ ->]|[_ Hy]]; [done|by eapply Hu].
Qed.

(** The running process leaves the CPU. *)
Lemma inv_leave s i p st f :
  inv s -> k_cur s = Some i -> k_procs s !! i = Some p -> sim (p_sh p) (f (p_sh p)) ->
  p_state (f (p_sh p)) = st -> st <> RUNNING ->
  inv (to_scheduler (set_procs (<[i := on_sh f p]> (k_procs s)) s)).
Proof.
  intros Hinv Hc Hp Hs Hst Hn. pose proof Hinv as [Hq Hrun Hcur _]. pose proof (q_noff _ Hq) as Hn0.
  destruct s as [v l np ini fs c n sp]. unfold to_scheduler, set_procs. cbn in *. subst c n.
  eapply inv_sim; cbn; [exact Hinv|by eapply sim_table_insert|done|done| | |done].
  - apply (quiet_insert _ i _ v np ini fs None _ Hq). cbn. by eapply (q_unlocked _ Hq).
  - intros j y [[-> ->]|[Hj Hy]]%insert_cases; cbn; [split; congruence|].
    split; [|done]. intros Hr. apply (Hrun j y Hy) in Hr. congruence.
Qed.

(** Slots change without anybody entering or leaving the CPU. *)
Lemma inv_stay s l' (v : kstate A) (fs : F) sp :
  inv s -> sim_table (k_procs s) l' ->
  (forall i p, l' !! i = Some p -> p_lock p = false) ->
  (forall i p q, k_procs s !! i = Some p -> l' !! i = Some q ->
     p_state (p_sh q) = RUNNING <-> p_state (p_sh p) = RUNNING) ->
  inv (Kernel v l' (k_nextpid s) (k_initproc s) fs (k_cur s) 0 sp).
Proof.
  intros Hinv Hs Hl Hst. pose proof Hinv as [Hq Hrun Hcur _].
  eapply inv_sim; cbn; [exact Hinv|done|done|done|by split| |].
  - intros i q Hq'. destruct (Forall2_lookup_r _ _ _ _ _ Hs Hq') as (p & Hp & _).
    rewrite (Hst i p q Hp Hq'). by apply Hrun.
  - intros i Hc. destruct (Hcur i Hc) as [p Hp]. destruct (Forall2_lookup_l _ _ _ _ _ Hs Hp) as (q & Hq' & _). eauto.
Qed.

(** ** One event *)

(** The invariant after an event that used up to one pid. *)
Definition next_inv (n : Z) s' : Prop := inv s' /\ n <= k_nextpid s' <= n + 1.

Lemma run_of_unused s j y : inv s -> k_procs s !! j = Some y -> p_state (p_sh y) = UNUSED -> k_cur s <> Some j.
Proof. intros Hinv Hy Hu Hc. apply (i_run _ Hinv j y Hy) in Hc. congruence. Qed.

(** A slot that is not running is replaced by one that is not running. *)
Lemma inv_slot s j y q v fs np sp :
  inv s -> k_procs s !! j = Some y -> k_cur s <> Some j -> p_lock q = false ->
  p_state (p_sh q) <> RUNNING -> tree_ok (<[j := q]> (k_procs s)) (k_initproc s) np ->
  inv (Kernel v (<[j := q]> (k_procs s)) np (k_initproc s) fs (k_cur s) 0 sp).
Proof.
  intros [Hq Hrun Hcur _] Hy Hc Hl Hst Ht. split; cbn; [|..|done].
  - apply (quiet_insert s j q v np (k_initproc s) fs (k_cur s) sp Hq Hl).
  - intros k x [[-> ->]|[Hk Hx]]%insert_cases; [split; congruence|by apply Hrun].
  - intros k Hk. destruct (decide (k = j)) as [->|Hn]; [congruence|].
    rewrite list_lookup_insert_ne by done. by apply Hcur.
Qed.

Lemma s32_next n : 0 < n < 2 ^ 31 - 1 -> s32 (n + 1) = n + 1.
Proof. intros Hn. apply s32_small. lia. Qed.

Lemma fork_inv s i : inv s -> k_cur s = Some i -> 0 < k_nextpid s < 2 ^ 31 - 1 ->
  post fork s (fun _ => next_inv (k_nextpid s)).
Proof.
  intros Hinv Hc Hn. destruct (inv_current s i Hinv Hc) as (p & Hp & Hst & Hal & _).
  pose proof Hinv as [Hq Hrun Hcur Ht]. pose proof (q_noff _ Hq) as Hn0.
  destruct s as [v l np ini fs c n sp]. cbn in *. subst c n. pose proof (q_unlocked _ Hq) as Hu.
  apply (fork_post _ _ _ _ _ _ p); [exact Hu|done|apply Hal|..].
  - split; [done|cbn; lia].
  - intros j y v' x q Hj Hy Hx. assert (Hnx : ~ used x) by (unfold used; destruct Hx as [->| ->]; [cbn; tauto|tauto]).
    split; [|cbn; rewrite s32_next; lia]. rewrite s32_next by lia.
    apply (inv_slot _ j y (Proc false x q) v' fs (np + 1) sp Hinv Hj); [by eapply run_of_unused|done| |].
    + intros Hr. apply Hnx. unfold used. cbn in Hr. congruence.
    + eapply tree_free; [by apply tree_next|exact Hj|unfold used; tauto|done].
  - intros j y v' q fs' Hj Hy. split; [|cbn; rewrite s32_next; lia]. rewrite s32_next by lia.
    apply (inv_slot _ j y (Proc false (child i np (p_sh y)) q) v' fs' (np + 1) sp Hinv Hj);
      [by eapply run_of_unused|done|done|].
    eapply tree_fork; eauto; first [lia | unfold used; tauto].
Qed.

(** A process other than init may exit. *)
Lemma inv_can_exit s i : inv s -> k_cur s = Some i -> k_initproc s <> Some i ->
  exists pa r p, can_exit s i pa r p.
Proof.
  intros Hinv Hc Hi. destruct (inv_current s i Hinv Hc) as (p & Hp & Hst & Hal & Hself).
  pose proof Hinv as [Hq _ _ [Hpid Huniq (r & x & Hr & Hx & Hax & Hpx & Hmin) Hpar]].
  destruct (Hpar i p Hp (proj1 Hal) Hi) as (pa & y & Hpa & Hy & Hay & Hlt).
  exists pa, r, p. assert (Hri : r <> i) by congruence.
  assert (Hpai : pa <> i) by (intros ->; congruence).
  assert (Hpay : p_parent (p_sh y) <> Some i).
  { intros Hyi. destruct (decide (pa = r)) as [->|Hpr]; [simplify_eq; congruence|].
    destruct (Hpar pa y Hy (proj1 Hay) ltac:(congruence)) as (k & z & Hk & Hz & _ & Hlt'). simplify_eq. lia. }
  split; [done|done|done|by split_and!|done|]. split; [done|]. by exists y.
Qed.

Lemma exit_inv s i status : inv s -> k_cur s = Some i ->
  post (exit status) s (fun _ => next_inv (k_nextpid s)).
Proof.
  intros Hinv Hc. pose proof Hinv as [Hq Hrun Hcur Ht].
  destruct (decide (k_initproc s = Some i)) as [Hi|Hi].
  { intros u s' He. unfold exit in He.
    erewrite bind_step in He by (by apply myproc_ok). rewrite bind_gets, decide_True in He; done. }
  destruct (inv_can_exit s i Hinv Hc Hi) as (pa & r & p & Hce).
  destruct (exit_exact s i pa r p status Hce) as (s' & He & Hex).
  destruct Hce as [_ _ Hp (Hr & Hri & _) _ _].
  destruct (inv_current s i Hinv Hc) as (p' & Hp' & _ & Hal & _). simplify_eq.
  intros u s'' He'. rewrite He in He'. simplify_eq.
  split; [|rewrite (ex_nextpid _ _ _ _ _ _ _ Hex); lia]. split.
  - apply (ex_quiet _ _ _ _ _ _ _ Hex).
  - intros j z Hz. rewrite (ex_cur _ _ _ _ _ _ _ Hex). split; [|done]. intros Hr'. exfalso.
    destruct (decide (j = i)) as [->|Hji].
    + destruct (ex_self _ _ _ _ _ _ _ Hex) as (q & Hq' & _). rewrite Hq' in Hz. by simplify_eq.
    + destruct (lookup_lt_is_Some_2 (k_procs s) j) as [z0 Hz0].
      { rewrite <- (ex_length _ _ _ _ _ _ _ Hex). by eapply lookup_lt_Some. }
      rewrite (ex_others _ _ _ _ _ _ _ Hex j z0 Hji Hz0) in Hz. simplify_eq.
      assert (Hz1 : p_state (p_sh z0) = RUNNING).
      { cbn in Hr'. unfold exit_sh, adopt, woken in Hr'. repeat case_decide; cbn in *; congruence. }
      apply (Hrun j z0 Hz0) in Hz1. congruence.
  - intros j. by rewrite (ex_cur _ _ _ _ _ _ _ Hex).
  - rewrite (ex_init _ _ _ _ _ _ _ Hex), (ex_nextpid _ _ _ _ _ _ _ Hex), Hr.
    eapply tree_exit; eauto; [apply Hal|by rewrite <- Hr].
Qed.

(** A process that scans for zombies with its own lock taken. *)
Lemma wait_iter_inv v l np ini fs i p sp addr :
  inv (Kernel v l np ini fs (Some i) 0 sp) -> l !! i = Some p ->
  post (wait_iter addr) (Kernel v (waiting l i p) np ini fs (Some i) 1 sp) (fun _ => next_inv np).
Proof.
  intros Hinv Hp. destruct (inv_current _ i Hinv eq_refl) as (p' & Hp' & Hst & Hal & Hself). cbn in Hp'.
  simplify_eq. pose proof Hinv as [Hq Hrun Hcur Ht]. cbn in *. pose proof (q_unlocked _ Hq) as Hu.
  apply wait_iter_post; [exact Hu|done|done|..].
  - intros v'. split; [|cbn; lia]. split; [by split|done|done|done].
  - intros j y v' q Hj Hpar Hz. split; [|cbn; lia].
    apply (inv_slot _ j y (Proc false freed q) v' fs np sp Hinv Hj); cbn.
    + intros [= ->]. congruence.
    + done.
    + done.
    + eapply tree_reap; eauto.
  - split; [|cbn; lia].
    pose proof (inv_leave (Kernel v l np ini fs (Some i) 0 sp) i p SLEEPING (asleep (ChProc i)) Hinv eq_refl Hp) as Hl.
    apply Hl; [|done|done]. eapply sim_trans; [apply (sim_chan _ (Some (ChProc i)))|]. apply sim_state; cbn; congruence.
Qed.

Lemma inv_running v l np ini fs n sp sp' i p f :
  inv (Kernel v l np ini fs None n sp) -> l !! i = Some p -> p_state (p_sh p) = RUNNABLE ->
  (forall x, p_state x = RUNNABLE -> sim x (f x) /\ p_state (f x) = RUNNING) ->
  inv (Kernel v (<[i := Proc false (f (p_sh p)) (p_pr p)]> l) np ini fs (Some i) 0 sp').
Proof.
  intros Hinv Hp Hst Hf. destruct (Hf _ Hst) as [Hsim Hrun']. pose proof Hinv as [Hq Hrun Hcur Ht]. cbn in *.
  eapply inv_sim; cbn; [exact Hinv| |done|done| | |].
  - cbn. by eapply sim_table_insert.
  - apply (quiet_insert _ i _ v np ini fs (Some i) sp' Hq). done.
  - intros j y [[-> ->]|[Hj Hy]]%insert_cases; cbn; [by rewrite Hrun'|].
    rewrite (Hrun j y Hy). split; [done|congruence].
  - intros j [= <-]. eexists. apply list_lookup_insert_eq. by eapply lookup_lt_Some.
Qed.

(** The scheduler's step: a process that cannot run is left alone, any other one
    goes on with its lock held. *)
Lemma run_proc_post s i resume (Q : kernel A F -> Prop) :
  inv s -> Q s ->
  (forall p sp, let l := k_procs s in k_cur s = None -> l !! i = Some p -> p_state (p_sh p) = RUNNABLE -> p_lock p = false ->
     inv (Kernel (k_vm s) (<[i := on_sh (set_state RUNNING) p]> l) (k_nextpid s) (k_initproc s) (k_files s) (Some i) 0 sp) ->
     post resume (Kernel (k_vm s) (<[i := set_lock true (on_sh (set_state RUNNING) p)]> l) (k_nextpid s) (k_initproc s)
       (k_files s) (Some i) 1 sp) (fun _ => Q)) ->
  post (run_proc i resume) s (fun _ => Q).
Proof.
  intros Hinv HQ Hres. pose proof Hinv as [Hq Hrun Hcur Ht]. pose proof (q_noff _ Hq) as Hn0.
  unfold run_proc. eapply post_bind_Ok; [reflexivity|].
  destruct (k_cur s) as [j|] eqn:Hc; [apply post_fail|].
  destruct (k_procs s !! i) as [p|] eqn:Hp.
  2: { intros u s' Hr. unfold dispatch in Hr. rewrite bind_assoc in Hr.
       assert (Hf : acquire i s = Fail (Undefined "proc")) by (unfold acquire; apply bind_Fail; unfold proc_at; by rewrite Hp).
       by rewrite (bind_Fail _ _ _ _ Hf) in Hr. }
  pose proof (dispatch_exact s i p Hq Hp) as Hd. destruct (decide (p_state (p_sh p) = RUNNABLE)) as [Hst|].
  - eapply post_bind_Ok; [exact Hd|]. destruct s as [v l np ini fs c n sp]. unfold held, on_cpu. kcbn. subst c n.
    pose proof (q_unlocked _ Hq i p Hp) as Hlk. apply Hres; [done..|].
    pose proof (inv_running v l np ini fs 0 sp (kvminithart_proc (p_k_pagetable (p_pr p))) i p (set_state RUNNING)
      Hinv Hp Hst) as Hi.
    unfold on_sh. rewrite Hlk. apply Hi. intros x Hx. split; [|done].
    apply sim_state; congruence.
  - eapply post_bind_Ok; [exact Hd|]. by apply post_ret.
Qed.

Lemma run_proc_inv s i resume :
  inv s ->
  (forall v l np ini fs sp p, inv (Kernel v (<[i := on_sh (set_state RUNNING) p]> l) np ini fs (Some i) 0 sp) ->
     l !! i = Some p -> p_lock p = false ->
     post resume (Kernel v (<[i := set_lock true (on_sh (set_state RUNNING) p)]> l) np ini fs (Some i) 1 sp)
       (fun _ => next_inv np)) ->
  post (run_proc i resume) s (fun _ => next_inv (k_nextpid s)).
Proof.
  intros Hinv Hres. apply run_proc_post; [done|split; [done|lia]|]. intros p sp l Hc Hp _ Hl Hi. by apply Hres.
Qed.

Lemma post_drop {B} (m : M (kernel A F) B) s (Q : kernel A F -> Prop) :
  post m s (fun _ => Q) -> post (_ ← m; mret tt) s (fun _ => Q).
Proof. intros Hm. apply post_bind. intros b s' Hr. apply post_ret. by apply (Hm b). Qed.

(** An operation of the running process: without one it does not return. *)
Lemma post_myproc {B} (f : nat -> M (kernel A F) B) s (Q : B -> kernel A F -> Prop) :
  (forall i, k_cur s = Some i -> post (f i) s Q) -> post (myproc ≫= f) s Q.
Proof.
  intros HQ. apply post_bind. intros i s' Hm. unfold myproc in Hm. rewrite bind_gets in Hm.
  destruct (k_cur s) as [j|]; [|done]. unfold mret, M_ret in Hm. simplify_eq. by apply HQ.
Qed.

Lemma post_self {B} (m : M (kernel A F) B) s (Q : B -> kernel A F -> Prop) :
  (forall s', k_cur s' = None -> exists e, m s' = Fail e) ->
  (forall i, k_cur s = Some i -> post m s Q) -> post m s Q.
Proof.
  intros Hnone Hsome. destruct (k_cur s) as [i|] eqn:Hc; [by apply (Hsome i)|].
  intros b s' Hr. destruct (Hnone s Hc) as [e He]. congruence.
Qed.

Lemma no_cpu {B} (f : nat -> M (kernel A F) B) s :
  k_cur s = None -> exists e, (myproc ≫= f) s = Fail e.
Proof. intros Hc. eexists. apply bind_Fail. unfold myproc. by rewrite bind_gets, Hc. Qed.

Lemma yield_inv s i : inv s -> k_cur s = Some i -> post yield s (fun _ => next_inv (k_nextpid s)).
Proof.
  intros Hinv Hc. destruct (inv_current s i Hinv Hc) as (p & Hp & Hst & Hal & _).
  eapply post_Ok; [apply (yield_exact s i p); [apply Hinv|done|done]|]. split; [|cbn; lia].
  apply (inv_leave s i p RUNNABLE); [done|done|done|apply sim_state; congruence|done|done].
Qed.

Lemma sleep_inv s i c : inv s -> k_cur s = Some i ->
  post (sleep c false) (set_noff 1 s) (fun _ => next_inv (k_nextpid s)).
Proof.
  intros Hinv Hc. destruct (inv_current s i Hinv Hc) as (p & Hp & Hst & Hal & _).
  eapply post_Ok; [apply (sleep_exact s i p c); [apply Hinv|done|done]|]. split; [|cbn; lia].
  apply (inv_leave s i p SLEEPING); [done|done|done| |done|done].
  eapply sim_trans; [apply (sim_chan _ (Some c))|]. apply sim_state; cbn; congruence.
Qed.

Lemma wakeup_inv s c : inv s -> post (wakeup c) s (fun _ => next_inv (k_nextpid s)).
Proof.
  intros Hinv. pose proof Hinv as [Hq _ _ _]. pose proof (q_noff _ Hq) as Hn0.
  eapply post_Ok; [apply wakeup_exact, Hq|]. split; [|cbn; lia].
  destruct s as [v l np ini fs cu n sp]. unfold set_procs. cbn in *. subst n.
  apply (inv_stay (Kernel v l np ini fs cu 0 sp) _ v fs sp Hinv); cbn.
  - apply sim_table_map. intros x. apply sim_woken.
  - intros i p Hp. rewrite list_lookup_fmap in Hp. destruct (l !! i) as [y|] eqn:Hy; [|done].
    cbn in Hp. simplify_eq. exact (q_unlocked _ Hq i y Hy).
  - intros i p q Hp Hq'. rewrite list_lookup_fmap, Hp in Hq'. cbn in Hq'. simplify_eq. cbn. unfold woken.
    case_decide as Hd; [cbn|done]. destruct Hd as [Hd _]. rewrite Hd. done.
Qed.

Lemma kill_inv s pid : inv s -> post (kill pid) s (fun _ => next_inv (k_nextpid s)).
Proof.
  intros Hinv. pose proof Hinv as [Hq _ _ _]. pose proof (q_noff _ Hq) as Hn0.
  pose proof (kill_exact s pid (q_unlocked _ Hq)) as Hk. unfold slot_of in Hk.
  destruct (list_find _ (k_procs s)) as [[i p]|] eqn:Hf.
  2: { eapply post_Ok; [exact Hk|]. split; [done|lia]. }
  apply list_find_Some in Hf as (Hp & _ & _). eapply post_Ok; [exact Hk|]. split; [|cbn; lia].
  destruct s as [v l np ini fs cu n sp]. unfold set_procs. cbn in *. subst n.
  apply (inv_stay (Kernel v l np ini fs cu 0 sp) _ v fs sp Hinv); cbn.
  - eapply sim_table_insert; [done|]. apply sim_killed.
  - intros j y [[-> ->]|[_ Hy]]%insert_cases; [exact (q_unlocked _ Hq i p Hp)|exact (q_unlocked _ Hq j y Hy)].
  - intros j y z Hy [[-> ->]|[_ Hz]]%insert_cases; [|by simplify_eq]. simplify_eq. cbn. unfold killed_sh.
    case_decide as Hd; [cbn in *|done]. rewrite Hd. done.
Qed.

Lemma grow_inv s i n : inv s -> k_cur s = Some i -> post (growproc n) s (fun _ => next_inv (k_nextpid s)).
Proof.
  intros Hinv Hc. destruct (inv_current s i Hinv Hc) as (p & Hp & _).
  pose proof Hinv as [Hq _ _ _]. pose proof (q_noff _ Hq) as Hn0.
  destruct s as [v l np ini fs cu m sp]. cbn in *. subst cu m. pose proof (q_unlocked _ Hq i p Hp) as Hlk.
  eapply growproc_post; [exact Hp|]. intros _ v' q. split; [|cbn; lia].
  apply (inv_stay (Kernel v l np ini fs (Some i) 0 sp) _ v' fs sp Hinv); cbn.
  - by eapply sim_table_insert.
  - intros j y [[-> ->]|[_ Hy]]%insert_cases; [done|exact (q_unlocked _ Hq j y Hy)].
  - intros j y z Hy [[-> ->]|[_ Hz]]%insert_cases; by simplify_eq.
Qed.

(** The continuations of a process the scheduler switched to. *)
Lemma resume_release v l np ini fs sp i p :
  inv (Kernel v (<[i := on_sh (set_state RUNNING) p]> l) np ini fs (Some i) 0 sp) ->
  l !! i = Some p -> p_lock p = false ->
  post yield_resume (Kernel v (<[i := set_lock true (on_sh (set_state RUNNING) p)]> l) np ini fs (Some i) 1 sp)
    (fun _ => next_inv np).
Proof.
  intros Hinv Hp Hl. unfold yield_resume. eapply post_bind_Ok; [by apply myproc_ok|].
  eapply post_Ok; [apply (release_held (Kernel v l np ini fs (Some i) 0 sp) l i _ p Hp)|].
  rewrite unlock_on_sh by done. split; [exact Hinv|cbn; lia].
Qed.

(** A process that clears its channel and goes on. *)
Lemma inv_clear_chan v l np ini fs sp i p :
  inv (Kernel v (<[i := on_sh (set_state RUNNING) p]> l) np ini fs (Some i) 0 sp) ->
  l !! i = Some p -> p_lock p = false ->
  inv (Kernel v (<[i := on_sh (fun x => set_chan None (set_state RUNNING x)) p]> l) np ini fs (Some i) 0 sp).
Proof.
  intros Hinv Hp Hl. pose proof (lookup_lt_Some _ _ _ Hp) as Hlt. pose proof Hinv as [Hq _ _ _].
  pose proof (inv_stay _ (<[i := on_sh (fun x => set_chan None (set_state RUNNING x)) p]> l) v fs sp Hinv) as Hs.
  cbn in Hs. apply Hs.
  - rewrite <- (list_insert_insert_eq l i (on_sh (fun x => set_chan None (set_state RUNNING x)) p)
                  (on_sh (set_state RUNNING) p)).
    eapply sim_table_insert; [by apply list_lookup_insert_eq|]. cbn. apply (sim_chan (set_state RUNNING (p_sh p)) None).
  - intros j y [[-> ->]|[Hj Hy]]%insert_cases; [done|]. apply (q_unlocked _ Hq j y). cbn. by rewrite list_lookup_insert_ne.
  - intros j y z Hy [[-> ->]|[Hj Hz]]%insert_cases; [|rewrite list_lookup_insert_ne in Hy by done; by simplify_eq].
    rewrite list_lookup_insert_eq in Hy by done. by simplify_eq.
Qed.

Lemma resume_sleep v l np ini fs sp i p :
  inv (Kernel v (<[i := on_sh (set_state RUNNING) p]> l) np ini fs (Some i) 0 sp) ->
  l !! i = Some p -> p_lock p = false ->
  post (sleep_resume false;; modify (fun s => set_noff (k_noff s - 1) s))
    (Kernel v (<[i := set_lock true (on_sh (set_state RUNNING) p)]> l) np ini fs (Some i) 1 sp)
    (fun _ => next_inv np).
Proof.
  intros Hinv Hp Hl. pose proof (lookup_lt_Some _ _ _ Hp) as Hlt. apply post_bind. unfold sleep_resume.
  eapply post_bind_Ok; [by apply myproc_ok|].
  eapply post_shared; [by apply list_lookup_insert_eq|rewrite list_insert_insert_eq].
  eapply post_release; [by apply list_lookup_insert_eq|done|rewrite list_insert_insert_eq].
  eapply post_Ok; [reflexivity|]. eapply post_Ok; [reflexivity|]. kcbn. split; [|cbn; lia].
  pose proof (inv_clear_chan _ _ _ _ _ _ _ _ Hinv Hp Hl) as Hc. destruct p as [lk x q]. cbn in *. subst lk. exact Hc.
Qed.

Lemma resume_wait addr v l np ini fs sp i p :
  inv (Kernel v (<[i := on_sh (set_state RUNNING) p]> l) np ini fs (Some i) 0 sp) ->
  l !! i = Some p -> p_lock p = false ->
  post (_ ← wait_resume addr; mret tt)
    (Kernel v (<[i := set_lock true (on_sh (set_state RUNNING) p)]> l) np ini fs (Some i) 1 sp)
    (fun _ => next_inv np).
Proof.
  intros Hinv Hp Hl. pose proof (lookup_lt_Some _ _ _ Hp) as Hlt. apply post_drop. unfold wait_resume.
  apply post_bind. unfold sleep_resume. eapply post_bind_Ok; [by apply myproc_ok|].
  eapply post_shared; [by apply list_lookup_insert_eq|rewrite list_insert_insert_eq]. apply post_ret.
  pose proof (inv_clear_chan _ _ _ _ _ _ _ _ Hinv Hp Hl) as Hc.
  set (p' := on_sh (fun x => set_chan None (set_state RUNNING x)) p) in *.
  assert (Hp' : <[i:=p']> l !! i = Some p') by (by apply list_lookup_insert_eq).
  pose proof (wait_iter_inv v _ np ini fs i p' sp addr Hc Hp') as Hw.
  unfold waiting in Hw. rewrite list_insert_insert_eq in Hw. exact Hw.
Qed.

(** Every event keeps the invariant. *)
Lemma sys_inv s e :
  inv s -> 0 < k_nextpid s < 2 ^ 31 - 1 -> post (sys e) s (fun _ => next_inv (k_nextpid s)).
Proof.
  intros Hinv Hn. pose proof (q_noff _ (i_quiet _ Hinv)) as Hn0.
  destruct e as [|st|addr|n| |c|pid|c|i|i|i addr]; cbn [sys].
  - apply post_drop, post_self; [intros s' Hc; by apply no_cpu|]. intros i Hc. by eapply fork_inv.
  - apply post_self; [intros s' Hc; by apply no_cpu|]. intros i Hc. by eapply exit_inv.
  - apply post_drop, post_myproc. intros i Hc. destruct (inv_current s i Hinv Hc) as (p & Hp & _).
    pose proof (q_unlocked _ (i_quiet _ Hinv) i p Hp) as Hl.
    eapply post_bind_Ok; [by apply acquire_ok|]. destruct s as [v l np ini fs cu m sp]. kcbn. subst cu m.
    by apply wait_iter_inv.
  - apply post_drop, post_self; [intros s' Hc; by apply no_cpu|]. intros i Hc. by eapply grow_inv.
  - apply post_self; [intros s' Hc; by apply no_cpu|]. intros i Hc. by eapply yield_inv.
  - eapply post_bind_Ok; [reflexivity|]. rewrite Hn0.
    apply post_self; [intros s' Hc; by apply no_cpu|]. intros i Hc. by apply (sleep_inv s i).
  - by apply post_drop, kill_inv.
  - by apply wakeup_inv.
  - apply run_proc_inv; [done|]. intros. by apply resume_release.
  - apply run_proc_inv; [done|]. intros. by apply resume_sleep.
  - apply run_proc_inv; [done|]. intros. by apply resume_wait.
Qed.
End sys.
End ProcSys.
