(* ===== verification/ProcMain.v ===== *)
(** * Processes: the theorems

    The first process, the invariant of every reachable table, progress of the
    switching operations, and what [kill(0)] does to a free slot. *)

From S2P Require Import Prelude.
From S2P Require Import Memory.
From S2P Require Import Riscv.
From S2P Require Import PageAlloc.
From S2P Require Import Vm.
From S2P Require Import ProcState.
From S2P Require Import Proc.
From S2P Require Import ProcThms.
From S2P Require Import ProcExit.
From S2P Require Import ProcPost.
From S2P Require Import ProcInv.
From S2P Require Import ProcSys.

Module ProcMain.
Import Proc ProcThms ProcExit ProcPost ProcInv ProcSys.

Section main.
Context `{MemLayout} `{ProcLayout} {A : Type} `{!PageAllocator A} {F : Type} `{!FileOps F}.
Implicit Types s : kernel A F.

(** The table before the first process: zeroed, no lock held. *)
Record booted s : Prop := {
  bo_slots i p : k_procs s !! i = Some p -> p_lock p = false /\ p_sh p = freed;
  bo_nextpid : k_nextpid s = 1;
  bo_cpu : k_cur s = None /\ k_noff s = 0;
}.

Lemma userinit_inv s : booted s -> post userinit s (fun _ s' => inv s' /\ k_nextpid s' = 2).
Proof.
  intros [Hsl Hn [Hc Hn0]]. destruct s as [v l np ini fs c n sp]. cbn in *. subst np c n.
  unfold userinit. apply post_bind. apply allocproc_post.
  - intros j p Hp. by destruct (Hsl j p Hp).
  - apply post_fail.
  - intros. apply post_fail.
  - intros j p v1 q Hp _. destruct (Hsl j p Hp) as [_ Hsh]. rewrite Hsh. pose proof (lookup_lt_Some _ _ _ Hp) as Hlt.
    assert (Hl : forall x, <[j:=x]> l !! j = Some x) by (intros x; by apply list_lookup_insert_eq).
    eapply post_bind_Ok; [reflexivity|]. kcbn. eapply post_proc_at; [apply Hl|].
    apply post_bind, post_vm. intros _ v2. eapply post_private; [apply Hl|rewrite list_insert_insert_eq].
    apply post_bind, post_vm. intros _ v3. apply post_bind, post_vm. intros _ v4. apply post_bind, post_vm. intros _ v5.
    eapply post_private; [apply Hl|rewrite list_insert_insert_eq].
    eapply post_bind_Ok; [reflexivity|]. eapply post_bind_Ok; [reflexivity|]. kcbn.
    eapply post_private; [apply Hl|rewrite list_insert_insert_eq].
    eapply post_shared; [apply Hl|rewrite list_insert_insert_eq].
    eapply post_Ok; [by eapply release_ok; [apply Hl|]|]. kcbn. rewrite list_insert_insert_eq.
    set (p' := set_lock false _). change (s32 (1 + 1)) with 2. change (1 - 1) with 0.
    assert (Hun : forall k x, <[j:=p']> l !! k = Some x -> (k = j /\ x = p') \/ (k <> j /\ p_sh x = freed)).
    { intros k x [[-> ->]|[Hk Hx]]%insert_cases; [by left|]. right. split; [done|]. by apply (Hsl k). }
    split; [|done]. split; cbn.
    + split; [|done]. intros k x [[_ ->]|[_ Hx]]%insert_cases; [done|]. by apply (Hsl k).
    + intros k x [[-> ->]|[_ Hx]]%Hun; [done|]. rewrite Hx. done.
    + done.
    + split.
      * intros k x [[-> ->]|[_ Hx]]%Hun Hu; [by cbn|]. rewrite Hx in Hu. by destruct Hu.
      * intros k1 k2 x y [[-> ->]|[_ Hx]]%Hun [[-> ->]|[_ Hy]]%Hun Hu1 Hu2 _; [done|..];
          [rewrite Hy in Hu2; by destruct Hu2|rewrite Hx in Hu1; by destruct Hu1..].
      * exists j, p'. split_and!; [done|apply Hl|by split|done|].
        intros k x [[-> ->]|[_ Hx]]%Hun Hu Hk; [done|]. rewrite Hx in Hu. by destruct Hu.
      * intros k x [[-> ->]|[_ Hx]]%Hun Hu Hk; [done|]. rewrite Hx in Hu. by destruct Hu.
Qed.

Lemma runs_inv s es s' :
  inv s -> 0 < k_nextpid s -> k_nextpid s + Z.of_nat (length es) < 2 ^ 31 -> runs s es s' ->
  inv s' /\ k_nextpid s <= k_nextpid s' <= k_nextpid s + Z.of_nat (length es).
Proof.
  intros Hinv Hpos Hb Hr. induction Hr as [s|s es s1 e s2 Hr IH He]; [split; [done|cbn; lia]|].
  rewrite length_app in *. cbn [length] in *. destruct (IH Hinv Hpos ltac:(lia)) as [Hinv1 Hn].
  destruct (sys_inv s1 e Hinv1 ltac:(lia) tt s2 He) as [Hinv2 Hn2]. split; [done|lia].
Qed.

(** C4: [userinit] on the zeroed table establishes, and every sequence of system
    calls, wakeups and scheduling decisions preserves, that (as long as [nextpid]
    does not reach 2^31): no lock is held; the process on the CPU is the only one
    that is [RUNNING]; pids of slots in use are distinct and below [nextpid]; init
    is alive; every other process has a parent that is neither unused nor a zombie
    and has a smaller pid, so there are no orphans and no cycles. *)
Theorem proc_table_invariant s0 s1 es s :
  booted s0 -> inv s1 -> 0 < k_nextpid s1 -> runs s1 es s ->
  k_nextpid s1 + Z.of_nat (length es) < 2 ^ 31 ->
  (forall s', userinit s0 = Ok (tt, s') -> inv s' /\ k_nextpid s' = 2) /\
  (forall i p, k_procs s !! i = Some p -> p_lock p = false) /\
  (forall i p, k_procs s !! i = Some p -> p_state (p_sh p) = RUNNING <-> k_cur s = Some i) /\
  (forall i j p q, k_procs s !! i = Some p -> k_procs s !! j = Some q -> used (p_sh p) -> used (p_sh q) ->
     p_pid (p_sh p) = p_pid (p_sh q) -> i = j) /\
  (forall i p, k_procs s !! i = Some p -> used (p_sh p) -> 0 < p_pid (p_sh p) < k_nextpid s) /\
  (exists r p, k_initproc s = Some r /\ k_procs s !! r = Some p /\ alive (p_sh p)) /\
  (forall i p, k_procs s !! i = Some p -> used (p_sh p) -> k_initproc s <> Some i ->
     exists j q, p_parent (p_sh p) = Some j /\ k_procs s !! j = Some q /\ alive (p_sh q) /\
       p_pid (p_sh q) < p_pid (p_sh p)).
Proof.
  intros Hb Hinv1 Hn1 Hr Hlen. split; [intros s' Hu; exact (userinit_inv s0 Hb tt s' Hu)|].
  destruct (runs_inv s1 es s Hinv1 Hn1 Hlen Hr) as [[Hq Hrun _ [Hpid Huniq (r & x & Hr' & Hx & Hax & _) Hpar]] _].
  split_and!; try done; [by apply q_unlocked|by exists r, x].
Qed.

(** C12: The operations that switch the CPU or only touch the table never fail in a
    reachable state: [yield], [sleep] and, except for init, [exit] of the running
    process return to the scheduler without a panic ([sched]'s checks hold) and
    without waiting for a lock, and [wakeup] and [kill] always return. *)
Theorem proc_ops_never_stuck s1 es s i :
  inv s1 -> 0 < k_nextpid s1 -> runs s1 es s -> k_nextpid s1 + Z.of_nat (length es) < 2 ^ 31 ->
  k_cur s = Some i ->
  (exists s', sys EYield s = Ok (tt, s')) /\
  (forall c, exists s', sys (ESleep c) s = Ok (tt, s')) /\
  (forall st, k_initproc s <> Some i -> exists s', sys (EExit st) s = Ok (tt, s')) /\
  (forall c, exists s', sys (EWakeup c) s = Ok (tt, s')) /\
  (forall pid, exists s', sys (EKill pid) s = Ok (tt, s')).
Proof.
  intros Hinv1 Hn1 Hr Hlen Hc. destruct (runs_inv s1 es s Hinv1 Hn1 Hlen Hr) as [Hinv _].
  destruct (inv_current s i Hinv Hc) as (p & Hp & _). pose proof (i_quiet _ Hinv) as Hq. split_and!.
  - eexists. by apply yield_exact.
  - intros c. eexists. cbn [sys]. rewrite bind_modify, (q_noff _ Hq). by apply sleep_exact.
  - intros st Hi. destruct (inv_can_exit s i Hinv Hc Hi) as (pa & r & x & Hce).
    destruct (exit_exact s i pa r x st Hce) as (s' & He & _). by exists s'.
  - intros c. eexists. by apply wakeup_exact, q_unlocked.
  - intros pid. cbn [sys]. pose proof (kill_exact s pid (q_unlocked _ Hq)) as Hk.
    destruct (slot_of pid (k_procs s)) as [[j x]|]; eexists; by erewrite bind_step by exact Hk.
Qed.


(** [kill(0)] in a table whose first slot with pid 0 is unused reports success
    and marks the unused slot as killed, and [fork] does not clear the mark of the
    slot it takes: a child created there is born killed. *)
Theorem kill_zero_marks_free_slot s i j p :
  inv s -> k_cur s = Some i ->
  slot_of 0 (k_procs s) = Some (j, p) -> ~ used (p_sh p) ->
  exists s', kill 0 s = Ok (0, s') /\
    (exists q, k_procs s' !! j = Some q /\ p_killed (p_sh q) = 1 /\ ~ used (p_sh q)) /\
    forall pid s2, fork s' = Ok (pid, s2) -> pid <> -1 ->
      exists k y z, k_procs s' !! k = Some y /\ ~ used (p_sh y) /\ k_procs s2 !! k = Some z /\
        p_pid (p_sh z) = pid /\ p_state (p_sh z) = RUNNABLE /\ p_killed (p_sh z) = p_killed (p_sh y).
Proof.
  intros Hinv Hc Hslot Hnu. pose proof (i_quiet _ Hinv) as Hq.
  pose proof (kill_exact s 0 (q_unlocked _ Hq)) as Hk. rewrite Hslot in Hk.
  assert (Hj : k_procs s !! j = Some p) by (unfold slot_of in Hslot; apply list_find_Some in Hslot; tauto).
  pose proof (lookup_lt_Some _ _ _ Hj) as Hlt.
  eexists. split; [exact Hk|]. split.
  { exists (on_sh killed_sh p). cbn. rewrite list_lookup_insert_eq by done. split; [done|].
    split; [unfold killed_sh; by case_decide|]. cbn. by rewrite (sim_used _ _ (sim_killed (p_sh p))). }
  destruct (kill_inv s 0 Hinv 0 _ Hk) as [Hinv' _]. revert Hinv'. set (s' := set_procs _ s). intros Hinv'.
  destruct (inv_current s' i Hinv' Hc) as (pi & Hpi & _ & Hal & _). pose proof (i_quiet _ Hinv') as Hq'.
  pose proof (q_noff _ Hq') as Hn0. pose proof (q_unlocked _ Hq') as Hu'. unfold unlocked in Hu'.
  assert (Hnp : k_nextpid s' = k_nextpid s) by done. assert (Hc' : k_cur s' = Some i) by done.
  clearbody s'.
  destruct s' as [v l np ini fs c n sp]. cbn in *. subst c n.
  intros pid s2. revert pid s2.
  refine (fork_post v l np ini fs i pi sp _ Hu' Hpi (proj1 Hal) _ _ _); [done|done|].
  intros k y v' q fs' Hk' Hy _. exists k, y, (Proc false (child i np (p_sh y)) q). cbn.
  rewrite list_lookup_insert_eq by (by eapply lookup_lt_Some). split_and!; try done. unfold used. tauto.
Qed.
End main.
End ProcMain.
