(* ===== verification/Scheduler.v ===== *)
(** * Processes: the scheduler

    [scheduler] of [proc.c] as a machine that goes round the table. Between two of its
    turns the process it switched to runs, and interrupts wake processes. No
    process that can run is passed over: it is switched to within one round. *)

From S2P Require Import Prelude.
From S2P Require Import Memory.
From S2P Require Import Riscv.
From S2P Require Import PageAlloc.
From S2P Require Import Vm.
From S2P Require Import ProcState.
From S2P Require Import Proc.
From S2P Require Import ProcThms.
From S2P Require Import ProcExit.
From S2P Require Import ProcPost.
From S2P Require Import ProcInv.
From S2P Require Import ProcSys.
From S2P Require Import ProcMain.

Module Scheduler.
Import Proc ProcThms ProcExit ProcPost ProcInv ProcSys ProcMain.

(** The scheduler resumes process [i]. *)
Definition resumed (e : event) : option nat :=
  match e with ERun i | ERunSleep i | ERunWait i _ => Some i | _ => None end.

(** [Visit e]: the body of the inner loop at the next slot, where the process goes
    on as in [e] if it can run. [During e]: an event of the process on the CPU, or an
    interrupt. [Again]: the inner loop is over; the outer one goes on with [found] clear,
    after an interrupt if no process was found. *)
Inductive turn : Type := Visit (e : event) | During (e : event) | Again.

(** The pointer [p] as an index, [found], and the kernel. *)
Record scheduling (A F : Type) : Type := Scheduling { s_p : nat; s_found : bool; s_kernel : kernel A F }.
Arguments Scheduling {A F}.
Arguments s_p {A F} s.
Arguments s_found {A F} s.
Arguments s_kernel {A F} s.

Section scheduler.
Context `{MemLayout} `{ProcLayout} {A : Type} `{!PageAllocator A} {F : Type} `{!FileOps F}.
Implicit Types (s k : kernel A F) (st : scheduling A F).

Definition runnable (i : nat) s : bool :=
  match k_procs s !! i with Some p => bool_decide (p_state (p_sh p) = RUNNABLE) | None => false end.

(** Is the CPU with the scheduler? *)
Definition idle s : bool := bool_decide (k_cur s = None).

Definition kernel_step {B} (m : M (kernel A F) B) : M (scheduling A F) B := fun st =>
  match m (s_kernel st) with Ok (b, s) => Ok (b, Scheduling (s_p st) (s_found st) s) | Fail e => Fail e end.
Definition set_found (b : bool) : M (scheduling A F) unit := modify (fun st => Scheduling (s_p st) b (s_kernel st)).
Definition set_p (i : nat) : M (scheduling A F) unit := modify (fun st => Scheduling i (s_found st) (s_kernel st)).
(** [p++], once the process has given the CPU back. *)
Definition next_slot : M (scheduling A F) unit := st ← get; when (idle (s_kernel st)) (set_p (S (s_p st))).

(** A turn that is not possible in the state is [Blocked]. *)
Definition scheduler (t : turn) : M (scheduling A F) unit :=
  st ← get;
  let n := length (k_procs (s_kernel st)) in
  match t with
  | Visit e =>
      if idle (s_kernel st) && (s_p st <? n)%nat && bool_decide (resumed e = Some (s_p st)) then
        let b := runnable (s_p st) (s_kernel st) in
        kernel_step (sys e);;
        when b (set_found true);;
        next_slot
      else fail (Blocked "scheduler")
  | During e =>
      match resumed e with
      | Some _ => fail (Blocked "scheduler")
      | None =>
          if idle (s_kernel st) then
            match e with EWakeup _ => kernel_step (sys e) | _ => fail (Blocked "cpu") end
          else kernel_step (sys e);; next_slot
      end
  | Again =>
      if idle (s_kernel st) && (s_p st =? n)%nat then set_found false;; set_p 0
      else fail (Blocked "scheduler")
  end.

Fixpoint turns_run (ts : list turn) : M (scheduling A F) unit :=
  match ts with [] => mret tt | t :: ts' => scheduler t;; turns_run ts' end.

(** Turns of the scheduler itself. *)
Definition own (t : turn) : bool := match t with During _ => false | _ => true end.
Definition turns (ts : list turn) : nat := length (List.filter own ts).

(** ** What an event does to the processes that can run *)

(** All slots but [x] that can run still can. *)
Definition keeps (x : option nat) (l l' : list proc) : Prop :=
  length l' = length l /\
  forall j p, l !! j = Some p -> x <> Some j -> p_state (p_sh p) = RUNNABLE ->
    exists q, l' !! j = Some q /\ p_state (p_sh q) = RUNNABLE.

Lemma keeps_refl x l : keeps x l l.
Proof. split; [done|]. eauto. Qed.

Lemma keeps_trans x l1 l2 l3 : keeps x l1 l2 -> keeps x l2 l3 -> keeps x l1 l3.
Proof.
  intros [L1 K1] [L2 K2]. split; [congruence|]. intros j p Hp Hx Hr. destruct (K1 j p Hp Hx Hr) as (q & Hq & Hr'). by eapply K2.
Qed.

Lemma keeps_insert x l i y q :
  l !! i = Some y -> (x <> Some i -> p_state (p_sh y) = RUNNABLE -> p_state (p_sh q) = RUNNABLE) -> keeps x l (<[i := q]> l).
Proof.
  intros Hy Hq. split; [apply length_insert|]. intros j p Hp Hx Hr. destruct (decide (j = i)) as [->|Hj].
  - simplify_eq. exists q. split; [apply list_lookup_insert_eq; by eapply lookup_lt_Some|by apply Hq].
  - exists p. by rewrite list_lookup_insert_ne.
Qed.

(** A slot that could not run changes. *)
Lemma keeps_other x l i y q : l !! i = Some y -> p_state (p_sh y) <> RUNNABLE -> keeps x l (<[i := q]> l).
Proof. intros Hy Hn. by apply (keeps_insert x l i y). Qed.

Lemma keeps_self l i q : keeps (Some i) l (<[i := q]> l).
Proof.
  split; [apply length_insert|]. intros j p Hp Hx Hr. exists p. rewrite list_lookup_insert_ne by congruence. done.
Qed.

Lemma keeps_map x l f : (forall y, p_state y = RUNNABLE -> p_state (f y) = RUNNABLE) -> keeps x l (map (on_sh f) l).
Proof.
  intros Hf. split; [apply length_map|]. intros j p Hp _ Hr. eexists. rewrite list_lookup_fmap, Hp. split; [done|]. by apply Hf.
Qed.

Lemma woken_runnable c y : p_state y = RUNNABLE -> p_state (woken c y) = RUNNABLE.
Proof. intros Hy. unfold woken. by case_decide. Qed.

(** The effect of an event on the table and the CPU. *)
Definition effect (e : event) s s' : Prop :=
  keeps (resumed e) (k_procs s) (k_procs s') /\
  (k_cur s' = None \/ k_cur s' = match resumed e with Some i => Some i | None => k_cur s end).

Lemma fork_effect s i : inv s -> k_cur s = Some i -> post fork s (fun _ => effect EFork s).
Proof.
  intros Hinv Hc. destruct (inv_current s i Hinv Hc) as (p & Hp & _ & Hal & _). pose proof (i_quiet _ Hinv) as [Hu Hn0].
  destruct s as [v l np ini fs c n sp]. cbn in *. subst c n.
  apply (fork_post _ _ _ _ _ _ p); [exact Hu|done|apply Hal|..].
  - split; [apply keeps_refl|by right].
  - intros j y v' x q Hj Hy _. split; [|by right]. eapply keeps_other; [exact Hj|congruence].
  - intros j y v' q fs' Hj Hy. split; [|by right]. eapply keeps_other; [exact Hj|congruence].
Qed.

Lemma exit_effect_on_ready s i status : inv s -> k_cur s = Some i -> post (exit status) s (fun _ => effect (EExit status) s).
Proof.
  intros Hinv Hc. destruct (decide (k_initproc s = Some i)) as [Hi|Hi].
  { intros u s' He. unfold exit in He. erewrite bind_step in He by (by apply myproc_ok). rewrite bind_gets, decide_True in He; done. }
  destruct (inv_can_exit s i Hinv Hc Hi) as (pa & r & p & Hce). destruct (exit_exact s i pa r p status Hce) as (s' & He & Hex).
  eapply post_Ok; [exact He|]. split; [|left; apply (ex_cur _ _ _ _ _ _ _ Hex)].
  split; [apply (ex_length _ _ _ _ _ _ _ Hex)|]. intros j y Hy _ Hr. destruct (inv_current s i Hinv Hc) as (p' & Hp' & Hst & _).
  destruct (decide (j = i)) as [->|Hji]; [congruence|]. eexists. split; [by apply (ex_others _ _ _ _ _ _ _ Hex)|].
  cbn. unfold exit_sh, adopt, woken. by repeat (case_decide; cbn in *); destruct_and?.
Qed.

Lemma wait_effect x v l np ini fs i p sp sp0 addr :
  inv (Kernel v l np ini fs (Some i) 0 sp) -> l !! i = Some p ->
  post (wait_iter addr) (Kernel v (waiting l i p) np ini fs (Some i) 1 sp0) (fun _ s' =>
    keeps x l (k_procs s') /\ (k_cur s' = None \/ k_cur s' = Some i)).
Proof.
  intros Hinv Hp. destruct (inv_current _ i Hinv eq_refl) as (p' & Hp' & Hst & Hal & Hself). cbn in Hp'. simplify_eq.
  pose proof (q_unlocked _ (i_quiet _ Hinv)) as Hu. cbn in Hu. apply wait_iter_post; [exact Hu|done|done|..]; cbn.
  - intros _. split; [apply keeps_refl|by right].
  - intros j y _ q Hj _ Hz. split; [|by right]. eapply keeps_other; [exact Hj|congruence].
  - split; [|by left]. eapply keeps_other; [exact Hp|congruence].
Qed.

(** The continuations. *)
Definition back_on (i : nat) (l : list proc) s' : Prop :=
  keeps (Some i) l (k_procs s') /\ (k_cur s' = None \/ k_cur s' = Some i).

Lemma run_effect s e i resume : inv s -> resumed e = Some i ->
  (forall p sp, let l := k_procs s in l !! i = Some p -> p_lock p = false ->
     inv (Kernel (k_vm s) (<[i := on_sh (set_state RUNNING) p]> l) (k_nextpid s) (k_initproc s) (k_files s) (Some i) 0 sp) ->
     post resume (Kernel (k_vm s) (<[i := set_lock true (on_sh (set_state RUNNING) p)]> l) (k_nextpid s) (k_initproc s)
       (k_files s) (Some i) 1 sp) (fun _ => back_on i l)) ->
  k_cur s = None -> post (run_proc i resume) s (fun _ => effect e s).
Proof.
  intros Hinv He Hres Hc. apply run_proc_post; [done| |].
  - split; [apply keeps_refl|by left].
  - intros p sp l _ Hp _ Hl Hi. intros b s' Hr. destruct (Hres p sp Hp Hl Hi b s' Hr) as [Hk Hcur].
    split; rewrite He; done.
Qed.

Lemma resume_keeps v l np ini fs sp i p : l !! i = Some p ->
  post yield_resume (Kernel v (<[i := set_lock true (on_sh (set_state RUNNING) p)]> l) np ini fs (Some i) 1 sp) (fun _ => back_on i l).
Proof.
  intros Hp. unfold yield_resume. eapply post_bind_Ok; [by apply myproc_ok|].
  eapply post_Ok; [apply (release_held (Kernel v l np ini fs (Some i) 0 sp) l i _ p Hp)|]. split; [apply keeps_self|by right].
Qed.

Lemma resume_sleep_keeps v l np ini fs sp i p : l !! i = Some p ->
  post (sleep_resume false;; modify (fun s => set_noff (k_noff s - 1) s))
    (Kernel v (<[i := set_lock true (on_sh (set_state RUNNING) p)]> l) np ini fs (Some i) 1 sp) (fun _ => back_on i l).
Proof.
  intros Hp. pose proof (lookup_lt_Some _ _ _ Hp) as Hlt. apply post_bind. unfold sleep_resume.
  eapply post_bind_Ok; [by apply myproc_ok|].
  eapply post_shared; [by apply list_lookup_insert_eq|rewrite list_insert_insert_eq].
  eapply post_release; [by apply list_lookup_insert_eq|done|rewrite list_insert_insert_eq].
  eapply post_Ok; [reflexivity|]. eapply post_Ok; [reflexivity|]. split; [apply keeps_self|by right].
Qed.

Lemma resume_wait_keeps addr v l np ini fs sp i p :
  inv (Kernel v (<[i := on_sh (set_state RUNNING) p]> l) np ini fs (Some i) 0 sp) -> l !! i = Some p -> p_lock p = false ->
  post (_ ← wait_resume addr; mret tt)
    (Kernel v (<[i := set_lock true (on_sh (set_state RUNNING) p)]> l) np ini fs (Some i) 1 sp) (fun _ => back_on i l).
Proof.
  intros Hinv Hp Hl. pose proof (lookup_lt_Some _ _ _ Hp) as Hlt. apply post_drop. unfold wait_resume.
  apply post_bind. unfold sleep_resume. eapply post_bind_Ok; [by apply myproc_ok|].
  eapply post_shared; [by apply list_lookup_insert_eq|rewrite list_insert_insert_eq]. apply post_ret.
  pose proof (inv_clear_chan _ _ _ _ _ _ _ _ Hinv Hp Hl) as Hc.
  set (p' := on_sh (fun x => set_chan None (set_state RUNNING x)) p) in *.
  assert (Hp' : <[i:=p']> l !! i = Some p') by (by apply list_lookup_insert_eq).
  pose proof (wait_effect (Some i) v _ np ini fs i p' sp sp addr Hc Hp') as Hw.
  unfold waiting in Hw. rewrite list_insert_insert_eq in Hw. intros b s' Hr. destruct (Hw b s' Hr) as [Hk Hcur].
  split; [|done]. eapply keeps_trans; [apply (keeps_self l i p')|exact Hk].
Qed.

(** Every event. *)
Lemma sys_effect s e : inv s -> (forall i, resumed e = Some i -> k_cur s = None) -> post (sys e) s (fun _ => effect e s).
Proof.
  intros Hinv Hres. pose proof (i_quiet _ Hinv) as Hq. pose proof (q_noff _ Hq) as Hn0.
  destruct e as [|status|addr|n| |c|pid|c|i|i|i addr]; cbn [sys].
  - apply post_drop, post_self; [intros s' Hc; by apply no_cpu|]. intros i Hc. by eapply fork_effect.
  - apply post_self; [intros s' Hc; by apply no_cpu|]. intros i Hc. by eapply exit_effect_on_ready.
  - apply post_drop, post_myproc. intros i Hc. destruct (inv_current s i Hinv Hc) as (p & Hp & _).
    pose proof (q_unlocked _ Hq i p Hp) as Hl.
    eapply post_bind_Ok; [by apply acquire_ok|]. destruct s as [v l np ini fs cu m sp]. kcbn. subst cu m.
    pose proof (wait_effect None v l np ini fs i p sp sp addr Hinv Hp) as Hw. exact Hw.
  - apply post_drop, post_self; [intros s' Hc; by apply no_cpu|]. intros i Hc. destruct (inv_current s i Hinv Hc) as (p & Hp & Hst & _).
    destruct s as [v l np ini fs cu m sp]. cbn in *. subst cu m. eapply growproc_post; [exact Hp|]. intros _ v' q.
    split; [|by right]. eapply keeps_other; [exact Hp|congruence].
  - apply post_self; [intros s' Hc; by apply no_cpu|]. intros i Hc. destruct (inv_current s i Hinv Hc) as (p & Hp & Hst & _).
    eapply post_Ok; [by apply (yield_exact s i p)|]. split; [|by left]. eapply keeps_other; [exact Hp|congruence].
  - eapply post_bind_Ok; [reflexivity|]. rewrite Hn0. apply post_self; [intros s' Hc; by apply no_cpu|]. intros i Hc.
    destruct (inv_current s i Hinv Hc) as (p & Hp & Hst & _).
    eapply post_Ok; [by apply (sleep_exact s i p c)|]. split; [|by left]. eapply keeps_other; [exact Hp|congruence].
  - apply post_drop. pose proof (kill_exact s pid (q_unlocked _ Hq)) as Hk. unfold slot_of in Hk.
    destruct (list_find _ (k_procs s)) as [[i p]|] eqn:Hf; (eapply post_Ok; [exact Hk|]).
    + apply list_find_Some in Hf as (Hp & _ & _). split; [|by right]. eapply keeps_insert; [exact Hp|]. intros _ Hr.
      unfold killed_sh. cbn. by rewrite decide_False by (cbn; congruence).
    + split; [apply keeps_refl|by right].
  - eapply post_Ok; [apply wakeup_exact, Hq|]. split; [|by right]. apply keeps_map, woken_runnable.
  - eapply run_effect; [done|done| |by eapply Hres]. intros p sp l Hp Hl Hi. by eapply resume_keeps.
  - eapply run_effect; [done|done| |by eapply Hres]. intros p sp l Hp Hl Hi. by eapply resume_sleep_keeps.
  - eapply run_effect; [done|done| |by eapply Hres]. intros p sp l Hp Hl Hi. by eapply resume_wait_keeps.
Qed.

(** ** Going round *)

(** Between turns: the process on the CPU is the one [p] points to. *)
Record good st : Prop := {
  g_inv : inv (s_kernel st);
  g_pid : 0 < k_nextpid (s_kernel st);
  g_p : (s_p st <= length (k_procs (s_kernel st)))%nat;
  g_cur i : k_cur (s_kernel st) = Some i -> i = s_p st /\ (i < length (k_procs (s_kernel st)))%nat;
}.

(** The slot the scheduler looks at next, and how many turns it takes before the
    one that looks at slot [j]. *)
Definition upcoming st : nat := if idle (s_kernel st) then s_p st else S (s_p st).
Definition ahead st (j : nat) : nat :=
  if (upcoming st <=? j)%nat then j - upcoming st else length (k_procs (s_kernel st)) - upcoming st + 1 + j.

Lemma runnable_spec j s : runnable j s = true <-> exists p, k_procs s !! j = Some p /\ p_state (p_sh p) = RUNNABLE.
Proof.
  unfold runnable. destruct (k_procs s !! j) as [p|]; [|by split; [|intros (p & ? & _)]].
  rewrite bool_decide_eq_true. split; [eauto|]. by intros (q & [= <-] & Hq).
Qed.

Lemma idle_spec s : idle s = true <-> k_cur s = None.
Proof. apply bool_decide_eq_true. Qed.

Lemma idle_busy s i : k_cur s = Some i -> idle s = false.
Proof. intros E. unfold idle. by rewrite E. Qed.

Lemma kernel_step_Ok {B} (m : M (kernel A F) B) st b st' : kernel_step m st = Ok (b, st') ->
  exists s, m (s_kernel st) = Ok (b, s) /\ st' = Scheduling (s_p st) (s_found st) s.
Proof. unfold kernel_step. destruct (m (s_kernel st)) as [[b0 s]|]; [|done]. intros [= <- <-]. eauto. Qed.

Lemma next_slot_runs st : next_slot st = Ok (tt, Scheduling (if idle (s_kernel st) then S (s_p st) else s_p st) (s_found st) (s_kernel st)).
Proof. destruct st as [i f s]. unfold next_slot, when, mbind, M_bind, get. cbn. destruct (k_cur s) eqn:E; unfold idle; by rewrite E. Qed.

Lemma scheduler_unfold t st : scheduler t st =
  let n := length (k_procs (s_kernel st)) in
  match t with
  | Visit e =>
      if idle (s_kernel st) && (s_p st <? n)%nat && bool_decide (resumed e = Some (s_p st)) then
        (kernel_step (sys e);; when (runnable (s_p st) (s_kernel st)) (set_found true);; next_slot) st
      else Fail (Blocked "scheduler")
  | During e =>
      match resumed e with
      | Some _ => Fail (Blocked "scheduler")
      | None =>
          if idle (s_kernel st) then
            match e with EWakeup _ => kernel_step (sys e) st | _ => Fail (Blocked "cpu") end
          else (kernel_step (sys e);; next_slot) st
      end
  | Again =>
      if idle (s_kernel st) && (s_p st =? n)%nat then (set_found false;; set_p 0) st else Fail (Blocked "scheduler")
  end.
Proof. unfold scheduler, mbind at 1, M_bind at 1. cbn beta iota delta [get]. destruct t as [e|e|]; cbn zeta.
  - by destruct (_ && _).
  - destruct (resumed e); [done|]. destruct (idle _); [|done]. by destruct e.
  - by destruct (_ && _).
Qed.

(** What one turn does: the invariant stays, and a process that can run is visited
    or has come closer. *)
Definition turn_effect (t : turn) st st' : Prop :=
  good st' /\ k_nextpid (s_kernel st) <= k_nextpid (s_kernel st') <= k_nextpid (s_kernel st) + 1 /\
  length (k_procs (s_kernel st')) = length (k_procs (s_kernel st)) /\
  forall j, runnable j (s_kernel st) = true ->
    (exists e, t = Visit e /\ resumed e = Some j) \/
    (runnable j (s_kernel st') = true /\ ahead st j = (ahead st' j + if own t then 1 else 0)%nat).

Lemma effect_runnable e s s' j : effect e s s' -> runnable j s = true -> resumed e <> Some j -> runnable j s' = true.
Proof. intros [[_ Hk] _] (p & Hp & Hr)%runnable_spec Hj. apply runnable_spec. by eapply Hk. Qed.

Lemma visit_effect e st st' : good st -> k_nextpid (s_kernel st) < 2 ^ 31 - 1 ->
  scheduler (Visit e) st = Ok (tt, st') -> turn_effect (Visit e) st st'.
Proof.
  intros [Hinv Hpid Hp Hcur] Hb. rewrite scheduler_unfold. cbn zeta.
  destruct (idle (s_kernel st)) eqn:Hidle; [|done]. destruct (Nat.ltb_spec (s_p st) (length (k_procs (s_kernel st)))) as [Hlt|]; [|done].
  destruct (bool_decide_reflect (resumed e = Some (s_p st))) as [He|]; [|done]. cbn [andb].
  apply idle_spec in Hidle as Hc. intros ([] & st1 & Hk & Hrest)%bind_Ok. apply kernel_step_Ok in Hk as (s & Hs & ->).
  pose proof (sys_inv _ e Hinv ltac:(lia) tt s Hs) as [Hinv' Hpid'].
  pose proof (sys_effect (s_kernel st) e Hinv (fun _ _ => Hc) tt s Hs) as Heff. pose proof Heff as [[Hlen Hk] Hcur']. rewrite He in Hcur'.
  apply bind_Ok in Hrest as ([] & st2 & Hf & Hn). rewrite next_slot_runs in Hn. injection Hn as <-.
  assert (st2 = Scheduling (s_p st) (s_found st2) s) as -> by (destruct (runnable _ _); cbn in Hf; by injection Hf as <-).
  cbn [s_p s_found s_kernel]. split; [|split; [done|split; [done|]]].
  - split; cbn [s_p s_kernel]; [done|lia| |].
    + rewrite Hlen. destruct (idle s); lia.
    + intros i Hi. rewrite (idle_busy s i Hi).
      destruct Hcur' as [?|Hi']; [congruence|]. rewrite Hi in Hi'. injection Hi' as ->. rewrite Hlen. done.
  - intros j Hj. destruct (decide (resumed e = Some j)) as [|Hne]; [left; by exists e|]. right.
    split; [eapply effect_runnable; [exact Heff|done|done]|]. unfold ahead, upcoming. cbn [s_p s_kernel own]. rewrite Hidle, Hlen.
    assert (s_p st <> j) by congruence.
    replace (if idle s then if idle s then S (s_p st) else s_p st else S (if idle s then S (s_p st) else s_p st))
      with (S (s_p st)) by (by destruct (idle s)).
    destruct (Nat.leb_spec (s_p st) j), (Nat.leb_spec (S (s_p st)) j); lia.
Qed.

Lemma during_effect e st st' : good st -> k_nextpid (s_kernel st) < 2 ^ 31 - 1 ->
  scheduler (During e) st = Ok (tt, st') -> turn_effect (During e) st st'.
Proof.
  intros [Hinv Hpid Hp Hcur] Hb. rewrite scheduler_unfold. cbn zeta.
  destruct (resumed e) as [|] eqn:He; [done|]. intros Hrun.
  assert (exists s, sys e (s_kernel st) = Ok (tt, s) /\ (idle (s_kernel st) = true -> k_cur s = None) /\
    st' = Scheduling (if idle (s_kernel st) then s_p st else if idle s then S (s_p st) else s_p st) (s_found st) s) as (s & Hs & Hid & ->).
  { destruct (idle (s_kernel st)) eqn:Hidle.
    - destruct e as [| | | | | | |c| | |]; try done. apply kernel_step_Ok in Hrun as (s & Hs & ->). exists s. split; [done|]. split; [|done].
      intros _. apply idle_spec in Hidle. pose proof (sys_effect _ (EWakeup c) Hinv ltac:(done) tt s Hs) as [_ [?|Hc]]; [done|].
      cbn in Hc. by rewrite Hc.
    - apply bind_Ok in Hrun as ([] & st1 & Hk & Hn). apply kernel_step_Ok in Hk as (s & Hs & ->). rewrite next_slot_runs in Hn.
      injection Hn as <-. by exists s. }
  pose proof (sys_inv _ e Hinv ltac:(lia) tt s Hs) as [Hinv' Hpid'].
  pose proof (sys_effect _ e Hinv ltac:(rewrite He; done) tt s Hs) as Heff. pose proof Heff as [[Hlen Hk] Hcur']. rewrite He in Hcur'.
  assert (Hbusy : idle (s_kernel st) = false -> (s_p st < length (k_procs (s_kernel st)))%nat).
  { intros Hn. destruct (k_cur (s_kernel st)) as [i|] eqn:Hc; [|by apply idle_spec in Hc; rewrite Hc in Hn].
    destruct (Hcur i eq_refl) as [<- ?]. done. }
  split; [|split; [done|split; [done|]]].
  - split; cbn [s_p s_kernel]; [done|lia| |].
    + rewrite Hlen. destruct (idle (s_kernel st)); [done|]. specialize (Hbusy eq_refl). destruct (idle s); lia.
    + intros i Hi. rewrite (idle_busy s i Hi), Hlen.
      destruct Hcur' as [?|Hi']; [congruence|]. rewrite Hi in Hi'. symmetry in Hi'.
      replace (if idle (s_kernel st) then s_p st else s_p st) with (s_p st) by (by destruct (idle (s_kernel st))). by apply Hcur.
  - intros j Hj. right. split; [eapply effect_runnable; [exact Heff|done|by rewrite He]|].
    unfold ahead, upcoming. cbn [s_p s_kernel own]. rewrite Hlen, Nat.add_0_r.
    destruct (idle (s_kernel st)); [by rewrite (proj2 (idle_spec s)) by (by apply Hid)|]. by destruct (idle s).
Qed.

Lemma again_effect st st' : good st -> scheduler Again st = Ok (tt, st') -> turn_effect Again st st'.
Proof.
  intros [Hinv Hpid Hp Hcur]. rewrite scheduler_unfold. cbn zeta.
  destruct (idle (s_kernel st)) eqn:Hidle; [|done]. destruct (Nat.eqb_spec (s_p st) (length (k_procs (s_kernel st)))) as [Heq|]; [|done].
  cbn. intros [= <-]. split; [split; cbn; [done..|lia|]|split; [cbn; lia|split; [done|]]].
  - apply idle_spec in Hidle. congruence.
  - intros j Hj. right. split; [done|]. unfold ahead, upcoming. cbn [s_p s_kernel own]. rewrite Hidle, Heq.
    apply runnable_spec in Hj as (p & Hj%lookup_lt_Some & _).
    destruct (Nat.leb_spec (length (k_procs (s_kernel st))) j); [lia|]. cbn [Nat.leb]. lia.
Qed.

Lemma turn_ok t st st' : good st -> k_nextpid (s_kernel st) < 2 ^ 31 - 1 -> scheduler t st = Ok (tt, st') -> turn_effect t st st'.
Proof. destruct t; [apply visit_effect|apply during_effect|intros; by apply again_effect]. Qed.

(** The scheduler can always take a turn when it has the CPU, and a process that
    has it can give it back. *)
Lemma run_slot s i p : inv s -> k_cur s = None -> k_procs s !! i = Some p -> exists s', sys (ERun i) s = Ok (tt, s').
Proof.
  intros Hinv Hc Hp. cbn [sys]. unfold run_proc. rewrite bind_gets, Hc.
  pose proof (dispatch_exact s i p (i_quiet _ Hinv) Hp) as Hd. destruct (decide _); rewrite (bind_step _ _ _ _ _ Hd); [|by eexists].
  unfold yield_resume. erewrite bind_step by (by apply (myproc_ok _ i)). eexists. by eapply (release_held (on_cpu s i p)).
Qed.

Lemma visit_runs st : good st -> idle (s_kernel st) = true -> (s_p st < length (k_procs (s_kernel st)))%nat ->
  exists st', scheduler (Visit (ERun (s_p st))) st = Ok (tt, st').
Proof.
  intros [Hinv Hpid Hp Hcur] Hidle Hlt. destruct (lookup_lt_is_Some_2 (k_procs (s_kernel st)) (s_p st) Hlt) as [p Hpp].
  destruct (run_slot _ _ p Hinv (proj1 (idle_spec _) Hidle) Hpp) as [s Hs].
  assert (Hk : kernel_step (sys (ERun (s_p st))) st = Ok (tt, Scheduling (s_p st) (s_found st) s)) by (unfold kernel_step; by rewrite Hs).
  rewrite scheduler_unfold. cbn zeta. rewrite Hidle, (proj2 (Nat.ltb_lt _ _)) by lia. cbn [andb resumed]. rewrite bool_decide_true by done.
  rewrite (bind_step _ _ _ _ _ Hk). destruct (runnable _ _); cbn [when]; eexists.
  - unfold set_found. rewrite bind_modify. apply next_slot_runs.
  - rewrite bind_ret. apply next_slot_runs.
Qed.

Lemma scheduler_progress st : good st -> exists t st', scheduler t st = Ok (tt, st') /\ own t = idle (s_kernel st).
Proof.
  intros Hg. pose proof Hg as [Hinv Hpid Hp Hcur]. destruct (idle (s_kernel st)) eqn:Hidle.
  - destruct (decide (s_p st = length (k_procs (s_kernel st)))) as [Heq|Hne].
    + exists Again. eexists. split; [|done]. rewrite scheduler_unfold. cbn zeta. by rewrite Hidle, Heq, Nat.eqb_refl.
    + destruct (visit_runs st Hg Hidle ltac:(lia)) as [st' Hv]. by exists (Visit (ERun (s_p st))), st'.
  - destruct (k_cur (s_kernel st)) as [i|] eqn:Hc; [|by apply idle_spec in Hc; rewrite Hc in Hidle].
    destruct (inv_current _ i Hinv Hc) as (p & Hpp & _). exists (During EYield). eexists. split; [|done].
    rewrite scheduler_unfold. cbn zeta. cbn [resumed]. rewrite Hidle.
    assert (Hk : kernel_step (sys EYield) st = Ok (tt, Scheduling (s_p st) (s_found st) (to_scheduler
      (set_procs (<[i := on_sh (set_state RUNNABLE) p]> (k_procs (s_kernel st))) (s_kernel st))))).
    { unfold kernel_step. cbn [sys]. by rewrite (yield_exact _ i p (i_quiet _ Hinv) Hc Hpp). }
    rewrite (bind_step _ _ _ _ _ Hk). apply next_slot_runs.
Qed.

Lemma run_good ts : forall st st', good st -> k_nextpid (s_kernel st) + Z.of_nat (length ts) < 2 ^ 31 ->
  turns_run ts st = Ok (tt, st') -> good st'.
Proof.
  induction ts as [|t ts IH]; intros st st' Hg Hb Hr; cbn [turns_run length] in *; [by injection Hr as <-|].
  apply bind_Ok in Hr as ([] & st1 & Ht & Hr). destruct (turn_ok t st st1 Hg ltac:(lia) Ht) as (Hg1 & Hn & _). apply (IH st1); [done|lia|done].
Qed.

Lemma visited ts : forall st st' j, good st -> k_nextpid (s_kernel st) + Z.of_nat (length ts) < 2 ^ 31 ->
  turns_run ts st = Ok (tt, st') -> runnable j (s_kernel st) = true -> (ahead st j < turns ts)%nat ->
  exists ts1 e ts2 st1, ts = ts1 ++ Visit e :: ts2 /\ turns_run ts1 st = Ok (tt, st1) /\ good st1 /\
    resumed e = Some j /\ runnable j (s_kernel st1) = true /\ (turns ts1 <= ahead st j)%nat.
Proof.
  induction ts as [|t ts IH]; intros st st' j Hg Hb Hr Hj Ha; [by cbn in Ha; lia|]. cbn [turns_run length] in *.
  apply bind_Ok in Hr as ([] & st1 & Ht & Hr). destruct (turn_ok t st st1 Hg ltac:(lia) Ht) as (Hg1 & Hn & Hlen & Hclose).
  destruct (Hclose j Hj) as [(e & -> & He)|[Hj1 Hd]].
  { exists [], e, ts, st. split_and!; try done. unfold turns. cbn. lia. }
  assert (Hturns : turns (t :: ts) = ((if own t then 1 else 0) + turns ts)%nat) by (unfold turns; cbn; by destruct (own t)).
  destruct (IH st1 st' j Hg1 ltac:(lia) Hr Hj1 ltac:(lia)) as (ts1 & e & ts2 & st2 & -> & Hr1 & Hg2 & He & Hj2 & Ht1).
  exists (t :: ts1), e, ts2, st2. split_and!; try done.
  - cbn [turns_run]. by rewrite (bind_step _ _ _ _ _ Ht).
  - assert (Ht2 : turns (t :: ts1) = ((if own t then 1 else 0) + turns ts1)%nat) by (unfold turns; cbn; by destruct (own t)). lia.
Qed.

Lemma ahead_bound st j : good st -> runnable j (s_kernel st) = true -> (ahead st j <= length (k_procs (s_kernel st)))%nat.
Proof.
  intros [_ _ Hp Hcur] (p & Hj%lookup_lt_Some & _)%runnable_spec. unfold ahead.
  assert (Hu : (upcoming st <= length (k_procs (s_kernel st)))%nat).
  { unfold upcoming. destruct (idle (s_kernel st)) eqn:Hidle; [done|].
    destruct (k_cur (s_kernel st)) as [i|] eqn:Hc; [|by apply idle_spec in Hc; rewrite Hc in Hidle].
    destruct (Hcur i eq_refl) as [-> ?]. lia. }
  destruct (Nat.leb_spec (upcoming st) j); lia.
Qed.

(** C13: The scheduler is fair. Whatever the processes and interrupts do in between, a
    process that can run is switched to after at most NPROC other turns of the
    scheduler; and the scheduler never gets stuck: after any run it can take its next
    turn if it has the CPU, and otherwise the process on the CPU can give it back. *)
Theorem scheduler_no_starvation st ts st' j :
  good st -> k_nextpid (s_kernel st) + Z.of_nat (length ts) < 2 ^ 31 -> turns_run ts st = Ok (tt, st') ->
  (runnable j (s_kernel st) = true -> (length (k_procs (s_kernel st)) < turns ts)%nat ->
     exists ts1 e ts2 st1 s, ts = ts1 ++ Visit e :: ts2 /\ turns_run ts1 st = Ok (tt, st1) /\
       (turns ts1 <= length (k_procs (s_kernel st)))%nat /\ resumed e = Some j /\
       dispatch j (s_kernel st1) = Ok (true, s) /\ k_cur s = Some j) /\
  (exists t st2, scheduler t st' = Ok (tt, st2) /\ own t = idle (s_kernel st')).
Proof.
  intros Hg Hb Hr. split; [|by eapply scheduler_progress, run_good]. intros Hj Ht.
  pose proof (ahead_bound st j Hg Hj). destruct (visited ts st st' j Hg Hb Hr Hj ltac:(lia)) as (ts1 & e & ts2 & st1 & -> & Hr1 & Hg1 & He & Hj1 & Hn).
  apply runnable_spec in Hj1 as (p & Hp & Hst). pose proof (dispatch_exact _ j p (i_quiet _ (g_inv _ Hg1)) Hp) as Hd.
  rewrite decide_True in Hd by done. eexists ts1, e, ts2, st1, _. split_and!; try done; try lia.
Qed.
End scheduler.
End Scheduler.
