(* ===== verification/ProcWit.v ===== *)
(** * Processes on a concrete machine

    A table of three slots: init, one child of init, and a free slot. The theorems
    of [ProcMain] and [Scheduler] are applied to it. *)

From S2P Require Import Prelude.
From S2P Require Import Memory.
From S2P Require Import Riscv.
From S2P Require Import PageAlloc.
From S2P Require Import KallocSingle.
From S2P Require Import Vm.
From S2P Require Import ProcState.
From S2P Require Import Proc.
From S2P Require Import ProcThms.
From S2P Require Import ProcExit.
From S2P Require Import ProcPost.
From S2P Require Import ProcInv.
From S2P Require Import ProcSys.
From S2P Require Import ProcMain.
From S2P Require Import Scheduler.

Module ProcWit.
Import Proc ProcThms ProcExit ProcPost ProcInv ProcSys ProcMain Scheduler.

#[local] Instance board : MemLayout := virt_layout 16.
#[local] Instance addresses : ProcLayout := {|
  kernel_pagetable := 0x80023000;
  forkret_addr := 0x80002000; initcode_addr := 0x80008000; xstate_addr := fun i => 0x80011000 + 360 * Z.of_nat i
|}.
(** A file layer that counts the references it hands out. *)
#[local] Instance counting_files : FileOps Z := {|
  filedup _ f := f + 1; fileclose _ f := f - 1; idup _ f := f + 1; iput _ f := f - 1;
  namei_root f := (0x80015000, f + 1)
|}.

Definition no_private : pprivate := Private 0 0 0 0 0 0 0 0 (repeat 0 16) 0 (repeat 0 16).
Definition files_private : pprivate :=
  Private 0 0 0 0x80028000 0x80027000 0 0 0 (7 :: repeat 0 15) 0x80015000 (repeat 0 16).
Definition slot (x : pshared) (q : pprivate) : proc := Proc false x q.
Definition memory : kstate kmem_single := KS (fun _ => 0) (KmemSingle 0).

(** Before [userinit]. *)
Definition blank : kernel kmem_single Z :=
  Kernel memory (replicate 3 (slot freed no_private)) 1 None 0 None 0 0.

(** Init runs and its child sleeps on a channel. *)
Definition init_runs : kernel kmem_single Z :=
  Kernel memory [slot (Shared RUNNING None None 0 0 1) files_private;
                 slot (Shared SLEEPING (Some 0%nat) (Some (ChAddr 5)) 0 0 2) files_private;
                 slot freed no_private] 3 (Some 0%nat) 2 (Some 0%nat) 0 0.


Lemma blank_booted : booted blank.
Proof. split; [|done|done]. intros i p [-> _]%lookup_replicate. done. Qed.

(** A table of three slots is checked slot by slot. *)
Ltac slots := intros; repeat match goal with
  | H : [_; _; _] !! ?i = Some _ |- _ => destruct i as [|[|[|i]]]; cbn in H; simplify_eq
  end; unfold used in *; cbn in *; try done; try lia; try congruence.

Lemma demo_inv st0 st1 c0 c1 cur :
  alive (Shared st0 None c0 0 0 1) -> alive (Shared st1 (Some 0%nat) c1 0 0 2) ->
  (st0 = RUNNING <-> cur = 0%nat) -> (st1 = RUNNING <-> cur = 1%nat) -> (cur < 2)%nat ->
  inv (Kernel memory [slot (Shared st0 None c0 0 0 1) files_private;
                      slot (Shared st1 (Some 0%nat) c1 0 0 2) files_private;
                      slot freed no_private] 3 (Some 0%nat) 2 (Some cur) 0 0).
Proof.
  intros Ha0 Ha1 Hr0 Hr1 Hcur. split; cbn.
  - split; [|done]. intros i p Hp. cbn in Hp. slots.
  - slots; [rewrite Hr0|rewrite Hr1|]; split; try done; try congruence; intros [= ->]; lia.
  - intros i [= <-]. destruct cur as [|[|]]; [by eexists..|lia].
  - split.
    + slots.
    + slots.
    + exists 0%nat. eexists. split_and!; [done|done|done|done|slots].
    + slots. exists 0%nat. eexists. split_and!; [done|done|done|done].
Qed.

Lemma init_runs_inv : inv init_runs.
Proof. by apply (demo_inv RUNNING SLEEPING None (Some (ChAddr 5)) 0); [..|lia]. Qed.

(** Init yields, an interrupt wakes the child, and the scheduler runs it. *)
Definition demo_events : list event := [EYield; EWakeup (ChAddr 5); ERunSleep 1].
Definition demo_end : kernel kmem_single Z :=
  Kernel memory [slot (Shared RUNNABLE None None 0 0 1) files_private;
                 slot (Shared RUNNING (Some 0%nat) None 0 0 2) files_private;
                 slot freed no_private] 3 (Some 0%nat) 2 (Some 1%nat) 0 (kvminithart_proc 0x80028000).

Lemma demo_run : runs init_runs demo_events demo_end.
Proof.
  unfold demo_events. apply (runs_snoc _ [EYield; EWakeup (ChAddr 5)] (to_scheduler
    (Kernel memory [slot (Shared RUNNABLE None None 0 0 1) files_private;
                    slot (Shared RUNNABLE (Some 0%nat) (Some (ChAddr 5)) 0 0 2) files_private;
                    slot freed no_private] 3 (Some 0%nat) 2 None 0 0))); [|reflexivity].
  apply (runs_snoc _ [EYield] (to_scheduler
    (Kernel memory [slot (Shared RUNNABLE None None 0 0 1) files_private;
                    slot (Shared SLEEPING (Some 0%nat) (Some (ChAddr 5)) 0 0 2) files_private;
                    slot freed no_private] 3 (Some 0%nat) 2 None 0 0))); [|reflexivity].
  apply (runs_snoc _ []  init_runs); [apply runs_nil|reflexivity].
Qed.

Lemma demo_pids : 0 < k_nextpid init_runs /\ k_nextpid init_runs + Z.of_nat (length demo_events) < 2 ^ 31.
Proof. by vm_compute. Qed.

Lemma proc_table_invariant_witness :
  (exists r p, k_initproc demo_end = Some r /\ k_procs demo_end !! r = Some p /\ alive (p_sh p)) /\
  (forall s', userinit blank = Ok (tt, s') -> inv s').
Proof.
  destruct (proc_table_invariant blank init_runs demo_events demo_end blank_booted init_runs_inv
    (proj1 demo_pids) demo_run (proj2 demo_pids)) as (Hb & _ & _ & _ & _ & Hi & _).
  split; [exact Hi|]. intros s' Hu. exact (proj1 (Hb s' Hu)).
Defined.

Lemma proc_ops_never_stuck_witness : exists s', sys (EExit 3) demo_end = Ok (tt, s').
Proof.
  destruct (proc_ops_never_stuck init_runs demo_events demo_end 1 init_runs_inv (proj1 demo_pids) demo_run
    (proj2 demo_pids) eq_refl) as (_ & _ & He & _). exact (He 3 ltac:(discriminate)).
Defined.


Lemma kill_zero_marks_free_slot_witness :
  exists s', kill 0 init_runs = Ok (0, s') /\
    exists q, k_procs s' !! 2%nat = Some q /\ p_killed (p_sh q) = 1 /\ ~ used (p_sh q).
Proof.
  destruct (kill_zero_marks_free_slot init_runs 0 2 (slot freed no_private) init_runs_inv eq_refl eq_refl
    ltac:(intros Hu; by apply Hu)) as (s' & Hk & Hq & _).
  exists s'. exact (conj Hk Hq).
Defined.

(** The child runs and init waits for its turn. The child yields, the scheduler
    passes the free slot, goes round, and finds init. *)
Definition child_then_init : scheduling kmem_single Z :=
  Scheduling 1 true (Kernel memory [slot (Shared RUNNABLE None None 0 0 1) files_private;
                                    slot (Shared RUNNING (Some 0%nat) None 0 0 2) files_private;
                                    slot freed no_private] 3 (Some 0%nat) 2 (Some 1%nat) 0 0).
Definition demo_turns : list turn :=
  [During EYield; Visit (ERun 2); Again; Visit (ERun 0); During (EWakeup (ChAddr 5)); During EYield; Visit (ERun 1)].

Lemma child_then_init_good : good child_then_init.
Proof.
  split; cbn; [by apply (demo_inv RUNNABLE RUNNING None None 1); [..|lia]|lia|lia|]. intros i [= <-]. split; [done|lia].
Qed.

Definition after_turns : scheduling kmem_single Z :=
  match turns_run demo_turns child_then_init with Ok (_, st) => st | Fail _ => child_then_init end.

Lemma demo_turns_run : turns_run demo_turns child_then_init = Ok (tt, after_turns).
Proof. vm_compute. reflexivity. Qed.
Lemma demo_turns_facts :
  k_nextpid (s_kernel child_then_init) + Z.of_nat (length demo_turns) < 2 ^ 31 /\
  runnable 0 (s_kernel child_then_init) = true /\ (length (k_procs (s_kernel child_then_init)) < turns demo_turns)%nat.
Proof. split_and!; [by vm_compute|done|apply Nat.ltb_lt; reflexivity]. Qed.

Lemma scheduler_no_starvation_witness :
  exists ts1 e ts2 st1 s, demo_turns = ts1 ++ Visit e :: ts2 /\ turns_run ts1 child_then_init = Ok (tt, st1) /\
    (turns ts1 <= length (k_procs (s_kernel child_then_init)))%nat /\ resumed e = Some 0%nat /\
    dispatch 0 (s_kernel st1) = Ok (true, s) /\ k_cur s = Some 0%nat.
Proof.
  exact (proj1 (scheduler_no_starvation child_then_init demo_turns after_turns 0 child_then_init_good
    (proj1 demo_turns_facts) demo_turns_run) (proj1 (proj2 demo_turns_facts)) (proj2 (proj2 demo_turns_facts))).
Defined.
End ProcWit.
