(* ===== verification/VmProc.v ===== *)
(** * The user page table of a process (fourth experiment, [proc.c])

    [proc_pagetable] adds the trampoline and the trapframe to an empty address
    space, [proc_freeuserpagetable] takes a whole user address space down. *)

From S2P Require Import Prelude.
From S2P Require Import Memory.
From S2P Require Import Riscv.
From S2P Require Import PageAlloc.
From S2P Require Import Vm.
From S2P Require Import VmTree.
From S2P Require Import VmWalk.
From S2P Require Import VmMap.
From S2P Require Import VmUser.
From S2P Require Import VmUvm.
From S2P Require Import VmFree.
From S2P Require Import ProcState.
From S2P Require Import Proc.

Module VmProc.
Import VmTree VmWalk VmMap VmUser VmUvm VmFree Proc.

Definition RX : Z := Z.lor PTE_R PTE_X.
Definition RW : Z := Z.lor PTE_R PTE_W.

Section user_table.
Context `{MemLayout} `{!MemLayoutOk} {A : Type} `{!PageAllocator A} `{!PageAllocatorSpec A}.

(** The trampoline page is in the kernel image. *)
Definition trampoline_ok : Prop := 0 <= trampoline <= 2 ^ 56 - PGSIZE.

(** What is mapped above the user pages. *)
Definition top_leaf (tf va : Z) : Z :=
  if va <? TRAMPOLINE then mkpte tf RW else mkpte trampoline RX.

(** An address space of [n] user pages with the two pages on top. *)
Record user_table (s : kstate A) (F : gset Z) (root : Z) (T : tree) (n : nat) (tf : Z) : Prop := {
  ut_space : space s F root T n;
  ut_top va : TRAPFRAME <= va < MAXVA -> leaf (kmem s) T va = top_leaf tf va;
}.

Lemma valid_page_top p : valid_page p -> p + PGSIZE <= 2 ^ 56.
Proof.
  intros Hp. pose proof (valid_page_aligned p Hp). pose proof (valid_page_range p Hp). page_lia.
Qed.

Lemma TRAMPOLINE_val : TRAMPOLINE = 2 ^ 38 - 4096.
Proof. done. Qed.

(** A space only depends on the leaves below [TRAPFRAME]. *)
Lemma space_remaps s F root T n s' F' T' L :
  space s F root T n -> owned s' F' root T' -> remaps s F T s' F' T' L ->
  (forall va, 0 <= va < TRAPFRAME -> L va = leaf (kmem s) T va) ->
  space s' F' root T' n.
Proof.
  intros [Hown Hmax Hall [Hnd Hfr] Hab] Hown' [Ht Hf Hl Hm] HL. pose proof TRAPFRAME_user.
  assert (Hlow : forall va, 0 <= va < TRAPFRAME -> leaf (kmem s') T' va = leaf (kmem s) T va).
  { intros va Hva. rewrite Hl by (unfold user_va, PGSIZE in *; lia). by apply HL. }
  assert (Efr : frames (leaf (kmem s') T') n 0 = frames (leaf (kmem s) T) n 0).
  { apply frames_ext. intros va Hva. apply Hlow. lia. }
  split; [done|done| | |].
  - intros va Hva. rewrite Hlow by lia. by apply Hall.
  - rewrite Efr. split; [done|]. intros q Hq. destruct (Hfr q Hq) as (Hv & HqF & HqT).
    rewrite <- elem_of_pages in *. split_and!; [done|set_solver|].
    intros Hq'. apply HqF. rewrite Hf. set_solver.
  - intros va Hva. rewrite Hlow by (unfold PGSIZE in *; lia). apply Hab. lia.
Qed.

(** An address space without user pages and without the top pages is freed. *)
Lemma free_empty s F root T :
  space s F root T 0 -> (forall va, TRAPFRAME <= va < MAXVA -> leaf (kmem s) T va = 0) ->
  wp (uvmfree root 0) s (fun _ s' => al_ok s' (pages T ∪ F)).
Proof.
  intros Hsp Htop. eapply wp_mono; [apply (uvmfree_ok s F root T 0); [done|rewrite TRAPFRAME_val; lia|done]|].
  cbn beta. intros _ s' Hal. change (npages 0) with 0%nat in Hal. cbn [frames list_to_set] in Hal.
  by rewrite (left_id_L ∅ (∪)) in Hal.
Qed.

(** Unmapping a page above the user pages frees nothing. *)
Lemma unmap_top s F root T n a :
  space s F root T n -> a = TRAMPOLINE \/ a = TRAPFRAME ->
  has (leaf (kmem s) T a) PTE_V = true -> PTE_FLAGS (leaf (kmem s) T a) <> PTE_V ->
  wp (uvmunmap root a 1 false) s (fun _ s' =>
    space s' F root T n /\
    forall va, user_va va -> leaf (kmem s') T va = set_leaf (leaf (kmem s) T) a 0 va).
Proof.
  intros Hsp Ha Hv Hf. pose proof (sp_own _ _ _ _ _ Hsp) as Hown.
  assert (Hrange : a mod PGSIZE = 0 /\ 0 <= a /\ a + 1 * PGSIZE <= MAXVA /\ TRAPFRAME <= a)
    by (destruct Ha as [-> | ->]; done).
  destruct Hrange as (Ham & Ha0 & Ha1 & Ha2).
  eapply wp_mono; [apply (uvmunmap_ok s F root T a 1 false); try done|].
  - intros va Hva. rewrite (leaf_page _ _ va a); [done|]. symmetry. apply same_page; [done|lia].
  - cbn beta. intros _ s' [Hown' Hl Hm]. cbn [freed] in *. rewrite (left_id_L ∅ (∪)) in Hown'.
    assert (Hset : forall va, unmap_range (leaf (kmem s) T) a 1 va = set_leaf (leaf (kmem s) T) a 0 va).
    { intros va. unfold unmap_range, set_leaf. destruct (decide _) as [E|E].
      - apply (same_page a va Ham) in E. destruct (Z.leb_spec a va), (Z.ltb_spec va (a + 1 * PGSIZE)); cbn; (done || lia).
      - destruct (Z.leb_spec a va), (Z.ltb_spec va (a + 1 * PGSIZE)); cbn; try done.
        destruct E. apply same_page; [done|lia]. }
    split; [|intros va Hva; by rewrite Hl, Hset].
    eapply (space_remaps s F root T n s' F T (fun va => leaf (kmem s') T va)); [done|done| |].
    + split; [done|set_solver|done|]. intros x Hx. apply Hm. intros p [Hp|Hp]; [set_solver|]. apply Hx. by right.
    + intros va Hva. rewrite Hl, Hset by (unfold user_va; rewrite TRAPFRAME_val in *; change MAXVA with (2 ^ 38); lia).
      unfold set_leaf. rewrite decide_False; [done|]. intros E. apply (same_page a va Ham) in E. lia.
Qed.

(** [proc_pagetable] either makes an address space without user pages, from free
    pages, or fails and gives every page back. *)
Definition new_table_result (s : kstate A) (F : gset Z) (tf r : Z) (s' : kstate A) : Prop :=
  (r = 0 /\ al_ok s' F) \/
  (valid_page r /\ exists F' T, user_table s' F' r T 0 tf /\ F = F' ∪ pages T /\
     forall x, (forall q, q ∈ F -> ~ in_page q x) -> ld8 (kmem s') x = ld8 (kmem s) x).

Lemma top_leaf_tf tf va : TRAPFRAME <= va < MAXVA ->
  top_leaf tf va = set_leaf (set_leaf (fun _ => 0) TRAMPOLINE (mkpte trampoline RX)) TRAPFRAME (mkpte tf RW) va.
Proof.
  intros Hva. pose proof TRAPFRAME_user. unfold top_leaf, set_leaf.
  destruct (Z.ltb_spec va TRAMPOLINE).
  - rewrite decide_True; [done|]. apply same_page; [done|]. unfold TRAPFRAME in *. lia.
  - rewrite decide_False, decide_True; [done| |].
    + apply same_page; [done|]. unfold TRAMPOLINE in *. lia.
    + intros E. apply same_page in E; [|done]. unfold TRAPFRAME in *. lia.
Qed.

(** Two growths of a tree that started from one page. *)
Lemma trees_free (F F2 F3 : gset Z) (r : Z) (T0 T2 T3 : tree) :
  r ∈ F -> pages T0 = {[r]} -> 
  F ∖ {[r]} = F2 ∪ (pages T2 ∖ pages T0) -> F2 = F3 ∪ (pages T3 ∖ pages T2) ->
  T0 ⊆ T2 -> T2 ⊆ T3 -> F = F3 ∪ pages T3.
Proof.
  intros Hr Hp0 HF2 HF3 Ht2%pages_mono Ht3%pages_mono. rewrite Hp0 in *. apply set_eq. intros q.
  assert (Hq : q ∈ F <-> q = r \/ q ∈ F ∖ {[r]}) by (destruct (decide (q = r)); set_solver).
  rewrite Hq, HF2, HF3. destruct (decide (q ∈ pages T2)), (decide (q = r)); set_solver.
Qed.

Lemma new_pagetable_ok s F tf :
  trampoline_ok -> al_ok s F -> valid_page tf ->
  wp (new_pagetable tf) s (new_table_result s F tf).
Proof.
  intros Htr Hal Htf. pose proof TRAPFRAME_user as HTU. pose proof TRAPFRAME_val as HTF. pose proof TRAMPOLINE_val as HTP.
  unfold new_pagetable. apply wp_bind. eapply wp_mono; [by apply uvmcreate_ok|]. cbn beta.
  intros r s1 [(-> & -> & ->)|(Hr & Hsp & Hl0 & Hso)]; [apply wp_ret; by left|].
  assert (Hv : valid_page r) by exact (al_ok_valid _ _ _ Hal Hr). pose proof (valid_page_range _ Hv).
  destruct (Z.eqb_spec r 0); [lia|].
  assert (Hp0 : pages {[ [] := r ]} = {[r]}) by (unfold pages; apply map_img_singleton_L).
  assert (Hum : forall va, TRAPFRAME <= va < MAXVA -> user_va va) by (unfold user_va; lia).
  apply wp_bind. eapply wp_mono.
  { apply (mappages_page s1 (F ∖ {[r]}) r {[ [] := r ]}); [apply Hsp|done|done|done|apply Htr| |done|by rewrite Hl0].
    destruct Htr. lia. }
  cbn beta. intros x s2 (F2 & T2 & Hown2 & [(-> & Hrm2)|(-> & -> & Hrm2)]).
  2: { (* no memory for the trampoline mapping *)
    pose proof (space_remaps _ _ _ _ _ _ _ _ _ Hsp Hown2 Hrm2 ltac:(done)) as Hsp2. cbn [Z.ltb Z.compare].
    apply wp_bind. eapply wp_mono; [apply (free_empty s2 ∅ r T2 Hsp2)|].
    - intros va Hva. rewrite (rm_leaf _ _ _ _ _ _ _ Hrm2) by auto. apply Hl0.
    - cbn beta. intros _ s3 Hal3. apply wp_ret. left. split; [done|].
      replace F with (pages T2 ∪ ∅); [done|].
      pose proof (rm_free _ _ _ _ _ _ _ Hrm2) as HF. rewrite Hp0 in HF.
      pose proof (pages_mono _ _ (rm_tree _ _ _ _ _ _ _ Hrm2)) as Hsub. rewrite Hp0 in Hsub.
      apply set_eq. intros q. destruct (decide (q = r)) as [->|Hne]; set_solver. }
  cbn [Z.ltb Z.compare].
  assert (Hsp2 : space s2 F2 r T2 0).
  { eapply space_remaps; [done..|]. intros va Hva. unfold set_leaf. rewrite decide_False; [done|].
    intros E. apply same_page in E; [|done]. lia. }
  assert (Hl2 : forall va, user_va va -> leaf (kmem s2) T2 va = set_leaf (fun _ => 0) TRAMPOLINE (mkpte trampoline RX) va).
  { intros va Hva. rewrite (rm_leaf _ _ _ _ _ _ _ Hrm2) by done. unfold set_leaf. by rewrite Hl0. }
  assert (Hz : leaf (kmem s2) T2 TRAPFRAME = 0).
  { rewrite Hl2 by (by apply Hum). unfold set_leaf. by rewrite decide_False. }
  apply wp_bind. eapply wp_mono.
  { apply (mappages_page s2 F2 r T2 TRAPFRAME tf RW Hown2); [done|done|done| | |done|by rewrite Hz];
      pose proof (valid_page_range _ Htf); pose proof (valid_page_top _ Htf); lia. }
  cbn beta. intros x s3 (F3 & T3 & Hown3 & [(-> & Hrm3)|(-> & -> & Hrm3)]).
  2: { (* no memory for the trapframe mapping *)
    cbn [Z.ltb Z.compare].
    pose proof (space_remaps _ _ _ _ _ _ _ _ _ Hsp2 Hown3 Hrm3 ltac:(done)) as Hsp3.
    assert (Htop : leaf (kmem s3) T3 TRAMPOLINE = mkpte trampoline RX).
    { rewrite (rm_leaf _ _ _ _ _ _ _ Hrm3), Hl2 by (by apply Hum). unfold set_leaf. by rewrite decide_True. }
    apply wp_bind. eapply wp_mono.
    { apply (unmap_top s3 ∅ r T3 0 TRAMPOLINE Hsp3); [by left|rewrite Htop..]; [by apply mkpte_valid|by rewrite mkpte_flags]. }
    cbn beta. intros _ s4 [Hsp4 Hl4]. apply wp_bind. eapply wp_mono; [apply (free_empty s4 ∅ r T3 Hsp4)|].
    - intros va Hva. rewrite Hl4 by auto. unfold set_leaf. case_decide as E; [done|].
      rewrite (rm_leaf _ _ _ _ _ _ _ Hrm3), Hl2 by auto. unfold set_leaf. by rewrite decide_False.
    - cbn beta. intros _ s5 Hal5. apply wp_ret. left. split; [done|].
      by rewrite (trees_free _ _ _ _ _ _ _ Hr Hp0 (rm_free _ _ _ _ _ _ _ Hrm2) (rm_free _ _ _ _ _ _ _ Hrm3)
        (rm_tree _ _ _ _ _ _ _ Hrm2) (rm_tree _ _ _ _ _ _ _ Hrm3)), (comm_L (∪)). }
  cbn [Z.ltb Z.compare]. apply wp_ret. right. split; [done|]. exists F3, T3. split; [split|split].
  - eapply (space_remaps s2 F2 r T2 0 s3 F3 T3); [done..|]. intros va Hva. unfold set_leaf. rewrite decide_False; [done|].
    intros E. apply same_page in E; [|done]. lia.
  - intros va Hva. rewrite (rm_leaf _ _ _ _ _ _ _ Hrm3), top_leaf_tf by auto. unfold set_leaf.
    case_decide; [done|]. by rewrite Hl2 by auto.
  - by rewrite (trees_free _ _ _ _ _ _ _ Hr Hp0 (rm_free _ _ _ _ _ _ _ Hrm2) (rm_free _ _ _ _ _ _ _ Hrm3)
        (rm_tree _ _ _ _ _ _ _ Hrm2) (rm_tree _ _ _ _ _ _ _ Hrm3)).
  - intros x Hx. assert (Ha1 : apart (F ∖ {[r]}) {[ [] := r ]} x).
    { intros q [Hq|(π & [_ <-]%lookup_singleton_Some)]; apply Hx; set_solver. }
    rewrite (rm_frame _ _ _ _ _ _ _ Hrm3), (rm_frame _ _ _ _ _ _ _ Hrm2 x Ha1); [apply Hso, Hx; done|].
    intros q Hq. apply Ha1. rewrite <- elem_of_pages in *.
    pose proof (rm_free _ _ _ _ _ _ _ Hrm2). destruct (decide (q ∈ pages {[ [] := r ]})); set_solver.
Qed.

Lemma top_leaf_valid tf va :
  has (top_leaf tf va) PTE_V = true /\ PTE_FLAGS (top_leaf tf va) <> PTE_V.
Proof.
  unfold top_leaf. destruct (va <? TRAMPOLINE); (split; [by apply mkpte_valid|by rewrite mkpte_flags]).
Qed.

(** [proc_freeuserpagetable] gives back the user pages and the table pages; the
    trapframe page is not its business. *)
Lemma proc_freeuserpagetable_ok s F root T sz tf :
  user_table s F root T (npages sz) tf -> 0 <= sz <= TRAPFRAME ->
  wp (proc_freeuserpagetable root sz) s (fun _ s' =>
    al_ok s' (pages T ∪ (list_to_set (frames (leaf (kmem s) T) (npages sz) 0) ∪ F))).
Proof.
  intros [Hsp Htop] Hsz. pose proof TRAPFRAME_user as HTU. pose proof TRAPFRAME_val as HTF.
  assert (Hum : forall va, 0 <= va < MAXVA -> user_va va) by (unfold user_va; lia).
  assert (Ht1 : TRAPFRAME <= TRAMPOLINE < MAXVA) by done. assert (Ht2 : TRAPFRAME <= TRAPFRAME < MAXVA) by done.
  unfold proc_freeuserpagetable. apply wp_bind. eapply wp_mono.
  { apply (unmap_top s F root T _ TRAMPOLINE Hsp); [by left|rewrite Htop by done; apply top_leaf_valid..]. }
  cbn beta. intros _ s1 [Hsp1 Hl1].
  assert (E1 : leaf (kmem s1) T TRAPFRAME = top_leaf tf TRAPFRAME).
  { rewrite Hl1 by (apply Hum; lia). unfold set_leaf. rewrite decide_False by done. by apply Htop. }
  apply wp_bind. eapply wp_mono.
  { apply (unmap_top s1 F root T _ TRAPFRAME Hsp1); [by right|rewrite E1; apply top_leaf_valid..]. }
  cbn beta. intros _ s2 [Hsp2 Hl2].
  assert (Hl : forall va, user_va va -> leaf (kmem s2) T va = if TRAPFRAME <=? va then 0 else leaf (kmem s) T va).
  { intros va Hva. rewrite Hl2 by done. unfold set_leaf at 1. rewrite Hl1 by done. unfold set_leaf, user_va in *.
    pose proof (same_page TRAPFRAME va eq_refl) as S1. pose proof (same_page TRAMPOLINE va eq_refl) as S2.
    unfold TRAPFRAME, TRAMPOLINE in *. destruct (Z.leb_spec (MAXVA - PGSIZE - PGSIZE) va).
    - case_decide; [done|]. case_decide as E; [done|]. rewrite S1 in *. rewrite S2 in *. lia.
    - rewrite !decide_False; [done| |]; [rewrite S2|rewrite S1]; unfold PGSIZE in *; lia. }
  eapply wp_mono; [apply (uvmfree_ok s2 F root T sz Hsp2 Hsz)|].
  - intros va Hva. rewrite Hl by (apply Hum; lia). by destruct (Z.leb_spec TRAPFRAME va); [|lia].
  - cbn beta. intros _ s3 Hal. rewrite (frames_ext _ (leaf (kmem s) T)) in Hal; [done|].
    intros va Hva. pose proof (npages_max sz Hsz).
    rewrite Hl by (apply Hum; lia). by destruct (Z.leb_spec TRAPFRAME va); [lia|].
Qed.

(** Growing a new process leaves the two pages on top alone. *)
Lemma user_table_grow s F root T tf sz :
  user_table s F root T 0 tf -> 0 < sz <= TRAPFRAME ->
  wp (uvmalloc root 0 sz) s (fun r s' => exists F' T',
    (r = sz /\ user_table s' F' root T' (npages sz) tf /\ grown fresh_page s F T 0 s' F' T' (npages sz)) \/
    (r = 0 /\ user_table s' F' root T' 0 tf /\ extends s F T s' F' T')).
Proof.
  intros [Hsp Htop] Hsz. pose proof TRAPFRAME_user. eapply wp_mono; [apply (uvmalloc_ok s F root T 0 sz Hsp); lia|].
  cbn beta. intros r s' (F' & T' & [(-> & Hsp' & Hg)|(-> & Hsp' & He)]); exists F', T'; [left|right];
    (split; [done|]; split; [split; [done|]|done]); intros va Hva; rewrite <- Htop by done.
  - pose proof (sp_max _ _ _ _ _ Hsp'). apply (gr_leaf _ _ _ _ _ _ _ _ _ Hg); [unfold user_va; rewrite TRAPFRAME_val in *; lia|].
    change (npages 0) with 0%nat. lia.
  - apply (ext_leaf _ _ _ _ _ _ He). unfold user_va. rewrite TRAPFRAME_val in *. lia.
Qed.

(** The user memory of a process from [proc_pagetable] to
    [proc_freeuserpagetable]. *)
Definition process_life (tf sz : Z) : M (kstate A) unit :=
  root ← new_pagetable tf;
  if root =? 0 then mret tt else
  r ← uvmalloc root 0 sz;
  proc_freeuserpagetable root (if r =? 0 then 0 else sz).

(** C1: Making the page table of a process with its trampoline and trapframe
    mappings, growing the process and taking it all down gives every page back,
    wherever memory runs out on the way. The trapframe page itself is left to the
    caller. *)
Theorem process_life_frees_all s F tf sz :
  trampoline_ok -> al_ok s F -> valid_page tf -> 0 < sz <= TRAPFRAME ->
  wp (process_life tf sz) s (fun _ s' => al_ok s' F).
Proof.
  intros Htr Hal Htf Hsz. unfold process_life. apply wp_bind. eapply wp_mono; [by apply new_pagetable_ok|].
  cbn beta. intros root s1 [(-> & Hal1)|(Hv & F1 & T & Hut & HF & Hm)]; [by apply wp_ret|].
  pose proof (valid_page_range _ Hv). destruct (Z.eqb_spec root 0); [lia|].
  apply wp_bind. eapply wp_mono; [by apply user_table_grow|]. cbn beta.
  intros r s2 (F2 & T2 & [(-> & Hut2 & Hg)|(-> & Hut2 & He)]).
  - destruct (Z.eqb_spec sz 0); [lia|]. eapply wp_mono; [apply (proc_freeuserpagetable_ok s2 F2 root T2 sz tf Hut2); lia|].
    cbn beta. intros _ s3 Hal3. replace F with (pages T2 ∪ (list_to_set (frames (leaf (kmem s2) T2) (npages sz) 0) ∪ F2)); [done|].
    pose proof (gr_free _ _ _ _ _ _ _ _ _ Hg) as HF1. rewrite Nat.sub_0_r in HF1. change (Z.of_nat 0 * PGSIZE) with 0 in HF1.
    rewrite HF, HF1. pose proof (pages_mono _ _ (gr_tree _ _ _ _ _ _ _ _ _ Hg)) as Hsub.
    apply set_eq. intros q. destruct (decide (q ∈ pages T)); set_solver.
  - cbn [Z.eqb]. eapply wp_mono; [apply (proc_freeuserpagetable_ok s2 F2 root T2 0 tf Hut2); lia|].
    cbn beta. intros _ s3 Hal3. change (npages 0) with 0%nat in Hal3. cbn [frames list_to_set] in Hal3.
    replace F with (pages T2 ∪ (∅ ∪ F2)); [done|].
    pose proof (ext_free _ _ _ _ _ _ He) as HF1. pose proof (pages_mono _ _ (ext_tree _ _ _ _ _ _ He)) as Hsub.
    rewrite HF, HF1. apply set_eq. intros q. destruct (decide (q ∈ pages T)); set_solver.
Qed.
End user_table.
End VmProc.
