(* ===== verification/Exec.v ===== *)
(** * Program loading (fourth experiment, [exec.c]): model

    [exec] and [loadseg] on the kernel state of [Proc]. The file system and the
    layout of an ELF file ([fs.c], [elf.h]) are not part of the repository and are
    behind interfaces: [readi] to a kernel address is the list of the bytes it
    delivers. [goto bad] is a left value that carries the current [sz]. *)

From S2P Require Import Prelude.
From S2P Require Import Memory.
From S2P Require Import Riscv.
From S2P Require Import PageAlloc.
From S2P Require Import Vm.
From S2P Require Import ProcState.
From S2P Require Import Proc.

(** Inode operations of the file layer; [namei] returns 0 when the path does not
    exist. *)
Class InodeOps (F : Type) : Type := {
  begin_op : F -> F;
  end_op : F -> F;
  namei : list Z -> F -> Z * F;
  ilock : Z -> F -> F;
  iunlockput : Z -> F -> F;
  readi : Z -> Z -> Z -> F -> list Z;
}.

(** [struct elfhdr] and [struct proghdr], read from the bytes of the file. *)
Record elfhdr : Type := Elfhdr { magic : Z; e_entry : Z; phoff : Z; phnum : Z }.
Record proghdr : Type := Proghdr { ph_type : Z; ph_off : Z; vaddr : Z; filesz : Z; memsz : Z }.
Class ElfFormat : Type := {
  ELF_MAGIC : Z;
  ELF_PROG_LOAD : Z;
  sizeof_elfhdr : Z;
  sizeof_proghdr : Z;
  dec_elfhdr : list Z -> elfhdr;
  dec_proghdr : list Z -> proghdr;
}.

(** [MAXARG], and the address of the array [ustack] on the kernel stack. *)
Class ExecParams : Type := { MAXARG : Z; ustack_addr : Z }.

Module Exec.
Import Proc.

(** The bytes [l] are written to memory from [a] on. *)
Fixpoint write_bytes (m : mem) (a : Z) (l : list Z) : mem :=
  match l with
  | [] => m
  | b :: l' => write_bytes (st8 m a b) (a + 1) l'
  end.

(** [strlen]; [None] when there is no zero byte among the first [fuel]. *)
Fixpoint strlen (fuel : nat) (m : mem) (a : Z) : option Z :=
  match fuel with
  | O => None
  | S fuel' => if ld8 m a =? 0 then Some 0 else option_map Z.succ (strlen fuel' m (a + 1))
  end.

(** The part of [path] after its last [/] (47). *)
Fixpoint last_component (path last : list Z) : list Z :=
  match path with
  | [] => last
  | c :: path' => last_component path' (if c =? 47 then path' else last)
  end.

Section ops.
Context `{MemLayout} `{ProcLayout} `{ElfFormat} `{ExecParams}.
Context {A : Type} `{!PageAllocator A} {F : Type} `{!FileOps F} `{!InodeOps F}.

Abbreviation P := (M (kernel A F)).

(** [readi(ip, 0, dst, off, n)] *)
Definition read_inode (ip off n : Z) : P (list Z) := gets (fun s => readi ip off n (k_files s)).
Definition readi_to (ip dst off n : Z) : P Z :=
  l ← read_inode ip off n;
  vm (modify (fun s => ksetmem (write_bytes (kmem s) dst l) s));;
  mret (Z.of_nat (length l)).

(** An argument string was copied to one page by [sys_exec]. *)
Definition strlen_at (a : Z) : P Z :=
  n ← gets (fun s => strlen (Z.to_nat PGSIZE) (kmem (k_vm s)) a);
  match n with
  | Some n => mret n
  | None => fail (Undefined "strlen")
  end.

Fixpoint loadseg_loop (fuel : nat) (pagetable va ip offset sz i : Z) : P Z :=
  if i <? sz then
    match fuel with
    | O => fail OutOfFuel
    | S fuel' =>
        pa ← vm (walkaddr pagetable (u64 (va + i)));
        if pa =? 0 then panic "loadseg: address should exist" else
        let n := if sz - i <? PGSIZE then sz - i else PGSIZE in
        r ← readi_to ip pa (u32 (offset + i)) n;
        if negb (r =? n) then mret (-1) else
        loadseg_loop fuel' pagetable va ip offset sz (u32 (i + PGSIZE))
    end
  else mret 0.

(** [sz] is a 32-bit number: at most 2^20 iterations. The counter wraps only when
    [sz] is above 2^32 - 4096, and then the fuel runs out. *)
Definition loadseg (pagetable va ip offset sz : Z) : P Z :=
  if negb (va mod PGSIZE =? 0) then panic "loadseg: va must be page aligned" else
  loadseg_loop (Z.to_nat (2 ^ 20)) pagetable va ip (u32 offset) (u32 sz) 0.

(** The loop over the program headers, with [n] of them left. *)
Fixpoint load_segments (n : nat) (pagetable ip off sz : Z) : P (Z + Z) :=
  match n with
  | O => mret (inr sz)
  | S n' =>
      l ← read_inode ip (u32 off) sizeof_proghdr;
      if negb (Z.of_nat (length l) =? sizeof_proghdr) then mret (inl sz) else
      let ph := dec_proghdr l in
      let next := load_segments n' pagetable ip (s32 (off + sizeof_proghdr)) in
      if negb (ph_type ph =? ELF_PROG_LOAD) then next sz else
      if memsz ph <? filesz ph then mret (inl sz) else
      if u64 (vaddr ph + memsz ph) <? vaddr ph then mret (inl sz) else
      sz1 ← vm (uvmalloc pagetable sz (u64 (vaddr ph + memsz ph)));
      if sz1 =? 0 then mret (inl sz) else
      if negb (vaddr ph mod PGSIZE =? 0) then mret (inl sz1) else
      r ← loadseg pagetable (vaddr ph) ip (ph_off ph) (filesz ph);
      if r <? 0 then mret (inl sz1) else next sz1
  end.

(** The loop that pushes the argument strings: the stack pointer and [argc]. *)
Fixpoint push_args (pagetable stackbase : Z) (argv : list Z) (argc sp : Z) : P (option (Z * Z)) :=
  match argv with
  | [] => mret (Some (argc, sp))
  | a :: argv' =>
      if MAXARG <=? argc then mret None else
      n ← strlen_at a;
      let sp := u64 (sp - (n + 1)) in
      let sp := u64 (sp - sp mod 16) in
      if sp <? stackbase then mret None else
      r ← vm (copyout pagetable sp a (n + 1));
      if r <? 0 then mret None else
      vm (store64 (u64 (ustack_addr + 8 * argc)) sp);;
      push_args pagetable stackbase argv' (argc + 1) sp
  end.

(** The stack of the new image: two pages above the segments, the lower one a
    guard, the arguments on the upper one. Returns [sz], [argc] and [sp]. *)
Definition build_stack (pagetable sz : Z) (argv : list Z) : P (Z + Z * Z * Z) :=
  let sz := PGROUNDUP sz in
  sz1 ← vm (uvmalloc pagetable sz (u64 (sz + 2 * PGSIZE)));
  if sz1 =? 0 then mret (inl sz) else
  let sz := sz1 in
  vm (uvmclear pagetable (u64 (sz - 2 * PGSIZE)));;
  let stackbase := u64 (sz - PGSIZE) in
  r ← push_args pagetable stackbase argv 0 sz;
  match r with
  | None => mret (inl sz)
  | Some (argc, sp) =>
      vm (store64 (u64 (ustack_addr + 8 * argc)) 0);;
      let sp := u64 (sp - (argc + 1) * 8) in
      let sp := u64 (sp - sp mod 16) in
      if sp <? stackbase then mret (inl sz) else
      r ← vm (copyout pagetable sp ustack_addr ((argc + 1) * 8));
      if r <? 0 then mret (inl sz) else mret (inr (sz, argc, sp))
  end.

(** From the saved arguments to the return: the process gets the new image.
    [None] is [goto bad]. *)
Definition commit (i : nat) (path : list Z) (entry pagetable sz argc sp oldsz : Z) : P (option Z) :=
  p ← proc_at i;
  let q := p_pr p in
  vm (store64 (u64 (p_trapframe q + tf_a1)) sp);;
  private i (fun q => set_name (safestrcpy 16 (p_name q) (last_component path path)) q);;
  let oldpagetable := p_pagetable q in
  private i (set_pagetable pagetable);;
  _ ← vm (kvmdealloc (p_k_pagetable q) (p_sz q) 0);
  r ← vm (kvmcopy pagetable (p_k_pagetable q) 0 sz);
  if r <? 0 then mret None else
  private i (set_sz sz);;
  vm (store64 (u64 (p_trapframe q + tf_epc)) entry);;
  vm (store64 (u64 (p_trapframe q + tf_sp)) sp);;
  vm (proc_freeuserpagetable oldpagetable oldsz);;
  (if p_pid (p_sh p) =? 1 then _ ← vm (vmprint pagetable 0); mret tt else mret tt);;
  mret (Some (s32 argc)).

(** The label [bad]. *)
Definition bad (pagetable sz : Z) (ip : option Z) : P Z :=
  (if pagetable =? 0 then mret tt else vm (proc_freeuserpagetable pagetable sz));;
  (match ip with
   | Some ip => files (iunlockput ip);; files end_op
   | None => mret tt
   end);;
  mret (-1).

(** The end of [exec]: the commit, or [bad] when it fails. *)
Definition finish (i : nat) (path : list Z) (entry pagetable sz argc sp oldsz : Z) : P Z :=
  r ← commit i path entry pagetable sz argc sp oldsz;
  match r with
  | Some argc => mret argc
  | None => bad pagetable sz None
  end.

Definition exec (path argv : list Z) : P Z :=
  i ← myproc;
  files begin_op;;
  r ← gets (fun s => namei path (k_files s));
  let ip := fst r in
  files (fun _ => snd r);;
  if ip =? 0 then files end_op;; mret (-1) else
  files (ilock ip);;
  l ← read_inode ip 0 sizeof_elfhdr;
  if negb (Z.of_nat (length l) =? sizeof_elfhdr) then bad 0 0 (Some ip) else
  let elf := dec_elfhdr l in
  if negb (magic elf =? ELF_MAGIC) then bad 0 0 (Some ip) else
  pagetable ← proc_pagetable i;
  if pagetable =? 0 then bad 0 0 (Some ip) else
  r ← load_segments (Z.to_nat (phnum elf)) pagetable ip (s32 (phoff elf)) 0;
  match r with
  | inl sz => bad pagetable sz (Some ip)
  | inr sz =>
      files (iunlockput ip);;
      files end_op;;
      p ← proc_at i;
      let oldsz := p_sz (p_pr p) in
      r ← build_stack pagetable sz argv;
      match r with
      | inl sz => bad pagetable sz None
      | inr (sz, argc, sp) =>
          finish i path (e_entry elf) pagetable sz argc sp oldsz
      end
  end.
End ops.
End Exec.
