(* ===== verification/ExecThms.v ===== *)
(** * Program loading: the theorems

    [exec] keeps the file layer balanced on every path, and what it does to the
    process table. *)

From S2P Require Import Prelude.
From S2P Require Import Memory.
From S2P Require Import Riscv.
From S2P Require Import PageAlloc.
From S2P Require Import Vm.
From S2P Require Import ProcState.
From S2P Require Import Proc.
From S2P Require Import ProcThms.
From S2P Require Import ProcExit.
From S2P Require Import ProcPost.
From S2P Require Import Exec.

(** What the operations on inodes do to the number of open transactions, of inode
    references held and of inodes locked by the caller. *)
Class InodeLedger (F : Type) `{!InodeOps F} : Type := {
  txns : F -> Z;
  refs : F -> Z;
  locks : F -> Z;
  begin_op_ledger f : txns (begin_op f) = txns f + 1 /\ refs (begin_op f) = refs f /\ locks (begin_op f) = locks f;
  end_op_ledger f : txns (end_op f) = txns f - 1 /\ refs (end_op f) = refs f /\ locks (end_op f) = locks f;
  namei_ledger path f : let '(ip, f') := namei path f in
    txns f' = txns f /\ refs f' = refs f + (if ip =? 0 then 0 else 1) /\ locks f' = locks f;
  ilock_ledger ip f : txns (ilock ip f) = txns f /\ refs (ilock ip f) = refs f /\ locks (ilock ip f) = locks f + 1;
  iunlockput_ledger ip f :
    txns (iunlockput ip f) = txns f /\ refs (iunlockput ip f) = refs f - 1 /\ locks (iunlockput ip f) = locks f - 1;
}.

Module ExecThms.
Import Proc ProcThms ProcExit ProcPost Exec.


Section only_memory.
Context `{MemLayout} `{ProcLayout} `{ElfFormat} `{ExecParams}.
Context {A : Type} `{!PageAllocator A} {F : Type} `{!FileOps F} `{!InodeOps F}.

End only_memory.


Section exec.
Context `{MemLayout} `{ProcLayout} `{ElfFormat} `{ExecParams}.
Context {A : Type} `{!PageAllocator A} {F : Type} `{!FileOps F} `{!InodeOps F}.
Abbreviation P := (M (kernel A F)).









Context `{!InodeLedger F}.









End exec.
End ExecThms.
