(* ===== verification/ExecFail.v ===== *)
(** * Program loading: when the commit fails

    [exec] replaces the page table of the process before [kvmcopy] can fail, and
    its error path frees the new table, which the process keeps. *)

From S2P Require Import Prelude.
From S2P Require Import Memory.
From S2P Require Import Riscv.
From S2P Require Import PageAlloc.
From S2P Require Import Vm.
From S2P Require Import VmTree.
From S2P Require Import VmWalk.
From S2P Require Import VmMap.
From S2P Require Import VmUser.
From S2P Require Import VmUvm.
From S2P Require Import VmFree.
From S2P Require Import VmCopy.
From S2P Require Import ProcState.
From S2P Require Import Proc.
From S2P Require Import VmProc.
From S2P Require Import ProcThms.
From S2P Require Import ProcExit.
From S2P Require Import ProcPost.
From S2P Require Import Exec.
From S2P Require Import ExecThms.

Module ExecFail.
Import VmTree VmWalk VmMap VmUser VmUvm VmFree VmCopy Proc VmProc ProcThms ProcExit ProcPost Exec ExecThms.

Section memory.
Context `{MemLayout} `{!MemLayoutOk} {A : Type} `{!PageAllocator A} `{!PageAllocatorSpec A}.

(** Memory agrees on the pages of a tree. *)
Definition same_tree (m m' : mem) (T : tree) : Prop :=
  forall p a, tpage T p -> in_page p a -> ld8 m' a = ld8 m a.

Lemma user_table_frame s F root T n tf s' F' :
  user_table s F root T n tf -> al_ok s' F' -> F' ⊆ F -> same_tree (kmem s) (kmem s') T ->
  user_table s' F' root T n tf.
Proof.
  intros [[[Hal Hpt Hsep] Hmax Hall [Hnd Hfr] Hab] Htop] Hal' Hsub Hm.
  assert (Hl : forall va, leaf (kmem s') T va = leaf (kmem s) T va) by (intros va; by apply leaf_frame).
  split; [split|].
  - split; [done|by eapply pt_ok_frame|]. intros p Hp. specialize (Hsep p Hp). set_solver.
  - done.
  - intros va Hva. rewrite Hl. by apply Hall.
  - rewrite (frames_ext _ (leaf (kmem s) T)) by (intros; apply Hl). split; [done|].
    intros p Hp. destruct (Hfr p Hp) as (? & ? & ?). split_and!; [done|set_solver|done].
  - intros va Hva. rewrite Hl. by apply Hab.
  - intros va Hva. rewrite Hl. by apply Htop.
Qed.

Lemma parent_same (s s' : kstate A) F T old To n :
  parent s F T old To n -> same_tree (kmem s) (kmem s') To -> parent s' F T old To n.
Proof.
  intros [Hpt Hmax Hall Htab Hfr] Hm.
  assert (Hl : forall va, leaf (kmem s') To va = leaf (kmem s) To va) by (intros va; by apply leaf_frame).
  split; [by eapply pt_ok_frame|done| |done|].
  - intros va Hva. rewrite Hl. by apply Hall.
  - intros p. rewrite (frames_ext _ (leaf (kmem s) To)) by (intros; apply Hl). apply Hfr.
Qed.

(** [kvmdealloc] of the whole user part: nothing is freed. *)
Lemma kvmdealloc_all s F root T oldsz :
  owned s F root T -> 0 <= oldsz <= TRAPFRAME -> all_leaves (leaf (kmem s) T) (npages oldsz) 0 ->
  wp (kvmdealloc root oldsz 0) s (fun _ s' => unmaps s F T s' root 0 (npages oldsz) ∅).
Proof.
  intros Hown Hsz Hall. unfold kvmdealloc. change (PGROUNDUP 0) with 0.
  pose proof (npages_max oldsz Hsz) as Hmax. pose proof TRAPFRAME_val as HTF.
  destruct (Z.leb_spec oldsz 0).
  { assert (oldsz = 0) as -> by lia. apply wp_ret. change (npages 0) with 0%nat. by apply unmaps_refl. }
  rewrite npages_spec by done. pose proof (npages_bounds oldsz Hsz).
  destruct (Z.ltb_spec 0 (Z.of_nat (npages oldsz) * PGSIZE)); [|unfold PGSIZE in *; lia]. cbn [when].
  rewrite Z.sub_0_r, Z.div_mul, s32_small, u64_small by (unfold PGSIZE in *; lia).
  apply wp_bind. eapply wp_mono; [apply (uvmunmap_ok s F root T 0 (npages oldsz) false); try done|].
  - rewrite Z.add_0_l. change MAXVA with (2 ^ 38). lia.
  - cbn beta. intros _ s' Hu. by apply wp_ret.
Qed.
End memory.

Section failure.
Context `{MemLayout} `{!MemLayoutOk} `{ProcLayout} `{ElfFormat} `{ExecParams}.
Context {A : Type} `{!PageAllocator A} `{!PageAllocatorSpec A} {F : Type} `{!FileOps F} `{!InodeOps F}.
Abbreviation P := (M (kernel A F)).

Lemma wp_vm {B C} (m : M (kstate A) B) (g : B -> P C) v l np ini fs c n sp (R : B -> kstate A -> Prop) Q :
  wp m v R -> (forall b v', R b v' -> wp (g b) (Kernel v' l np ini fs c n sp) Q) ->
  wp (vm m ≫= g) (Kernel v l np ini fs c n sp) Q.
Proof.
  intros Hm Hg. destruct (wp_elim _ _ _ Hm) as (b & v' & E & HR). eapply wp_bind_Ok; [|by apply Hg].
  unfold vm. cbn. by rewrite E.
Qed.

Lemma wp_private {B} i f (g : P B) v l np ini fs c n sp p Q :
  l !! i = Some p -> wp g (Kernel v (<[i := on_pr f p]> l) np ini fs c n sp) Q ->
  wp (private i f;; g) (Kernel v l np ini fs c n sp) Q.
Proof. intros Hp HQ. eapply wp_bind_Ok; [unfold private; by apply upd_ok|exact HQ]. Qed.

(** The memory when [exec] is about to commit: the new image [pt] of [sz] bytes
    is complete, and the kernel page table of the process maps its old image. *)
Record ready (v : kstate A) (X : gset Z) (T Tk : tree) (q : pprivate) (pt sz : Z) : Prop := {
  rd_new : user_table v X pt T (npages sz) (p_trapframe q);
  rd_sz : 0 <= sz <= PLIC /\ PLIC <= TRAPFRAME;
  rd_rwx va : 0 <= va < PGROUNDUP sz -> has (leaf (kmem v) T va) RWX = true;
  rd_kernel : owned v X (p_k_pagetable q) Tk;
  rd_apart : parent v X Tk pt T (npages sz);
  rd_old : 0 <= p_sz q <= TRAPFRAME /\ all_leaves (leaf (kmem v) Tk) (npages (p_sz q)) 0;
  rd_free va : PGROUNDUP (p_sz q) <= va < PGROUNDUP sz -> has (leaf (kmem v) Tk va) PTE_V = false;
  rd_tf : valid_page (p_trapframe q) /\ ~ tpage T (p_trapframe q) /\ ~ tpage Tk (p_trapframe q) /\ p_trapframe q ∉ X;
}.

(** Writing a register into the trapframe page. *)
Lemma ready_store v X T Tk q pt sz a x :
  ready v X T Tk q pt sz -> 0 <= a <= 4088 ->
  ready (ksetmem (st64 (kmem v) (u64 (p_trapframe q + a)) x) v) X T Tk q pt sz.
Proof.
  intros [Hn Hsz Hrwx Hk Hpa Hold Hfree (Hv & HT & HTk & HX)] Ha.
  pose proof (valid_page_range _ Hv). pose proof (valid_page_top _ Hv).
  set (m' := st64 _ _ _).
  assert (Hm : forall p y, p ∈ X \/ tpage T p \/ tpage Tk p -> in_page p y -> ld8 m' y = ld8 (kmem v) y).
  { intros p y Hp Hy. unfold m'. apply ld8_st_le_out. rewrite u64_small by lia. intros Hy'.
    assert (Hvp : valid_page p).
    { destruct Hp as [Hp|[Hp|Hp]]; [by eapply al_ok_valid; [apply Hk|]|..].
      - eapply pt_ok_tpage; [apply (own_pt _ _ _ _ (sp_own _ _ _ _ _ (ut_space _ _ _ _ _ _ Hn)))|done].
      - eapply pt_ok_tpage; [apply (own_pt _ _ _ _ Hk)|done]. }
    assert (p <> p_trapframe q) by (intros ->; naive_solver).
    apply (pages_disjoint p (p_trapframe q) y); try done; try by apply valid_page_aligned.
    unfold in_page, PGSIZE in *. lia. }
  destruct (owned_write v X _ Tk m' Hk) as [Hk' Hlk]; [intros p y [Hp|Hp]; apply Hm; auto|].
  assert (Hs : same_tree (kmem v) (kmem (ksetmem m' v)) T) by (intros p y Hp; apply Hm; auto).
  assert (Hl : forall va, leaf m' T va = leaf (kmem v) T va) by (intros va; by apply leaf_frame).
  split; [|done| |done| | | |done].
  - eapply user_table_frame; [done|apply Hk'|done|done].
  - intros va Hva. rewrite Hl. by apply Hrwx.
  - by eapply parent_same.
  - split; [apply Hold|]. intros va Hva. cbn. rewrite Hlk. by apply Hold.
  - intros va Hva. cbn. rewrite Hlk. by apply Hfree.
Qed.

(** Without a free page no table page can be added. *)
Lemma no_page_no_table v root Tk v' X' Tk' L π :
  owned v' X' root Tk' -> remaps v ∅ Tk v' X' Tk' L -> Tk !! π = None -> Tk' !! π = None.
Proof.
  intros Hown [Ht Hf _ _] Hnone. destruct (Tk' !! π) as [x|] eqn:Hx; [exfalso|done].
  assert (Hpx : x ∈ pages Tk).
  { assert (x ∈ pages Tk') by (apply elem_of_pages; by exists π).
    destruct (decide (x ∈ pages Tk)); [done|set_solver]. }
  apply elem_of_pages in Hpx as (ρ & Hρ).
  assert (Hρ' : Tk' !! ρ = Some x) by (by eapply lookup_weaken).
  pose proof (pt_inj _ _ _ (own_pt _ _ _ _ Hown) _ _ _ Hx Hρ') as ->. congruence.
Qed.

(** The failing call of [kvmcopy]. *)
Lemma kvmcopy_no_memory v Tk T root pt sz va n tf :
  owned v ∅ root Tk -> parent v ∅ Tk pt T (npages sz) -> user_table v ∅ pt T n tf ->
  0 <= sz <= PLIC -> PLIC <= TRAPFRAME ->
  (forall a, 0 <= a < PGROUNDUP sz -> has (leaf (kmem v) Tk a) PTE_V = false) ->
  (forall a, 0 <= a < PGROUNDUP sz -> has (leaf (kmem v) T a) RWX = true) ->
  0 <= va < PGROUNDUP sz -> Tk !! [PX 2 va; PX 1 va] = None ->
  wp (kvmcopy pt root 0 sz) v (fun r v' => r = -1 /\ user_table v' ∅ pt T n tf).
Proof.
  intros Hk Hpa Hn Hsz HP Hfree Hrwx Hva Hnone. pose proof TRAPFRAME_user as HTU.
  assert (Huv : user_va va).
  { pose proof (npages_max sz ltac:(lia)). rewrite npages_spec in Hva by lia. unfold user_va, PGSIZE in *. lia. }
  eapply wp_mono.
  { apply (kvmcopy_ok v ∅ pt root Tk T 0 sz Hk Hpa); [lia|lia|done|exact Hfree|exact Hrwx|].
    intros a Ha. change (npages 0) with 0%nat in Ha. lia. }
  cbn beta. intros r v' (X' & Tk' & Hk' & [(-> & Hrm)|(-> & k & _ & -> & Hrm)]).
  - exfalso. pose proof (no_page_no_table _ _ _ _ _ _ _ _ Hk' Hrm Hnone) as Hnone'.
    pose proof (rm_leaf _ _ _ _ _ _ _ Hrm va Huv) as Hl. unfold leaf at 1 in Hl. rewrite Hnone' in Hl.
    unfold k_range in Hl. change (PGROUNDUP 0) with 0 in Hl.
    destruct (Z.leb_spec 0 va), (Z.ltb_spec va (PGROUNDUP sz)); try lia. cbn [andb] in Hl.
    pose proof (kpte_leaf _ (Hrwx va Hva)) as [Hv _]. by rewrite <- Hl in Hv.
  - split; [done|]. eapply user_table_frame; [done|apply Hk'|done|].
    intros x y Hx Hy. apply (rm_frame _ _ _ _ _ _ _ Hrm). by eapply parent_table_apart.
Qed.

(** C33: When memory is exhausted and the kernel page table of the process lacks a
    table page for some page of the new image, [exec] returns -1 after the switch
    to the new page table, and the page of that table is on the free list: the
    process goes on with a freed page table, which the next allocation
    overwrites. *)
Theorem failed_commit_frees_live_table s i p path entry pt sz argc sp T Tk va :
  k_procs s !! i = Some p -> ready (k_vm s) ∅ T Tk (p_pr p) pt sz ->
  0 <= va < PGROUNDUP sz -> Tk !! [PX 2 va; PX 1 va] = None ->
  wp (finish i path entry pt sz argc sp (p_sz (p_pr p))) s (fun r s' => r = -1 /\
    exists q X', k_procs s' !! i = Some q /\ p_pagetable (p_pr q) = pt /\
      al_ok (k_vm s') X' /\ pt ∈ X').
Proof.
  intros Hp Hready Hva Hnone. destruct s as [v l np ini fs c n stp]. cbn in Hp, Hready.
  pose proof (lookup_lt_Some _ _ _ Hp) as Hlt.
  assert (Hl : forall x, <[i:=x]> l !! i = Some x) by (intros x; by apply list_lookup_insert_eq).
  unfold finish. apply wp_bind. unfold commit. eapply wp_bind_Ok; [by apply proc_at_ok|]. cbv zeta.
  eapply (wp_vm _ _ _ _ _ _ _ _ _ _ (fun _ v1 => ready v1 ∅ T Tk (p_pr p) pt sz)).
  { apply wp_modify. apply ready_store; [done|]. unfold tf_a1. lia. }
  clear v Hready. intros _ v Hready. pose proof Hready as [Hn [Hsz HP] Hrwx Hk Hpa [Hosz Hall] Hfree _].
  eapply wp_private; [done|]. eapply wp_private; [apply Hl|rewrite list_insert_insert_eq].
  eapply wp_vm; [by apply kvmdealloc_all|]. cbn beta. intros _ v1 [Hk1 Hl1 Hm1].
  rewrite (left_id_L ∅ (∪)) in Hk1.
  pose proof (own_pt _ _ _ _ (sp_own _ _ _ _ _ (ut_space _ _ _ _ _ _ Hn))) as Hpt.
  assert (Hs1 : same_tree (kmem v) (kmem v1) T).
  { intros x y Hx Hy. apply Hm1. intros z [Hz|Hz]; [set_solver|]. destruct (pa_tables _ _ _ _ _ _ Hpa x Hx) as [_ HT].
    apply (pages_disjoint x z); try done; [by eapply valid_page_aligned, pt_ok_tpage| |by intros ->].
    eapply valid_page_aligned, pt_ok_tpage; [apply (own_pt _ _ _ _ Hk)|done]. }
  pose proof (npages_spec _ Hosz) as Hos. pose proof TRAPFRAME_user as HTU.
  eapply wp_vm.
  { eapply (kvmcopy_no_memory v1 Tk T); [done|by eapply parent_same| |lia|done| | |exact Hva|done].
    - eapply user_table_frame; [exact Hn|apply Hk1|done|done].
    - intros a Ha. rewrite npages_spec in Ha by lia. pose proof (npages_max sz ltac:(lia)).
      rewrite Hl1 by (unfold user_va, PGSIZE in *; lia). unfold unmap_range.
      destruct (Z.leb_spec 0 a), (Z.ltb_spec a (0 + Z.of_nat (npages (p_sz (p_pr p))) * PGSIZE)); cbn; try done; try lia.
      apply Hfree. rewrite Hos, npages_spec by lia. lia.
    - intros a Ha. rewrite leaf_frame with (m := kmem v) by done. by apply Hrwx. }
  cbn beta. intros r v2 [-> Hn2]. apply wp_ret. unfold bad.
  pose proof (pt_root _ _ _ Hpt) as Hroot. assert (Htp : tpage T pt) by (by eexists).
  pose proof (valid_page_range _ (pt_ok_tpage _ _ _ _ Hpt Htp)).
  destruct (Z.eqb_spec pt 0); [lia|].
  eapply wp_vm; [eapply proc_freeuserpagetable_ok; [exact Hn2|lia]|]. cbn beta. intros _ v3 Hal.
  eapply wp_bind_Ok; [reflexivity|]. apply wp_ret. split; [done|].
  eexists _, _. split; [apply Hl|]. split; [done|]. split; [exact Hal|].
  apply elem_of_union. left. by apply elem_of_pages.
Qed.
End failure.
End ExecFail.
