(* ===== verification/ExecWit.v ===== *)
(** * Program loading on a concrete machine

    The theorems of [VmProc], [ExecThms] and [ExecFail] applied to the machine of
    [VmWit], with six free pages: just enough for a new image of one page. *)

From S2P Require Import Prelude.
From S2P Require Import Memory.
From S2P Require Import Riscv.
From S2P Require Import PageAlloc.
From S2P Require Import FreeList.
From S2P Require Import KallocSingle.
From S2P Require Import Vm.
From S2P Require Import VmTree.
From S2P Require Import VmWalk.
From S2P Require Import VmMap.
From S2P Require Import VmUser.
From S2P Require Import VmUvm.
From S2P Require Import VmCopy.
From S2P Require Import VmWit.
From S2P Require Import ProcState.
From S2P Require Import Proc.
From S2P Require Import VmProc.
From S2P Require Import Exec.
From S2P Require Import ExecThms.
From S2P Require Import ExecFail.

Module ExecWit.
Import VmTree VmWalk VmMap VmUser VmUvm VmCopy VmWit Proc VmProc Exec ExecThms ExecFail.

#[local] Existing Instance board.
#[local] Existing Instance board_ok.

Definition six_pages : list Z := 0x80025000 :: free_pages.
Definition m6 : mem := push_mem m_free 0x80025000 0x80024000.
Definition mem6 : kstate kmem_single := KS m6 (KmemSingle 0x80025000).
Definition F6 : gset Z := list_to_set six_pages.

Lemma mem6_ok : al_ok mem6 F6.
Proof.
  exists six_pages. split; [|split; [|done]].
  - repeat split; vm_compute; reflexivity.
  - apply (bool_decide_unpack _). vm_compute. exact I.
Qed.

Lemma trampoline_in_image : trampoline_ok.
Proof. by vm_compute. Qed.

Lemma process_life_frees_all_witness : wp (process_life KB PGSIZE) mem6 (fun _ s' => al_ok s' F6).
Proof.
  apply (process_life_frees_all mem6 F6 KB PGSIZE trampoline_in_image mem6_ok); [reflexivity|].
  rewrite TRAPFRAME_val. unfold PGSIZE. lia.
Defined.

(** The image [exec] builds: a new page table and one page. *)
Definition build : M (kstate kmem_single) (Z * Z) :=
  root ← new_pagetable KB; r ← uvmalloc root 0 PGSIZE; mret (root, r).
Definition built (o : outcome (Z * Z * kstate kmem_single)) : bool :=
  match o with
  | Ok ((root, r), s) => negb (root =? 0) && negb (r =? 0) && (freelist (kal s) =? 0)
  | Fail _ => false
  end.

Lemma build_ok : built (build mem6) = true.
Proof. vm_compute. reflexivity. Qed.

Lemma six_valid p : p ∈ F6 -> valid_page p.
Proof. intros Hp. exact (KallocSingle.ok_valid _ _ _ mem6_ok Hp). Qed.

Lemma outside_six p : p ∈ [KR; KB] -> valid_page p /\ p ∉ F6.
Proof.
  intros Hp. repeat (apply elem_of_cons in Hp as [->|Hp]; [split; [reflexivity|];
    unfold F6; rewrite elem_of_list_to_set; by apply (bool_decide_unpack _)|]).
  by apply elem_of_nil in Hp.
Qed.

Lemma T_empty_page p : tpage T_empty p -> p = KR.
Proof. intros (π & Hπ). unfold T_empty in Hπ. by apply lookup_singleton_Some in Hπ as [_ <-]. Qed.

(** The empty kernel page table in the memory before and after [build]. *)
Lemma KR_zero i : index i -> ld64 m6 (KR + 8 * i) = 0.
Proof.
  intros Hi. rewrite <- (m_free_zero KR i) by (set_solver || done). apply ld64_agree. intros x Hx.
  assert (Hin : in_page KR x) by (by eapply in_page_entry). unfold m6. apply push_mem_outside.
  apply (pages_disjoint KR 0x80025000); done.
Qed.

Lemma KR_owned v X : al_ok v X -> X ⊆ F6 -> (forall x, in_page KR x -> ld8 (kmem v) x = ld8 m6 x) ->
  owned v X KR T_empty /\ forall va, leaf (kmem v) T_empty va = 0.
Proof.
  intros Hal HX Hm. split; [|intros va; apply leaf_root]. split; [done| |].
  - apply pt_ok_root; [reflexivity|]. intros i Hi. rewrite <- (KR_zero i Hi). apply ld64_agree.
    intros x Hx. apply Hm. by eapply in_page_entry.
  - intros p ->%T_empty_page Hp. destruct (outside_six KR) as [_ Hn]; [set_solver|]. set_solver.
Qed.

(** The process: its kernel page table is empty, its old image has no pages. *)
Definition small_process : proc :=
  Proc false (Shared RUNNING None None 0 0 1) (Private 0 0 0 KR 0 KB 0 0 (repeat 0 16) 0 (repeat 0 16)).

Lemma built_null (m : M (kstate kmem_single) Z) s : built ((r ← m; mret (0, r)) s) = false.
Proof. unfold mbind, M_bind. by destruct (m s) as [[r s']|]. Qed.

Lemma image_ready : exists v T pt, ready v ∅ T T_empty (p_pr small_process) pt PGSIZE.
Proof.
  pose proof build_ok as Hb. unfold build in Hb.
  assert (Hsz : 0 < PGSIZE <= TRAPFRAME) by (rewrite TRAPFRAME_val; unfold PGSIZE; lia).
  assert (HKB : valid_page KB) by reflexivity.
  destruct (wp_elim _ _ _ (new_pagetable_ok mem6 F6 KB trampoline_in_image mem6_ok HKB)) as (pt & v1 & E1 & Hr).
  rewrite (bind_step _ _ _ _ _ E1) in Hb.
  destruct Hr as [[-> _]|(Hvpt & F1 & T1 & Hut1 & HF & Hm1)].
  { exfalso. cbv beta in Hb. rewrite (built_null (uvmalloc 0 0 PGSIZE) v1) in Hb. discriminate Hb. }
  destruct (wp_elim _ _ _ (user_table_grow v1 F1 pt T1 KB PGSIZE Hut1 Hsz)) as (r & v2 & E2 & F2 & T2 & Hr).
  rewrite (bind_step _ _ _ _ _ E2) in Hb. unfold built, mret, M_ret in Hb. apply andb_prop in Hb as [Hb Hfl].
  apply andb_prop in Hb as [_ Hr0].
  clear E1 E2. destruct Hr as [(-> & Hut & Hg)|(-> & _)]; [|discriminate Hr0]. clear Hr0.
  pose proof (sp_own _ _ _ _ _ (ut_space _ _ _ _ _ _ Hut)) as Hown.
  assert (HF2 : F2 = ∅).
  { pose proof (own_al _ _ _ _ Hown) as (l & Hl & _ & ->). apply Z.eqb_eq in Hfl. rewrite Hfl in Hl.
    destruct l as [|x l]; [done|]. exfalso. destruct Hl as (E & Hv & _). subst x. apply valid_page_range in Hv. lia. }
  subst F2. exists v2, T2, pt.
  pose proof (gr_free _ _ _ _ _ _ _ _ _ Hg) as HF1.
  assert (HT : forall p, tpage T2 p -> p ∈ F6).
  { intros p Hp%elem_of_pages. rewrite HF, HF1. destruct (decide (p ∈ pages T1)); set_solver. }
  assert (Hfr : forall p, p ∈ frames (leaf (kmem v2) T2) (npages PGSIZE) 0 -> p ∈ F6).
  { intros p Hp. rewrite HF, HF1. rewrite Nat.sub_0_r. change (Z.of_nat 0 * PGSIZE) with 0. set_solver. }
  assert (Hkr : forall p, p ∈ F6 -> ~ tpage T_empty p).
  { intros p Hp ->%T_empty_page. destruct (outside_six KR) as [_ Hn]; [set_solver|done]. }
  destruct (KR_owned v2 ∅ (own_al _ _ _ _ Hown) ltac:(set_solver)) as [HKR Hlf].
  { intros x Hx. destruct (outside_six KR) as [HvK HnK]; [set_solver|].
    assert (Hap : forall q, q ∈ F6 -> ~ in_page q x).
    { intros q Hq. apply (pages_disjoint KR q); try done; [by apply valid_page_aligned, six_valid|by intros <-]. }
    rewrite (gr_frame _ _ _ _ _ _ _ _ _ Hg); [by apply Hm1|]. intros q [Hq|Hq%elem_of_pages];
      apply Hap; rewrite HF; apply elem_of_union; [by left|by right]. }
  assert (Hnp : npages PGSIZE = 1%nat) by reflexivity.
  split; cbn [p_pr p_trapframe p_k_pagetable p_sz small_process].
  - exact Hut.
  - split; [unfold PLIC, PGSIZE; cbn; lia|rewrite TRAPFRAME_val; cbn; lia].
  - change (PGROUNDUP PGSIZE) with PGSIZE. intros va Hva.
    destruct (gr_new _ _ _ _ _ _ _ _ _ Hg 0%nat) as [Hfl' _]; [rewrite Hnp; lia|].
    rewrite (leaf_page _ _ va 0) by (rewrite Z.div_small by (unfold PGSIZE in *; lia); done).
    change (Z.of_nat 0 * PGSIZE) with 0 in Hfl'. by rewrite has_flag, Hfl'.
  - exact HKR.
  - split; [apply (own_pt _ _ _ _ Hown)|apply (sp_max _ _ _ _ _ (ut_space _ _ _ _ _ _ Hut))|
      apply (sp_all _ _ _ _ _ (ut_space _ _ _ _ _ _ Hut))|..].
    + intros p Hp. split; [set_solver|]. by apply Hkr, HT.
    + intros p Hp. split_and!; [by apply six_valid, Hfr|set_solver|]. by apply Hkr, Hfr.
  - split; [rewrite TRAPFRAME_val; lia|]. intros va Hva. change (npages 0) with 0%nat in Hva. lia.
  - intros va _. by rewrite Hlf.
  - destruct (outside_six KB) as [HvB HnB]; [set_solver|]. split_and!; [done| | |set_solver].
    + intros Hp. by apply HnB, HT.
    + intros Hp%T_empty_page. done.
Qed.

(** ** A file layer that counts, and the ELF layout of 64-bit RISC-V *)
#[local] Instance addresses : ProcLayout := {|
  kernel_pagetable := 0x8002F000;
  forkret_addr := 0x80002000; initcode_addr := 0x80008000; xstate_addr := fun i => 0x80011000 + 360 * Z.of_nat i
|}.
#[local] Instance params : ExecParams := {| MAXARG := 32; ustack_addr := 0x80012000 |}.

(** The number at [off] of [n] bytes, least significant first. *)
Definition field (off n : nat) (l : list Z) : Z := foldr (fun b x => b + 256 * x) 0 (take n (drop off l)).
#[local] Instance elf64 : ElfFormat := {|
  ELF_MAGIC := 0x464C457F; ELF_PROG_LOAD := 1; sizeof_elfhdr := 64; sizeof_proghdr := 56;
  dec_elfhdr l := Elfhdr (field 0 4 l) (field 24 8 l) (field 32 8 l) (field 56 2 l);
  dec_proghdr l := Proghdr (field 0 4 l) (field 8 8 l) (field 16 8 l) (field 32 8 l) (field 40 8 l);
|}.

Record ledger : Type := Ledger { l_txns : Z; l_refs : Z; l_locks : Z }.
#[local] Instance ledger_files : FileOps ledger := {|
  filedup _ f := f; fileclose _ f := f; idup _ f := f; iput _ f := f; namei_root f := (7, f)
|}.
(** Every path but the empty one names inode 7, an empty file. *)
#[local] Instance ledger_inodes : InodeOps ledger := {|
  begin_op f := Ledger (l_txns f + 1) (l_refs f) (l_locks f);
  end_op f := Ledger (l_txns f - 1) (l_refs f) (l_locks f);
  namei path f := match path with [] => (0, f) | _ => (7, Ledger (l_txns f) (l_refs f + 1) (l_locks f)) end;
  ilock _ f := Ledger (l_txns f) (l_refs f) (l_locks f + 1);
  iunlockput _ f := Ledger (l_txns f) (l_refs f - 1) (l_locks f - 1);
  readi _ _ _ _ := [];
|}.
#[local] Instance ledger_laws : InodeLedger ledger.
Proof. refine {| txns := l_txns; refs := l_refs; locks := l_locks |}; try done. intros [|] f; cbn; lia. Defined.

Definition small_kernel (v : kstate kmem_single) : kernel kmem_single ledger :=
  Kernel v [small_process] 2 (Some 0%nat) (Ledger 0 0 0) (Some 0%nat) 0 0.


Lemma failed_commit_witness :
  exists v pt, wp (finish 0 [120] 0 pt PGSIZE 0 0 0) (small_kernel v) (fun r s' => r = -1 /\
    exists q X', k_procs s' !! 0%nat = Some q /\ p_pagetable (p_pr q) = pt /\ al_ok (k_vm s') X' /\ pt ∈ X').
Proof.
  destruct image_ready as (v & T & pt & Hr). exists v, pt.
  apply (failed_commit_frees_live_table (small_kernel v) 0 small_process [120] 0 pt PGSIZE 0 0 T T_empty 0
    eq_refl Hr); [split; reflexivity || discriminate|reflexivity].
Defined.
End ExecWit.
