(* ===== verification/Syscall4.v ===== *)
(** * System calls of the fourth experiment ([syscall.c]): model

    Arguments are fetched through the kernel page table of the process, which maps
    user memory; the SUM bit of [sstatus] permits that and is set only around
    the copy. The state is the kernel with [sstatus] and the console. [copyin_new] and
    [copyinstr_new], the handlers, and [syscall.h] of this experiment are not part of
    the repository. *)

From S2P Require Import Prelude.
From S2P Require Import Memory.
From S2P Require Import Riscv.
From S2P Require Import Hart.
From S2P Require Import PageAlloc.
From S2P Require Import Vm.
From S2P Require Import ProcState.
From S2P Require Import Proc.

(** The copies: the bytes stored in the kernel buffer and the result. They run with
    the given value of [sstatus]. *)
Class UserCopy (A : Type) : Type := {
  copyin_new : Z -> Z -> Z -> Z -> M (kstate A) (list Z * Z);
  copyinstr_new : Z -> Z -> Z -> Z -> M (kstate A) (list Z * Z);
}.

(** The entries of the table [syscalls], in its order. *)
Inductive call : Type :=
| Cfork | Cexit | Cwait | Cpipe | Cread | Ckill | Cexec | Cfstat | Cchdir | Cdup | Cgetpid | Csbrk
| Csleep | Cuptime | Copen | Cwrite | Cmknod | Cunlink | Clink | Cmkdir | Cclose | Ccheckvm.
#[export] Instance call_eq_dec : EqDecision call.
Proof. solve_decision. Defined.

Definition calls : list call := [
  Cfork; Cexit; Cwait; Cpipe; Cread; Ckill; Cexec; Cfstat; Cchdir; Cdup; Cgetpid; Csbrk;
  Csleep; Cuptime; Copen; Cwrite; Cmknod; Cunlink; Clink; Cmkdir; Cclose; Ccheckvm ].

(** The numbers of [syscall.h]. *)
Class SysNumbers : Type := { SYS_ : call -> Z }.

(** A line the kernel prints. *)
Inductive message : Type := Unknown (pid : Z) (name : list Z) (num : Z).

Record cpu (A F : Type) : Type := Cpu { c_k : kernel A F; c_sstatus : Z; c_out : list message }.
Arguments Cpu {A F}.
Arguments c_k {A F} c.
Arguments c_sstatus {A F} c.
Arguments c_out {A F} c.

(** The handlers; [None] when the call gives up the CPU before it returns. *)
Class Handlers (A F : Type) : Type := { handler : call -> M (cpu A F) (option Z) }.

Definition tf_a (n : Z) : Z := 112 + 8 * n.
(** The number with the given little-endian bytes. *)
Definition of_bytes (l : list Z) : Z := fold_right (fun b x => b + 256 * x) 0 l.
(** [strlen] of a buffer whose contents are known up to the end of [l]. *)
Fixpoint strlen (l : list Z) : option Z :=
  match l with
  | [] => None
  | c :: l' => if c =? 0 then Some 0 else Z.succ <$> strlen l'
  end.

Module Syscall4.
Section ops.
Context `{MemLayout} `{ProcLayout} {A : Type} `{!PageAllocator A} {F : Type} `{!FileOps F}.
Context `{!UserCopy A} `{!SysNumbers} `{!Handlers A F}.

Abbreviation P := (M (cpu A F)).

Definition kern {B} (m : M (kernel A F) B) : P B := fun s =>
  match m (c_k s) with
  | Ok (b, k) => Ok (b, Cpu k (c_sstatus s) (c_out s))
  | Fail e => Fail e
  end.
Definition mine : P pprivate := kern (i ← Proc.myproc; p ← Proc.proc_at i; mret (p_pr p)).

Definition r_sstatus : P Z := gets c_sstatus.
Definition w_sstatus (x : Z) : P unit := modify (fun s => Cpu (c_k s) x (c_out s)).
Definition set_sum : P unit := x ← r_sstatus; w_sstatus (Z.lor x SSTATUS_SUM).
Definition clear_sum : P unit := x ← r_sstatus; w_sstatus (Z.ldiff x SSTATUS_SUM).

(** [None] for -1. *)
Definition fetchaddr (addr : Z) : P (option Z) :=
  q ← mine;
  if (p_sz q <=? addr) || (p_sz q <? u64 (addr + 8)) then mret None else
  set_sum;;
  x ← r_sstatus;
  r ← kern (Proc.vm (copyin_new x (p_pagetable q) addr 8));
  if negb (snd r =? 0) then clear_sum;; mret None else
  clear_sum;; mret (Some (of_bytes (fst r))).

(** The bytes stored in [buf], and the result. *)
Definition fetchstr (addr max : Z) : P (list Z * Z) :=
  q ← mine;
  set_sum;;
  x ← r_sstatus;
  r ← kern (Proc.vm (copyinstr_new x (p_pagetable q) addr max));
  clear_sum;;
  if snd r <? 0 then mret r else
  match strlen (fst r) with
  | Some n => mret (fst r, n)
  | None => fail (Undefined "strlen")
  end.

Definition load64 (a : Z) : P Z := gets (fun s => ld64 (kmem (k_vm (c_k s))) a).
Definition argraw (n : Z) : P Z :=
  q ← mine;
  if (0 <=? n) && (n <=? 5) then load64 (u64 (p_trapframe q + tf_a n)) else panic "argraw".

(** They always return 0; the result here is what they store. *)
Definition argint (n : Z) : P Z := x ← argraw n; mret (s32 x).
Definition argaddr (n : Z) : P Z := argraw n.
Definition argstr (n max : Z) : P (list Z * Z) := addr ← argaddr n; fetchstr addr max.

(** [NELEM(syscalls)] and [syscalls[num]]: designated initialisers, the last one
    counts, and elements without one are null. *)
Definition nelem : Z := 1 + foldr Z.max (-1) (map SYS_ calls).
Definition syscalls (num : Z) : option call := last (filter (fun c => SYS_ c = num) calls).

Definition set_a0 (r : Z) : P unit :=
  q ← mine; kern (Proc.vm (store64 (u64 (p_trapframe q + tf_a 0)) r)).

Definition syscall : P bool :=
  i ← kern Proc.myproc;
  p ← kern (Proc.proc_at i);
  a7 ← load64 (u64 (p_trapframe (p_pr p) + tf_a 7));
  let num := s32 a7 in
  match (if (0 <? num) && (num <? nelem) then syscalls num else None) with
  | Some c =>
      r ← handler c;
      match r with
      | Some r => set_a0 r;; mret true
      | None => mret false
      end
  | None =>
      modify (fun s => Cpu (c_k s) (c_sstatus s) (c_out s ++ [Unknown (p_pid (p_sh p)) (p_name (p_pr p)) num]));;
      set_a0 (-1);;
      mret true
  end.
End ops.
End Syscall4.
