(* ===== verification/Syscall4Thms.v ===== *)
(** * System calls of the fourth experiment: correctness

    User memory is open to the kernel only while a copy runs, the copies stay inside
    the process, and the dispatcher runs the handler of the number. *)

From S2P Require Import Prelude.
From S2P Require Import Memory.
From S2P Require Import Riscv.
From S2P Require Import Hart.
From S2P Require Import PageAlloc.
From S2P Require Import KallocSingle.
From S2P Require Import Vm.
From S2P Require Import ProcState.
From S2P Require Import Proc.
From S2P Require Import ProcWit.
From S2P Require Import Syscall4.

Module Syscall4Thms.
Import Syscall4.

Lemma sum_set x : Z.testbit (Z.lor x SSTATUS_SUM) 18 = true.
Proof. by rewrite Z.lor_spec, orb_true_r. Qed.
Lemma sum_restored x : Z.testbit x 18 = false -> Z.ldiff (Z.lor x SSTATUS_SUM) SSTATUS_SUM = x.
Proof.
  intros Hx. apply Z.bits_inj'. intros n Hn. rewrite Z.ldiff_spec, Z.lor_spec.
  unfold SSTATUS_SUM. destruct (Z.eq_dec n 18) as [->|Hne]; [rewrite Hx; done|].
  replace (Z.testbit (Z.shiftl 1 18) n) with false; [by rewrite orb_false_r, andb_true_r|].
  rewrite Z.shiftl_1_l. symmetry. by apply Z.pow2_bits_false.
Qed.

Section proofs.
Context `{MemLayout} `{ProcLayout} {A : Type} `{!PageAllocator A} {F : Type} `{!FileOps F}.
Context `{!UserCopy A} `{!SysNumbers} `{!Handlers A F}.
Implicit Types (s : cpu A F) (p : proc).

(** The state with another memory. *)
Definition with_vm (v : kstate A) s : cpu A F :=
  let k := c_k s in
  Cpu (Kernel v (k_procs k) (k_nextpid k) (k_initproc k) (k_files k) (k_cur k) (k_noff k) (k_satp k)) (c_sstatus s) (c_out s).
Definition with_sstatus (x : Z) s : cpu A F := Cpu (c_k s) x (c_out s).

Lemma kern_vm {B} (m : M (kstate A) B) s :
  kern (Proc.vm m) s = match m (k_vm (c_k s)) with Ok (b, v) => Ok (b, with_vm v s) | Fail e => Fail e end.
Proof. unfold kern, Proc.vm. by destruct (m (k_vm (c_k s))) as [[b v]|]. Qed.

Lemma myproc_runs s i : k_cur (c_k s) = Some i -> kern Proc.myproc s = Ok (i, s).
Proof. intros Hc. unfold kern, Proc.myproc. rewrite bind_gets, Hc. by destruct s. Qed.
Lemma proc_at_runs s i p : k_procs (c_k s) !! i = Some p -> kern (Proc.proc_at i) s = Ok (p, s).
Proof. intros Hp. unfold kern, Proc.proc_at. rewrite Hp. by destruct s. Qed.
Lemma mine_runs s i p : k_cur (c_k s) = Some i -> k_procs (c_k s) !! i = Some p -> mine s = Ok (p_pr p, s).
Proof.
  intros Hc Hp. unfold mine, kern, Proc.myproc. rewrite bind_assoc, bind_gets, Hc, bind_ret.
  unfold Proc.proc_at, mbind, M_bind. rewrite Hp. by destruct s.
Qed.

Definition reg n p s : Z := ld64 (kmem (k_vm (c_k s))) (u64 (p_trapframe (p_pr p) + tf_a n)).
Definition with_a0 p (r : Z) s : cpu A F :=
  with_vm (ksetmem (st64 (kmem (k_vm (c_k s))) (u64 (p_trapframe (p_pr p) + tf_a 0)) r) (k_vm (c_k s))) s.

Lemma set_a0_runs r s i p : k_cur (c_k s) = Some i -> k_procs (c_k s) !! i = Some p -> set_a0 r s = Ok (tt, with_a0 p r s).
Proof. intros Hc Hp. unfold set_a0. rewrite (bind_step _ _ _ _ _ (mine_runs s i p Hc Hp)). by rewrite kern_vm. Qed.

(** What a copy with the SUM bit does to a state in which it is clear. *)
Definition copied {B C} (r : outcome (B * kstate A)) (s : cpu A F) (f : B -> C) : outcome (C * cpu A F) :=
  match r with
  | Ok (b, v) => Ok (f b, with_vm v s)
  | Fail e => Fail e
  end.

(** C40: In a process no larger than the user address space, fetchaddr reads exactly when
    the eight bytes lie inside the process; fetchaddr and fetchstr run the copy with
    the SUM bit set and leave sstatus as it was, on every path. *)
Theorem user_memory_window addr max i p s :
  k_cur (c_k s) = Some i -> k_procs (c_k s) !! i = Some p -> Z.testbit (c_sstatus s) 18 = false ->
  0 <= addr < 2 ^ 64 -> p_sz (p_pr p) <= MAXVA ->
  let x := Z.lor (c_sstatus s) SSTATUS_SUM in
  Z.testbit x 18 = true /\
  fetchaddr addr s =
    (if addr + 8 <=? p_sz (p_pr p) then
       copied (copyin_new x (p_pagetable (p_pr p)) addr 8 (k_vm (c_k s))) s
         (fun r => if snd r =? 0 then Some (of_bytes (fst r)) else None)
     else Ok (None, s)) /\
  forall r s', fetchstr addr max s = Ok (r, s') -> exists l v,
    copyinstr_new x (p_pagetable (p_pr p)) addr max (k_vm (c_k s)) = Ok (l, v) /\ s' = with_vm v s /\
    fst r = fst l /\ (snd l < 0 -> snd r = snd l) /\ (0 <= snd l -> strlen (fst l) = Some (snd r)).
Proof.
  intros Hc Hp Hsum Ha Hsz x. split; [apply sum_set|]. split.
  - assert (MAXVA = 2 ^ 38) by reflexivity. unfold fetchaddr. rewrite (bind_step _ _ _ _ _ (mine_runs s i p Hc Hp)).
    assert (Hcond : (p_sz (p_pr p) <=? addr) || (p_sz (p_pr p) <? u64 (addr + 8)) = negb (addr + 8 <=? p_sz (p_pr p))).
    { destruct (Z.leb_spec (p_sz (p_pr p)) addr), (Z.leb_spec (addr + 8) (p_sz (p_pr p))); cbn [orb negb]; try done; try lia;
        (rewrite u64_small by lia; first [apply Z.ltb_lt; lia|apply Z.ltb_ge; lia]). }
    rewrite Hcond. destruct (Z.leb_spec (addr + 8) (p_sz (p_pr p))); cbn [negb]; [|done].
    unfold set_sum, clear_sum, r_sstatus, w_sstatus. rewrite bind_assoc, bind_gets, bind_modify, bind_gets. cbn [c_sstatus].
    fold x. unfold mbind at 1, M_bind at 1. rewrite kern_vm. cbn [c_k].
    destruct (copyin_new _ _ _ _ _) as [[r v]|e]; [|done]. cbn beta iota delta [copied].
    destruct (snd r =? 0); cbn [negb]; rewrite bind_assoc, bind_gets, bind_modify; cbn [c_sstatus with_vm];
      unfold x; rewrite sum_restored by done; done.
  - intros r s'. unfold fetchstr. rewrite (bind_step _ _ _ _ _ (mine_runs s i p Hc Hp)).
    unfold set_sum, clear_sum, r_sstatus, w_sstatus. rewrite bind_assoc, bind_gets, bind_modify, bind_gets. cbn [c_sstatus].
    fold x. unfold mbind at 1, M_bind at 1. rewrite kern_vm. cbn [c_k].
    destruct (copyinstr_new _ _ _ _ _) as [[l v]|e]; [|done]. cbn beta iota. rewrite bind_assoc, bind_gets, bind_modify. cbn [c_sstatus with_vm].
    unfold x. rewrite sum_restored by done. change (Cpu _ _ _) with (with_vm v s).
    intros Hr. exists l, v. split; [done|]. destruct (Z.ltb_spec (snd l) 0).
    + unfold mret, M_ret in Hr. simplify_eq. split_and!; try done; intros; first [done|lia].
    + destruct (strlen (fst l)) as [n|]; [|done]. unfold mret, M_ret in Hr. simplify_eq. split_and!; try done; cbn; intros; first [done|lia].
Qed.

(** ** The dispatcher *)
Lemma calls_all c : c ∈ calls.
Proof. by destruct c; repeat first [left|right]. Qed.

Lemma nelem_bound c : SYS_ c < nelem.
Proof.
  assert (Hm : forall l, c ∈ l -> SYS_ c <= foldr Z.max (-1) (map SYS_ l)).
  { induction l as [|d l IH]; [by intros ?%not_elem_of_nil|]. cbn. intros [<-|Hc]%elem_of_cons; [lia|]. specialize (IH Hc). lia. }
  unfold nelem. specialize (Hm calls (calls_all c)). lia.
Qed.

Lemma syscalls_Some num c : syscalls num = Some c -> SYS_ c = num.
Proof. unfold syscalls. intros Hl%last_Some_elem_of. by apply list_elem_of_filter in Hl as [? _]. Qed.

Lemma syscalls_number c : (forall d, SYS_ d = SYS_ c -> d = c) -> syscalls (SYS_ c) = Some c.
Proof.
  intros Hinj. destruct (syscalls (SYS_ c)) as [d|] eqn:E; [by rewrite (Hinj d (syscalls_Some _ _ E))|].
  exfalso. unfold syscalls in E. apply last_None in E.
  assert (Hin : c ∈ filter (fun d => SYS_ d = SYS_ c) calls) by (apply list_elem_of_filter; split; [done|apply calls_all]).
  rewrite E in Hin. by apply not_elem_of_nil in Hin.
Qed.

Definition reported p (num : Z) s : cpu A F :=
  Cpu (c_k s) (c_sstatus s) (c_out s ++ [Unknown (p_pid (p_sh p)) (p_name (p_pr p)) num]).

(** With distinct numbers, the number in a7 selects the handler: its result is
    stored in a0 of the process, unless the call gives up the CPU; a number that is
    not positive or that no call has is reported and gives -1. *)
Theorem syscall4_dispatches s i p :
  k_cur (c_k s) = Some i -> k_procs (c_k s) !! i = Some p -> Inj eq eq SYS_ ->
  let num := s32 (reg 7 p s) in
  (forall c, num = SYS_ c -> 0 < num -> forall s1,
     (handler c s = Ok (None, s1) -> syscall s = Ok (false, s1)) /\
     forall r q, handler c s = Ok (Some r, s1) -> k_cur (c_k s1) = Some i -> k_procs (c_k s1) !! i = Some q ->
       syscall s = Ok (true, with_a0 q r s1)) /\
  (num <= 0 \/ (forall c, SYS_ c <> num) -> syscall s = Ok (true, with_a0 p (-1) (reported p num s))).
Proof.
  intros Hc Hp Hinj num. unfold syscall. rewrite (bind_step _ _ _ _ _ (myproc_runs s i Hc)), (bind_step _ _ _ _ _ (proc_at_runs s i p Hp)).
  unfold load64. rewrite bind_gets. cbv zeta. change (s32 (ld64 _ _)) with num. split.
  - intros c Hn Hpos s1. pose proof (nelem_bound c). rewrite Hn in *.
    destruct (Z.ltb_spec 0 (SYS_ c)), (Z.ltb_spec (SYS_ c) nelem); try lia. cbn [andb].
    rewrite syscalls_number by (intros d; apply Hinj). split.
    + intros Hr. etransitivity; [eapply bind_step, Hr|done].
    + intros r q Hr Hc1 Hq. etransitivity; [eapply bind_step, Hr|]. cbn beta iota.
      by rewrite (bind_step _ _ _ _ _ (set_a0_runs r s1 i q Hc1 Hq)).
  - intros Hn. assert (Hnone : (if (0 <? num) && (num <? nelem) then syscalls num else None) = None).
    { destruct (Z.ltb_spec 0 num); cbn [andb]; [|done]. case_match; [|done]. destruct Hn as [|Hn]; [lia|].
      destruct (syscalls num) as [c|] eqn:E; [|done]. by destruct (Hn c (syscalls_Some _ _ E)). }
    rewrite Hnone, bind_modify. etransitivity; [eapply bind_step, (set_a0_runs (-1) (reported p num s) i p Hc Hp)|done].
Qed.
End proofs.
End Syscall4Thms.

Module Syscall4Wit.
Import Syscall4 Syscall4Thms.
#[local] Existing Instance ProcWit.board.
#[local] Existing Instance ProcWit.addresses.
#[local] Existing Instance ProcWit.counting_files.

Definition with_sum {B} (x : Z) (m : M (kstate kmem_single) B) : M (kstate kmem_single) B :=
  if Z.testbit x 18 then m else panic "kerneltrap".
#[local] Instance copies : UserCopy kmem_single := {|
  copyin_new x _ a n := with_sum x (gets (fun v => (ld_bytes (kmem v) a (Z.to_nat n), 0)));
  copyinstr_new x _ a n := with_sum x (gets (fun v => (ld_bytes (kmem v) a (Z.to_nat n), 0)))
|}.

(** The numbers 1 to 22, in the order of the table. *)
Definition number (c : call) : Z := match list_find (eq c) calls with Some (k, _) => 1 + Z.of_nat k | None => 0 end.
#[local] Instance numbers : SysNumbers := {| SYS_ := number |}.
Lemma numbers_distinct : Inj eq eq SYS_.
Proof. intros [] []; vm_compute; congruence. Qed.

#[local] Instance handlers : Handlers kmem_single Z := {|
  handler c := match c with Cgetpid => mret (Some 7) | Csleep => mret None | _ => mret (Some 0) end
|}.

(** Init asks for its number; its memory holds the bytes 1 to 8 at address 0x100. *)
Definition asking : cpu kmem_single Z :=
  let k := ProcWit.init_runs in
  let m := st_bytes (st64 (kmem (k_vm k)) (tf_a 7) 11) 0x100 [1; 2; 3; 4; 5; 6; 7; 8] in
  let q := set_sz 0x1000 ProcWit.files_private in
  Cpu (Kernel (ksetmem m (k_vm k)) [Proc false (Shared RUNNING None None 0 0 1) q] 3 (Some 0%nat) 2 (Some 0%nat) 0 0) 0x22 [].
Definition asker : proc := Proc false (Shared RUNNING None None 0 0 1) (set_sz 0x1000 ProcWit.files_private).

Example fetchaddr_demo : match fetchaddr 0x100 asking with Ok (r, s) => (r, c_sstatus s) | Fail _ => (None, 0) end = (Some 0x0807060504030201, 0x22).
Proof. vm_compute. reflexivity. Qed.

Lemma user_memory_window_witness :
  fetchaddr 0xff9 asking = Ok (None, asking) /\
  fetchaddr 0x100 asking = Ok (Some 0x0807060504030201, with_vm (k_vm (c_k asking)) asking).
Proof.
  split.
  - etransitivity; [eapply (user_memory_window 0xff9 0 0 asker asking eq_refl eq_refl eq_refl)|]; [lia|vm_compute; discriminate|].
    reflexivity.
  - etransitivity; [eapply (user_memory_window 0x100 0 0 asker asking eq_refl eq_refl eq_refl)|]; [lia|vm_compute; discriminate|].
    reflexivity.
Defined.

Lemma asking_number : s32 (reg 7 asker asking) = 11.
Proof. vm_compute. reflexivity. Qed.

Lemma syscall4_dispatches_witness : syscall asking = Ok (true, with_a0 asker 7 asking).
Proof.
  pose proof (syscall4_dispatches asking 0 asker eq_refl eq_refl numbers_distinct) as [Hs _].
  rewrite asking_number in Hs. exact (proj2 (Hs Cgetpid eq_refl eq_refl asking) 7 asker eq_refl eq_refl eq_refl).
Defined.
End Syscall4Wit.
