(* ===== verification/Pingpong.v ===== *)
(** * Ping-pong of the first experiment ([pingpong.c])

    Parent and child are two processes that share two pipes of the kernel
    ([Pipe.pipewrite_run], [Pipe.piperead_run], [Pipe.pipeclose]). Each of them
    is a list of calls; a step is one run of a call, up to its return or to the
    point where it sleeps, and the scheduler chooses who goes next. *)

From S2P Require Import Prelude.
From S2P Require Import Pipe.

(** [#define MAX 128] *)
Definition BUFFER_MAX : Z := 128.

(** The user memory that a call reads or writes: an array. *)
#[export] Instance array_mem : UserMem (list Z) := {
  copyin1 l a := if a <? 0 then None else l !! Z.to_nat a;
  copyout1 l a c := if a <? 0 then None else
    match l !! Z.to_nat a with Some _ => Some (<[Z.to_nat a := c]> l) | None => None end;
}.

Module Pingpong.

(** [pipe_child_write_to_parent] and [pipe_parent_write_to_child]. *)
Inductive pipe_name : Type := ToParent | ToChild.
#[export] Instance pipe_name_eq_dec : EqDecision pipe_name.
Proof. solve_decision. Defined.

(** A descriptor: element 0 (to read) or 1 (to write) of the array of a pipe. *)
Record end_of : Type := End { of_pipe : pipe_name; writable : bool }.
#[export] Instance end_of_eq_dec : EqDecision end_of.
Proof. solve_decision. Defined.

(** The calls of the program. *)
Inductive cmd : Type :=
| Close (e : end_of)
| Read (p : pipe_name) (n : Z)
| Received
| Write (p : pipe_name) (bytes : list Z)
| Wait
| Exit (status : Z).

Definition ping : list Z := [112; 105; 110; 103].
Definition pong : list Z := [112; 111; 110; 103].

Definition child_prog : list cmd :=
  [Close (End ToChild true); Close (End ToParent false); Read ToChild 4; Received; Write ToParent pong;
   Close (End ToChild false); Close (End ToParent true); Exit 0].

Definition parent_prog : list cmd :=
  [Close (End ToChild false); Close (End ToParent true); Write ToChild ping; Read ToParent 4; Received;
   Close (End ToChild true); Close (End ToParent false); Wait; Exit 0].

(** A process that sleeps waits for a channel of a pipe or for a child. *)
Inductive chan : Type := OnPipe (p : pipe_name) (c : channel) | OnChild.
#[export] Instance chan_eq_dec : EqDecision chan.
Proof. solve_decision. Defined.

Inductive pstatus : Type := Running | Sleeping (c : chan) | Exited (status : Z).

(** [sent] is how far the [Write] at the head of [todo] has come. *)
Record process : Type := Process {
  pid : Z; fds : list end_of; buffer : list Z; todo : list cmd; sent : Z; status : pstatus;
}.

(** A printed line: [printf("%d: received %s\n", getpid(), buffer)]. The text is
    [None] if the array holds no terminator. *)
Record output : Type := Line { from : Z; text : option (list Z) }.

(** A pipe whose page has been freed is [None]. *)
Record system : Type := System {
  parent : process; child : process; to_parent : option pipe; to_child : option pipe; out : list output;
}.

Inductive who : Type := Parent | Child.
Definition other (w : who) : who := match w with Parent => Child | Child => Parent end.
Definition proc_of (w : who) (s : system) : process := match w with Parent => parent s | Child => child s end.
Definition pipe_of (p : pipe_name) (s : system) : option pipe :=
  match p with ToParent => to_parent s | ToChild => to_child s end.

Definition set_proc (w : who) (q : process) (s : system) : system :=
  match w with
  | Parent => System q (child s) (to_parent s) (to_child s) (out s)
  | Child => System (parent s) q (to_parent s) (to_child s) (out s)
  end.
Definition set_pipe (p : pipe_name) (x : option pipe) (s : system) : system :=
  match p with
  | ToParent => System (parent s) (child s) x (to_child s) (out s)
  | ToChild => System (parent s) (child s) (to_parent s) x (out s)
  end.
Definition print_line (l : output) (s : system) : system :=
  System (parent s) (child s) (to_parent s) (to_child s) (out s ++ [l]).

(** What [%s] prints of an array. *)
Fixpoint c_string (l : list Z) : option (list Z) :=
  match l with
  | [] => None
  | c :: l' => if c =? 0 then Some [] else match c_string l' with Some t => Some (c :: t) | None => None end
  end.

(** The call at the head returns. *)
Definition next (q : process) : process := Process (pid q) (fds q) (buffer q) (tail (todo q)) 0 Running.
Definition sleep_on (c : chan) (q : process) : process :=
  Process (pid q) (fds q) (buffer q) (todo q) (sent q) (Sleeping c).
Definition set_buffer (b : list Z) (q : process) : process := Process (pid q) (fds q) b (todo q) (sent q) (status q).
Definition set_sent (i : Z) (q : process) : process := Process (pid q) (fds q) (buffer q) (todo q) i (status q).
Definition set_fds (l : list end_of) (q : process) : process := Process (pid q) l (buffer q) (todo q) (sent q) (status q).

(** [wakeup] of one channel. *)
Definition wake_proc (c : chan) (q : process) : process :=
  match status q with
  | Sleeping c' => if decide (c = c') then Process (pid q) (fds q) (buffer q) (todo q) (sent q) Running else q
  | _ => q
  end.
Definition wake_all (cs : list chan) (s : system) : system :=
  foldl (fun s c => set_proc Parent (wake_proc c (parent s)) (set_proc Child (wake_proc c (child s)) s)) s cs.

(** [close]: the last descriptor of an end closes that end of the pipe, and the
    last end frees the page. *)
Definition holds (e : end_of) (q : process) : bool := bool_decide (e ∈ fds q).
Definition close_end (w : who) (e : end_of) (s : system) : outcome system :=
  let q := proc_of w s in
  if negb (holds e q) then Ok s else
  let s := set_proc w (set_fds (filter (.≠ e) (fds q)) q) s in
  if holds e (proc_of (other w) s) then Ok s else
  match pipe_of (of_pipe e) s with
  | None => Fail (Undefined "pipe")
  | Some pi =>
      let '(c, pi', freed) := Pipe.pipeclose (writable e) pi in
      Ok (wake_all [OnPipe (of_pipe e) c] (set_pipe (of_pipe e) (if freed then None else Some pi') s))
  end.

Fixpoint close_ends (w : who) (l : list end_of) (s : system) : outcome system :=
  match l with
  | [] => Ok s
  | e :: l' => match close_end w e s with Ok s' => close_ends w l' s' | Fail f => Fail f end
  end.

(** One run of [read(fd, buffer, n)] and of [write(fd, bytes, 4)]; nobody kills the
    processes. Without the descriptor the call returns -1. *)
Definition read_run (w : who) (p : pipe_name) (n : Z) (s : system) : outcome system :=
  let q := proc_of w s in
  if negb (holds (End p false) q) then Ok (set_proc w (next q) s) else
  match pipe_of p s with
  | None => Fail (Undefined "pipe")
  | Some pi =>
      let '(e, cs, b, pi') := Pipe.piperead_run n (buffer q) 0 false pi in
      let q' := match e with Returns _ => next (set_buffer b q) | Sleeps c => sleep_on (OnPipe p c) (set_buffer b q) end in
      Ok (wake_all (map (OnPipe p) cs) (set_proc w q' (set_pipe p (Some pi') s)))
  end.

Definition write_run (w : who) (p : pipe_name) (bytes : list Z) (s : system) : outcome system :=
  let q := proc_of w s in
  if negb (holds (End p true) q) then Ok (set_proc w (next q) s) else
  match pipe_of p s with
  | None => Fail (Undefined "pipe")
  | Some pi =>
      let '(e, cs, i, pi') := Pipe.pipewrite_run (length bytes - Z.to_nat (sent q)) bytes 0 false (sent q) pi in
      let q' := match e with Returns _ => next q | Sleeps c => sleep_on (OnPipe p c) (set_sent i q) end in
      Ok (wake_all (map (OnPipe p) cs) (set_proc w q' (set_pipe p (Some pi') s)))
  end.

(** One run of the process [w]. *)
Definition run (w : who) (s : system) : outcome system :=
  let q := proc_of w s in
  match status q with
  | Exited _ => Fail (Blocked "exited")
  | Sleeping _ => Fail (Blocked "asleep")
  | Running =>
      match todo q with
      | [] => Fail (Undefined "end of main")
      | Close e :: _ =>
          match close_end w e s with
          | Ok s' => Ok (set_proc w (next (proc_of w s')) s')
          | Fail f => Fail f
          end
      | Read p n :: _ => read_run w p n s
      | Received :: _ => Ok (set_proc w (next q) (print_line (Line (pid q) (c_string (buffer q))) s))
      | Write p bytes :: _ => write_run w p bytes s
      | Wait :: _ =>
          match w with
          | Child => Ok (set_proc w (next q) s)
          | Parent =>
              match status (child s) with
              | Exited _ => Ok (set_proc w (next q) s)
              | _ => Ok (set_proc w (sleep_on OnChild q) s)
              end
          end
      | Exit st :: _ =>
          match close_ends w (fds q) s with
          | Ok s' =>
              let q' := proc_of w s' in
              Ok (wake_all (match w with Child => [OnChild] | Parent => [] end)
                    (set_proc w (Process (pid q') [] (buffer q') [] 0 (Exited st)) s'))
          | Fail f => Fail f
          end
      end
  end.

(** The scheduler picks a process that is ready. *)
Inductive step : system -> system -> Prop :=
| step_run w s s' : run w s = Ok s' -> step s s'.

(** ** The start of [main] *)

(** What [pipe], [pipe], [fork] and [getpid] return, and the bytes that the kernel's
    pages and the stack hold. *)
Record environment : Type := Environment {
  pipe1_ret : Z; pipe2_ret : Z; fork_ret : Z; self : Z; page1 : list Z; page2 : list Z; stack : list Z;
}.

Definition new_pipe (page : list Z) : pipe := Pipe page 0 0 true true.
Definition all_ends : list end_of := [End ToParent false; End ToParent true; End ToChild false; End ToChild true].

Definition forked (e : environment) : system :=
  System (Process (self e) all_ends (stack e) parent_prog 0 Running)
    (Process (fork_ret e) all_ends (stack e) child_prog 0 Running)
    (Some (new_pipe (page1 e))) (Some (new_pipe (page2 e))) [].

(** Either a message and the exit status, or two processes. *)
Inductive started : Type := Stops (message : string) (st : Z) | Forks (s : system).

Definition main (argc : Z) (e : environment) : started :=
  if negb (argc =? 1) then Stops "pingpong needs no argument!" (-1)
  else if (pipe1_ret e <? 0) || negb (pipe2_ret e =? 0) then Stops "pipe creates wrong!" (-1)
  else if fork_ret e <? 0 then Stops "fork creates wrong!" (-1)
  else Forks (forked e).
End Pingpong.

Module PingpongThms.
Import Pingpong.

Definition is_exited (q : process) : Prop := match status q with Exited st => st = 0 | _ => False end.
Definition finished (s : system) : Prop := is_exited (parent s) /\ is_exited (child s).

(** ** The states *)

(** A state is known by what its processes have left to do. *)
Definition awake (q : process) : nat := match status q with Running => 1 | _ => 0 end.
Definition key (s : system) : nat * nat * (nat * nat) :=
  (length (todo (parent s)), awake (parent s), (length (todo (child s)), awake (child s))).
Definition find_key (k : nat * nat * (nat * nat)) (l : list system) : option system :=
  find (fun s => bool_decide (key s = k)) l.

Definition successors (s : system) : list system :=
  (match run Parent s with Ok s' => [s'] | Fail _ => [] end) ++ (match run Child s with Ok s' => [s'] | Fail _ => [] end).

Fixpoint explore (fuel : nat) (todo seen : list system) : list system :=
  match fuel, todo with
  | O, _ | _, [] => seen
  | S f, s :: todo' =>
      match find_key (key s) seen with
      | Some _ => explore f todo' seen
      | None => explore f (successors s ++ todo') (s :: seen)
      end
  end.

(** How much is left: each call, and each process that is awake. *)
Definition left_of (q : process) : nat := 3 * length (todo q) + awake q.
Definition left_to_do (s : system) : nat := left_of (parent s) + left_of (child s).

(** ** Checking a list of states *)
Section check.
Variable lines : list output.

Definition run_ok (l : list system) (w : who) (s : system) : Prop :=
  match run w s with
  | Ok s' => find_key (key s') l = Some s' /\ (left_to_do s' <? left_to_do s)%nat = true
  | Fail (Blocked _) => True
  | Fail _ => False
  end.
Definition goes_on (s : system) : Prop :=
  match status (parent s), status (child s) with
  | Exited a, Exited b => (a, b) = (0, 0) /\ out s = lines /\ to_parent s = None /\ to_child s = None
  | _, _ => match run Parent s, run Child s with Fail _, Fail _ => False | _, _ => True end
  end.
Fixpoint all_ok (l l' : list system) : Prop :=
  match l' with
  | [] => True
  | s :: l' => (run_ok l Parent s /\ run_ok l Child s /\ goes_on s) /\ all_ok l l'
  end.

Lemma find_key_elem k l s : find_key k l = Some s -> s ∈ l.
Proof. intros Hf. apply find_some in Hf as [Hin _]. by apply list_elem_of_In. Qed.

Lemma all_ok_elem l l' s : all_ok l l' -> s ∈ l' -> run_ok l Parent s /\ run_ok l Child s /\ goes_on s.
Proof.
  induction l' as [|x l' IH]; intros Ha Hs; [by apply not_elem_of_nil in Hs|]. destruct Ha as [Hx Ha].
  apply elem_of_cons in Hs as [->|Hs]; [done|by apply IH].
Qed.

Lemma all_ok_step l s s' : all_ok l l -> s ∈ l -> step s s' -> s' ∈ l /\ (left_to_do s' < left_to_do s)%nat.
Proof.
  intros Ha Hs Hst. destruct Hst as [w s1 s2 Hr]. destruct (all_ok_elem _ _ _ Ha Hs) as (Hp & Hc & _).
  assert (Hw : run_ok l w s1) by (by destruct w). unfold run_ok in Hw. rewrite Hr in Hw. destruct Hw as [Hf Hl].
  split; [by eapply find_key_elem|by apply Nat.ltb_lt].
Qed.

Lemma all_ok_reach l s s' : all_ok l l -> s ∈ l -> rtc step s s' -> s' ∈ l.
Proof. intros Ha Hs Hr. induction Hr as [|s1 s2 s3 H1 _ IH]; [done|]. by apply IH, (all_ok_step l s1). Qed.

Lemma all_ok_bound l s s' n : all_ok l l -> s ∈ l -> nsteps step n s s' -> (n + left_to_do s' <= left_to_do s)%nat.
Proof.
  intros Ha Hs Hr. induction Hr as [|n s1 s2 s3 H1 _ IH]; [lia|]. destruct (all_ok_step _ _ _ Ha Hs H1) as [Hin Hlt].
  specialize (IH Hin). lia.
Qed.

Lemma all_ok_progress l s : all_ok l l -> s ∈ l ->
  (exists s', step s s') \/ finished s /\ out s = lines /\ to_parent s = None /\ to_child s = None.
Proof.
  intros Ha Hs. destruct (all_ok_elem _ _ _ Ha Hs) as (_ & _ & Hg). unfold goes_on, finished, is_exited in *.
  assert (Hstep : match run Parent s, run Child s with Fail _, Fail _ => False | _, _ => True end -> exists s', step s s').
  { destruct (run Parent s) as [s1|] eqn:E1; [intros _; exists s1; by econstructor|].
    destruct (run Child s) as [s2|] eqn:E2; [intros _; exists s2; by econstructor|done]. }
  destruct (status (parent s)); auto. destruct (status (child s)); auto. right.
  destruct Hg as ([= -> ->] & Ho & Hp & Hc). done.
Qed.
End check.

(** ** All schedules *)
Section run.
Variables (ret1 ret2 fork_pid self_pid : Z) (a0 a1 a2 a3 b0 b1 b2 b3 c0 c1 c2 c3 : Z) (ra rb rc : list Z).

Definition start : system :=
  forked (Environment ret1 ret2 fork_pid self_pid (a0 :: a1 :: a2 :: a3 :: ra) (b0 :: b1 :: b2 :: b3 :: rb) (c0 :: c1 :: c2 :: c3 :: rc)).
Definition states : list system := explore 400 [start] [].
Definition both_lines : list output :=
  [Line fork_pid (c_string (ping ++ rc)); Line self_pid (c_string (pong ++ rc))].

Lemma states_ok : all_ok both_lines states states.
Proof. vm_compute. repeat split. Qed.

Lemma start_in : start ∈ states.
Proof. apply (find_key_elem (key start)). vm_compute. reflexivity. Qed.
End run.

(** C39: Under every schedule parent and child exchange ping and pong. With the two pipes
    and the child created, for all contents of the pages and of the stack: no run of
    either process is undefined; until both have exited some process can run, so there
    is no deadlock; there are at most 53 steps; and at the end both have exited with
    status 0, both pipes are freed, and the child has printed its line before the
    parent has printed its own. The array is not terminated, so each line goes on with
    what the stack holds behind the four bytes. *)
Theorem pingpong_exchange e s :
  main 1 e = Forks s -> (4 <= length (page1 e))%nat -> (4 <= length (page2 e))%nat -> length (stack e) = Z.to_nat BUFFER_MAX ->
  (forall n s', nsteps step n s s' -> (n <= 53)%nat) /\
  forall s', rtc step s s' ->
    (forall w m, run w s' <> Fail (Undefined m)) /\
    ((exists s'', step s' s'') \/
     finished s' /\ to_parent s' = None /\ to_child s' = None /\
     out s' = [Line (fork_ret e) (c_string (ping ++ drop 4 (stack e))); Line (self e) (c_string (pong ++ drop 4 (stack e)))]).
Proof.
  intros Hm H1 H2 H3. destruct e as [r1 r2 f me p1 p2 st]. cbn [page1 page2 stack fork_ret self] in *.
  assert (Hs : s = forked (Environment r1 r2 f me p1 p2 st)).
  { unfold main in Hm. cbn in Hm. repeat case_match; congruence. }
  destruct p1 as [|a0 [|a1 [|a2 [|a3 ra]]]]; try (cbn in H1; lia).
  destruct p2 as [|b0 [|b1 [|b2 [|b3 rb]]]]; try (cbn in H2; lia).
  destruct st as [|c0 [|c1 [|c2 [|c3 rc]]]]; try done. clear H1 H2 H3.
  pose proof (states_ok r1 r2 f me a0 a1 a2 a3 b0 b1 b2 b3 c0 c1 c2 c3 ra rb rc) as Hok.
  pose proof (start_in r1 r2 f me a0 a1 a2 a3 b0 b1 b2 b3 c0 c1 c2 c3 ra rb rc) as Hin.
  set (l := states _ _ _ _ _ _ _ _ _ _ _ _ _ _ _ _ _ _ _) in Hok, Hin. fold (start r1 r2 f me a0 a1 a2 a3 b0 b1 b2 b3 c0 c1 c2 c3 ra rb rc) in Hs.
  rewrite <- Hs in Hin. clearbody l. split.
  { intros n s' Hn. pose proof (all_ok_bound _ _ _ _ _ Hok Hin Hn) as Hb.
    assert (left_to_do s = 53%nat) by (rewrite Hs; reflexivity). lia. }
  intros s' Hr. assert (Hs' : s' ∈ l) by (by eapply all_ok_reach). split.
  { intros w m Hu. destruct (all_ok_elem _ _ _ _ Hok Hs') as (Hp & Hc & _). unfold run_ok in *. destruct w; [rewrite Hu in Hp|rewrite Hu in Hc]; done. }
  destruct (all_ok_progress _ _ _ Hok Hs') as [Hstep|(Hf & Ho & Hp & Hc)]; [by left|right].
  exact (conj Hf (conj Hp (conj Hc Ho))).
Qed.

(** A terminated array: the lines are "ping" and "pong". *)
Lemma pingpong_exchange_witness :
  exists s, main 1 (Environment 0 0 7 6 (repeat 0 512) (repeat 0 512) (repeat 0 128)) = Forks s /\
    forall s', rtc step s s' -> (exists s'', step s' s'') \/ out s' = [Line 7 (Some ping); Line 6 (Some pong)].
Proof.
  set (e := Environment 0 0 7 6 (repeat 0 512) (repeat 0 512) (repeat 0 128)).
  assert (Hm : main 1 e = Forks (forked e)) by reflexivity.
  assert (H1 : (4 <= length (page1 e))%nat) by (cbn; lia).
  assert (H2 : (4 <= length (page2 e))%nat) by (cbn; lia).
  exists (forked e). split; [exact Hm|]. intros s' Hr.
  destruct (proj2 (pingpong_exchange e (forked e) Hm H1 H2 eq_refl) s' Hr) as (_ & [Hs|(_ & _ & _ & Ho)]); [left; exact Hs|right].
  rewrite Ho. reflexivity.
Defined.

(** Without the descriptors or the child the program prints a message and exits with -1. *)
Lemma main_stops argc e : argc <> 1 \/ pipe1_ret e < 0 \/ pipe2_ret e <> 0 \/ fork_ret e < 0 ->
  exists m, main argc e = Stops m (-1).
Proof. intros H. unfold main. repeat case_match; eauto. exfalso. apply orb_false_iff in H1 as [? ?]. bool_to_prop. lia. Qed.
End PingpongThms.
