(* ===== verification/Primes.v ===== *)
(** * The prime sieve of the first experiment ([primes.c])

    Parent and child pass the numbers that are left through two pipes, once per
    prime. Each process runs until it waits for the other, so a round is: the
    parent fills one pipe, the child reads, sieves and fills the other pipe, the
    parent reads it. A pipe holds 4-byte numbers and at most 512 bytes; a write
    that does not fit would wait, which is [Blocked]. The array bound [MAX] is a
    parameter; the program defines it as 35. *)

From Stdlib Require Import Znumtheory Sorting.Sorted.
From S2P Require Import Prelude.
From S2P Require Import Pipe.

(** The array of the running process, the pipe to the child and the pipe to the
    parent. *)
Record world : Type := World { num : list Z; down : list Z; up : list Z }.

Inductive line : Type := Prime (p : Z) | Message (m : string).

(** What [pipe], [pipe] and [fork] return in one round of the parent. *)
Record calls : Type := Calls { pipe1 : Z; pipe2 : Z; fork_ret : Z }.

Module Primes.
Section sieve.
Variable MAX : Z.
Abbreviation W := (M world).

Definition num_at (i : nat) : W Z := fun w =>
  match num w !! i with
  | Some x => Ok (x, w)
  | None => Fail (Undefined "num")
  end.
Definition set_num (i : nat) (x : Z) : W unit :=
  _ ← num_at i; modify (fun w => World (<[i := x]> (num w)) (down w) (up w)).

Definition fits (q : list Z) : bool := 4 * (Z.of_nat (length q) + 1) <=? PIPESIZE.
Definition write_down (x : Z) : W unit := fun w =>
  if fits (down w) then Ok (tt, World (num w) (down w ++ [x]) (up w)) else Fail (Blocked "write").
Definition write_up (x : Z) : W unit := fun w =>
  if fits (up w) then Ok (tt, World (num w) (down w) (up w ++ [x])) else Fail (Blocked "write").

(** [read(fd, &num[i], 4)]; at the end of the data it changes nothing. *)
Definition read_down (i : nat) : W unit :=
  q ← gets down;
  match q with
  | [] => mret tt
  | x :: q' => set_num i x;; modify (fun w => World (num w) q' (up w))
  end.
Definition read_up (i : nat) : W unit :=
  q ← gets up;
  match q with
  | [] => mret tt
  | x :: q' => set_num i x;; modify (fun w => World (num w) (down w) q')
  end.

(** The four loops, with [n] iterations left. *)
Fixpoint write_loop (write : Z -> W unit) (n i : nat) : W unit :=
  match n with
  | O => mret tt
  | S n' =>
      x ← num_at i;
      write x;;
      if x =? MAX + 1 then mret tt else write_loop write n' (S i)
  end.
Definition parent_write : nat -> nat -> W unit := write_loop write_down.
Definition child_write : nat -> nat -> W unit := write_loop write_up.

Fixpoint child_read (n i j : nat) (numDivide : option Z) : W unit :=
  match n with
  | O => mret tt
  | S n' =>
      read_down i;;
      x ← num_at i;
      if x =? MAX + 1 then set_num j (MAX + 1)
      else if (i =? 0)%nat then child_read n' (S i) j (Some x)
      else match numDivide with
           | None => fail (Undefined "numDivide")
           | Some d =>
               if d =? 0 then fail (Undefined "division")
               else if negb (Z.rem x d =? 0) then set_num j x;; child_read n' (S i) (S j) numDivide
               else child_read n' (S i) j numDivide
           end
  end.

Fixpoint parent_read (n i : nat) : W unit :=
  match n with
  | O => mret tt
  | S n' =>
      read_up i;;
      x ← num_at i;
      if x =? MAX + 1 then mret tt else parent_read n' (S i)
  end.

Definition size : nat := Z.to_nat MAX.

(** The child works on its copy of the array. The pipes are new in every round. *)
Definition child : W unit := child_read size 0 0 None;; child_write size 0.

Definition round : W unit :=
  parent_write size 0;;
  num0 ← gets num;
  child;;
  modify (fun w => World num0 (down w) (up w));;
  parent_read size 0.

(** The [while] loop: the lines printed and the exit status. *)
Fixpoint main_loop (fuel : nat) (env : nat -> calls) (k : nat) : W (list line * Z) :=
  x ← num_at 0;
  if x <=? MAX then
    match fuel with
    | O => fail OutOfFuel
    | S fuel' =>
        let c := env k in
        if (pipe1 c <? 0) || negb (pipe2 c =? 0) then mret ([Prime x; Message "pipe creates wrong!"], -1)
        else if fork_ret c <? 0 then mret ([Prime x; Message "fork creates wrong!"], -1)
        else
          modify (fun w => World (num w) [] []);;
          round;;
          r ← main_loop fuel' env (S k);
          mret (Prime x :: fst r, snd r)
    end
  else mret ([], 0).

Definition first_numbers : list Z := map (fun i => Z.of_nat i + 2) (seq 0 size).

Definition main (argc : Z) (env : nat -> calls) : outcome (list line * Z) :=
  if negb (argc =? 1) then Ok ([Message "primes needs no argument!"], -1) else
  match main_loop size env 0 (World first_numbers [] []) with
  | Ok (r, _) => Ok r
  | Fail e => Fail e
  end.
End sieve.
End Primes.

(** [#define MAX 35] *)
Definition MAX : Z := 35.

Example primes_35 :
  Primes.main MAX 1 (fun _ => Calls 0 0 1) =
  Ok (map Prime [2; 3; 5; 7; 11; 13; 17; 19; 23; 29; 31], 0).
Proof. reflexivity. Qed.

Module PrimesThms.
Import Primes.

Section loops.
Variable MAX : Z.
Hypothesis Hfits : 4 * MAX <= PIPESIZE.
Hypothesis Hmax : 1 <= MAX.

(** The numbers that are left, followed by the end mark. *)
Definition enc (l : list Z) : list Z := l ++ [MAX + 1].
Definition plain (l : list Z) : Prop := Forall (fun x => x <> MAX + 1) l.

Lemma length_enc l : length (enc l) = S (length l).
Proof. unfold enc. rewrite length_app. cbn. lia. Qed.

Lemma size_MAX : Z.of_nat (size MAX) = MAX.
Proof. unfold size. lia. Qed.

Lemma fits_room q : (length q < size MAX)%nat -> fits q = true.
Proof. intros Hq. unfold fits. apply Z.leb_le. pose proof size_MAX. lia. Qed.

Definition put_down (q : list Z) (w : world) : world := World (num w) (down w ++ q) (up w).
Definition put_up (q : list Z) (w : world) : world := World (num w) (down w) (up w ++ q).

(** A loop that writes the array sends the numbers and the mark; [add] is what the
    pipe it writes to receives, [used] how full that pipe is. *)
Lemma send_loop_ok (write : Z -> M world unit) (add : list Z -> world -> world) (used : world -> list Z) :
  (forall x w, fits (used w) = true -> write x w = Ok (tt, add [x] w)) ->
  (forall q w, num (add q w) = num w /\ used (add q w) = used w ++ q) ->
  (forall q q' w, add q' (add q w) = add (q ++ q') w) ->
  forall l n pre w,
  plain l -> (pre ++ enc l) `prefix_of` num w -> (length l < n)%nat ->
  (length (used w) + length l < size MAX)%nat ->
  write_loop MAX write n (length pre) w = Ok (tt, add (enc l) w).
Proof.
  intros Hw Hadd Happ l. induction l as [|x l IH]; intros n pre w Hpl Hv Hn Hq;
    (destruct n as [|n]; [cbn in Hn; lia|]); cbn [write_loop].
  - assert (Hx : num w !! length pre = Some (MAX + 1)) by (by eapply prefix_lookup_at).
    unfold mbind, M_bind, num_at. rewrite Hx, Hw by (apply fits_room; cbn in Hq; lia). by rewrite Z.eqb_refl.
  - apply Forall_cons in Hpl as [Hx Hpl]. unfold enc in Hv. cbn [app] in Hv.
    change (x :: l ++ [MAX + 1]) with ([x] ++ enc l) in Hv. rewrite app_assoc in Hv.
    assert (Hvx : num w !! length pre = Some x).
    { eapply prefix_lookup_at; [|done]. eapply prefix_app_l, Hv. }
    unfold mbind, M_bind, num_at. rewrite Hvx, Hw by (apply fits_room; cbn in Hq; lia).
    destruct (Z.eqb_spec x (MAX + 1)); [done|]. destruct (Hadd [x] w) as [Hn1 Hu1].
    replace (S (length pre)) with (length (pre ++ [x])) by (rewrite length_app; cbn; lia).
    rewrite IH; [by rewrite Happ|done|by rewrite Hn1|cbn in Hn; lia|].
    rewrite Hu1, length_app. cbn in *. lia.
Qed.

Lemma parent_write_ok l w :
  plain l -> enc l `prefix_of` num w -> (length l < size MAX)%nat -> down w = [] ->
  parent_write MAX (size MAX) 0 w = Ok (tt, World (num w) (enc l) (up w)).
Proof.
  intros Hpl Hv Hl Hd. unfold parent_write. rewrite (send_loop_ok write_down put_down down) with (l := l) (pre := []).
  - unfold put_down. by rewrite Hd.
  - intros x w' Hf. unfold write_down, put_down. by rewrite Hf.
  - done.
  - intros q q' w'. unfold put_down. cbn. by rewrite app_assoc.
  - done.
  - done.
  - done.
  - rewrite Hd. cbn. lia.
Qed.

Lemma child_write_ok l w :
  plain l -> enc l `prefix_of` num w -> (length l < size MAX)%nat -> up w = [] ->
  child_write MAX (size MAX) 0 w = Ok (tt, World (num w) (down w) (enc l)).
Proof.
  intros Hpl Hv Hl Hd. unfold child_write. rewrite (send_loop_ok write_up put_up up) with (l := l) (pre := []).
  - unfold put_up. by rewrite Hd.
  - intros x w' Hf. unfold write_up, put_up. by rewrite Hf.
  - done.
  - intros q q' w'. unfold put_up. cbn. by rewrite app_assoc.
  - done.
  - done.
  - done.
  - rewrite Hd. cbn. lia.
Qed.

(** Reading into cell [i] of the array. *)
Lemma set_num_ok i x w :
  (i < length (num w))%nat -> set_num i x w = Ok (tt, World (<[i := x]> (num w)) (down w) (up w)).
Proof.
  intros Hi. unfold set_num, mbind, M_bind, num_at. by destruct (lookup_lt_is_Some_2 _ _ Hi) as [y ->].
Qed.

Lemma read_down_ok i x v q u : (i < length v)%nat ->
  read_down i (World v (x :: q) u) = Ok (tt, World (<[i := x]> v) q u).
Proof. intros Hi. unfold read_down. rewrite bind_gets. cbn [down]. by erewrite bind_step by (by apply set_num_ok). Qed.
Lemma read_up_ok i x v q d : (i < length v)%nat ->
  read_up i (World v d (x :: q)) = Ok (tt, World (<[i := x]> v) d q).
Proof. intros Hi. unfold read_up. rewrite bind_gets. cbn [up]. by erewrite bind_step by (by apply set_num_ok). Qed.

Lemma num_at_set i x v q u : (i < length v)%nat ->
  num_at i (World (<[i := x]> v) q u) = Ok (x, World (<[i := x]> v) q u).
Proof. intros Hi. unfold num_at. cbn [num]. by rewrite list_lookup_insert_eq. Qed.

Definition keeps (d x : Z) : Prop := Z.rem x d <> 0.
#[local] Instance keeps_dec d x : Decision (keeps d x).
Proof. unfold keeps. apply _. Defined.

(** The child after its first number: it keeps, in order, the numbers that [d]
    does not divide. *)
Lemma child_read_ok d l : d <> 0 -> forall n i v u kept,
  plain l -> (length kept < i)%nat -> (i + length l < length v)%nat -> (length l < n)%nat ->
  kept `prefix_of` v ->
  exists v', child_read MAX n i (length kept) (Some d) (World v (enc l) u) = Ok (tt, World v' [] u) /\
    length v' = length v /\ (kept ++ enc (filter (keeps d) l)) `prefix_of` v'.
Proof.
  intros Hd. induction l as [|x l IH]; intros n i v u kept Hpl Hi Hv Hn Hk;
    (destruct n as [|n]; [cbn in Hn; lia|]); cbn [child_read]; cbn [length] in *.
  - unfold enc at 1. cbn [app]. rewrite (bind_step _ _ _ _ _ (read_down_ok i _ v _ u ltac:(lia))).
    rewrite (bind_step _ _ _ _ _ (num_at_set i _ v _ u ltac:(lia))), Z.eqb_refl.
    rewrite set_num_ok by (cbn; rewrite length_insert; lia). cbn [num down up]. eexists. split; [done|].
    split; [by rewrite !length_insert|]. cbn. apply prefix_set_at; [apply prefix_set_beyond; [done|lia]|].
    rewrite length_insert. lia.
  - apply Forall_cons in Hpl as [Hx Hpl].
    unfold enc at 1. cbn [app]. rewrite (bind_step _ _ _ _ _ (read_down_ok i _ v _ u ltac:(lia))).
    rewrite (bind_step _ _ _ _ _ (num_at_set i _ v _ u ltac:(lia))). destruct (Z.eqb_spec x (MAX + 1)); [done|].
    destruct (Nat.eqb_spec i 0); [lia|]. destruct (Z.eqb_spec d 0); [done|].
    rewrite filter_cons. destruct (Z.eqb_spec (Z.rem x d) 0) as [E|E]; cbn [negb].
    + rewrite decide_False by (intros Hkp; by apply Hkp).
      destruct (IH n (S i) (<[i:=x]> v) u kept) as (v' & He & Hl & Hp); try done; try lia.
      * rewrite length_insert. lia.
      * apply prefix_set_beyond; [done|lia].
      * exists v'. rewrite length_insert in Hl. done.
    + rewrite decide_True by done. unfold mbind, M_bind.
      rewrite set_num_ok by (cbn; rewrite length_insert; lia). cbn [num down up].
      destruct (IH n (S i) (<[length kept:=x]> (<[i:=x]> v)) u (kept ++ [x])) as (v' & He & Hl & Hp); try done; try lia.
      * rewrite length_app. cbn. lia.
      * rewrite !length_insert. lia.
      * apply prefix_set_at; [apply prefix_set_beyond; [done|lia]|]. rewrite length_insert. lia.
      * rewrite length_app, Nat.add_1_r in He. exists v'. rewrite !length_insert in Hl.
        split; [exact He|]. split; [done|]. by rewrite <- app_assoc in Hp.
Qed.

Lemma parent_read_ok l : forall n v d pre,
  plain l -> (length pre + length l < length v)%nat -> (length l < n)%nat -> pre `prefix_of` v ->
  exists v', parent_read MAX n (length pre) (World v d (enc l)) = Ok (tt, World v' d []) /\
    length v' = length v /\ (pre ++ enc l) `prefix_of` v'.
Proof.
  induction l as [|x l IH]; intros n v d pre Hpl Hv Hn Hp; (destruct n as [|n]; [cbn in Hn; lia|]);
    cbn [parent_read]; cbn [length] in *; unfold enc at 1; cbn [app];
    rewrite (bind_step _ _ _ _ _ (read_up_ok (length pre) _ v _ d ltac:(lia)));
    rewrite (bind_step _ _ _ _ _ (num_at_set (length pre) _ v _ _ ltac:(lia))).
  - rewrite Z.eqb_refl. eexists. split; [done|]. split; [by rewrite length_insert|]. apply prefix_set_at; [done|lia].
  - apply Forall_cons in Hpl as [Hx Hpl]. destruct (Z.eqb_spec x (MAX + 1)); [done|].
    destruct (IH n (<[length pre:=x]> v) d (pre ++ [x])) as (v' & He & Hl & Hp'); try done.
    + rewrite length_app, length_insert. cbn. lia.
    + lia.
    + apply prefix_set_at; [done|lia].
    + rewrite length_app, Nat.add_1_r in He. rewrite length_insert in Hl.
      exists v'. split; [exact He|]. split; [done|]. by rewrite <- app_assoc in Hp'.
Qed.

(** A round removes the first number and its multiples. *)
Lemma round_ok p l v :
  plain (p :: l) -> p <> 0 -> enc (p :: l) `prefix_of` v -> length v = size MAX ->
  exists v', round MAX (World v [] []) = Ok (tt, World v' [] []) /\ length v' = size MAX /\
    enc (filter (keeps p) l) `prefix_of` v'.
Proof.
  intros Hpl Hp0 Hpre Hlen. pose proof (prefix_length _ _ Hpre) as Hl. rewrite length_enc in Hl. cbn [length] in Hl.
  assert (Hpl' : plain l) by (by apply Forall_cons in Hpl as [_ ?]).
  assert (Hplf : plain (filter (keeps p) l)) by (by apply Forall_filter).
  pose proof (length_filter (keeps p) l) as Hlf.
  unfold round. rewrite (bind_step _ _ _ _ _ (parent_write_ok (p :: l) (World v [] []) Hpl Hpre ltac:(cbn; lia) eq_refl)).
  rewrite bind_gets. cbn [num up]. unfold child. rewrite !bind_assoc.
  destruct (size MAX) as [|m] eqn:Esz; [lia|]. rewrite <- Esz in *.
  assert (Hfirst : exists v1, child_read MAX (size MAX) 0 0 None (World v (enc (p :: l)) []) = Ok (tt, World v1 [] []) /\
    length v1 = length v /\ enc (filter (keeps p) l) `prefix_of` v1).
  { rewrite Esz in *. cbn [child_read]. unfold enc at 1. cbn [app].
    rewrite (bind_step _ _ _ _ _ (read_down_ok 0 _ v _ [] ltac:(lia))).
    rewrite (bind_step _ _ _ _ _ (num_at_set 0 _ v _ [] ltac:(lia))).
    apply Forall_cons in Hpl as [Hp1 _]. destruct (Z.eqb_spec p (MAX + 1)); [done|]. cbn [Nat.eqb].
    destruct (child_read_ok p l Hp0 m 1 (<[0%nat:=p]> v) [] []) as (v1 & He & Hlv & Hpv); try done; try (cbn; lia).
    - rewrite length_insert. lia.
    - apply prefix_nil.
    - exists v1. rewrite length_insert in Hlv. done. }
  destruct Hfirst as (v1 & He1 & Hl1 & Hp1). rewrite (bind_step _ _ _ _ _ He1).
  rewrite (bind_step _ _ _ _ _ (child_write_ok _ (World v1 [] []) Hplf Hp1 ltac:(lia) eq_refl)).
  rewrite bind_modify. cbn [down up num].
  destruct (parent_read_ok (filter (keeps p) l) (size MAX) v [] []) as (v' & He & Hlv & Hpv); try done; try (cbn; lia).
  - apply prefix_nil.
  - exists v'. split; [exact He|]. split; [congruence|done].
Qed.
End loops.

(** ** The sieve on lists *)

(** After the primes [printed]: [l] is what is left of [2 .. MAX]. *)
Record sieved (MAX : Z) (printed l : list Z) : Prop := {
  sv_sorted : StronglySorted Z.lt l;
  sv_left x : x ∈ l <-> 2 <= x <= MAX /\ forall q, q ∈ printed -> ~ (q | x);
  sv_primes q : q ∈ printed -> prime q /\ q <= MAX;
  sv_printed : StronglySorted Z.lt printed;
  sv_below q x : q ∈ printed -> x ∈ l -> q < x;
}.

Lemma sorted_head p l x : StronglySorted Z.lt (p :: l) -> x ∈ p :: l -> p <= x.
Proof.
  intros [_ Hf]%StronglySorted_inv [->|Hx]%elem_of_cons; [lia|]. rewrite Forall_forall in Hf. by apply Hf in Hx; lia.
Qed.

(** The head of what is left is prime. *)
Lemma sieved_prime MAX printed p l : sieved MAX printed (p :: l) -> prime p.
Proof.
  intros [Hs Hl _ _ _]. assert (Hp : p ∈ p :: l) by set_solver. apply Hl in Hp as [Hp Hnd].
  destruct (prime_dec p) as [|Hnp]; [done|exfalso].
  apply not_prime_divide in Hnp as (n & Hn & Hnp); [|lia].
  destruct (decide (n ∈ p :: l)) as [Hin|Hout]; [pose proof (sorted_head p l n Hs Hin); lia|].
  apply Hout, Hl. split; [lia|]. intros q Hq Hqn. apply (Hnd q Hq). by eapply Z.divide_trans.
Qed.

Lemma StronglySorted_snoc (l : list Z) x :
  StronglySorted Z.lt l -> (forall y, y ∈ l -> y < x) -> StronglySorted Z.lt (l ++ [x]).
Proof.
  intros Hs Hx. induction Hs as [|y l Hs IH Hf]; cbn; [repeat constructor|]. constructor.
  - apply IH. intros z Hz. apply Hx. set_solver.
  - apply Forall_app. split; [done|]. constructor; [apply Hx; set_solver|constructor].
Qed.

Lemma StronglySorted_filter (P : Z -> Prop) `{forall x, Decision (P x)} l :
  StronglySorted Z.lt l -> StronglySorted Z.lt (filter P l).
Proof.
  intros Hs. induction Hs as [|y l Hs IH Hf]; [constructor|]. rewrite filter_cons. case_decide; [|done].
  constructor; [done|]. by apply Forall_filter.
Qed.

Lemma keeps_divide d x : d <> 0 -> keeps d x <-> ~ (d | x).
Proof. intros Hd. unfold keeps. by rewrite Z.rem_divide. Qed.

Lemma sieved_step MAX printed p l :
  sieved MAX printed (p :: l) -> sieved MAX (printed ++ [p]) (filter (keeps p) l).
Proof.
  intros Hsv. pose proof (sieved_prime _ _ _ _ Hsv) as Hprime. pose proof (prime_ge_2 p Hprime) as Hp2.
  destruct Hsv as [Hs Hl Hpr Hsp Hbel]. pose proof Hs as Hs'. apply StronglySorted_inv in Hs' as [Hst Hft].
  rewrite Forall_forall in Hft. assert (Hpin : p ∈ p :: l) by set_solver.
  split.
  - by apply StronglySorted_filter.
  - intros x. rewrite list_elem_of_filter, keeps_divide by lia. split.
    + intros [Hnp Hx]. assert (Hx' : x ∈ p :: l) by set_solver. apply Hl in Hx' as [Hr Hq].
      split; [done|]. intros q [Hqin|Hqp]%elem_of_app; [by apply Hq|]. by apply list_elem_of_singleton in Hqp as ->.
    + intros [Hr Hq]. assert (Hnp : ~ (p | x)) by (apply Hq; set_solver). split; [done|].
      assert (Hx : x ∈ p :: l) by (apply Hl; split; [done|]; intros q Hqin; apply Hq; set_solver).
      apply elem_of_cons in Hx as [->|Hx]; [|done]. by destruct Hnp.
  - intros q [Hq|Hq]%elem_of_app; [by apply Hpr|]. apply list_elem_of_singleton in Hq as ->.
    split; [done|]. apply Hl in Hpin. lia.
  - apply StronglySorted_snoc; [done|]. intros y Hy. by apply (Hbel y p).
  - intros q x [Hq|Hq]%elem_of_app [_ Hx]%list_elem_of_filter; [apply Hbel; set_solver|].
    apply list_elem_of_singleton in Hq as ->. by apply Hft.
Qed.

(** When nothing is left, the printed numbers are the primes. *)
Lemma sieved_done MAX printed : sieved MAX printed [] -> forall x, x ∈ printed <-> prime x /\ x <= MAX.
Proof.
  intros [_ Hl Hpr _ _] x. split; [apply Hpr|]. intros [Hx Hxm]. pose proof (prime_ge_2 x Hx).
  destruct (decide (x ∈ printed)) as [|Hn]; [done|exfalso].
  assert (Hin : x ∈ ([] : list Z)); [|by apply elem_of_nil in Hin]. apply Hl. split; [lia|].
  intros q Hq Hdiv. destruct (Hpr q Hq) as [Hqp _]. apply Hn. by rewrite <- (prime_div_prime q x Hqp Hx Hdiv).
Qed.

(** ** The program *)
Definition all_calls_succeed (env : nat -> calls) : Prop :=
  forall k, 0 <= pipe1 (env k) /\ pipe2 (env k) = 0 /\ 0 <= fork_ret (env k).

Lemma main_loop_ok MAX env : 1 <= MAX -> 4 * MAX <= PIPESIZE -> all_calls_succeed env ->
  forall fuel k printed l v d u,
  sieved MAX printed l -> enc MAX l `prefix_of` v -> length v = size MAX -> (length l <= fuel)%nat ->
  exists out w, main_loop MAX fuel env k (World v d u) = Ok ((map Prime out, 0), w) /\ sieved MAX (printed ++ out) [].
Proof.
  intros Hm Hf Henv. induction fuel as [|fuel IH]; intros k printed l v d u Hsv Hpre Hlen Hfuel.
  all: destruct l as [|p l]; [|try (cbn in Hfuel; lia)].
  1, 2: exists [], (World v d u); rewrite app_nil_r; split; [|done];
    destruct Hpre as [g ->]; cbn [main_loop]; unfold mbind, M_bind, num_at; cbn;
    destruct (Z.leb_spec (MAX + 1) MAX); [lia|done].
  pose proof (sieved_prime _ _ _ _ Hsv) as Hprime. pose proof (prime_ge_2 p Hprime) as Hp2.
  assert (Hple : p <= MAX) by (assert (Hin : p ∈ p :: l) by set_solver; apply (sv_left _ _ _ Hsv) in Hin; lia).
  assert (Hpl : plain MAX (p :: l)).
  { apply Forall_forall. intros x Hx. apply (sv_left _ _ _ Hsv) in Hx. lia. }
  assert (Hv0 : v !! 0%nat = Some p) by (destruct Hpre as [g ->]; done).
  destruct (round_ok MAX Hf Hm p l v Hpl ltac:(lia) Hpre Hlen) as (v' & Hr & Hlen' & Hpre').
  pose proof (length_filter (keeps p) l) as Hlf. cbn [length] in Hfuel.
  destruct (IH (S k) (printed ++ [p]) (filter (keeps p) l) v' [] [] (sieved_step _ _ _ _ Hsv) Hpre' Hlen' ltac:(lia))
    as (out & w & He & Hout).
  exists (p :: out), w. split; [|by rewrite <- app_assoc in Hout].
  cbn [main_loop]. erewrite bind_step by (unfold num_at; cbn [num]; by rewrite Hv0).
  destruct (Z.leb_spec p MAX); [|lia]. destruct (Henv k) as (E1 & E2 & E3).
  destruct (Z.ltb_spec (pipe1 (env k)) 0); [lia|]. rewrite E2. cbn [Z.eqb negb orb].
  destruct (Z.ltb_spec (fork_ret (env k)) 0); [lia|].
  rewrite bind_modify. cbn [num]. rewrite (bind_step _ _ _ _ _ Hr), (bind_step _ _ _ _ _ He). done.
Qed.

Lemma first_numbers_enc MAX : 1 <= MAX -> exists l, first_numbers MAX = enc MAX l /\ sieved MAX [] l /\ (length l <= size MAX)%nat.
Proof.
  intros Hm. exists (map (fun i => Z.of_nat i + 2) (seq 0 (size MAX - 1))).
  pose proof (size_MAX MAX Hm) as Hs. split; [|split; [split|]].
  - unfold first_numbers, enc. replace (size MAX) with (size MAX - 1 + 1)%nat at 1 by lia.
    rewrite seq_app, map_app. cbn. do 2 f_equal. lia.
  - generalize (size MAX - 1)%nat. intros n. generalize 0%nat.
    induction n as [|n IH]; intros i; cbn; constructor; [apply IH|].
    apply Forall_forall. intros x (j & -> & Hj)%list_elem_of_fmap. apply elem_of_seq in Hj. lia.
  - intros x. rewrite list_elem_of_fmap. split.
    + intros (j & -> & Hj). apply elem_of_seq in Hj. split; [lia|]. by intros q ?%elem_of_nil.
    + intros [Hx _]. exists (Z.to_nat (x - 2)). rewrite elem_of_seq. lia.
  - by intros q ?%elem_of_nil.
  - constructor.
  - by intros q x ?%elem_of_nil.
  - rewrite length_map, length_seq. lia.
Qed.

(** C34: As long as [pipe] and [fork] succeed and the numbers fit in a pipe, the
    program, for any [MAX] from 1, prints exactly the primes up to [MAX], each
    once and in increasing order, and exits with status 0: no access to the array
    is out of bounds, no write waits for its reader, and the loop ends. *)
Theorem primes_prints_primes MAX env :
  1 <= MAX -> 4 * MAX <= PIPESIZE -> all_calls_succeed env ->
  exists out, main MAX 1 env = Ok (map Prime out, 0) /\ StronglySorted Z.lt out /\
    forall x, x ∈ out <-> prime x /\ x <= MAX.
Proof.
  intros Hm Hf Henv. destruct (first_numbers_enc MAX Hm) as (l & Hl & Hsv & Hlen).
  destruct (main_loop_ok MAX env Hm Hf Henv (size MAX) 0 [] l (first_numbers MAX) [] [] Hsv) as (out & w & He & Hout).
  - by rewrite Hl.
  - unfold first_numbers. by rewrite length_map, length_seq.
  - done.
  - exists out. split; [|split; [apply (sv_printed _ _ _ Hout)|by apply sieved_done]].
    unfold main. cbn [Z.eqb Pos.eqb negb]. by rewrite He.
Qed.

(** The program as it is: [MAX] is 35. *)
Lemma primes_prints_primes_witness :
  exists out, main Primes.MAX 1 (fun _ => Calls 0 0 1) = Ok (map Prime out, 0) /\ StronglySorted Z.lt out /\
    forall x, x ∈ out <-> prime x /\ x <= Primes.MAX.
Proof.
  apply (primes_prints_primes Primes.MAX (fun _ => Calls 0 0 1)); [unfold Primes.MAX; lia|by vm_compute|].
  intros k. cbn. lia.
Defined.
End PrimesThms.
