(* ===== verification/Find.v ===== *)
(** * [find] of the first experiment ([find.c]): model

    The program reads directories entry by entry through a descriptor, builds the
    path of each entry in a buffer of 512 bytes and calls itself for directories,
    with the descriptors of the enclosing directories open. What C leaves undefined
    (an access outside an array) is the failure [Undefined]. The system calls and
    the layout of a directory entry are not part of the repository: they are an
    interface, with laws that say what the calls do to the table of open
    descriptors; [stat] of the user library opens the file itself. *)

From S2P Require Import Prelude.

(** [DIRSIZ], [T_DIR] and [struct dirent], whose last member is [name]. *)
Class Dirent : Type := {
  DIRSIZ : nat;
  sizeof_dirent : nat;
  de_inum : list Z -> Z;
  de_name : list Z -> list Z;
  T_DIR : Z;
}.

Class DirentOk `{Dirent} : Prop := {
  dirsiz_small : (DIRSIZ <= 256)%nat;
  dirent_pos : (0 < sizeof_dirent)%nat;
  name_length : forall de, length de = sizeof_dirent -> length (de_name de) = DIRSIZ;
}.

(** The calls: [open] gives a descriptor or -1, [read] the bytes, [stat] the type of
    the file or [None] for -1. *)
Class UserSys (W : Type) : Type := {
  open : list Z -> M W Z;
  read : Z -> nat -> M W (list Z);
  close : Z -> M W unit;
  stat : list Z -> M W (option Z);
}.

(** A line that is printed. *)
Inductive line : Type :=
| Found (path : list Z)
| CannotOpen (path : list Z)
| TooLong
| CannotStat (path : list Z)
| Usage.
#[export] Instance line_eq_dec : EqDecision line.
Proof. solve_decision. Defined.

(** The characters of the string that starts an array. *)
Fixpoint cstr (l : list Z) : list Z :=
  match l with
  | [] => []
  | c :: l' => if c =? 0 then [] else c :: cstr l'
  end.

Definition SLASH : Z := 47.
Definition DOT : Z := 46.

Module Find.
Section program.
Context `{Dirent} {W : Type} `{!UserSys W}.
Abbreviation P := (M (W * list line)).

Definition sys {B} (m : M W B) : P B := fun s =>
  match m (fst s) with
  | Ok (b, w) => Ok (b, (w, snd s))
  | Fail e => Fail e
  end.
Definition print (l : line) : P unit := modify (fun s => (fst s, snd s ++ [l])).

(** Is [strcmp(a, b) == 0]? [b] is a string; [a] is an array, which may end without
    a zero. *)
Fixpoint strcmp_eq (a b : list Z) : P bool :=
  match a with
  | [] => fail (Undefined "strcmp")
  | c :: a' =>
      match b with
      | [] => mret (c =? 0)
      | d :: b' => if negb (c =? d) then mret false else strcmp_eq a' b'
      end
  end.

(** [memmove(buf + off, bs, length bs)] *)
Definition put (buf : list Z) (off : nat) (bs : list Z) : P (list Z) :=
  if decide (off + length bs <= length buf)%nat
  then mret (take off buf ++ bs ++ drop (off + length bs) buf)
  else fail (Undefined "buf").

(** What [buf] holds before it is used. *)
Variable junk : list Z.

(** The body of the loop for one entry; [find] is the recursive call. *)
Definition visit (find : list Z -> P unit) (name de buf : list Z) (p : nat) : P (list Z) :=
  if de_inum de =? 0 then mret buf else
  dot ← strcmp_eq (de_name de) [DOT];
  if (dot : bool) then mret buf else
  dots ← strcmp_eq (de_name de) [DOT; DOT];
  if (dots : bool) then mret buf else
  buf ← put buf p (take DIRSIZ (de_name de));
  buf ← put buf (p + DIRSIZ) [0];
  st ← sys (stat (cstr buf));
  match st with
  | None => print (CannotStat (cstr buf));; mret buf
  | Some type =>
      eq ← strcmp_eq (de_name de) name;
      (if (eq : bool) then print (Found (cstr buf)) else mret tt);;
      (if type =? T_DIR then find (cstr buf) else mret tt);;
      mret buf
  end.

(** The loop, with [n] reads left. *)
Fixpoint find_loop (find : list Z -> P unit) (n : nat) (name : list Z) (fd : Z) (buf : list Z) (p : nat) : P unit :=
  match n with
  | O => fail OutOfFuel
  | S n' =>
      de ← sys (read fd sizeof_dirent);
      if decide (length de = sizeof_dirent) then
        buf ← visit find name de buf p;
        find_loop find n' name fd buf p
      else mret tt
  end.

(** [find], for at most [fuel] nested calls and [limit] reads of a directory. *)
Fixpoint find (fuel limit : nat) (name path : list Z) : P unit :=
  match fuel with
  | O => fail OutOfFuel
  | S fuel' =>
      fd ← sys (open path);
      if fd <? 0 then print (CannotOpen path) else
      if decide (length junk < length path + 1 + DIRSIZ + 1)%nat then print TooLong else
      buf ← put junk 0 (path ++ [0]);
      let p := length (cstr buf) in
      buf ← put buf p [SLASH];
      find_loop (find fuel' limit name) limit name fd buf (S p);;
      sys (close fd)
  end.

(** [main], with the exit status as result. *)
Definition main (fuel limit : nat) (argv : list (list Z)) : P Z :=
  match argv with
  | [_; name] => find fuel limit name [DOT];; mret 0
  | [_; path; name] => find fuel limit name path;; mret 0
  | _ => print Usage;; mret (-1)
  end.
End program.
End Find.
