(* ===== verification/FindThms.v ===== *)
(** * [find] of the first experiment: correctness

    For a directory tree that is shallow enough for the table of descriptors,
    [find] prints exactly the paths with the name, in preorder, and closes what it
    opened. Whatever the directories contain, the recursion ends, because each
    level makes the path longer and a path has to fit the buffer. *)

From S2P Require Import Prelude.
From S2P Require Import Find.

(** What the calls do: a table of at most [nofile] descriptors, with the bytes left
    to read of each; the file system itself does not change. [stat] needs a
    descriptor for itself. *)
Class UserSysLaws (W : Type) `{!UserSys W} : Type := {
  nofile : nat;
  fds : W -> gmap Z (list Z);
  contents : list Z -> option (list Z);
  type_of : list Z -> option Z;
  open_law path w : wp (open path) w (fun fd w' =>
    (exists bytes, contents path = Some bytes /\ (size (fds w) < nofile)%nat /\ 0 <= fd /\ fds w !! fd = None /\
       fds w' = <[fd := bytes]> (fds w)) \/
    ((contents path = None \/ (nofile <= size (fds w))%nat) /\ fd = -1 /\ fds w' = fds w));
  read_law fd n w bytes : fds w !! fd = Some bytes ->
    wp (read fd n) w (fun l w' => l = take n bytes /\ fds w' = <[fd := drop n bytes]> (fds w));
  close_law fd w bytes : fds w !! fd = Some bytes ->
    wp (close fd) w (fun _ w' => fds w' = delete fd (fds w));
  stat_law path w : wp (stat path) w (fun t w' =>
    t = (if decide (size (fds w) < nofile)%nat then type_of path else None) /\ fds w' = fds w);
}.

Lemma cstr_prefix l rest : 0 ∉ l -> cstr (l ++ rest) = l ++ cstr rest.
Proof.
  induction l as [|c l IH]; [done|]. intros Hn. cbn. destruct (Z.eqb_spec c 0) as [->|]; [set_solver|].
  rewrite IH; [done|set_solver].
Qed.
Lemma cstr_end l rest : cstr (l ++ 0 :: rest) = cstr l.
Proof. induction l as [|c l IH]; [done|]. cbn. case_match; [done|]. by rewrite IH. Qed.
Lemma cstr_nonzero l : 0 ∉ cstr l.
Proof.
  induction l as [|c l IH]; [set_solver|]. cbn. destruct (Z.eqb_spec c 0); [set_solver|].
  apply not_elem_of_cons. done.
Qed.

Module FindThms.
Import Find.

Section names.
Context `{Dirent}.

Definition name_of (de : list Z) : list Z := cstr (de_name de).
(** Entries that are passed over. *)
Definition skip (de : list Z) : bool :=
  (de_inum de =? 0) || bool_decide (name_of de = [DOT]) || bool_decide (name_of de = [DOT; DOT]).
Definition child (path de : list Z) : list Z := path ++ SLASH :: name_of de.

Lemma child_nonzero path de : 0 ∉ path -> 0 ∉ child path de.
Proof.
  intros Hp. apply not_elem_of_app. split; [done|]. apply not_elem_of_cons. split; [done|]. apply cstr_nonzero.
Qed.
End names.

Section proofs.
Context `{Dirent} `{!DirentOk} {W : Type} `{!UserSys W} `{!UserSysLaws W}.
Variable junk : list Z.
Implicit Types (w : W) (o : list line).

Lemma wp_sys {B} (m : M W B) w o (Q : B -> W * list line -> Prop) :
  wp m w (fun b w' => Q b (w', o)) -> wp (sys m) (w, o) Q.
Proof. unfold wp, sys. cbn. by destruct (m w) as [[b w']|]. Qed.

Lemma strcmp_eq_run a b (s : W * list line) : 0 ∈ a -> 0 ∉ b -> strcmp_eq a b s = Ok (bool_decide (cstr a = b), s).
Proof.
  revert b. induction a as [|c a IH]; intros b Ha Hb; [set_solver|]. cbn [strcmp_eq cstr].
  destruct b as [|d b]; [destruct (Z.eqb_spec c 0); done|].
  assert (Hd : 0 <> d /\ 0 ∉ b) by (by apply not_elem_of_cons). destruct (Z.eqb_spec c d) as [->|Hne]; cbn [negb].
  - destruct (Z.eqb_spec d 0); [lia|]. rewrite IH; [|set_solver|tauto]. f_equal. f_equal. apply bool_decide_ext. split; congruence.
  - symmetry. rewrite bool_decide_eq_false_2; [done|]. case_match; congruence.
Qed.

Lemma put_run buf off bs (s : W * list line) : (off + length bs <= length buf)%nat ->
  put buf off bs s = Ok (take off buf ++ bs ++ drop (off + length bs) buf, s).
Proof. intros Hl. unfold put. by rewrite decide_True. Qed.

(** The buffer holds the path and a slash, and has room for a name. *)
Definition buf_ok (path buf : list Z) : Prop :=
  length buf = length junk /\ take (S (length path)) buf = path ++ [SLASH] /\
  (length path + 1 + DIRSIZ + 1 <= length junk)%nat.

Lemma buf_put path buf bs off : buf_ok path buf -> (S (length path) <= off)%nat -> (off + length bs <= length buf)%nat ->
  buf_ok path (take off buf ++ bs ++ drop (off + length bs) buf).
Proof.
  intros (Hl & Ht & Hr) Ho Hb. split_and!; [|rewrite take_app_le, take_take by (rewrite length_take; lia); by rewrite Nat.min_l|done].
  rewrite !length_app, length_take, length_drop. lia.
Qed.

(** The buffer of an entry. *)
Definition entry_buf (path de buf : list Z) : list Z :=
  let p := S (length path) in
  let b := take p buf ++ de_name de ++ drop (p + DIRSIZ) buf in
  take (p + DIRSIZ) b ++ [0] ++ drop (p + DIRSIZ + 1) b.

Lemma entry_buf_ok path de buf : buf_ok path buf -> length de = sizeof_dirent -> 0 ∉ path ->
  buf_ok path (entry_buf path de buf) /\ cstr (entry_buf path de buf) = child path de.
Proof.
  intros Hb Hd Hz. assert (Hn := name_length de Hd).
  assert (Hb1 : buf_ok path (take (S (length path)) buf ++ de_name de ++ drop (S (length path) + DIRSIZ) buf)).
  { rewrite <- Hn. apply buf_put; [done|done|]. destruct Hb as (-> & _ & Hr). rewrite Hn. lia. }
  destruct Hb as (Hl & Ht & Hr). split.
  - unfold entry_buf. change 1%nat with (length [0]) at 1. apply buf_put; [done|lia|]. rewrite (proj1 Hb1). cbn [length]. lia.
  - unfold entry_buf, child. rewrite Ht, (assoc_L (++) _ (de_name de)). rewrite take_app_length'; [|rewrite !length_app, Hn; cbn [length]; lia].
    rewrite <- !(assoc_L (++)). cbn [app]. rewrite cstr_prefix by done. f_equal. cbn [cstr]. f_equal. apply cstr_end.
Qed.

(** The buffer at the start of the loop. *)
Lemma start_ok path (s : W * list line) : 0 ∉ path -> (length path + 1 + DIRSIZ + 1 <= length junk)%nat ->
  exists b buf, put junk 0 (path ++ [0]) s = Ok (b, s) /\ length (cstr b) = length path /\
    put b (length path) [SLASH] s = Ok (buf, s) /\ buf_ok path buf.
Proof.
  intros Hz Hr. set (b := (path ++ [0]) ++ drop (length (path ++ [0])) junk).
  assert (Hb : length b = length junk) by (unfold b; rewrite !length_app, length_drop; cbn [length]; lia).
  exists b. eexists. split; [apply put_run; rewrite length_app; cbn [length]; lia|].
  split; [unfold b; rewrite <- (assoc_L (++)), cstr_prefix by done; cbn; by rewrite app_nil_r|].
  split; [apply put_run; cbn [length]; lia|]. unfold b. rewrite <- (assoc_L (++)), take_app_length.
  split_and!; [|by rewrite (assoc_L (++)), take_app_length' by (rewrite length_app; cbn; lia)|done].
  rewrite !length_app, !length_drop, !length_app, length_drop. cbn [length]. lia.
Qed.

(** What is done for an entry that is not passed over. *)
Definition visit_live (rec : list Z -> M (W * list line) unit) (name path de buf : list Z) : M (W * list line) (list Z) :=
  st ← sys (stat (child path de));
  match st with
  | None => print (CannotStat (child path de));; mret (entry_buf path de buf)
  | Some type =>
      (if bool_decide (name_of de = name) then print (Found (child path de)) else mret tt);;
      (if type =? T_DIR then rec (child path de) else mret tt);;
      mret (entry_buf path de buf)
  end.

Lemma visit_run rec name path de buf s :
  buf_ok path buf -> length de = sizeof_dirent -> (de_inum de <> 0 -> 0 ∈ de_name de) -> 0 ∉ path -> 0 ∉ name ->
  visit rec name de buf (S (length path)) s = if skip de then Ok (buf, s) else visit_live rec name path de buf s.
Proof.
  intros Hb Hd Ht Hz Hn. unfold visit, skip, name_of. destruct (Z.eqb_spec (de_inum de) 0) as [|Hi]; [done|].
  specialize (Ht Hi). assert (Hdot : 0 ∉ [DOT] /\ 0 ∉ [DOT; DOT]) by (split; unfold DOT; set_solver).
  rewrite (bind_step _ _ _ _ _ (strcmp_eq_run _ [DOT] s Ht (proj1 Hdot))). case_bool_decide; [done|].
  rewrite (bind_step _ _ _ _ _ (strcmp_eq_run _ [DOT; DOT] s Ht (proj2 Hdot))). case_bool_decide; [done|]. cbn [orb].
  pose proof (name_length de Hd) as Hlen. rewrite take_ge by lia. destruct Hb as (Hl & Htk & Hr).
  rewrite (bind_step _ _ _ _ _ (put_run buf (S (length path)) (de_name de) s ltac:(rewrite Hlen; lia))). rewrite Hlen.
  match goal with |- context [put ?b ?o [0]] => assert (Ho : (o + length [0%Z] <= length b)%nat) end.
  { rewrite !length_app, length_take, length_drop, Hlen. cbn [length]. lia. }
  rewrite (bind_step _ _ _ _ _ (put_run _ _ _ s Ho)). change (length [0%Z]) with 1%nat.
  change (take _ _ ++ [0] ++ drop _ _) with (entry_buf path de buf).
  rewrite (proj2 (entry_buf_ok path de buf (conj Hl (conj Htk Hr)) Hd Hz)). unfold visit_live.
  apply bind_ext; [done|]. intros [type|] s1; [|done].
  by rewrite (bind_step _ _ _ _ _ (strcmp_eq_run _ name s1 Ht Hn)).
Qed.

(** ** A directory tree *)
Inductive tree : Type := Leaf | Dir (es : list (list Z * tree)).

(** The file system has the tree [t] at [path]. *)
Fixpoint holds (path : list Z) (t : tree) : Prop :=
  match t with
  | Leaf => exists type, type_of path = Some type /\ type <> T_DIR
  | Dir es =>
      type_of path = Some T_DIR /\ contents path = Some (concat (map fst es)) /\
      foldr and True (map (fun e =>
        length (fst e) = sizeof_dirent /\ (de_inum (fst e) <> 0 -> 0 ∈ de_name (fst e)) /\
        (skip (fst e) = false -> holds (child path (fst e)) (snd e))) es)
  end.

(** The buffer has room for all paths, and no directory has [limit] entries. *)
Fixpoint fits (limit : nat) (path : list Z) (t : tree) : Prop :=
  match t with
  | Leaf => True
  | Dir es =>
      (length path + 1 + DIRSIZ + 1 <= length junk)%nat /\ (length es < limit)%nat /\
      foldr and True (map (fun e => skip (fst e) = false -> fits limit (child path (fst e)) (snd e)) es)
  end.

(** The directories that are open at the same time. *)
Fixpoint depth (t : tree) : nat :=
  match t with
  | Leaf => 0
  | Dir es => S (foldr Nat.max 0%nat (map (fun e => if skip (fst e) then 0%nat else depth (snd e)) es))
  end.

(** The paths below [path] whose last component is [name], in preorder. *)
Fixpoint matches (name path : list Z) (t : tree) : list (list Z) :=
  match t with
  | Leaf => []
  | Dir es =>
      concat (map (fun e =>
        if skip (fst e) then [] else
        (if bool_decide (name_of (fst e) = name) then [child path (fst e)] else []) ++
        matches name (child path (fst e)) (snd e)) es)
  end.

(** [find] on the directories of at most [d] levels. *)
Definition finds (name : list Z) (limit : nat) (rec : list Z -> M (W * list line) unit) (d : nat) : Prop :=
  forall path es w o, 0 ∉ path -> holds path (Dir es) -> fits limit path (Dir es) -> (depth (Dir es) <= d)%nat ->
    (size (fds w) + depth (Dir es) < nofile)%nat ->
    wp (rec path) (w, o) (fun _ s' => fds (fst s') = fds w /\ snd s' = o ++ map Found (matches name path (Dir es))).

Lemma visit_live_wp name limit rec d path e buf w o :
  0 ∉ path -> finds name limit rec d -> (depth (snd e) <= d)%nat -> buf_ok path buf -> length (fst e) = sizeof_dirent ->
  holds (child path (fst e)) (snd e) -> fits limit (child path (fst e)) (snd e) ->
  (size (fds w) + depth (snd e) < nofile)%nat ->
  wp (visit_live rec name path (fst e) buf) (w, o) (fun buf' s' => buf_ok path buf' /\ fds (fst s') = fds w /\
    snd s' = o ++ map Found ((if bool_decide (name_of (fst e) = name) then [child path (fst e)] else []) ++
                             matches name (child path (fst e)) (snd e))).
Proof.
  intros Hz Hrec Hd Hb Hde Hh Hf Hs. destruct (entry_buf_ok path (fst e) buf Hb Hde Hz) as [Hb' _].
  unfold visit_live. apply wp_bind, wp_sys. eapply wp_mono; [apply stat_law|]. cbn beta. intros t w1 [-> Ew].
  rewrite decide_True by lia.
  assert (Hty : exists type, type_of (child path (fst e)) = Some type /\ (type = T_DIR <-> exists es, snd e = Dir es)).
  { destruct (snd e) as [|es]; cbn in Hh.
    - destruct Hh as (type & Ht & Hne). exists type. split; [done|]. split; [done|]. by intros [].
    - exists T_DIR. destruct Hh as [Ht _]. split; [done|]. split; [|done]. by eexists. }
  destruct Hty as (type & -> & Hdir). apply wp_bind.
  apply wp_mono with (P := fun _ s' => s' = (w1, o ++ map Found (if bool_decide (name_of (fst e) = name) then [child path (fst e)] else []))).
  { case_bool_decide; [done|]. apply wp_ret. by rewrite app_nil_r. }
  intros _ s1 ->. apply wp_bind. destruct (Z.eqb_spec type T_DIR) as [Ht|Ht].
  - apply Hdir in Ht as [es Ees]. rewrite Ees in *. eapply wp_mono.
    { apply (Hrec _ es); [by apply child_nonzero|done|done|done|by rewrite Ew]. }
    cbn beta. intros _ [w2 o2] [E2 Eo]. apply wp_ret. cbn [fst snd] in *. split; [done|]. split; [congruence|].
    by rewrite Eo, map_app, (assoc_L (++)).
  - apply wp_ret, wp_ret. destruct (snd e) as [|es]; [|by destruct Ht; apply Hdir; eexists].
    cbn [matches fst snd]. rewrite app_nil_r. done.
Qed.

(** The loop over the entries [es] that are left. *)
Lemma find_loop_wp name limit rec d path fd es : 0 ∉ path -> 0 ∉ name -> finds name limit rec d ->
  forall n buf w o, buf_ok path buf -> (length es < n)%nat -> fds w !! fd = Some (concat (map fst es)) ->
  foldr and True (map (fun e => length (fst e) = sizeof_dirent /\ (de_inum (fst e) <> 0 -> 0 ∈ de_name (fst e)) /\
        (skip (fst e) = false -> holds (child path (fst e)) (snd e))) es) ->
  foldr and True (map (fun e => skip (fst e) = false -> fits limit (child path (fst e)) (snd e)) es) ->
  (foldr Nat.max 0%nat (map (fun e => if skip (fst e) then 0%nat else depth (snd e)) es) <= d)%nat ->
  (size (fds w) + foldr Nat.max 0%nat (map (fun e => if skip (fst e) then 0%nat else depth (snd e)) es) < nofile)%nat ->
  wp (find_loop rec n name fd buf (S (length path))) (w, o) (fun _ s' => fds (fst s') = <[fd := []]> (fds w) /\
    snd s' = o ++ map Found (matches name path (Dir es))).
Proof.
  intros Hz Hn Hrec. induction es as [|e es IH]; intros n buf w o Hb Hlen Hfd Hh Hf Hd Hs;
    (destruct n as [|n]; [cbn in Hlen; lia|]); cbn [find_loop]; apply wp_bind, wp_sys;
    (eapply wp_mono; [by apply read_law|]); cbn beta; intros de w1 [-> Ew].
  { cbn in *. rewrite take_nil. pose proof dirent_pos. rewrite decide_False by (cbn; lia). apply wp_ret. cbn [fst snd].
    split; [by rewrite Ew, drop_nil|]. by rewrite app_nil_r. }
  cbn [map foldr] in Hh, Hf, Hd, Hs. destruct Hh as ((Hde & Hterm & Hhe) & Hh), Hf as [Hfe Hf].
  cbn [map concat] in Ew |- *. rewrite take_app_length' by done. rewrite drop_app_length' in Ew by done.
  rewrite decide_True by done. assert (Hsz : size (fds w1) = size (fds w)) by (rewrite Ew; apply map_size_insert_Some; by eexists).
  apply wp_bind. unfold wp at 1. rewrite visit_run by done.
  apply wp_mono with (P := fun buf' s' => buf_ok path buf' /\ fds (fst s') = fds w1 /\ snd s' = o ++ map Found
     (if skip (fst e) then [] else (if bool_decide (name_of (fst e) = name) then [child path (fst e)] else []) ++ matches name (child path (fst e)) (snd e)))
     (m := fun s => if skip (fst e) then Ok (buf, s) else visit_live rec name path (fst e) buf s).
  - unfold wp. destruct (skip (fst e)); [cbn; by rewrite app_nil_r|].
    apply (visit_live_wp name limit rec d path e buf w1 o); auto; lia.
  - intros buf' [w2 o2] (Hb' & E2 & Eo). cbn [fst snd] in *. eapply wp_mono.
    { apply IH; [done|cbn in Hlen; lia|rewrite E2, Ew; apply lookup_insert_eq|done|done|lia|rewrite E2; lia]. }
    cbn beta. intros _ [w3 o3] [E3 Eo3]. cbn [fst snd] in *. split; [by rewrite E3, E2, Ew, insert_insert_eq|].
    rewrite Eo3, Eo. cbn [matches map concat]. by rewrite map_app, (assoc_L (++)).
Qed.

Lemma find_ok name limit d : 0 ∉ name -> finds name limit (find junk d limit name) d.
Proof.
  intros Hn. induction d as [|d IH]; intros path es w o Hz Hh Hf Hd Hs; [cbn in Hd; lia|].
  destruct Hh as (_ & Hc & Hh), Hf as (Hr & Hl & Hf). cbn [depth] in Hd, Hs. cbn [find].
  apply wp_bind, wp_sys. eapply wp_mono; [apply open_law|]. cbn beta.
  intros fd w1 [(bytes & Hbytes & _ & Hfd & Hnone & Ew)|([Hno|Hno] & _)]; [|congruence|lia].
  assert (bytes = concat (map fst es)) as -> by congruence. destruct (Z.ltb_spec fd 0); [lia|]. rewrite decide_False by lia.
  destruct (start_ok path (w1, o) Hz Hr) as (b & buf & E1 & El & E2 & Hb).
  eapply wp_bind_Ok; [exact E1|]. cbn zeta. rewrite El. eapply wp_bind_Ok; [exact E2|].
  apply wp_bind. eapply wp_mono.
  { apply (find_loop_wp name limit _ d path fd es Hz Hn IH); try done; [rewrite Ew; apply lookup_insert_eq|lia|].
    rewrite Ew, map_size_insert_None by done. lia. }
  cbn beta. intros _ [w2 o2] [Ew2 Eo]. cbn [fst snd] in *. apply wp_sys. eapply wp_mono.
  { apply (close_law fd w2 []). rewrite Ew2. apply lookup_insert_eq. }
  cbn beta. intros _ w3 Ew3. cbn [fst snd]. split; [|done].
  by rewrite Ew3, Ew2, delete_insert_eq, Ew, delete_insert_id.
Qed.

(** C23: On a directory tree that fits its buffer and leaves a descriptor free at every
    level, find prints exactly the paths below its argument whose last component is
    the name, each once and in preorder, and closes every descriptor it opened. *)
Theorem find_prints_matches name path es fuel limit w o :
  0 ∉ name -> 0 ∉ path -> holds path (Dir es) -> fits limit path (Dir es) ->
  (size (fds w) + depth (Dir es) < nofile)%nat -> (depth (Dir es) <= fuel)%nat ->
  wp (find junk fuel limit name path) (w, o) (fun _ s' =>
    fds (fst s') = fds w /\ snd s' = o ++ map Found (matches name path (Dir es))).
Proof. intros Hn Hz Hh Hf Hs Hd. by apply (find_ok name limit fuel). Qed.







(** On a path that is too long it returns without closing its descriptor. *)
Lemma find_too_long_leaks name path limit fuel w o bytes :
  contents path = Some bytes -> (size (fds w) < nofile)%nat -> (length junk < length path + 1 + DIRSIZ + 1)%nat ->
  wp (find junk (S fuel) limit name path) (w, o) (fun _ s' => snd s' = o ++ [TooLong] /\
    exists fd, fds w !! fd = None /\ fds (fst s') = <[fd := bytes]> (fds w)).
Proof.
  intros Hc Hs Hl. cbn [find]. apply wp_bind, wp_sys. eapply wp_mono; [apply open_law|]. cbn beta.
  intros fd w1 [(bytes' & Hc' & _ & Hfd & Hnone & Ew)|([Hno|Hno] & _)]; [|congruence|lia].
  simplify_eq. destruct (Z.ltb_spec fd 0); [lia|]. rewrite decide_True by done. cbn. split; [done|]. by exists fd.
Qed.
End proofs.
End FindThms.

Module FindWit.
Import Find FindThms.

(** Entries of 16 bytes: a 16-bit number and 14 characters. *)
#[local] Instance dirent : Dirent := {|
  DIRSIZ := 14; sizeof_dirent := 16; de_inum de := nth 0 de 0 + 256 * nth 1 de 0; de_name := drop 2; T_DIR := 1
|}.
#[local] Instance dirent_ok : DirentOk.
Proof. split; cbn -[drop]; try lia. intros de Hd. rewrite length_drop, Hd. done. Qed.

Abbreviation table := (gmap Z (list Z)).
Definition free_fd (m : table) : Z := Z.of_nat (fresh (set_map Z.to_nat (dom m) : gset nat)).

Lemma free_fd_free m : m !! free_fd m = None.
Proof.
  apply not_elem_of_dom. intros Hin. apply (is_fresh (set_map Z.to_nat (dom m) : gset nat)).
  apply elem_of_map. exists (free_fd m). split; [|done]. unfold free_fd. by rewrite Nat2Z.id.
Qed.

Section world.
Variable dirs : list Z -> option (list Z).
Variable types : list Z -> option Z.

Definition calls : UserSys table := {|
  open path := fun m =>
    match dirs path with
    | Some bytes => if decide (size m < 16)%nat then Ok (free_fd m, <[free_fd m := bytes]> m) else Ok (-1, m)
    | None => Ok (-1, m)
    end;
  read fd n := fun m =>
    match m !! fd with
    | Some bytes => Ok (take n bytes, <[fd := drop n bytes]> m)
    | None => Ok ([], m)
    end;
  close fd := fun m => Ok (tt, delete fd m);
  stat path := fun m => Ok (if decide (size m < 16)%nat then types path else None, m)
|}.

#[refine] Definition calls_laws : @UserSysLaws table calls :=
  let _ := calls in {| nofile := 16; fds := fun m => m; contents := dirs; type_of := types |}.
Proof.
  - intros path m. unfold wp. cbn -[lookup insert free_fd decide]. destruct (dirs path) as [bytes|]; [|right; auto].
    case_decide; [left|right; split; [right; by apply Nat.nlt_ge|done]]. exists bytes. split_and!; try done; [unfold free_fd; lia|apply free_fd_free].
  - intros fd n m bytes Hfd. unfold wp, read, calls. by rewrite Hfd.
  - done.
  - done.
Defined.
End world.

Definition entry_of (inum : Z) (name : list Z) : list Z := [inum; 0] ++ name ++ replicate (14 - length name) 0.

(** The directory "." with "..", the file "a" and the directory "d", which holds
    another file "a". *)
Definition inner : list (list Z * tree) := [(entry_of 4 [97], Leaf); (entry_of 0 [98], Leaf)].
Definition outer : list (list Z * tree) := [(entry_of 1 [46; 46], Leaf); (entry_of 2 [97], Leaf); (entry_of 3 [100], Dir inner)].
Definition dirs (path : list Z) : option (list Z) :=
  if decide (path = [46]) then Some (concat (map fst outer))
  else if decide (path = [46; 47; 100]) then Some (concat (map fst inner)) else None.
Definition types (path : list Z) : option Z :=
  if decide (path = [46] \/ path = [46; 47; 100]) then Some 1 else Some 2.

Definition junk : list Z := replicate 512 7.

Example find_demo :
  match @main dirent table (calls dirs types) junk 20 20 [[102]; [97]] (∅, []) with
  | Ok (r, (m, out)) => (r, bool_decide (m = ∅), out)
  | Fail _ => (1, false, [])
  end = (0, true, [Found [46; 47; 97]; Found [46; 47; 100; 47; 97]]).
Proof. vm_compute. reflexivity. Qed.

Lemma find_prints_matches_witness :
  @wp _ _ (@find dirent table (calls dirs types) junk 2 20 [97] [46]) (∅, []) (fun _ s' =>
    fst s' = ∅ /\ snd s' = [Found [46; 47; 97]; Found [46; 47; 100; 47; 97]]).
Proof.
  apply (@find_prints_matches dirent dirent_ok table (calls dirs types) (calls_laws dirs types) junk [97] [46] outer 2 20 ∅ []).
  - set_solver.
  - set_solver.
  - vm_compute. repeat split; try done; try set_solver; by eexists.
  - vm_compute. repeat split; lia.
  - vm_compute. lia.
  - vm_compute. lia.
Defined.



End FindWit.
