(* ===== verification/Xargs.v ===== *)
(** * [xargs] of the first experiment ([xargs.c])

    The program reads lines with [gets] into a buffer of 512 bytes, splits each at
    spaces into freshly allocated strings and runs the command with them appended.
    Pointers are explicit: an element of [Argv] is an argument of [xargs] itself,
    an allocated buffer or null; [q] points into a buffer. What C leaves
    undefined (an access outside an array, the use of an uninitialised pointer) is
    the failure [Undefined]. [gets] and [MAXARG] are not part of the repository:
    the lines are given as the buffer contents [gets] leaves. *)

From S2P Require Import Prelude.

Inductive ptr : Type := Null | Arg (k : nat) | Buf (b : nat).

(** [Argv] (an element is [None] until it is assigned), the allocated buffers,
    [j], and [q] as a buffer and an offset. *)
Record pstate : Type := PState {
  argv_ : list (option ptr);
  bufs : list (list Z);
  j_ : nat;
  q_ : option (nat * nat);
}.

Module Xargs.

Definition LEN : nat := 512.
Definition SPACE : Z := 32.
Definition NEWLINE : Z := 10.

Section program.
(** [MAXARG], and what a fresh buffer contains. *)
Variable MAXARG : nat.
Variable junk : list Z.
Abbreviation X := (M pstate).

Definition undefined {A} (what : string) : X A := fail (Undefined what).

(** [stdin[i]]; [i] is a C [int] and may be -1. *)
Definition char_at (stdin : list Z) (i : Z) : X Z :=
  if i <? 0 then undefined "stdin" else
  match stdin !! Z.to_nat i with
  | Some c => mret c
  | None => undefined "stdin"
  end.

(** [Argv[j] = p] *)
Definition set_Argv (j : nat) (p : ptr) : X unit := fun s =>
  if decide (j < length (argv_ s))%nat
  then Ok (tt, PState (<[j := Some p]> (argv_ s)) (bufs s) (j_ s) (q_ s))
  else Fail (Undefined "Argv").

(** [char *buf = malloc(512); Argv[j] = buf; q = buf;] *)
Definition new_buf : X unit :=
  s ← get;
  let b := length (bufs s) in
  set_Argv (j_ s) (Buf b);;
  modify (fun s => PState (argv_ s) (bufs s ++ [junk]) (j_ s) (Some (b, O))).

(** [q++] and [*q = c] *)
Definition inc_q : X unit := fun s =>
  match q_ s with
  | Some (b, o) => Ok (tt, PState (argv_ s) (bufs s) (j_ s) (Some (b, S o)))
  | None => Fail (Undefined "q")
  end.
Definition put_q (c : Z) : X unit := fun s =>
  match q_ s with
  | Some (b, o) =>
      match bufs s !! b with
      | Some l =>
          if decide (o < length l)%nat
          then Ok (tt, PState (argv_ s) (<[b := <[o := c]> l]> (bufs s)) (j_ s) (q_ s))
          else Fail (Undefined "buf")
      | None => Fail (Undefined "buf")
      end
  | None => Fail (Undefined "q")
  end.
Definition inc_j : X unit := modify (fun s => PState (argv_ s) (bufs s) (S (j_ s)) (q_ s)).

(** The splitting loop of the child, with [n] iterations left. *)
Fixpoint split_loop (n : nat) (stdin : list Z) (start i : Z) : X unit :=
  match n with
  | O => mret tt
  | S n' =>
      c ← char_at stdin i;
      if negb (c =? SPACE) && negb (c =? NEWLINE) && negb (c =? 0) then
        (if i =? start then new_buf
         else p ← char_at stdin (i - 1); if p =? SPACE then new_buf else inc_q);;
        put_q c;;
        split_loop n' stdin start (i + 1)
      else if c =? SPACE then
        d ← char_at stdin (i + 1);
        (if negb (d =? SPACE) then inc_q;; put_q 0;; inc_j else mret tt);;
        split_loop n' stdin start (i + 1)
      else
        p ← char_at stdin (i - 1);
        (if negb (p =? SPACE) then inc_q;; put_q 0;; inc_j else mret tt);;
        s ← get; set_Argv (j_ s) Null
  end.

(** The position of the first character that is not a space. *)
Fixpoint find_start (l : list Z) (i : Z) : option Z :=
  match l with
  | [] => None
  | c :: l' => if c =? SPACE then find_start l' (i + 1) else Some i
  end.
Definition start_of (stdin : list Z) : Z := default 0 (find_start (take LEN stdin) 0).

(** The string at the start of a buffer. *)
Fixpoint cstr (l : list Z) : option (list Z) :=
  match l with
  | [] => None
  | c :: l' => if c =? 0 then Some [] else (cons c) <$> cstr l'
  end.

(** The strings [exec] finds in [Argv], up to the null pointer. *)
Fixpoint collect (args : list (list Z)) (bs : list (list Z)) (l : list (option ptr)) : option (list (list Z)) :=
  match l with
  | Some Null :: _ => Some []
  | Some (Arg k) :: l' => x ← args !! k; r ← collect args bs l'; Some (x :: r)
  | Some (Buf b) :: l' => l0 ← bs !! b; x ← cstr l0; r ← collect args bs l'; Some (x :: r)
  | _ => None
  end.

(** The loop [Argv[i - 1] = argv[i]]. *)
Definition init_Argv (argc : nat) : list (option ptr) :=
  map (fun i => Some (Arg i)) (seq 1 (argc - 1)) ++ replicate (MAXARG - (argc - 1)) None.

(** What the child does with a line: the argument vector it gives to [exec]. *)
Definition child (args : list (list Z)) (stdin : list Z) (start : Z) : outcome (list (list Z)) :=
  let argc := length args in
  if (MAXARG <? argc - 1)%nat then Fail (Undefined "Argv") else
  (* q = Argv[j] is not initialised *)
  match split_loop (LEN - Z.to_nat start) stdin start start (PState (init_Argv argc) [] (argc - 1) None) with
  | Ok (_, s) =>
      match collect args (bufs s) (argv_ s) with
      | Some l => Ok l
      | None => Fail (Undefined "exec")
      end
  | Fail e => Fail e
  end.

(** The [while] loop over the lines; [forks] says for each whether [fork] gives a
    child. The commands that are run, in order. *)
Fixpoint main_loop (args : list (list Z)) (lines : list (list Z)) (forks : nat -> bool) (k : nat)
    : outcome (list (list (list Z))) :=
  match lines with
  | [] => Ok []
  | stdin :: lines' =>
      let start := start_of stdin in
      if nth (Z.to_nat start) stdin 0 =? 0 then Ok [] else
      let run := if forks k then child args stdin start else Ok [] in
      match run with
      | Fail e => Fail e
      | Ok l =>
          match main_loop args lines' forks (S k) with
          | Ok cmds => Ok (if forks k then l :: cmds else cmds)
          | Fail e => Fail e
          end
      end
  end.

(** [None] when the program stops because it has no argument. *)
Definition main (args : list (list Z)) (lines : list (list Z)) (forks : nat -> bool)
    : outcome (option (list (list (list Z)))) :=
  if (length args <=? 1)%nat then Ok None else
  match main_loop args lines forks 0 with
  | Ok cmds => Ok (Some cmds)
  | Fail e => Fail e
  end.
End program.

(** The words of a line: the runs of characters between spaces. *)
Fixpoint words (cur : list Z) (s : list Z) : list (list Z) :=
  match s with
  | [] => match cur with [] => [] | _ => [cur] end
  | c :: s' =>
      if c =? SPACE then match cur with [] => words [] s' | _ => cur :: words [] s' end
      else words (cur ++ [c]) s'
  end.
End Xargs.

(** ["ls -l  a\n"] with the arguments [xargs echo] runs [echo ls -l a]. *)
Example xargs_demo :
  Xargs.child 32 (repeat 88 512) [[120]; [101; 99; 104; 111]] ([108; 115; 32; 45; 108; 32; 32; 97; 10] ++ repeat 0 503) 0 =
  Ok [[101; 99; 104; 111]; [108; 115]; [45; 108]; [97]].
Proof. vm_compute. reflexivity. Qed.

Module XargsThms.
Import Xargs.

Section split.
Variable MAXARG : nat.
Variable junk : list Z.
Hypothesis Hjunk : length junk = LEN.
(** The arguments of [xargs]; [base] of them go to the command. *)
Variable args : list (list Z).
Abbreviation base := (length args - 1)%nat.
Hypothesis Hargs : (1 <= length args)%nat.

(** The buffer [b] holds the string [w], or its characters so far. *)
Definition holds (w b : list Z) : Prop := (w ++ [0]) `prefix_of` b /\ length b = LEN.
Definition holding (w b : list Z) : Prop := w `prefix_of` b /\ length b = LEN.

Definition slots (k : nat) : list (option ptr) :=
  map (fun i => Some (Arg i)) (seq 1 base) ++ map (fun b => Some (Buf b)) (seq 0 k).

Lemma length_slots k : length (slots k) = (base + k)%nat.
Proof. unfold slots. by rewrite length_app, !length_map, !length_seq. Qed.

Lemma slots_S k : slots (S k) = slots k ++ [Some (Buf k)].
Proof. unfold slots. by rewrite seq_S, map_app, app_assoc. Qed.

(** Between two words, and inside one. *)
Record fresh (ws : list (list Z)) (s : pstate) : Prop := {
  fr_bufs : Forall2 holds ws (bufs s);
  fr_argv : slots (length ws) `prefix_of` argv_ s /\ length (argv_ s) = MAXARG;
  fr_j : j_ s = (base + length ws)%nat;
}.
Record in_word (ws : list (list Z)) (cur : list Z) (s : pstate) : Prop := {
  iw_bufs : exists bs b, bufs s = bs ++ [b] /\ Forall2 holds ws bs /\ holding cur b;
  iw_argv : slots (S (length ws)) `prefix_of` argv_ s /\ length (argv_ s) = MAXARG;
  iw_j : j_ s = (base + length ws)%nat;
  iw_q : q_ s = Some (length ws, pred (length cur));
}.
Record final (ws : list (list Z)) (s : pstate) : Prop := {
  fi_bufs : Forall2 holds ws (bufs s);
  fi_argv : (slots (length ws) ++ [Some Null]) `prefix_of` argv_ s;
}.

(** A new buffer for a word that starts with [c]. *)
Lemma start_word ws s c :
  fresh ws s -> (base + length ws < MAXARG)%nat ->
  exists s', (new_buf junk;; put_q c) s = Ok (tt, s') /\ in_word ws [c] s'.
Proof.
  intros [Hb [Ha Hla] Hj] Hmax. unfold new_buf. rewrite bind_assoc. unfold get, mbind at 1, M_bind at 1.
  rewrite bind_assoc. erewrite bind_step.
  2: { unfold set_Argv. rewrite decide_True by (rewrite Hj; lia). reflexivity. }
  rewrite bind_modify. cbn [argv_ bufs j_ q_].
  pose proof (Forall2_length _ _ _ Hb) as Hlb.
  unfold put_q. cbn [q_ bufs]. rewrite list_lookup_middle by done. rewrite decide_True by (rewrite Hjunk; unfold LEN; lia).
  eexists. split; [reflexivity|]. split; cbn [bufs argv_ j_ q_].
  - exists (bufs s), (<[0%nat:=c]> junk). split; [by rewrite insert_app_r_alt, Nat.sub_diag by done|]. split; [done|].
    split; [|by rewrite length_insert]. destruct junk as [|y g]; [done|]. by exists g.
  - rewrite length_insert. split; [|done]. rewrite slots_S. rewrite <- Hlb, Hj, <- length_slots.
    apply prefix_set_at; [done|]. rewrite length_slots. lia.
  - done.
  - by rewrite <- Hlb.
Qed.

(** One more character of the word. *)
Lemma more_word ws cur s c :
  in_word ws cur s -> cur <> [] -> (length cur < LEN)%nat ->
  exists s', (inc_q;; put_q c) s = Ok (tt, s') /\ in_word ws (cur ++ [c]) s'.
Proof.
  intros [(bs & b & Eb & Hbs & Hp & Hlb) Ha Hj Hq] Hne Hlen.
  pose proof (Forall2_length _ _ _ Hbs) as Hl. destruct cur as [|c0 cur']; [done|]. cbn [pred length] in *.
  unfold inc_q. unfold mbind at 1, M_bind at 1. rewrite Hq. unfold put_q. cbn [q_ bufs].
  rewrite Eb, Hl, list_lookup_middle by done. rewrite decide_True by lia.
  eexists. split; [reflexivity|]. split; cbn [bufs argv_ j_ q_]; [|done|done|].
  - exists bs, (<[S (length cur') := c]> b). split; [by rewrite insert_app_r_alt, Nat.sub_diag by done|]. split; [done|].
    split; [|by rewrite length_insert]. by apply (prefix_set_at (c0 :: cur')); [|cbn; lia].
  - rewrite Hl, length_app. cbn. do 2 f_equal. lia.
Qed.

(** The terminating zero. *)
Lemma end_word ws cur s :
  in_word ws cur s -> cur <> [] -> (length cur < LEN)%nat ->
  exists s', (inc_q;; put_q 0;; inc_j) s = Ok (tt, s') /\ fresh (ws ++ [cur]) s'.
Proof.
  intros Hw Hne Hlen. destruct (more_word ws cur s 0 Hw Hne Hlen) as (s1 & He & [(bs & b & Eb & Hbs & Hp & Hlb) Ha Hj Hq]).
  eexists. split; [rewrite <- bind_assoc, (bind_step _ _ _ _ _ He); reflexivity|].
  split; cbn [bufs argv_ j_]; rewrite ?length_app, ?Nat.add_1_r.
  - rewrite Eb. apply Forall2_app; [done|]. by constructor.
  - done.
  - lia.
Qed.

(** The null pointer after the last word. *)
Lemma end_line ws s :
  fresh ws s -> (base + length ws < MAXARG)%nat ->
  exists s', (s0 ← get; set_Argv (j_ s0) Null) s = Ok (tt, s') /\ final ws s'.
Proof.
  intros [Hb [Ha Hla] Hj] Hmax. unfold get, mbind, M_bind, set_Argv. rewrite decide_True by lia.
  eexists. split; [reflexivity|]. split; cbn [bufs argv_]; [done|]. rewrite Hj, <- length_slots.
  apply prefix_set_at; [done|]. rewrite length_slots. lia.
Qed.

Definition plain (s : list Z) : Prop := Forall (fun c => c <> NEWLINE /\ c <> 0) s.

Lemma char_at_app {B} done_ c rest (f : Z -> M pstate B) s :
  (char_at (done_ ++ c :: rest) (Z.of_nat (length done_)) ≫= f) s = f c s.
Proof.
  unfold char_at. destruct (Z.ltb_spec (Z.of_nat (length done_)) 0); [lia|].
  by rewrite Nat2Z.id, list_lookup_middle.
Qed.

Lemma char_at_prev {B} done_ p c rest (f : Z -> M pstate B) s :
  (char_at ((done_ ++ [p]) ++ c :: rest) (Z.of_nat (length (done_ ++ [p])) - 1) ≫= f) s = f p s.
Proof.
  rewrite <- app_assoc, length_app. cbn. replace (Z.of_nat (length done_ + 1) - 1) with (Z.of_nat (length done_)) by lia.
  apply char_at_app.
Qed.

Lemma char_at_next {B} done_ c d rest (f : Z -> M pstate B) s :
  (char_at (done_ ++ c :: d :: rest) (Z.of_nat (length done_) + 1) ≫= f) s = f d s.
Proof.
  replace (done_ ++ c :: d :: rest) with ((done_ ++ [c]) ++ d :: rest) by (by rewrite <- app_assoc).
  replace (Z.of_nat (length done_) + 1) with (Z.of_nat (length (done_ ++ [c]))) by (rewrite length_app; cbn; lia).
  apply char_at_app.
Qed.

Lemma length_snoc (l : list Z) c : Z.of_nat (length (l ++ [c])) = Z.of_nat (length l) + 1.
Proof. rewrite length_app. cbn. lia. Qed.

Lemma snoc_shift (l : list Z) c s : (l ++ [c]) ++ s = l ++ c :: s.
Proof. by rewrite <- app_assoc. Qed.

Variables (t : Z) (rest : list Z) (start : Z).
Hypothesis Ht : t = NEWLINE \/ t = 0.

Lemma end_mark : negb (t =? SPACE) && negb (t =? NEWLINE) && negb (t =? 0) = false /\ (t =? SPACE) = false.
Proof. by destruct Ht as [-> | ->]. Qed.

(** The result of the loop on the rest [s] of the line when the strings are [ws]. *)
Definition finishes (n : nat) (done_ s : list Z) (st : pstate) (l : list (list Z)) : Prop :=
  exists st', split_loop junk n (done_ ++ s ++ t :: rest) start (Z.of_nat (length done_)) st = Ok (tt, st') /\ final l st'.

(** Inside a word: after a character of it, or in the spaces that follow it. *)
Definition word_ok (s : list Z) : Prop := forall n done_ p cur ws st,
  in_word ws cur st -> cur <> [] -> (p <> SPACE \/ exists s', s = SPACE :: s') -> plain s ->
  Z.of_nat (length (done_ ++ [p])) > start -> (length s < n)%nat -> (length cur + length s < LEN)%nat ->
  (base + length (ws ++ words cur s) < MAXARG)%nat ->
  finishes n (done_ ++ [p]) s st (ws ++ words cur s).

(** The side conditions of the lemmas below. *)
Ltac side := first
  [ done | by left | by right; eexists | by intros s' Hs'; eauto with lia
  | rewrite ?length_snoc, ?length_app in *; cbn [length] in *; lia ].

Lemma words_char cur c s : c <> SPACE -> words cur (c :: s) = words (cur ++ [c]) s.
Proof. intros Hc. cbn [words]. by destruct (Z.eqb_spec c SPACE). Qed.

(** After the last space before a word, or before the end. *)
Lemma fresh_ok s n done_ ws st :
  (forall s', (length s' < length s)%nat -> word_ok s') ->
  fresh ws st -> (forall s', s <> SPACE :: s') -> plain s ->
  Z.of_nat (length (done_ ++ [SPACE])) > start -> (length s < n)%nat -> (length s < LEN)%nat ->
  (base + length (ws ++ words [] s) < MAXARG)%nat ->
  finishes n (done_ ++ [SPACE]) s st (ws ++ words [] s).
Proof.
  intros IH Hf Hns Hpl Hst Hn Hlen Hmax. destruct n as [|n]; [lia|]. unfold finishes. cbn [split_loop].
  destruct s as [|c s]; cbn [app]; rewrite char_at_app.
  - cbn [words] in *. rewrite app_nil_r in *.
    destruct (end_line ws st Hf Hmax) as (s' & He & Hfin). exists s'. split; [|done].
    destruct end_mark as [-> ->]. rewrite char_at_prev. exact He.
  - assert (Hc : c <> SPACE) by (intros ->; by apply (Hns s)). apply Forall_cons in Hpl as [[Hc1 Hc2] Hpl].
    destruct (Z.eqb_spec c SPACE); [done|]. destruct (Z.eqb_spec c NEWLINE); [done|]. destruct (Z.eqb_spec c 0); [done|].
    cbn [negb andb]. destruct (Z.eqb_spec (Z.of_nat (length (done_ ++ [SPACE]))) start); [lia|].
    assert (Hcap : (base + length ws < MAXARG)%nat) by (rewrite length_app in Hmax; lia).
    rewrite words_char in * by done. cbn [app] in *.
    destruct (start_word ws st c Hf Hcap) as (s1 & He & Hw).
    rewrite bind_assoc, char_at_prev. cbn [Z.eqb SPACE Pos.eqb].
    rewrite <- bind_assoc, (bind_step _ _ _ _ _ He).
    destruct (IH s ltac:(cbn; lia) n (done_ ++ [SPACE]) c [c] ws s1) as (st' & Hr & Hfin); [side..|].
    exists st'. split; [|done]. by rewrite snoc_shift, length_snoc in Hr.
Qed.

Lemma words_spaces cur s : cur <> [] -> words cur (SPACE :: SPACE :: s) = words cur (SPACE :: s).
Proof. by destruct cur. Qed.

(** The three kinds of characters inside a word. *)
Lemma word_end n done_ p cur ws st :
  in_word ws cur st -> cur <> [] -> p <> SPACE -> (length cur < LEN)%nat -> (base + length (ws ++ [cur]) < MAXARG)%nat ->
  (0 < n)%nat -> finishes n (done_ ++ [p]) [] st (ws ++ [cur]).
Proof.
  intros Hw Hne Hp Hlen Hmax Hn. destruct n as [|n]; [lia|]. unfold finishes. cbn [split_loop app].
  rewrite char_at_app. destruct end_mark as [-> ->]. rewrite char_at_prev.
  destruct (Z.eqb_spec p SPACE); [done|]. cbn [negb].
  destruct (end_word ws cur st Hw Hne Hlen) as (s1 & He & Hf).
  destruct (end_line _ s1 Hf Hmax) as (s2 & He2 & Hfin).
  exists s2. split; [|done]. by rewrite (bind_step _ _ _ _ _ He).
Qed.

Lemma word_char n done_ p c s cur ws st :
  word_ok s -> in_word ws cur st -> cur <> [] -> p <> SPACE -> c <> SPACE -> plain (c :: s) ->
  Z.of_nat (length (done_ ++ [p])) > start -> (length (c :: s) < n)%nat -> (length cur + length (c :: s) < LEN)%nat ->
  (base + length (ws ++ words (cur ++ [c]) s) < MAXARG)%nat ->
  finishes n (done_ ++ [p]) (c :: s) st (ws ++ words (cur ++ [c]) s).
Proof.
  intros IH Hw Hne Hp Hc Hpl Hst Hn Hlen Hmax. destruct n as [|n]; [lia|]. unfold finishes. cbn [split_loop app].
  apply Forall_cons in Hpl as [[Hc1 Hc2] Hpl]. rewrite char_at_app.
  destruct (Z.eqb_spec c SPACE); [done|]. destruct (Z.eqb_spec c NEWLINE); [done|]. destruct (Z.eqb_spec c 0); [done|].
  cbn [negb andb]. destruct (Z.eqb_spec (Z.of_nat (length (done_ ++ [p]))) start); [lia|].
  rewrite bind_assoc, char_at_prev. destruct (Z.eqb_spec p SPACE); [done|].
  destruct (more_word ws cur st c Hw Hne ltac:(lia)) as (s1 & He & Hw1).
  rewrite <- bind_assoc, (bind_step _ _ _ _ _ He). cbn [length] in *.
  destruct (IH n (done_ ++ [p]) c (cur ++ [c]) ws s1) as (st' & Hr & Hfin); [done|by destruct cur|side..|].
  exists st'. split; [|done]. by rewrite snoc_shift, length_snoc in Hr.
Qed.

Lemma word_space n done_ p s cur ws st :
  (forall s', (length s' <= length s)%nat -> word_ok s') -> in_word ws cur st -> cur <> [] -> plain (SPACE :: s) ->
  Z.of_nat (length (done_ ++ [p])) > start -> (length (SPACE :: s) < n)%nat -> (length cur + length (SPACE :: s) < LEN)%nat ->
  (base + length (ws ++ words cur (SPACE :: s)) < MAXARG)%nat ->
  finishes n (done_ ++ [p]) (SPACE :: s) st (ws ++ words cur (SPACE :: s)).
Proof.
  intros IH Hw Hne Hpl Hst Hn Hlen Hmax. destruct n as [|n]; [lia|]. unfold finishes. cbn [split_loop app].
  apply Forall_cons in Hpl as [_ Hpl]. rewrite char_at_app. cbn [SPACE Z.eqb Pos.eqb negb andb]. cbn [length] in *.
  assert (Hcase : (exists s', s = SPACE :: s') \/ forall s', s <> SPACE :: s').
  { destruct s as [|c s']; [by right|]. destruct (decide (c = SPACE)) as [->|]; [left; eauto|right]. congruence. }
  destruct Hcase as [[s' ->]|Hns].
  - cbn [app]. rewrite char_at_next. cbn [SPACE Z.eqb Pos.eqb negb].
    rewrite words_spaces in * by done.
    destruct (IH (SPACE :: s') ltac:(lia) n (done_ ++ [p]) SPACE cur ws st) as (st' & Hr & Hfin); [side..|].
    exists st'. split; [|done]. unfold mbind, M_bind, mret, M_ret. by rewrite snoc_shift, length_snoc in Hr.
  - assert (Hd : exists d tl, s ++ t :: rest = d :: tl /\ (d =? SPACE) = false).
    { destruct s as [|d s']; [exists t, rest; split; [done|apply end_mark]|].
      exists d, (s' ++ t :: rest). split; [done|]. apply Z.eqb_neq. intros ->. by apply (Hns s'). }
    destruct Hd as (d & tl & Etl & Hd). rewrite Etl, char_at_next, Hd. cbn [negb]. rewrite <- Etl.
    destruct (end_word ws cur st Hw Hne ltac:(lia)) as (s1 & He & Hf). rewrite (bind_step _ _ _ _ _ He).
    assert (Ew : ws ++ words cur (SPACE :: s) = (ws ++ [cur]) ++ words [] s).
    { destruct cur; [done|]. by rewrite <- app_assoc. }
    rewrite Ew in *.
    destruct (fresh_ok s n (done_ ++ [p]) (ws ++ [cur]) s1) as (st' & Hr & Hfin); [intros s' Hs'; apply IH; lia|side..|].
    exists st'. split; [|done]. by rewrite snoc_shift, length_snoc in Hr.
Qed.

Lemma word_loop : forall k s, (length s < k)%nat -> word_ok s.
Proof.
  induction k as [|k IH]; [lia|]. intros s Hs n done_ p cur ws st Hw Hne Hp Hpl Hst Hn Hlen Hmax.
  destruct s as [|c s].
  - assert (E : words cur [] = [cur]) by (by destruct cur). rewrite E in *.
    apply word_end; try done; [|cbn in Hlen; lia]. destruct Hp as [?|[s' ?]]; done.
  - destruct (decide (c = SPACE)) as [->|Hc].
    + apply word_space; try done. intros s' Hs'. apply IH. cbn in Hs. lia.
    + rewrite words_char in * by done. apply word_char; try done.
      * apply IH. cbn in Hs. lia.
      * destruct Hp as [?|[s' ?]]; [done|congruence].
Qed.

(** The whole loop, from the first character of the first word. *)
Lemma split_ok c s spaces : c <> SPACE -> plain (c :: s) -> start = Z.of_nat (length spaces) ->
  length (spaces ++ c :: s ++ t :: rest) = LEN -> (base + length (words [] (c :: s)) < MAXARG)%nat ->
  exists st', split_loop junk (LEN - length spaces) (spaces ++ c :: s ++ t :: rest) start start
    (PState (init_Argv MAXARG (length args)) [] base None) = Ok (tt, st') /\ final (words [] (c :: s)) st'.
Proof.
  intros Hc Hpl Est Hlen Hmax. rewrite !length_app in Hlen. cbn [length] in Hlen. rewrite length_app in Hlen. cbn [length] in Hlen.
  destruct (LEN - length spaces)%nat as [|n] eqn:En; [lia|]. cbn [split_loop].
  assert (Hch : forall (f : Z -> M pstate unit) st0, (char_at (spaces ++ c :: s ++ t :: rest) start ≫= f) st0 = f c st0)
    by (intros; rewrite Est; apply char_at_app).
  rewrite Hch.
  apply Forall_cons in Hpl as [[Hc1 Hc2] Hpl].
  destruct (Z.eqb_spec c SPACE); [done|]. destruct (Z.eqb_spec c NEWLINE); [done|]. destruct (Z.eqb_spec c 0); [done|].
  cbn [negb andb]. rewrite Z.eqb_refl.
  assert (Hf : fresh [] (PState (init_Argv MAXARG (length args)) [] base None)).
  { split; cbn [bufs argv_ j_ length]; [constructor| |lia]. unfold init_Argv. split.
    - unfold slots. cbn [seq map]. rewrite app_nil_r. by eexists.
    - rewrite length_app, length_map, length_seq, length_replicate. lia. }
  rewrite words_char in * by done. cbn [app] in *.
  destruct (start_word [] _ c Hf ltac:(cbn; lia)) as (s1 & He & Hw).
  rewrite <- bind_assoc, (bind_step _ _ _ _ _ He).
  destruct (word_loop (S (length s)) s ltac:(lia) n spaces c [c] [] s1) as (st' & Hr & Hfin); [side..|].
  exists st'. split; [|exact Hfin]. by rewrite snoc_shift, length_snoc, <- Est in Hr.
Qed.

(** What [exec] then reads. *)
Lemma cstr_holds w b : holds w b -> Forall (fun c => c <> 0) w -> cstr b = Some w.
Proof.
  intros [[g ->] _] Hw. induction Hw as [|c w Hc Hw IH]; [done|]. cbn. destruct (Z.eqb_spec c 0); [done|].
  cbn in IH. by rewrite IH.
Qed.

Lemma collect_bufs ws bs g : forall k, Forall2 holds ws bs -> Forall (Forall (fun c => c <> 0)) ws ->
  forall pre, length pre = k ->
  collect args (pre ++ bs) (map (fun b => Some (Buf b)) (seq k (length ws)) ++ Some Null :: g) = Some ws.
Proof.
  intros k Hf. revert k. induction Hf as [|w b ws bs Hwb Hf IH]; intros k Hz pre Hk; [done|].
  apply Forall_cons in Hz as [Hz1 Hz]. cbn [length seq map app collect]. rewrite <- Hk, list_lookup_middle by done.
  cbn. rewrite (cstr_holds w b Hwb Hz1). cbn.
  pose proof (IH (S k) Hz (pre ++ [b])) as IH'. rewrite length_app, <- app_assoc in IH'. cbn in IH'.
  rewrite Hk, IH' by lia. done.
Qed.

Lemma collect_args bs g r : forall n i, (i + n <= length args)%nat -> collect args bs g = Some r ->
  collect args bs (map (fun k => Some (Arg k)) (seq i n) ++ g) = Some (take n (drop i args) ++ r).
Proof.
  induction n as [|n IH]; intros i Hi Hg; [done|]. cbn [seq map app collect].
  destruct (lookup_lt_is_Some_2 args i ltac:(lia)) as [x Hx]. rewrite Hx. cbn.
  rewrite (IH (S i)) by (done || lia). cbn. by rewrite (drop_S _ _ _ Hx).
Qed.

Lemma collect_final ws st : final ws st -> Forall (Forall (fun c => c <> 0)) ws ->
  collect args (bufs st) (argv_ st) = Some (tail args ++ ws).
Proof.
  intros [Hb [g ->]] Hz. unfold slots. rewrite <- !app_assoc. cbn [app].
  rewrite (collect_args _ _ ws); [|lia|by apply (collect_bufs ws (bufs st) g 0 Hb Hz [])].
  do 2 f_equal. destruct args as [|a l]; [cbn in Hargs; lia|]. cbn. rewrite drop_0, Nat.sub_0_r. apply firstn_all.
Qed.

Lemma words_plain s : forall cur, Forall (fun c => c <> 0) cur -> plain s ->
  Forall (Forall (fun c => c <> 0)) (words cur s).
Proof.
  induction s as [|c s IH]; intros cur Hcur Hpl; cbn [words].
  - destruct cur; [by apply Forall_nil_2|by apply Forall_singleton].
  - apply Forall_cons in Hpl as [[_ Hc] Hpl]. destruct (c =? SPACE).
    + destruct cur; [by apply IH|]. constructor; [done|]. by apply IH.
    + apply IH; [|done]. apply Forall_app. split; [done|]. by apply Forall_singleton.
Qed.
End split.

(** A line that has a word starts with spaces and a first character. *)
Lemma line_head line : words [] line <> [] ->
  exists k c s, line = replicate k SPACE ++ c :: s /\ c <> SPACE /\ words [] line = words [] (c :: s).
Proof.
  induction line as [|c line IH]; intros Hw; [done|]. destruct (decide (c = SPACE)) as [->|Hc].
  - destruct (IH Hw) as (k & c & s & -> & Hc & E). exists (S k), c, s. split; [done|]. split; [done|exact E].
  - exists O, c, line. done.
Qed.

Lemma find_start_spaces k c l i : c <> SPACE ->
  find_start (replicate k SPACE ++ c :: l) i = Some (i + Z.of_nat k).
Proof.
  intros Hc. revert i. induction k as [|k IH]; intros i; cbn [replicate app find_start].
  - destruct (Z.eqb_spec c SPACE); [done|]. f_equal. lia.
  - cbn [SPACE Z.eqb Pos.eqb]. rewrite IH. f_equal. lia.
Qed.

Lemma start_of_line k c l : c <> SPACE -> length (replicate k SPACE ++ c :: l) = LEN ->
  start_of (replicate k SPACE ++ c :: l) = Z.of_nat k.
Proof.
  intros Hc Hl. unfold start_of. rewrite take_ge by lia. rewrite find_start_spaces by done. cbn. lia.
Qed.

(** C35: For a line of at most 511 characters that has a word, ended by a newline or
    by the end of the input, the child runs the command with the words of the line
    appended: the buffers it allocates are the maximal runs of characters between
    spaces, however many spaces there are, and every access is in bounds, as long
    as command and words fit in [Argv]. *)
Theorem xargs_appends_words MAXARG junk args line t rest :
  length junk = LEN -> (1 <= length args)%nat -> length (line ++ t :: rest) = LEN ->
  t = NEWLINE \/ t = 0 -> plain line -> words [] line <> [] ->
  (length args - 1 + length (words [] line) < MAXARG)%nat ->
  child MAXARG junk args (line ++ t :: rest) (start_of (line ++ t :: rest)) = Ok (tail args ++ words [] line).
Proof.
  intros Hj Ha Hlen Ht Hpl Hw Hmax. destruct (line_head line Hw) as (k & c & s & -> & Hc & E). rewrite E in *.
  assert (Hpl' : plain (c :: s)) by (unfold plain in *; by apply Forall_app in Hpl as [_ ?]).
  rewrite <- app_assoc in *. cbn [app] in *. rewrite start_of_line by done. unfold child.
  destruct (Nat.ltb_spec MAXARG (length args - 1)); [lia|]. rewrite Nat2Z.id.
  destruct (split_ok MAXARG junk Hj args Ha t rest (Z.of_nat k) Ht c s (replicate k SPACE) Hc Hpl') as (st & He & Hfin);
    [by rewrite length_replicate|exact Hlen|done|].
  rewrite length_replicate in He. rewrite He.
  erewrite collect_final; [done|eassumption..|]. apply words_plain; [apply Forall_nil_2|done].
Qed.

(** On an empty line the child reads the element before the buffer,
    [stdin[-1]], whatever the arguments are. *)
Theorem xargs_empty_line MAXARG junk args rest :
  (length args - 1 <= MAXARG)%nat -> length (NEWLINE :: rest) = LEN ->
  child MAXARG junk args (NEWLINE :: rest) (start_of (NEWLINE :: rest)) = Fail (Undefined "stdin").
Proof.
  intros Ha Hl. unfold child. destruct (Nat.ltb_spec MAXARG (length args - 1)); [lia|].
  pose proof (start_of_line 0 NEWLINE rest ltac:(done) Hl) as E. cbn [replicate app] in E. by rewrite E.
Qed.

Lemma xargs_appends_words_witness :
  child 32 (repeat 88 512) [[120]; [99]] ([97; 32; 32; 98] ++ 10 :: repeat 0 507) (start_of ([97; 32; 32; 98] ++ 10 :: repeat 0 507)) =
  Ok [[99]; [97]; [98]].
Proof.
  apply (xargs_appends_words 32 (repeat 88 512) [[120]; [99]] [97; 32; 32; 98] 10 (repeat 0 507));
    [reflexivity|cbn; lia|reflexivity|by left| |discriminate|cbn; lia].
  apply (bool_decide_unpack _). exact I.
Defined.

Lemma xargs_empty_line_witness :
  child 32 (repeat 88 512) [[120]; [99]] (NEWLINE :: repeat 0 511) (start_of (NEWLINE :: repeat 0 511)) = Fail (Undefined "stdin").
Proof. apply (xargs_empty_line 32 (repeat 88 512) [[120]; [99]] (repeat 0 511)); [cbn; lia|reflexivity]. Defined.
End XargsThms.
