(* ===== verification/SysWit.v ===== *)
(** * The second experiment on a concrete machine

    A file layer with the ledger as its state, a user memory mapped onto itself, and
    a table of two slots: the theorems about system calls are applied to them. *)

From stdpp Require Import relations.
From S2P Require Import Prelude.
From S2P Require Import Memory.
From S2P Require Import Riscv.
From S2P Require Import PageAlloc.
From S2P Require Import FreeList.
From S2P Require Import KallocSingle.
From S2P Require Import ProcState.
From S2P Require Import Kernel2.
From S2P Require Import Proc2.
From S2P Require Import Syscall.
From S2P Require Import Sysproc.
From S2P Require Import Sysfile.
From S2P Require Import SyscallTable.
From S2P Require Import SyscallThms.
From S2P Require Import FsLedger.
From S2P Require Import SysfileView.
From S2P Require Import SysfileThms.
From S2P Require Import Refs2.
From S2P Require Import Refs2Steps.
From S2P Require Import SysfileMain.
From S2P Require Import SysExecThms.
#[local] Open Scope Z_scope.

Module SysWit.
Import Proc2 Syscall Sysproc Sysfile SyscallTable SyscallThms SysfileThms Refs2 Refs2Steps SysfileMain SysExecThms.

#[local] Instance board : MemLayout := virt_layout 4.
#[local] Instance board_ok : MemLayoutOk := virt_layout_ok 4 ltac:(lia).

(** ** The file layer: inode 1 is the root, inode 2 the file "/a"; the ledger, the
    inodes and files written so far, and the next file *)
Record layer : Type := Layer {
  l_led : ledger; l_inodes : gmap Z inode; l_files : gmap Z file; l_next : positive;
}.

Definition acts {B} (f : layer -> B * layer) : M layer B := fun s => Ok (f s).
Definition relabel (g : ledger -> ledger) (s : layer) : layer :=
  Layer (g (l_led s)) (l_inodes s) (l_files s) (l_next s).
Definition set_txn (t : bool) (l : ledger) : ledger := Ledger t (held l) (irefs l) (frefs l).
Definition set_held (g : gset Z -> gset Z) (l : ledger) : ledger := Ledger (txn l) (g (held l)) (irefs l) (frefs l).
Definition set_irefs (g : gmultiset Z -> gmultiset Z) (l : ledger) : ledger := Ledger (txn l) (held l) (g (irefs l)) (frefs l).
Definition set_frefs (g : gmultiset Z -> gmultiset Z) (l : ledger) : ledger := Ledger (txn l) (held l) (irefs l) (g (frefs l)).
Definition add_ref (x : Z) (I : gmultiset Z) : gmultiset Z := I ⊎ {[+ x +]}.
Definition drop_ref (x : Z) (I : gmultiset Z) : gmultiset Z := I ∖ {[+ x +]}.

Definition lookup_name (path : list Z) : Z :=
  if decide (path = [47]) then 1 else if decide (path = [47; 97]) then 2 else 0.
Definition get_inode (x : Z) (s : layer) : inode :=
  let i := default (Inode (if x =? 1 then 1 else 2) 0 0 1 64 1 x) (l_inodes s !! x) in
  Inode (i_type i) (i_major i) (i_minor i) (i_nlink i) 64 (i_dev i) (i_inum i).
Definition no_file : file := File FD_NONE 0 0 0 false false.
Definition get_file (x : Z) (s : layer) : file := default no_file (l_files s !! x).
Definition open_one (s : layer) : Z * layer :=
  (Z.pos (l_next s), Layer (set_frefs (add_ref (Z.pos (l_next s))) (l_led s)) (l_inodes s)
     (<[Z.pos (l_next s) := no_file]> (l_files s)) (Pos.succ (l_next s))).
Definition both {B} (m : M layer B) : M (pages * layer) B := fun w =>
  match m (snd w) with Ok (b, f) => Ok (b, (fst w, f)) | Fail e => Fail e end.

#[local] Instance layer_ops : FsOps layer := {|
  begin_op := acts (fun s => (tt, relabel (set_txn true) s));
  end_op := acts (fun s => (tt, relabel (set_txn false) s));
  namei path := acts (fun s => (lookup_name path, relabel (set_irefs (plus_ref (lookup_name path))) s));
  nameiparent path := acts (fun s => ((1, tail path), relabel (set_irefs (plus_ref 1)) s));
  namecmp a b := if decide (a = b) then 0 else 1;
  idup ip := acts (fun s => (ip, relabel (set_irefs (add_ref ip)) s));
  ilock ip := acts (fun s => (tt, relabel (set_held (fun h => {[ip]} ∪ h)) s));
  iunlock ip := acts (fun s => (tt, relabel (set_held (fun h => h ∖ {[ip]})) s));
  iunlockput ip := acts (fun s => (tt, relabel (fun l => set_irefs (drop_ref ip) (set_held (fun h => h ∖ {[ip]}) l)) s));
  iput ip := acts (fun s => (tt, relabel (set_irefs (drop_ref ip)) s));
  iupdate ip := mret tt;
  itrunc ip := mret tt;
  ialloc dev type := acts (fun s =>
    let ip := if decide (3 ∈ held (l_led s)) then 0 else 3 in (ip, relabel (set_irefs (plus_ref ip)) s));
  dirlookup dp name := acts (fun s =>
    let ip := if decide (name = [97] /\ dp = 1 \/ dp = 0) then 2 else 0 in ((ip, 0), relabel (set_irefs (plus_ref ip)) s));
  dirlink dp name inum := mret 0;
  readi ip off n := mret (replicate (Z.to_nat n) 0);
  writei ip bs off := mret (Z.of_nat (length bs));
  inode_at := get_inode;
  put_inode ip i := acts (fun s => (tt, Layer (l_led s) (<[ip := i]> (l_inodes s)) (l_files s) (l_next s)));
  filealloc := acts open_one;
  filedup x := acts (fun s => (x, relabel (set_frefs (add_ref x)) s));
  file_at := get_file;
  put_file x fl := acts (fun s => (tt, Layer (set_irefs (drop_ref (f_ip fl)) (l_led s)) (l_inodes s) (<[x := fl]> (l_files s)) (l_next s)));
  fileclose x := both (acts (fun s => (tt, relabel (set_frefs (drop_ref x)) s)));
  pipealloc := both (acts (fun s => let '(x, s1) := open_one s in let '(y, s2) := open_one s1 in (Some (x, y), s2)));
  fileread x a n := mret n;
  filewrite x a n := mret n;
  filestat x a := mret 0;
|}.

Lemma layer_eta l : Ledger (txn l) (held l) (irefs l) (frefs l) = l.
Proof. by destruct l. Qed.

#[local, refine] Instance layer_laws : FsLaws layer := {| led := l_led |}.
Proof.
  all: try (intros; match goal with H : l_led ?f = _ |- _ => destruct f as [L ? ? ?]; cbn in H; subst L end).
  all: try (cbn; done).
  - cbn. split; [|done]. case_decide; [done|]. by intros _.
  - cbn. split; [done|]. intros _ _. case_decide; lia.
  - cbn. split; [done|]. intros _. unfold get_file. cbn. by rewrite lookup_insert_eq.
Defined.

(** ** User memory is physical memory *)
Fixpoint upto_zero (l : list Z) : list Z :=
  match l with
  | [] => []
  | c :: l' => c :: (if c =? 0 then [] else upto_zero l')
  end.

#[local] Instance identity_vm : UserVm := {|
  uvmcreate := kalloc;
  mappages _ _ _ _ _ := mret 0;
  uvmunmap _ _ _ _ := mret tt;
  uvmfree pagetable _ := kfree pagetable;
  uvminit _ l := mret tt;
  uvmalloc _ _ newsz := mret newsz;
  uvmdealloc _ _ newsz := mret newsz;
  uvmcopy _ _ _ := mret 0;
  copyin _ a n := gets (fun v => (ld_bytes (kmem v) a (Z.to_nat n), 0));
  copyinstr _ a n := gets (fun v =>
    let l := upto_zero (ld_bytes (kmem v) a (Z.to_nat n)) in (l, if decide (0 ∈ l) then 0 else -1));
  copyout _ a l := modify (fun v => ksetmem (st_bytes (kmem v) a l) v);; mret 0;
  kvmmap _ _ _ _ := mret tt;
  kvminithart := mret tt;
|}.

Lemma upto_zero_length l : (length (upto_zero l) <= length l)%nat.
Proof. induction l as [|c l IH]; cbn; [lia|]. case_match; cbn; lia. Qed.

#[local] Instance identity_vm_laws : UserVmLaws.
Proof.
  split.
  - done.
  - intros pt a n v. split; [done|]. cbn -[decide ld_bytes]. split; [case_decide; [done|lia]|].
    intros Hn. pose proof (upto_zero_length (ld_bytes (kmem v) a (Z.to_nat n))) as Hl.
    unfold ld_bytes in *. rewrite length_map, length_seq in Hl. lia.
  - done.
Qed.

#[local] Instance params : Params2 := {|
  NOFILE := 16; NDEV := 10; MAXPATH := 128; MAXARG := 32; forkret_addr := 0x80002000; ticks_addr := 0x80009030;
  enc_sysinfo a b c := int_bytes a ++ int_bytes b ++ int_bytes c;
  sizeof_dirent := 16; dirent_inum l := of_bytes (take 2 l);
  T_DIR := 1; T_FILE := 2; T_DEVICE := 3;
  O_RDONLY := 0; O_WRONLY := 1; O_RDWR := 2; O_CREATE := 512; O_TRUNC := 1024
|}.
#[local] Instance params_ok : Params2Ok.
Proof. split; cbn; lia. Qed.

(** An [exec] that finds no program. *)
#[local] Instance no_program : ExecCall layer := {| exec path argv := mret (-1) |}.
#[local] Instance no_program_laws : ExecLaws layer.
Proof. intros path argv s Hok. by apply post_ret. Qed.

(** ** States *)
Definition no_private : pprivate := Private 0 0 0 0 0 0 (replicate 16 0) 0 (replicate 16 0) 0.
Definition freed : pshared := Shared UNUSED None None 0 0 0.
Definition blank : kernel layer :=
  Kernel demo_single (replicate 2 (Proc false freed no_private)) 1 None (Layer (Ledger false ∅ ∅ ∅) ∅ ∅ 1) None 0 false 0 [].

(** The final state of a computation that succeeds. *)
Definition final {B} (m : M (kernel layer) B) (s : kernel layer) : kernel layer :=
  match m s with Ok (_, s') => s' | Fail _ => s end.
Definition succeeds {B} (m : M (kernel layer) B) (s : kernel layer) : bool :=
  match m s with Ok _ => true | Fail _ => false end.
Lemma final_ok {B} (m : M (kernel layer) B) s : succeeds m s = true -> exists b, m s = Ok (b, final m s).
Proof. unfold succeeds, final. destruct (m s) as [[b s']|]; [by exists b|done]. Qed.

(** The kernel after [userinit], and when the scheduler has chosen the process. *)
Definition started : kernel layer := final userinit blank.
Definition running : kernel layer := final forkret (final (dispatch 0) started).

(** User code has put system call [num] with the arguments [a0] and [a1] in its
    registers, and the path "/a" at address 0x5000. *)
Definition with_args (num a0 a1 : Z) (s : kernel layer) : kernel layer :=
  let tf := 0x80021000 in
  let m := st_bytes (kmem (k_vm s)) 0x5000 [47; 97; 0] in
  let m := st64 (st64 (st64 m (tf + tf_a 7) num) (tf + tf_a 0) a0) (tf + tf_a 1) a1 in
  set_vm (ksetmem m (k_vm s)) s.

Definition calling : kernel layer := with_args 15 0x5000 2 running.
Definition opened : kernel layer := final syscall calling.

Lemma blank_boot : boot blank.
Proof. split; [done|]. split; [done|]. apply Forall_replicate. split; [done|]. split; [by left|done]. Qed.

(** The process after open has descriptor 0, and another call duplicates it. *)
Example open_demo :
  (p_ofile (p_pr (nth 0 (k_procs opened) (Proc false freed no_private))), ld64 (kmem (k_vm opened)) (0x80021000 + tf_a 0))
  = (1 :: replicate 15 0, 0).
Proof. vm_compute. reflexivity. Qed.

(** ** Witnesses *)
Lemma started_ok : userinit blank = Ok (tt, started).
Proof. destruct (final_ok userinit blank) as [[] E]; [vm_compute; reflexivity|exact E]. Qed.

Lemma reaches_opened : rtc kstep started opened.
Proof.
  eapply rtc_l with (y := final (dispatch 0) started).
  { destruct (final_ok (dispatch 0) started) as [b E]; [vm_compute; reflexivity|]. by eapply step_dispatch. }
  eapply rtc_l with (y := running).
  { destruct (final_ok forkret (final (dispatch 0) started)) as [[] E]; [vm_compute; reflexivity|]. by apply step_forkret. }
  eapply rtc_l with (y := calling).
  { exact (step_outside (k_vm calling) (k_ticks running) running). }
  apply rtc_once. destruct (final_ok syscall calling) as [b E]; [vm_compute; reflexivity|]. by eapply step_syscall.
Qed.

Lemma kernel_references_balanced_witness : refs_ok opened.
Proof. apply (kernel_references_balanced blank started opened blank_boot started_ok reaches_opened). Defined.

Definition slot0 (s : kernel layer) : proc := nth 0 (k_procs s) (Proc false freed no_private).
Lemma slot0_ok s : k_procs s <> [] -> k_procs s !! 0%nat = Some (slot0 s).
Proof. unfold slot0. by destruct (k_procs s). Qed.

(** The process calls [dup(0)]. *)
Definition dups_zero : kernel layer := with_args 10 0 0 opened.

Lemma dups_zero_refs : refs_ok dups_zero.
Proof.
  apply (ksteps_refs blank started dups_zero blank_boot started_ok).
  eapply rtc_r; [exact reaches_opened|]. exact (step_outside (k_vm dups_zero) (k_ticks opened) opened).
Qed.

Lemma dups_zero_runs : k_cur dups_zero = Some 0%nat /\ k_procs dups_zero !! 0%nat = Some (slot0 dups_zero).
Proof. split; [vm_compute; reflexivity|]. apply slot0_ok. vm_compute. discriminate. Qed.

Lemma dups_zero_args : s32 (reg 7 (slot0 dups_zero) dups_zero) = 10 /\ s32 (reg 0 (slot0 dups_zero) dups_zero) = 0.
Proof. split; vm_compute; reflexivity. Qed.

Lemma dups_zero_cpu : k_tickslock dups_zero = false /\ 0 <= k_ticks dups_zero < 2 ^ 32 /\
  p_lock (slot0 dups_zero) = false /\ k_noff dups_zero = 0.
Proof. vm_compute. split; [done|]. split; [split; [discriminate|done]|done]. Qed.

(** The calls return here: that of [dup] gives descriptor 1. *)
Example dup_demo : match sys_dup dups_zero with Ok (r, s) => (r, p_ofile (p_pr (slot0 s))) | Fail _ => (-1, []) end = (1, 1 :: 1 :: replicate 14 0).
Proof. vm_compute. reflexivity. Qed.

Lemma file_calls_safe_witness : safe sys_dup dups_zero (fun _ s' => refs_ok s').
Proof. apply (file_calls_safe CDup dups_zero dups_zero_refs). vm_compute. discriminate. Defined.

Lemma file_calls_effect_witness :
  safe sys_dup dups_zero (fun r s' => exists q',
    k_procs s' = <[0%nat := Proc (p_lock (slot0 dups_zero)) (p_sh (slot0 dups_zero)) q']> (k_procs dups_zero) /\
    dups 0 r (p_pr (slot0 dups_zero)) q').
Proof.
  exact (file_calls_effect CDup dups_zero 0 (slot0 dups_zero) dups_zero_refs (proj1 dups_zero_runs) (proj2 dups_zero_runs)).
Defined.

Lemma syscall_dispatches_witness : exists handler, syscalls !! 9%nat = Some handler /\
  forall r s1 q, handler dups_zero = Ok (Some r, s1) -> k_cur s1 = Some 0%nat -> k_procs s1 !! 0%nat = Some q ->
    syscall dups_zero = Ok (true, print_all (trace_line 10 0 r q) (with_a0 q r s1)).
Proof.
  pose proof (syscall_dispatches dups_zero 0 (slot0 dups_zero) (proj1 dups_zero_runs) (proj2 dups_zero_runs)) as [Hs _].
  rewrite (proj1 dups_zero_args), (proj2 dups_zero_args) in Hs. destruct Hs as (h & Hh & Hs); [lia|].
  exists h. split; [exact Hh|]. intros r s1 q. apply Hs.
Defined.

(** [sleep(0)] returns at once. *)
Lemma sys_sleep_duration_witness :
  sys_sleep dups_zero = Ok (sleep_outcome 0 0 0 (slot0 dups_zero) (ticks_locked dups_zero)).
Proof.
  destruct dups_zero_cpu as (Ht & Htr & Hl & Hn).
  pose proof (sys_sleep_duration 0 (slot0 dups_zero) dups_zero (proj1 dups_zero_runs) (proj2 dups_zero_runs) Ht Htr) as [Hs _].
  rewrite (proj2 dups_zero_args) in Hs. exact (Hs Hl Hn).
Defined.

(** ** Two free pages, and a process whose trapframe is at 0x5000: [exec] is called
    with a path and one argument. *)
Definition le64 (x : Z) : list Z := map (fun i => u8 (x / 256 ^ Z.of_nat i)) (seq 0 8).
Definition exec_image : list Z := le64 0x5090 ++ le64 0x5080 ++ le64 0x5090 ++ le64 0 ++ [97; 0].
Definition exec_memory : pages := ksetmem (st_bytes (kmem demo_single) 0x5070 exec_image) demo_single.
Definition executing : kernel layer :=
  Kernel exec_memory [Proc false freed (Private 0 0x10000 0 0x5000 0 0 (replicate 16 0) 0 (replicate 16 0) 0)]
    1 None (Layer (Ledger false ∅ ∅ ∅) ∅ ∅ 1) (Some 0%nat) 0 false 0 [].

Lemma exec_memory_ok : KallocSingle.ok exec_memory (list_to_set demo_pages).
Proof.
  apply KallocSingle.ok_frame; [apply demo_single_ok|]. intros p a Hp Ha. apply ld8_st_bytes_out.
  apply elem_of_list_to_set in Hp. unfold demo_pages, in_page in *. set_unfold.
  change (Z.of_nat (length exec_image)) with 34. lia.
Qed.

(** One page was taken for the argument. *)
Example exec_args_demo : match exec_args 32 0x5080 0 [] executing with Ok (r, _) => r | Fail _ => (false, []) end = (true, [0x80021000]).
Proof. vm_compute. reflexivity. Qed.

Lemma sys_exec_frees_arguments_witness :
  (exists s', sys_exec executing = Ok (-1, s') /\ only_vm executing s' /\ KallocSingle.ok (k_vm s') (list_to_set demo_pages)) \/
  (exists path argv s1, only_vm executing s1 /\ NoDup argv /\ (list_to_set argv : gset Z) ⊆ list_to_set demo_pages /\
     (length argv < 32)%nat /\ KallocSingle.ok (k_vm s1) (list_to_set demo_pages ∖ list_to_set argv) /\
     (forall e, exec path argv s1 = Fail e -> sys_exec executing = Fail e) /\
     forall ret s2 G, exec path argv s1 = Ok (ret, s2) -> KallocSingle.ok (k_vm s2) G -> list_to_set argv ## G ->
       exists s3, sys_exec executing = Ok (ret, s3) /\ only_vm s2 s3 /\ KallocSingle.ok (k_vm s3) (G ∪ list_to_set argv)).
Proof.
  exact (sys_exec_frees_arguments executing 0 (slot0 executing) (list_to_set demo_pages) eq_refl eq_refl exec_memory_ok).
Defined.

Lemma sysinfo_reports_witness :
  info 0x7000 executing =
    (r ← vm (copyout 0 0x7000 (enc_sysinfo (u64 (PGSIZE * Z.of_nat (size (list_to_set demo_pages : gset Z))))
       (u64 (Z.of_nat (length (filter (fun p => p_state (p_sh p) = UNUSED) (k_procs executing)))))
       (u64 (Z.of_nat (length (filter (fun f => f = 0) (concat (map (fun p => p_ofile (p_pr p)) (k_procs executing)))))))));
     mret (if r <? 0 then -1 else 0)) executing.
Proof.
  exact (sysinfo_reports 0x7000 executing 0 (slot0 executing) (list_to_set demo_pages) eq_refl eq_refl exec_memory_ok).
Defined.
End SysWit.
